(** * DADApy (duly): shallow embedding of [Base.__init__] and of the
    obsolete [DensityEstimation] class, with the properties of their
    specification.

    Conventions of the embedding.
    - A Python call either returns or raises: [result A] is [Ok a] or
      [Raise e], [e] the exception class.
    - Methods of a session object are state transformers
      [session -> result session]; a session maps attribute names to
      values, [VNone] for Python's [None] and [VUnset] for an attribute
      that was never assigned; loops over [range(n)] are folds over
      [seq 0 n] that update the local arrays in place.
    - [float64] arithmetic is idealised by the real numbers: [np.log] is
      [ln], [np.exp] is [exp], [np.sqrt] is [sqrt], [/] is real division.
      The statements are meant on the domain where the floating-point
      operations are finite (positive distances, [k >= 1]).
    - Compiled collaborators that are not part of the sources ([scipy],
      the [cython_] modules) are fields of the class [Externals]. *)

From Stdlib Require Import String List Permutation Sorted ZArith Lia Bool Reals
  Lra.
Import ListNotations.

Set Implicit Arguments.

(** ** Python results *)

Inductive exn : Type :=
| AssertionError
| NameError (name : string)
| IndexError
| AttributeError
| TypeError
| ValueError
| NotImplementedError.

Inductive result (A : Type) : Type :=
| Ok (a : A)
| Raise (e : exn).

Arguments Ok {A} a.
Arguments Raise {A} e.

Definition bind {A B : Type} (m : result A) (f : A -> result B) : result B :=
  match m with
  | Ok a => f a
  | Raise e => Raise e
  end.

Notation "x <- m ;; k" := (bind m (fun x => k))
  (at level 61, m at next level, right associativity).
Notation "' p <- m ;; k" := (bind m (fun x => match x with p => k end))
  (at level 61, p pattern, m at next level, right associativity).

Definition assert (b : bool) : result unit :=
  if b then Ok tt else Raise AssertionError.

(** [for i in range(n): st = body(i, st)], stopping at the first raise. *)
Fixpoint for_each {I St : Type} (ixs : list I) (body : I -> St -> result St)
  (st : St) : result St :=
  match ixs with
  | [] => Ok st
  | i :: ixs' => st' <- body i st ;; for_each ixs' body st'
  end.

Definition for_range {St : Type} (n : nat) (body : nat -> St -> result St)
  (st : St) : result St :=
  for_each (seq 0 n) body st.

(** ** numpy indexing *)

(** [a[k]] for a Python integer [k]: negative indices count from the end,
    anything outside [-len, len) raises [IndexError]. *)
Definition np_index {A : Type} (a : list A) (k : Z) : result A :=
  let n := Z.of_nat (length a) in
  let k' := if (k <? 0)%Z then (k + n)%Z else k in
  if ((0 <=? k')%Z && (k' <? n)%Z)%bool
  then match nth_error a (Z.to_nat k') with
       | Some x => Ok x
       | None => Raise IndexError
       end
  else Raise IndexError.

(** [a[i, k]] on a two-dimensional array stored by rows. *)
Definition np_index2 {A : Type} (a : list (list A)) (i k : Z) : result A :=
  row <- np_index a i ;; np_index row k.

(** [a[i] = v] for [0 <= i < len(a)] (the only way the sources use it on
    local arrays allocated with [np.zeros(n)]); out of range raises. *)
Fixpoint set_nth {A : Type} (a : list A) (i : nat) (v : A) : list A :=
  match a, i with
  | [], _ => []
  | _ :: a', O => v :: a'
  | x :: a', S i' => x :: set_nth a' i' v
  end.

Definition np_setitem {A : Type} (a : list A) (i : nat) (v : A)
  : result (list A) :=
  if (i <? length a)%nat then Ok (set_nth a i v) else Raise IndexError.

(** [a[idx]] with an integer index array [idx] (a gather). *)
Fixpoint np_take {A : Type} (a : list A) (idx : list Z) : result (list A) :=
  match idx with
  | [] => Ok []
  | k :: idx' =>
      x <- np_index a k ;;
      xs <- np_take a idx' ;;
      Ok (x :: xs)
  end.

(** Python's [a[:stop]]: a negative [stop] counts from the end and the
    slice is clipped to the array, it never raises. *)
Definition slice_to {A : Type} (a : list A) (stop : Z) : list A :=
  let n := Z.of_nat (length a) in
  let stop' := if (stop <? 0)%Z then Z.max 0 (stop + n) else Z.min stop n in
  firstn (Z.to_nat stop') a.

(** The array [a], of length [n], holds [f j] at every index [j < m]. *)
Definition filled (f : nat -> R) (n m : nat) (a : list R) : Prop :=
  length a = n /\ forall j, (j < m)%nat -> nth j a 0%R = f j.

(** ** [duly/_base.py] *)

Module Base.

(** A two-dimensional [np.ndarray]: [shape = (length rows, ncols)]. *)
Record ndarray (T : Type) : Type := mk_ndarray {
  ncols : nat;
  rows : list (list T)
}.

Arguments mk_ndarray {T} ncols rows.

Definition shape0 {T : Type} (a : ndarray T) : nat := length (rows a).
Definition shape1 {T : Type} (a : ndarray T) : nat := ncols a.

(** The Python values [__init__] can receive for [coordinates] and
    [distances]. *)
#[warnings="-register-all"]
Inductive pyval (T : Type) : Type :=
| PyNone
| PyNdarray (a : ndarray T)
| PyTuple (items : list (pyval T))
| PyOther.

Arguments PyNone {T}.
Arguments PyNdarray {T} a.
Arguments PyTuple {T} items.
Arguments PyOther {T}.

(** Names bound at module level by [_base.py] (its imports, [cores], [rng]
    and the class itself). *)
Definition module_globals : list string :=
  [ "math"; "multiprocessing"; "partial"; "np"; "squareform";
    "pairwise_distances_chunked"; "NearestNeighbors"; "cpd";
    "from_all_distances_to_nndistances"; "compute_nn_distances";
    "cores"; "rng"; "Base" ]%string.

(** The builtin functions and types of Python 3. *)
Definition builtins : list string :=
  [ "abs"; "all"; "any"; "ascii"; "bin"; "bool"; "breakpoint"; "bytearray";
    "bytes"; "callable"; "chr"; "classmethod"; "compile"; "complex";
    "delattr"; "dict"; "dir"; "divmod"; "enumerate"; "eval"; "exec";
    "filter"; "float"; "format"; "frozenset"; "getattr"; "globals";
    "hasattr"; "hash"; "help"; "hex"; "id"; "input"; "int"; "isinstance";
    "issubclass"; "iter"; "len"; "list"; "locals"; "map"; "max";
    "memoryview"; "min"; "next"; "object"; "oct"; "open"; "ord"; "pow";
    "print"; "property"; "range"; "repr"; "reversed"; "round"; "set";
    "setattr"; "slice"; "sorted"; "staticmethod"; "str"; "sum"; "super";
    "tuple"; "type"; "vars"; "zip"; "__import__" ]%string.

(** Names assigned inside [__init__] (its parameters and locals). *)
Definition init_locals : list string :=
  [ "self"; "coordinates"; "distances"; "maxk"; "verbose"; "njobs";
    "remove_identical_points"; "Nele0"; "_"; "idx" ]%string.

Definition bound_in (scope : list string) (name : string) : bool :=
  existsb (String.eqb name) scope.

(** Reading a name that the function body never assigns: module globals,
    then builtins, else [NameError].  Every object bound there (a module, a
    function, a class) is truthy, which is all a condition looks at. *)
Definition load_global_truth (name : string) : result bool :=
  if bound_in module_globals name || bound_in builtins name
  then Ok true
  else Raise (NameError name).

(** Reading a name inside [__init__]. *)
Definition load_name_truth (name : string) : result bool :=
  if bound_in init_locals name then Ok true else load_global_truth name.

Section WithDtype.

(** The element type of the arrays, with numpy's [!=] and [<=] on it. *)
Variable T : Type.
Variable eqb_T : T -> T -> bool.
Variable leb_T : T -> T -> bool.

(** [from_all_distances_to_nndistances] of [duly.utils_.utils], which the
    sources import but do not contain. *)
Variable from_all_distances_to_nndistances :
  ndarray T -> Z -> result (ndarray T * ndarray T).

(** [ar.flatten()]. *)
Definition flatten (a : ndarray T) : list T := concat (rows a).

(** Stable insertion of an (index, value) pair by value: the pair goes
    after every element that is not larger. *)
Fixpoint insert_stable (p : nat * T) (l : list (nat * T)) : list (nat * T) :=
  match l with
  | [] => [p]
  | q :: l' =>
      if leb_T (snd q) (snd p) then q :: insert_stable p l'
      else p :: q :: l'
  end.

(** [ar.argsort(kind='mergesort')] together with the sorted values. *)
Definition argsort_stable (ar : list T) : list (nat * T) :=
  fold_left (fun acc p => insert_stable p acc)
            (combine (seq 0 (length ar)) ar) [].

(** [mask[:1] = True; mask[1:] = aux[1:] != aux[:-1]]. *)
Fixpoint mask_after (prev : T) (aux : list T) : list bool :=
  match aux with
  | [] => []
  | x :: aux' => negb (eqb_T x prev) :: mask_after x aux'
  end.

Definition unique_mask (aux : list T) : list bool :=
  match aux with
  | [] => []
  | x :: aux' => true :: mask_after x aux'
  end.

(** [a[mask]]. *)
Fixpoint select {A : Type} (a : list A) (mask : list bool) : list A :=
  match a, mask with
  | x :: a', b :: mask' => if b then x :: select a' mask' else select a' mask'
  | _, _ => []
  end.

(** [np.unique(ar, return_index=True)] with no [axis]: the array is
    flattened, the sorted distinct scalars are returned with, for each, the
    position of its first occurrence in the flattened array. *)
Definition np_unique (a : ndarray T) : list T * list nat :=
  let sorted := argsort_stable (flatten a) in
  let perm := map fst sorted in
  let aux := map snd sorted in
  let mask := unique_mask aux in
  (select aux mask, select perm mask).

(** [np.sort] on an index array. *)
Fixpoint insert_nat (x : nat) (l : list nat) : list nat :=
  match l with
  | [] => [x]
  | y :: l' => if (x <=? y)%nat then x :: y :: l' else y :: insert_nat x l'
  end.

Definition np_sort (l : list nat) : list nat :=
  fold_right insert_nat [] l.

(** [X[idx]] selecting rows by an index array. *)
Definition take_rows (a : ndarray T) (idx : list nat)
  : result (ndarray T) :=
  rs <- np_take (rows a) (map Z.of_nat idx) ;;
  Ok (mk_ndarray (ncols a) rs).

(** [a[:, :stop]]. *)
Definition slice_cols (a : ndarray T) (stop : Z) : ndarray T :=
  let rs := map (fun r => slice_to r stop) (rows a) in
  mk_ndarray (length (slice_to (repeat tt (ncols a)) stop)) rs.

(** Attribute access [v.shape] on a Python value. *)
Definition shape_of (v : pyval T) : result (nat * nat) :=
  match v with
  | PyNdarray a => Ok (shape0 a, shape1 a)
  | _ => Raise AttributeError
  end.

Definition is_ndarray_instance (v : pyval T) : bool :=
  match v with
  | PyNdarray _ => true
  | _ => false
  end.

Definition is_tuple_instance (v : pyval T) : bool :=
  match v with
  | PyTuple _ => true
  | _ => false
  end.

Definition is_none (v : pyval T) : bool :=
  match v with
  | PyNone => true
  | _ => false
  end.

(** [t[i]] on a value. *)
Definition getitem (v : pyval T) (i : Z) : result (pyval T) :=
  match v with
  | PyTuple items => np_index items i
  | _ => Raise TypeError
  end.

(** The arguments of [Base.__init__]. *)
Record init_args : Type := mk_args {
  arg_coordinates : pyval T;
  arg_distances : pyval T;
  arg_maxk : option Z;
  arg_verbose : bool;
  arg_njobs : Z;
  arg_remove_identical_points : bool
}.

(** The attributes of a [Base] object.  [Nele], [distances] and
    [dist_indices] are [None] while the attribute does not exist. *)
Record obj : Type := mk_obj {
  X : pyval T;
  maxk : option Z;
  verb : bool;
  njobs : Z;
  dims : option nat;
  Nele : option nat;
  distances : option (pyval T);
  dist_indices : option (pyval T)
}.

Definition set_X (o : obj) (v : pyval T) : obj :=
  mk_obj v (maxk o) (verb o) (njobs o) (dims o) (Nele o) (distances o)
         (dist_indices o).
Definition set_maxk (o : obj) (v : option Z) : obj :=
  mk_obj (X o) v (verb o) (njobs o) (dims o) (Nele o) (distances o)
         (dist_indices o).
Definition set_dims (o : obj) (v : option nat) : obj :=
  mk_obj (X o) (maxk o) (verb o) (njobs o) v (Nele o) (distances o)
         (dist_indices o).
Definition set_Nele (o : obj) (v : nat) : obj :=
  mk_obj (X o) (maxk o) (verb o) (njobs o) (dims o) (Some v) (distances o)
         (dist_indices o).
Definition set_distances (o : obj) (v : pyval T) : obj :=
  mk_obj (X o) (maxk o) (verb o) (njobs o) (dims o) (Nele o) (Some v)
         (dist_indices o).
Definition set_dist_indices (o : obj) (v : pyval T) : obj :=
  mk_obj (X o) (maxk o) (verb o) (njobs o) (dims o) (Nele o) (distances o)
         (Some v).

(** [self.maxk + 1] when [maxk] is an integer. *)
Definition maxk_plus_1 (o : obj) : result Z :=
  match maxk o with
  | Some k => Ok (k + 1)%Z
  | None => Raise TypeError
  end.

(** The block [if coordinates is not None: ...] (lines 54-81). *)
Definition init_coordinates (args : init_args) (o : obj) : result obj :=
  match arg_coordinates args with
  | PyNone => Ok o
  | c =>
      _ <- assert (is_ndarray_instance (X o)) ;;
      match X o with
      | PyNdarray x =>
          o1 <- (if arg_remove_identical_points args then
                   let '(_, idx) := np_unique x in
                   x' <- take_rows x (np_sort idx) ;;
                   (* the message printed when [Nele != Nele0] is not
                      part of the state *)
                   Ok (set_Nele (set_X o (PyNdarray x')) (shape0 x'))
                 else Ok (set_Nele o (shape0 x))) ;;
          '(_, d1) <- shape_of c ;;
          let o2 := set_distances (set_dims o1 (Some d1)) PyNone in
          match maxk o2, Nele o2 with
          | None, Some n => Ok (set_maxk o2 (Some (Z.of_nat n - 1)%Z))
          | _, _ => Ok o2
          end
      | _ => Raise AssertionError
      end
  end.

(** The branch [if isinstance(distances, tuple): ...] (lines 85-108). *)
Definition init_distances_tuple (d : pyval T) (o : obj) : result obj :=
  d0 <- getitem d 0 ;;
  '(n0, _) <- shape_of d0 ;;
  d1 <- getitem d 1 ;;
  '(n1, _) <- shape_of d1 ;;
  _ <- assert (n0 =? n1)%nat ;;
  _ <- assert (is_ndarray_instance d0) ;;
  _ <- assert (is_ndarray_instance d1) ;;
  match d0, d1 with
  | PyNdarray a0, PyNdarray a1 =>
      let o1 := match maxk o with
                | None => set_maxk o (Some (Z.of_nat (shape1 a0) - 1)%Z)
                | Some _ => o
                end in
      let o2 := set_Nele o1 (shape0 a0) in
      stop <- maxk_plus_1 o2 ;;
      let o3 := set_distances o2 (PyNdarray (slice_cols a0 stop)) in
      (* the conditional expression evaluates its condition first *)
      cond <- load_name_truth "is_ndarray" ;;
      if cond then
        stop' <- maxk_plus_1 o3 ;;
        Ok (set_dist_indices o3 (PyNdarray (slice_cols a1 stop')))
      else
        (* [distances[1].numpy()]: an ndarray has no such method *)
        Raise AttributeError
  | _, _ => Raise AssertionError
  end.

(** The branch for a square distance matrix (lines 110-126). *)
Definition init_distances_square (d : pyval T) (o : obj) : result obj :=
  '(n0, n1) <- shape_of d ;;
  _ <- assert (n0 =? n1)%nat ;;
  _ <- assert (is_ndarray_instance d) ;;
  match d with
  | PyNdarray a =>
      let o1 := set_Nele o (shape0 a) in
      let o2 := match maxk o1 with
                | None => set_maxk o1 (Some (Z.of_nat (shape1 a) - 1)%Z)
                | Some _ => o1
                end in
      match maxk o2 with
      | Some k =>
          '(ind, dist) <- from_all_distances_to_nndistances a k ;;
          Ok (set_distances (set_dist_indices o2 (PyNdarray ind))
                            (PyNdarray dist))
      | None => Raise TypeError
      end
  | _ => Raise AssertionError
  end.

(** The block [if distances is not None: ...] (lines 83-128). *)
Definition init_distances (args : init_args) (o : obj) : result obj :=
  let d := arg_distances args in
  if is_none d then Ok o
  else if is_tuple_instance d then init_distances_tuple d o
  else init_distances_square d o.

(** The first assignments of [__init__] (lines 48-52). *)
Definition init_attributes (args : init_args) : obj :=
  mk_obj (arg_coordinates args) (arg_maxk args) (arg_verbose args)
         (arg_njobs args) None None None None.

(** [Base.__init__]. *)
Definition __init__ (args : init_args) : result obj :=
  o1 <- init_coordinates args (init_attributes args) ;;
  init_distances args o1.

End WithDtype.

(** Two rows hold the same point. *)
Definition same_point (r1 r2 : list Z) : bool :=
  if list_eq_dec Z.eq_dec r1 r2 then true else false.

(** A point set holds some point twice. *)
Fixpoint has_duplicate (rs : list (list Z)) : bool :=
  match rs with
  | [] => false
  | r :: rs' => existsb (same_point r) rs' || has_duplicate rs'
  end.

(** A distance-matrix reduction for integer arrays used to run examples;
    [__init__] never reaches it on the inputs below. *)
Definition no_reduction (a : ndarray Z) (k : Z)
  : result (ndarray Z * ndarray Z) := Ok (a, a).

Definition init_Z : init_args Z -> result (obj Z) :=
  __init__ Z.eqb Z.leb no_reduction.

(** A precomputed (distances, indices) pair for two points. *)
Definition example_pair : pyval Z :=
  PyTuple [ PyNdarray (mk_ndarray 2 [[0; 1]; [0; 1]]%Z);
            PyNdarray (mk_ndarray 2 [[0; 1]; [1; 0]]%Z) ].

Definition args_with_pair : init_args Z :=
  mk_args PyNone example_pair None false 1%Z true.

(** Coordinates holding the point [(1, 2)] twice. *)
Definition args_twice_same_point : init_args Z :=
  mk_args (PyNdarray (mk_ndarray 2 [[1; 2]; [1; 2]]%Z)) PyNone None false
          1%Z true.

(** Coordinates holding two distinct points. *)
Definition args_two_points : init_args Z :=
  mk_args (PyNdarray (mk_ndarray 2 [[1; 2]; [3; 4]]%Z)) PyNone None false
          1%Z true.

End Base.

(** ** [duly/density_estimation_obsolete.py] *)

Module DensityEstimation.

Local Open Scope R_scope.

(** An [N x N] matrix ([scipy.sparse.lil_matrix], or dense after
    [todense()]) seen through its entries. *)
Definition matrix : Type := nat -> nat -> R.

(** The values the attributes of a session hold.  [VUnset] stands for an
    attribute that was never assigned. *)
Inductive value : Type :=
| VUnset
| VNone
| VBool (b : bool)
| VInt (z : Z)
| VFloat (x : R)
| VIntArr (a : list Z)
| VIntArr2 (a : list (list Z))
| VPairs (a : list (Z * Z))
| VArr (a : list R)
| VArr2 (a : list (list R))
| VArr3 (a : list (list (list R)))
| VMatrix (m : matrix).

(** The attributes of a [DensityEstimation] object that the methods below
    read or write. *)
Inductive attr : Type :=
| self_N | self_X | self_dims | self_maxk | self_verb | self_period
| self_intrinsic_dim | self_distances | self_dist_indices
| self_kstar | self_neigh_vector_diffs | self_nind_list | self_nind_iptr
| self_nind_mat | self_common_neighs | self_dc | self_log_den
| self_log_den_err | self_grads | self_grads_var | self_check_grads_covmat
| self_Fij_list | self_Fij_var_list | self_Fij_array | self_Fij_var_array
| self_A | self_B.

Scheme Equality for attr.

(** The object's [__dict__]. *)
Definition session : Type := attr -> value.

Definition setattr (s : session) (a : attr) (v : value) : session :=
  fun a' => if attr_beq a a' then v else s a'.

Definition getattr (s : session) (a : attr) : result value :=
  match s a with
  | VUnset => Raise AttributeError
  | v => Ok v
  end.

Definition is_none (v : value) : bool :=
  match v with
  | VNone => true
  | _ => false
  end.

(** [self.a is None]. *)
Definition attr_is_none (s : session) (a : attr) : result bool :=
  v <- getattr s a ;; Ok (is_none v).

Definition get_int (s : session) (a : attr) : result Z :=
  v <- getattr s a ;;
  match v with
  | VInt z => Ok z
  | _ => Raise TypeError
  end.

(** A size, as [np.zeros(n)], [np.full(n, ...)] and [range(n)] take it;
    numpy refuses negative dimensions. *)
Definition get_size (s : session) (a : attr) : result nat :=
  z <- get_int s a ;;
  if (z <? 0)%Z then Raise ValueError else Ok (Z.to_nat z).

Definition get_number (s : session) (a : attr) : result R :=
  v <- getattr s a ;;
  match v with
  | VInt z => Ok (IZR z)
  | VFloat x => Ok x
  | _ => Raise TypeError
  end.

Definition get_int_arr (s : session) (a : attr) : result (list Z) :=
  v <- getattr s a ;;
  match v with
  | VIntArr l => Ok l
  | _ => Raise TypeError
  end.

Definition get_int_arr2 (s : session) (a : attr) : result (list (list Z)) :=
  v <- getattr s a ;;
  match v with
  | VIntArr2 l => Ok l
  | _ => Raise TypeError
  end.

Definition get_pairs (s : session) (a : attr) : result (list (Z * Z)) :=
  v <- getattr s a ;;
  match v with
  | VPairs l => Ok l
  | _ => Raise TypeError
  end.

Definition get_arr (s : session) (a : attr) : result (list R) :=
  v <- getattr s a ;;
  match v with
  | VArr l => Ok l
  | _ => Raise TypeError
  end.

Definition get_arr2 (s : session) (a : attr) : result (list (list R)) :=
  v <- getattr s a ;;
  match v with
  | VArr2 l => Ok l
  | _ => Raise TypeError
  end.

Definition get_arr3 (s : session) (a : attr)
  : result (list (list (list R))) :=
  v <- getattr s a ;;
  match v with
  | VArr3 l => Ok l
  | _ => Raise TypeError
  end.

(** The collaborators that the sources import but do not contain. *)
Class Externals : Type := {
  (** [scipy.special.gammaln] *)
  gammaln : R -> R;
  (** [cython_maximum_likelihood_opt._nrmaxl(rr, kstar, vi, maxk)] *)
  _nrmaxl : R -> Z -> list R -> Z -> R;
  (** [IdEstimation.compute_id_2NN], a method of the parent class *)
  compute_id_2NN : session -> result session;
  (** [cython_density._compute_kstar(intrinsic_dim, N, maxk, Dthr,
      dist_indices, distances)] *)
  _compute_kstar : value -> value -> value -> R -> value -> value
                   -> result (list Z);
  (** [cython_grads.return_neigh_ind(dist_indices, kstar)] *)
  return_neigh_ind : value -> value -> result (value * value);
  (** [cython_grads.return_neigh_vector_diffs(X, nind_list)] *)
  return_neigh_vector_diffs : value -> value -> result value;
  (** [cython_grads.return_neigh_vector_diffs_periodic(X, nind_list,
      period)] *)
  return_neigh_vector_diffs_periodic : value -> value -> value
                                       -> result value;
  (** [cython_grads.return_common_neighs(kstar, dist_indices, nind_list)] *)
  return_common_neighs : value -> value -> value -> result value;
  (** [cython_grads.return_grads_and_var_from_nnvecdiffs] *)
  return_grads_and_var_from_nnvecdiffs :
    value -> value -> value -> value -> value -> result (value * value);
  (** [cython_grads.return_grads_and_covmat_from_nnvecdiffs] *)
  return_grads_and_covmat_from_nnvecdiffs :
    value -> value -> value -> value -> value -> result (value * value);
  (** [scipy.sparse.linalg.spsolve(A, b)] on an [N x N] system *)
  spsolve : nat -> matrix -> list R -> result (list R);
  (** [scipy.linalg.pinvh(A)] *)
  pinvh : nat -> matrix -> result matrix
}.

Section Methods.

Context {ext : Externals}.

(** The argument of [set_kstar]: an integer, or an integer array. *)
Inductive kstar_arg : Type :=
| KInt (k : Z)
| KArr (a : list Z).

(** The attributes [set_kstar] resets, in the order of lines 86-99. *)
Definition derived_caches : list attr :=
  [ self_neigh_vector_diffs; self_nind_list; self_nind_iptr; self_nind_mat;
    self_common_neighs; self_dc; self_log_den; self_log_den_err;
    self_grads; self_grads_var; self_Fij_list; self_Fij_var_list;
    self_Fij_array; self_Fij_var_array ].

(** [set_kstar] (lines 72-99). *)
Definition set_kstar (k : kstar_arg) (s : session) : result session :=
  s1 <- match k with
        | KArr a => Ok (setattr s self_kstar (VIntArr a))
        | KInt z =>
            n <- get_size s self_N ;;
            Ok (setattr s self_kstar (VIntArr (repeat z n)))
        end ;;
  Ok (fold_left (fun s' a => setattr s' a VNone) derived_caches s1).

(** [compute_kstar] (lines 152-174). *)
Definition compute_kstar (Dthr : R) (s : session) : result session :=
  no_id <- attr_is_none s self_intrinsic_dim ;;
  s1 <- (if no_id then compute_id_2NN s else Ok s) ;;
  id <- getattr s1 self_intrinsic_dim ;;
  n <- getattr s1 self_N ;;
  mk <- getattr s1 self_maxk ;;
  di <- getattr s1 self_dist_indices ;;
  ds <- getattr s1 self_distances ;;
  kstar <- _compute_kstar id n mk Dthr di ds ;;
  set_kstar (KArr kstar) s1.

Definition default_Dthr : R := 23.92812698.

(** [if self.kstar is None: self.compute_kstar()]. *)
Definition ensure_kstar (s : session) : result session :=
  no_k <- attr_is_none s self_kstar ;;
  if no_k then compute_kstar default_Dthr s else Ok s.

(** [np.exp(d / 2.0 * np.log(np.pi) - gammaln((d + 2) / 2))]. *)
Definition prefactor_of (d : R) : R :=
  exp (d / 2 * ln PI - gammaln ((d + 2) / 2)).

(** The local arrays [dc], [log_den], [log_den_err] and the running
    minimum [log_den_min] of the estimator loops. *)
Definition loop_state : Type := (list R * list R * list R * R)%type.

Definition zeros (n : nat) : list R := repeat 0 n.

Definition init_loop_state (n : nat) : loop_state :=
  (zeros n, zeros n, zeros n, 9.9e300).

Definition min_update (x m : R) : R := if Rlt_dec x m then x else m.

(** [log_den -= np.log(self.N)]. *)
Definition normalise (n : nat) (log_den : list R) : list R :=
  map (fun x => x - ln (INR n)) log_den.

(** [self.log_den = ...; self.log_den_err = ...; self.dc = ...]. *)
Definition store_density (s : session) (log_den log_den_err dc : list R)
  : session :=
  setattr (setattr (setattr s self_log_den (VArr log_den))
                   self_log_den_err (VArr log_den_err))
          self_dc (VArr dc).

(** One iteration of the loop of [compute_density_kNN] (lines 128-137). *)
Definition kNN_body (s : session) (d prefactor : R) (i : nat)
  (st : loop_state) : result loop_state :=
  let '(dc, log_den, log_den_err, log_den_min) := st in
  kstar <- get_int_arr s self_kstar ;;
  distances <- get_arr2 s self_distances ;;
  k <- np_index kstar (Z.of_nat i) ;;
  r <- np_index2 distances (Z.of_nat i) k ;;
  dc <- np_setitem dc i r ;;
  log_den <- np_setitem log_den i
               (ln (IZR k) - (ln prefactor + d * ln r)) ;;
  log_den_err <- np_setitem log_den_err i (1 / sqrt (IZR k)) ;;
  li <- np_index log_den (Z.of_nat i) ;;
  Ok (dc, log_den, log_den_err, min_update li log_den_min).

(** [compute_density_kNN] (lines 103-148). *)
Definition compute_density_kNN (k : Z) (s : session) : result session :=
  no_id <- attr_is_none s self_intrinsic_dim ;;
  _ <- assert (negb no_id) ;;
  s1 <- set_kstar (KInt k) s ;;
  n <- get_size s1 self_N ;;
  d <- get_number s1 self_intrinsic_dim ;;
  let prefactor := prefactor_of d in
  '(dc, log_den, log_den_err, _) <-
     for_range n (kNN_body s1 d prefactor) (init_loop_state n) ;;
  Ok (store_density s1 (normalise n log_den) log_den_err dc).

(** One iteration of the loop of [compute_density_kstarNN]
    (lines 302-314). *)
Definition kstarNN_body (s : session) (d prefactor : R) (i : nat)
  (st : loop_state) : result loop_state :=
  let '(dc, log_den, log_den_err, log_den_min) := st in
  kstar <- get_int_arr s self_kstar ;;
  distances <- get_arr2 s self_distances ;;
  k <- np_index kstar (Z.of_nat i) ;;
  r <- np_index2 distances (Z.of_nat i) k ;;
  dc <- np_setitem dc i r ;;
  log_den <- np_setitem log_den i (ln (IZR k) - ln prefactor) ;;
  rk <- np_index2 distances (Z.of_nat i) k ;;
  li <- np_index log_den (Z.of_nat i) ;;
  log_den <- np_setitem log_den i (li - d * ln rk) ;;
  log_den_err <- np_setitem log_den_err i (1 / sqrt (IZR k)) ;;
  li <- np_index log_den (Z.of_nat i) ;;
  Ok (dc, log_den, log_den_err, min_update li log_den_min).

(** [compute_density_kstarNN] (lines 278-325). *)
Definition compute_density_kstarNN (s : session) : result session :=
  s1 <- ensure_kstar s ;;
  n <- get_size s1 self_N ;;
  d <- get_number s1 self_intrinsic_dim ;;
  let prefactor := prefactor_of d in
  '(dc, log_den, log_den_err, _) <-
     for_range n (kstarNN_body s1 d prefactor) (init_loop_state n) ;;
  Ok (store_density s1 (normalise n log_den) log_den_err dc).

(** [range(lo, hi)] as Python integers. *)
Definition py_range (lo hi : Z) : list Z :=
  map (fun t => (lo + Z.of_nat t)%Z) (seq 0 (Z.to_nat (hi - lo))).

(** A loop whose body may [break]: the body returns the new state and
    whether it broke out. *)
Fixpoint for_each_break {I St : Type} (ixs : list I)
  (body : I -> St -> result (St * bool)) (st : St) : result St :=
  match ixs with
  | [] => Ok st
  | i :: ixs' =>
      '(st', broke) <- body i st ;;
      if broke then Ok st' else for_each_break ixs' body st'
  end.

(** The inner loop of [compute_density_kpeaks] (lines 346-348). *)
Definition kpeaks_inner (kstar : list Z) (dist_indices : list (list Z))
  (i : nat) (k : Z) (j : Z) (log_den_err : list R) : result (list R) :=
  jj <- np_index2 dist_indices (Z.of_nat i) j ;;
  kjj <- np_index kstar jj ;;
  e <- np_index log_den_err (Z.of_nat i) ;;
  np_setitem log_den_err i (e + IZR ((kjj - k) ^ 2)).

(** One iteration of the loop of [compute_density_kpeaks]
    (lines 341-352). *)
Definition kpeaks_body (s : session) (i : nat) (st : loop_state)
  : result loop_state :=
  let '(dc, log_den, log_den_err, log_den_min) := st in
  kstar <- get_int_arr s self_kstar ;;
  distances <- get_arr2 s self_distances ;;
  k <- np_index kstar (Z.of_nat i) ;;
  r <- np_index2 distances (Z.of_nat i) k ;;
  dc <- np_setitem dc i r ;;
  log_den <- np_setitem log_den i (IZR k) ;;
  log_den_err <- np_setitem log_den_err i 0 ;;
  log_den_err <-
    for_each (py_range 1 k)
      (fun j lde =>
         dist_indices <- get_int_arr2 s self_dist_indices ;;
         kpeaks_inner kstar dist_indices i k j lde)
      log_den_err ;;
  e <- np_index log_den_err (Z.of_nat i) ;;
  log_den_err <- np_setitem log_den_err i (sqrt (e / IZR k)) ;;
  li <- np_index log_den (Z.of_nat i) ;;
  Ok (dc, log_den, log_den_err, min_update li log_den_min).

(** [compute_density_kpeaks] (lines 329-361). *)
Definition compute_density_kpeaks (s : session) : result session :=
  s1 <- ensure_kstar s ;;
  n <- get_size s1 self_N ;;
  '(dc, log_den, log_den_err, _) <-
     for_range n (kpeaks_body s1) (init_loop_state n) ;;
  Ok (store_density s1 log_den log_den_err dc).

(** Python's [pow(x, y)] and [x ** y] on non-negative floats. *)
Definition pow_f (x y : R) : R :=
  if Req_dec_T x 0 then (if Req_dec_T y 0 then 1 else 0) else Rpower x y.

(** The threshold under which a shell volume counts as underflown. *)
Definition tiny : R := 1.0e-300.

(** One iteration of the shell loop of [compute_density_PAk]
    (lines 455-464): returns [vi], [knn] and whether it broke out. *)
Definition PAk_shell (distances : list (list R)) (d prefactor : R)
  (i : nat) (j : Z) (st : list R * Z) : result ((list R * Z) * bool) :=
  let '(vi, knn) := st in
  r1 <- np_index2 distances (Z.of_nat i) (j + 1) ;;
  r0 <- np_index2 distances (Z.of_nat i) j ;;
  let v := prefactor * (pow_f r1 d - pow_f r0 d) in
  vi <- np_setitem vi (Z.to_nat j) v ;;
  vj <- np_index vi j ;;
  if Rlt_dec vj tiny then Ok ((vi, 1%Z), true) else Ok ((vi, knn), false).

(** One iteration of the loop of [compute_density_PAk] (lines 447-474). *)
Definition PAk_body (s : session) (d prefactor : R) (i : nat)
  (st : loop_state) : result loop_state :=
  let '(dc, log_den, log_den_err, log_den_min) := st in
  maxk <- get_size s self_maxk ;;
  let vi := zeros maxk in
  kstar <- get_int_arr s self_kstar ;;
  distances <- get_arr2 s self_distances ;;
  k <- np_index kstar (Z.of_nat i) ;;
  r <- np_index2 distances (Z.of_nat i) k ;;
  dc <- np_setitem dc i r ;;
  let rr := ln (IZR k) - (ln prefactor + d * ln r) in
  '(vi, knn) <-
     for_each_break (py_range 0 k) (PAk_shell distances d prefactor i)
                    (vi, 0%Z) ;;
  log_den <- (if (knn =? 0)%Z
              then np_setitem log_den i (_nrmaxl rr k vi (Z.of_nat maxk))
              else np_setitem log_den i rr) ;;
  li <- np_index log_den (Z.of_nat i) ;;
  let log_den_min := min_update li log_den_min in
  log_den_err <- np_setitem log_den_err i
                   (sqrt (IZR (4 * k + 2) / IZR (k * (k - 1)))) ;;
  Ok (dc, log_den, log_den_err, log_den_min).

(** [compute_density_PAk] (lines 428-493). *)
Definition compute_density_PAk (s : session) : result session :=
  s1 <- ensure_kstar s ;;
  n <- get_size s1 self_N ;;
  d <- get_number s1 self_intrinsic_dim ;;
  let prefactor := prefactor_of d in
  '(dc, log_den, log_den_err, _) <-
     for_range n (PAk_body s1 d prefactor) (init_loop_state n) ;;
  Ok (store_density s1 (normalise n log_den) log_den_err dc).

(** [compute_neigh_indices] (lines 178-200). *)
Definition compute_neigh_indices (s : session) : result session :=
  s1 <- ensure_kstar s ;;
  di <- getattr s1 self_dist_indices ;;
  ks <- getattr s1 self_kstar ;;
  '(nind_list, nind_iptr) <- return_neigh_ind di ks ;;
  Ok (setattr (setattr s1 self_nind_list nind_list) self_nind_iptr nind_iptr).

(** [if self.nind_list is None: self.compute_neigh_indices()]. *)
Definition ensure_neigh_indices (s : session) : result session :=
  no_l <- attr_is_none s self_nind_list ;;
  if no_l then compute_neigh_indices s else Ok s.

(** [np.full((self.dims), fill_value=self.period)]. *)
Definition full_period (s : session) : result value :=
  dims <- get_size s self_dims ;;
  p <- getattr s self_period ;;
  match p with
  | VInt z => Ok (VArr (repeat (IZR z) dims))
  | VFloat x => Ok (VArr (repeat x dims))
  | VArr a => if (length a =? dims)%nat then Ok (VArr a) else Raise ValueError
  | _ => Raise TypeError
  end.

(** [compute_neigh_vector_diffs] (lines 204-234). *)
Definition compute_neigh_vector_diffs (s : session) : result session :=
  s1 <- ensure_neigh_indices s ;;
  no_p <- attr_is_none s1 self_period ;;
  x <- getattr s1 self_X ;;
  nl <- getattr s1 self_nind_list ;;
  vd <- (if no_p then return_neigh_vector_diffs x nl
         else per <- full_period s1 ;;
              return_neigh_vector_diffs_periodic x nl per) ;;
  Ok (setattr s1 self_neigh_vector_diffs vd).

(** [compute_common_neighs] (lines 251-274). *)
Definition compute_common_neighs (s : session) : result session :=
  s1 <- ensure_neigh_indices s ;;
  ks <- getattr s1 self_kstar ;;
  di <- getattr s1 self_dist_indices ;;
  nl <- getattr s1 self_nind_list ;;
  cn <- return_common_neighs ks di nl ;;
  Ok (setattr s1 self_common_neighs cn).

(** [compute_grads] (lines 1156-1196). *)
Definition compute_grads (comp_covmat : bool) (s : session)
  : result session :=
  s1 <- ensure_kstar s ;;
  vd <- getattr s1 self_neigh_vector_diffs ;;
  nl <- getattr s1 self_nind_list ;;
  ip <- getattr s1 self_nind_iptr ;;
  ks <- getattr s1 self_kstar ;;
  id <- getattr s1 self_intrinsic_dim ;;
  if comp_covmat then
    '(g, gv) <- return_grads_and_covmat_from_nnvecdiffs vd nl ip ks id ;;
    Ok (setattr (setattr (setattr s1 self_grads g) self_grads_var gv)
                self_check_grads_covmat (VBool true))
  else
    '(g, gv) <- return_grads_and_var_from_nnvecdiffs vd nl ip ks id ;;
    Ok (setattr (setattr s1 self_grads g) self_grads_var gv).

(** An elementwise operation on two arrays: numpy raises when their
    lengths differ. *)
Definition zip_with {A B C : Type} (f : A -> B -> C) (a : list A)
  (b : list B) : list C :=
  map (fun p => f (fst p) (snd p)) (combine a b).

Definition ew2 {A B C : Type} (f : A -> B -> C) (a : list A) (b : list B)
  : result (list C) :=
  if (length a =? length b)%nat then Ok (zip_with f a b)
  else Raise ValueError.

Definition dot (u v : list R) : R :=
  fold_right Rplus 0 (map (fun p => fst p * snd p) (combine u v)).

Definition vadd (u v : list R) : list R :=
  map (fun p => fst p + snd p) (combine u v).

Definition matvec (m : list (list R)) (v : list R) : list R :=
  map (fun row => dot row v) m.

(** [np.einsum("ij, ij -> i", a, b)]. *)
Definition einsum_ij_ij_i (a b : list (list R)) : result (list R) :=
  ew2 dot a b.

(** [np.einsum("ijk, ik -> ij", g, v)]. *)
Definition einsum_ijk_ik_ij (g : list (list (list R))) (v : list (list R))
  : result (list (list R)) :=
  ew2 matvec g v.

(** An integer or float array read as floats. *)
Definition get_num_arr (s : session) (a : attr) : result (list R) :=
  v <- getattr s a ;;
  match v with
  | VIntArr l => Ok (map IZR l)
  | VArr l => Ok l
  | _ => Raise TypeError
  end.

(** The argument [chi] of [compute_deltaFs_grads_semisum]. *)
Inductive chi_arg : Type :=
| ChiAuto
| ChiNum (c : R).

(** The value of [chi] once resolved: one number, or one per pair. *)
Inductive chi_val : Type :=
| ChiScalar (c : R)
| ChiArray (c : list R).

Definition in_unit_interval (c : R) : bool :=
  if Rle_dec 0 c then (if Rle_dec c 1 then true else false) else false.

(** [2 * chi * np.sqrt(vari * varj)]. *)
Definition cross_term (chi : chi_val) (root : list R) : result (list R) :=
  match chi with
  | ChiScalar c => Ok (map (fun x => 2 * c * x) root)
  | ChiArray ch => ew2 (fun c x => 2 * c * x) ch root
  end.

(** [compute_deltaFs_grads_semisum] (lines 1292-1363). *)
Definition compute_deltaFs_grads_semisum (chi : chi_arg) (s : session)
  : result session :=
  no_vd <- attr_is_none s self_neigh_vector_diffs ;;
  s1 <- (if no_vd then compute_neigh_vector_diffs s else Ok s) ;;
  no_g <- attr_is_none s1 self_grads ;;
  s2 <- (if no_g then compute_grads true s1
         else c <- getattr s1 self_check_grads_covmat ;;
              match c with
              | VBool false | VInt 0%Z => compute_grads true s1
              | _ => Ok s1
              end) ;;
  el <- get_pairs s2 self_nind_list ;;
  kstar <- get_int_arr s2 self_kstar ;;
  k1 <- np_take kstar (map fst el) ;;
  k2 <- np_take kstar (map snd el) ;;
  grads <- get_arr2 s2 self_grads ;;
  g1 <- np_take grads (map fst el) ;;
  g2 <- np_take grads (map snd el) ;;
  grads_var <- get_arr3 s2 self_grads_var ;;
  g_var1 <- np_take grads_var (map fst el) ;;
  g_var2 <- np_take grads_var (map snd el) ;;
  '(s3, chi_v) <-
     match chi with
     | ChiAuto =>
         no_cn <- attr_is_none s2 self_common_neighs ;;
         s3 <- (if no_cn then compute_common_neighs s2 else Ok s2) ;;
         cn <- get_num_arr s3 self_common_neighs ;;
         ksum <- ew2 Z.add k1 k2 ;;
         den <- ew2 (fun k c => IZR k - c) ksum cn ;;
         ch <- ew2 Rdiv cn den ;;
         Ok (s3, ChiArray ch)
     | ChiNum c =>
         _ <- assert (in_unit_interval c) ;;
         Ok (s2, ChiScalar c)
     end ;;
  vd <- get_arr2 s3 self_neigh_vector_diffs ;;
  gsum <- ew2 vadd g1 g2 ;;
  proj <- einsum_ij_ij_i gsum vd ;;
  let Fij_array := map (fun x => 0.5 * x) proj in
  cv1 <- einsum_ijk_ik_ij g_var1 vd ;;
  vari <- einsum_ij_ij_i vd cv1 ;;
  cv2 <- einsum_ijk_ik_ij g_var2 vd ;;
  varj <- einsum_ij_ij_i vd cv2 ;;
  prod <- ew2 Rmult vari varj ;;
  cross <- cross_term chi_v (map sqrt prod) ;;
  sum_ij <- ew2 Rplus vari varj ;;
  total <- ew2 Rplus sum_ij cross ;;
  let Fij_var_array := map (fun x => 0.25 * x) total in
  Ok (setattr (setattr s3 self_Fij_array (VArr Fij_array))
              self_Fij_var_array (VArr Fij_var_array)).

(** [if self.Fij_array is None: self.compute_deltaFs_grads_semisum()]. *)
Definition ensure_Fij_array (s : session) : result session :=
  no_f <- attr_is_none s self_Fij_array ;;
  if no_f then compute_deltaFs_grads_semisum ChiAuto s else Ok s.

(** *** Sparse matrices *)

(** [sparse.lil_matrix((N, N))]. *)
Definition lil_matrix : matrix := fun _ _ => 0.

(** An index into an axis of length [n], negative ones counted from the
    end. *)
Definition norm_index (n : nat) (k : Z) : result nat :=
  let k' := if (k <? 0)%Z then (k + Z.of_nat n)%Z else k in
  if ((0 <=? k')%Z && (k' <? Z.of_nat n)%Z)%bool
  then Ok (Z.to_nat k') else Raise IndexError.

(** [A[i, j] = v]. *)
Definition msetitem (n : nat) (A : matrix) (i j : Z) (v : R)
  : result matrix :=
  i' <- norm_index n i ;;
  j' <- norm_index n j ;;
  Ok (fun r c => if ((r =? i')%nat && (c =? j')%nat)%bool then v else A r c).

Definition transpose (A : matrix) : matrix := fun r c => A c r.

Definition madd (A B : matrix) : matrix := fun r c => A r c + B r c.

Definition mscale (a : R) (A : matrix) : matrix := fun r c => a * A r c.

Definition sum_upto (n : nat) (f : nat -> R) : R :=
  fold_right Rplus 0 (map f (seq 0 n)).

(** [A.sum(axis=1)]: the sum of each row. *)
Definition sum_axis1 (n : nat) (A : matrix) : list R :=
  map (fun r => sum_upto n (fun c => A r c)) (seq 0 n).

(** [A.sum(axis=0)]: the sum of each column. *)
Definition sum_axis0 (n : nat) (A : matrix) : list R :=
  map (fun c => sum_upto n (fun r => A r c)) (seq 0 n).

(** [A.setdiag(diag)]. *)
Definition setdiag (A : matrix) (diag : list R) : matrix :=
  fun r c =>
    if (r =? c)%nat
    then match nth_error diag r with
         | Some v => v
         | None => A r c
         end
    else A r c.

(** [np.diag(B)]. *)
Definition np_diag (n : nat) (B : matrix) : list R :=
  map (fun i => B i i) (seq 0 n).

(** [np.sqrt(k1 * k2)] with [k1 = kstar[nind_list[:, 0]]] and
    [k2 = kstar[nind_list[:, 1]]]. *)
Definition redundancy_of (s : session) : result (list R) :=
  kstar <- get_int_arr s self_kstar ;;
  el <- get_pairs s self_nind_list ;;
  k1 <- np_take kstar (map fst el) ;;
  k2 <- np_take kstar (map snd el) ;;
  kk <- ew2 Z.mul k1 k2 ;;
  Ok (map (fun z => sqrt (IZR z)) kk).

(** One iteration of the assembly loop of [compute_density_gCorr]
    (lines 785-798) on the matrices [A] and [supp_deltaF]. *)
Definition gCorr_edge (s : session) (use_variance : bool) (n : nat)
  (redundancy : list R) (e : nat * (Z * Z)) (st : matrix * matrix)
  : result (matrix * matrix) :=
  let '(nspar, (i, j)) := e in
  let '(A, supp_deltaF) := st in
  Fij_array <- get_arr s self_Fij_array ;;
  red <- np_index redundancy (Z.of_nat nspar) ;;
  if use_variance then
    Fij_var_array <- get_arr s self_Fij_var_array ;;
    fv <- np_index Fij_var_array (Z.of_nat nspar) ;;
    let tmp := 1.0 / fv / red in
    A <- msetitem n A i j (- tmp) ;;
    f <- np_index Fij_array (Z.of_nat nspar) ;;
    supp_deltaF <- msetitem n supp_deltaF i j (f * tmp) ;;
    Ok (A, supp_deltaF)
  else
    A <- msetitem n A i j (- 1.0 / red) ;;
    f <- np_index Fij_array (Z.of_nat nspar) ;;
    supp_deltaF <- msetitem n supp_deltaF i j f ;;
    Ok (A, supp_deltaF).

(** [enumerate(l)]. *)
Definition enumerate {A : Type} (l : list A) : list (nat * A) :=
  combine (seq 0 (length l)) l.

(** The assembly loop of [compute_density_gCorr] (lines 775-798): the
    matrices [A] and [supp_deltaF] before [A] is symmetrised. *)
Definition gCorr_assemble (use_variance : bool) (s : session)
  : result (matrix * matrix) :=
  n <- get_size s self_N ;;
  redundancy <- redundancy_of s ;;
  el <- get_pairs s self_nind_list ;;
  for_each (enumerate el) (gCorr_edge s use_variance n redundancy)
           (lil_matrix, lil_matrix).

(** The linear system of [compute_density_gCorr] (lines 775-810): the
    assembled [A] and the right-hand side [deltaFcum]. *)
Definition gCorr_system (use_variance : bool) (s : session)
  : result (matrix * list R) :=
  n <- get_size s self_N ;;
  '(A, supp_deltaF) <- gCorr_assemble use_variance s ;;
  let A := madd A (transpose A) in
  let diag := map Ropp (sum_axis1 n A) in
  let A := setdiag A diag in
  deltaFcum <- ew2 Rminus (sum_axis0 n supp_deltaF)
                         (sum_axis1 n supp_deltaF) ;;
  Ok (A, deltaFcum).

(** [compute_density_gCorr] (lines 763-827). *)
Definition compute_density_gCorr (use_variance : bool) (s : session)
  : result session :=
  s1 <- ensure_Fij_array s ;;
  n <- get_size s1 self_N ;;
  '(A, deltaFcum) <- gCorr_system use_variance s1 ;;
  log_den <- spsolve n A deltaFcum ;;
  let s2 := setattr s1 self_log_den (VArr log_den) in
  let s3 := setattr s2 self_A (VMatrix A) in
  B <- pinvh n A ;;
  let s4 := setattr s3 self_B (VMatrix B) in
  Ok (setattr s4 self_log_den_err (VArr (map sqrt (np_diag n B)))).

(** Python's [a[lo:hi]]: both bounds are clipped, the slice never
    raises. *)
Definition clip_bound (n : nat) (x : Z) : nat :=
  Z.to_nat (if (x <? 0)%Z then Z.max 0 (x + Z.of_nat n)
            else Z.min x (Z.of_nat n)).

Definition slice {A : Type} (a : list A) (lo hi : Z) : list A :=
  let lo' := clip_bound (length a) lo in
  let hi' := clip_bound (length a) hi in
  firstn (hi' - lo') (skipn lo' a).

(** One step of the shell loop shared by [compute_density_dF_PAk]
    (lines 597-604) and [compute_density_dF_PAk_gCorr] (lines 857-864):
    the corrected volume accumulated so far. *)
Definition corrected_shell (distances : list (list R)) (Fijs : list R)
  (d : R) (i : nat) (j : Z) (acc : R) : result R :=
  Fij <- np_index Fijs (j - 1) ;;
  r1 <- np_index2 distances (Z.of_nat i) j ;;
  r0 <- np_index2 distances (Z.of_nat i) (j - 1) ;;
  let rjjm1 := pow_f r1 d - pow_f r0 d in
  Ok (acc + rjjm1 * exp Fij).

(** [self.Fij_array[self.nind_iptr[i] : self.nind_iptr[i + 1]]]. *)
Definition Fijs_of (s : session) (i : nat) : result (list R) :=
  Fij_array <- get_arr s self_Fij_array ;;
  nind_iptr <- get_int_arr s self_nind_iptr ;;
  lo <- np_index nind_iptr (Z.of_nat i) ;;
  hi <- np_index nind_iptr (Z.of_nat i + 1) ;;
  Ok (slice Fij_array lo hi).

(** One iteration of the loop of [compute_density_dF_PAk]
    (lines 588-609). *)
Definition dF_PAk_body (s : session) (d prefactor : R) (i : nat)
  (st : loop_state) : result loop_state :=
  let '(dc, log_den, log_den_err, log_den_min) := st in
  kstar <- get_int_arr s self_kstar ;;
  distances <- get_arr2 s self_distances ;;
  k <- np_index kstar (Z.of_nat i) ;;
  r <- np_index2 distances (Z.of_nat i) k ;;
  dc <- np_setitem dc i r ;;
  log_den <- np_setitem log_den i (ln (IZR k) - ln prefactor) ;;
  Fijs <- Fijs_of s i ;;
  corrected_rk <-
    for_each (py_range 1 k) (corrected_shell distances Fijs d i) 0 ;;
  li <- np_index log_den (Z.of_nat i) ;;
  log_den <- np_setitem log_den i (li - ln corrected_rk) ;;
  li <- np_index log_den (Z.of_nat i) ;;
  Ok (dc, log_den, log_den_err, min_update li log_den_min).

(** [compute_density_dF_PAk] (lines 564-620). *)
Definition compute_density_dF_PAk (s : session) : result session :=
  s1 <- ensure_kstar s ;;
  s2 <- ensure_Fij_array s1 ;;
  n <- get_size s2 self_N ;;
  d <- get_number s2 self_intrinsic_dim ;;
  let prefactor := prefactor_of d in
  '(dc, log_den, _, _) <-
     for_range n (dF_PAk_body s2 d prefactor) (init_loop_state n) ;;
  kstar <- get_int_arr s2 self_kstar ;;
  Ok (store_density s2 (normalise n log_den)
                    (map (fun k => 1.0 / sqrt (IZR k)) kstar) dc).

(** One iteration of the first loop of [compute_density_dF_PAk_gCorr]
    (lines 852-864) on [dc] and [corrected_vols]. *)
Definition dF_PAk_gCorr_body (s : session) (d : R) (i : nat)
  (st : list R * list R) : result (list R * list R) :=
  let '(dc, corrected_vols) := st in
  kstar <- get_int_arr s self_kstar ;;
  distances <- get_arr2 s self_distances ;;
  k <- np_index kstar (Z.of_nat i) ;;
  r <- np_index2 distances (Z.of_nat i) k ;;
  dc <- np_setitem dc i r ;;
  Fijs <- Fijs_of s i ;;
  v0 <- np_index corrected_vols (Z.of_nat i) ;;
  v <- for_each (py_range 1 k) (corrected_shell distances Fijs d i) v0 ;;
  corrected_vols <- np_setitem corrected_vols i v ;;
  Ok (dc, corrected_vols).

(** One iteration of the assembly loop of [compute_density_dF_PAk_gCorr]
    (lines 880-892). *)
Definition dF_PAk_gCorr_edge (s : session) (use_variance : bool) (n : nat)
  (redundancy : list R) (e : nat * (Z * Z)) (st : matrix * matrix)
  : result (matrix * matrix) :=
  let '(nspar, (i, j)) := e in
  let '(A, supp_deltaF) := st in
  Fij_array <- get_arr s self_Fij_array ;;
  red <- np_index redundancy (Z.of_nat nspar) ;;
  if use_variance then
    Fij_var_array <- get_arr s self_Fij_var_array ;;
    fv <- np_index Fij_var_array (Z.of_nat nspar) ;;
    let tmp := 1.0 / fv / red in
    A <- msetitem n A i j (- tmp) ;;
    f <- np_index Fij_array (Z.of_nat nspar) ;;
    supp_deltaF <- msetitem n supp_deltaF i j (f * tmp) ;;
    Ok (A, supp_deltaF)
  else
    A <- msetitem n A i j (- 1.0 / red) ;;
    f <- np_index Fij_array (Z.of_nat nspar) ;;
    supp_deltaF <- msetitem n supp_deltaF i j (f / red) ;;
    Ok (A, supp_deltaF).

(** The assembly loop of [compute_density_dF_PAk_gCorr] (lines 871-892). *)
Definition dF_PAk_gCorr_assemble (use_variance : bool) (s : session)
  : result (matrix * matrix) :=
  n <- get_size s self_N ;;
  redundancy <- redundancy_of s ;;
  el <- get_pairs s self_nind_list ;;
  for_each (enumerate el) (dF_PAk_gCorr_edge s use_variance n redundancy)
           (lil_matrix, lil_matrix).

(** The linear system of [compute_density_dF_PAk_gCorr] (lines 871-905),
    given the corrected volumes. *)
Definition dF_PAk_gCorr_system (use_variance : bool) (alpha : R)
  (corrected_vols : list R) (s : session) : result (matrix * list R) :=
  n <- get_size s self_N ;;
  '(A, supp_deltaF) <- dF_PAk_gCorr_assemble use_variance s ;;
  let A := mscale alpha (madd A (transpose A)) in
  kstar <- get_int_arr s self_kstar ;;
  diag <- ew2 (fun rs k => - rs + (1.0 - alpha) * IZR k)
              (sum_axis1 n A) kstar ;;
  let A := setdiag A diag in
  flow <- ew2 Rminus (sum_axis0 n supp_deltaF) (sum_axis1 n supp_deltaF) ;;
  prior <- ew2 (fun k v => IZR k * ln (IZR k / v)) kstar corrected_vols ;;
  deltaFcum <- ew2 (fun f p => alpha * f + (1.0 - alpha) * p) flow prior ;;
  Ok (A, deltaFcum).

(** [compute_density_dF_PAk_gCorr] (lines 831-920). *)
Definition compute_density_dF_PAk_gCorr (use_variance : bool) (alpha : R)
  (s : session) : result session :=
  s1 <- ensure_Fij_array s ;;
  n <- get_size s1 self_N ;;
  d <- get_number s1 self_intrinsic_dim ;;
  let prefactor := prefactor_of d in
  '(dc, corrected_vols) <-
     for_range n (dF_PAk_gCorr_body s1 d) (zeros n, zeros n) ;;
  let corrected_vols :=
    map (fun v => v * (prefactor * INR n)) corrected_vols in
  let s2 := setattr s1 self_dc (VArr dc) in
  '(A, deltaFcum) <-
     dF_PAk_gCorr_system use_variance alpha corrected_vols s2 ;;
  log_den <- spsolve n A deltaFcum ;;
  let s3 := setattr s2 self_log_den (VArr log_den) in
  let s4 := setattr s3 self_A (VMatrix A) in
  B <- pinvh n A ;;
  let s5 := setattr s4 self_B (VMatrix B) in
  Ok (setattr s5 self_log_den_err (VArr (map sqrt (np_diag n B)))).

(** *** Vocabulary of the specification *)

(** The Gamma function behind [gammaln], which is its logarithm. *)
Definition Gamma (x : R) : R := exp (gammaln x).

(** The volume of the unit ball in dimension [d]:
    [pi^(d/2) / Gamma(d/2 + 1)]. *)
Definition V_d (d : R) : R := Rpower PI (d / 2) / Gamma (d / 2 + 1).

(** [r_k(i)]: the distance from point [i] to its [k]-th neighbour. *)
Definition r_k (D : list (list R)) (i : nat) (k : Z) : R :=
  nth (Z.to_nat k) (nth i D []) 0.

(** The session holds [n] points, the intrinsic dimension [d] and the
    distance table [D], one row per point. *)
Definition inputs_ready (s : session) (n : nat) (d : R) (D : list (list R))
  : Prop :=
  s self_N = VInt (Z.of_nat n) /\
  s self_intrinsic_dim = VFloat d /\
  s self_distances = VArr2 D /\
  length D = n.

(** The neighbourhood sizes [ks], one per point, index the rows of [D]. *)
Definition kstar_fits (n : nat) (D : list (list R)) (ks : list Z) : Prop :=
  length ks = n /\
  forall i, (i < n)%nat ->
    (0 <= nth i ks 0%Z < Z.of_nat (length (nth i D [])))%Z.

(** The three arrays after [m] iterations of an estimator loop. *)
Definition loop_filled (fdc fld ferr : nat -> R) (n m : nat)
  (st : loop_state) : Prop :=
  let '(dc, log_den, log_den_err, _) := st in
  filled fdc n m dc /\ filled fld n m log_den /\ filled ferr n m log_den_err.

(** The unnormalised estimate of the fixed-k and kstar-NN estimators at
    point [i] with neighbourhood size [k]. *)
Definition kNN_estimate (d : R) (D : list (list R)) (i : nat) (k : Z) : R :=
  ln (IZR k) - (ln (prefactor_of d) + d * ln (r_k D i k)).

(** The kstar-NN estimate as the loop accumulates it. *)
Definition kstarNN_estimate (d : R) (D : list (list R)) (ks : list Z)
  (i : nat) : R :=
  ln (IZR (nth i ks 0%Z)) - ln (prefactor_of d)
  - d * ln (r_k D i (nth i ks 0%Z)).

(** The neighbour table [DI] names, for each point and each rank below
    its neighbourhood size, a point of the data set. *)
Definition neighbours_fit (n : nat) (DI : list (list Z)) (ks : list Z)
  : Prop :=
  length DI = n /\
  forall i j, (i < n)%nat -> (1 <= j < nth i ks 0%Z)%Z ->
    (j < Z.of_nat (length (nth i DI [])))%Z /\
    (0 <= nth (Z.to_nat j) (nth i DI []) 0%Z < Z.of_nat n)%Z.

(** The arrays of the k-peaks loop after [m] iterations: [dc] and
    [log_den] are known, [log_den_err] keeps its length. *)
Definition kpeaks_filled (D : list (list R)) (ks : list Z) (n m : nat)
  (st : loop_state) : Prop :=
  let '(dc, log_den, log_den_err, _) := st in
  filled (fun i => r_k D i (nth i ks 0%Z)) n m dc /\
  filled (fun i => IZR (nth i ks 0%Z)) n m log_den /\
  length log_den_err = n.

(** The volume of shell [j] around point [i]:
    [prefactor * (r_{j+1}^d - r_j^d)]. *)
Definition shell_volume (d : R) (D : list (list R)) (i j : nat) : R :=
  prefactor_of d * (pow_f (r_k D i (Z.of_nat j + 1)) d
                    - pow_f (r_k D i (Z.of_nat j)) d).

(** Some shell among [a, a + len) has a volume below [1e-300]. *)
Definition underflows (d : R) (D : list (list R)) (i a len : nat) : bool :=
  existsb (fun j => if Rlt_dec (shell_volume d D i j) tiny then true
                    else false)
          (seq a len).

(** The array [vi] once the first [k] shells are stored. *)
Definition shell_volumes (d : R) (D : list (list R)) (i k maxk : nat)
  : list R :=
  map (shell_volume d D i) (seq 0 k) ++ zeros (maxk - k).

(** The value [compute_density_PAk] gives point [i] before the
    normalisation. *)
Definition PAk_estimate (d : R) (D : list (list R)) (ks : list Z)
  (maxk i : nat) : R :=
  let k := nth i ks 0%Z in
  let rr := ln (IZR k) - (ln (prefactor_of d) + d * ln (r_k D i k)) in
  if underflows d D i 0 (Z.to_nat k) then rr
  else _nrmaxl rr k (shell_volumes d D i (Z.to_nat k) maxk) (Z.of_nat maxk).

(** *** Vocabulary of the graph-consistency solve *)

(** The two end points of a pair of [nind_list] as row and column. *)
Definition edge_nat (p : Z * Z) : nat * nat :=
  (Z.to_nat (fst p), Z.to_nat (snd p)).

Definition src (el : list (Z * Z)) (e : nat) : nat :=
  fst (edge_nat (nth e el (0, 0)%Z)).

Definition tgt (el : list (Z * Z)) (e : nat) : nat :=
  snd (edge_nat (nth e el (0, 0)%Z)).

(** [redundancy(i, j) = sqrt(k*(i) k*(j))] of the pair number [e]. *)
Definition edge_redundancy (ks : list Z) (el : list (Z * Z)) (e : nat) : R :=
  sqrt (IZR (nth (src el e) ks 0%Z * nth (tgt el e) ks 0%Z)).

(** The weight of the pair number [e]: [1 / (Fij_var * redundancy)] with
    variance weighting, [1 / redundancy] without. *)
Definition edge_weight (use_variance : bool) (ks : list Z)
  (el : list (Z * Z)) (FV : list R) (e : nat) : R :=
  if use_variance then 1 / (nth e FV 0 * edge_redundancy ks el e)
  else 1 / edge_redundancy ks el e.

(** The session holds the pair graph [el] over [n] points with
    neighbourhood sizes [ks], and one [Fij] and one [Fij_var] per pair. *)
Definition graph_ready (s : session) (n : nat) (ks : list Z)
  (el : list (Z * Z)) (F FV : list R) : Prop :=
  s self_N = VInt (Z.of_nat n) /\
  s self_kstar = VIntArr ks /\
  length ks = n /\
  s self_nind_list = VPairs el /\
  (forall p, In p el ->
     (0 <= fst p < Z.of_nat n)%Z /\ (0 <= snd p < Z.of_nat n)%Z) /\
  s self_Fij_array = VArr F /\
  length F = length el /\
  s self_Fij_var_array = VArr FV /\
  length FV = length el.

(** What the assembly loop of [compute_density_gCorr] writes for the pair
    number [e] into [A] and into [supp_deltaF]. *)
Definition A_entry (use_variance : bool) (FV reds : list R) (e : nat) : R :=
  if use_variance then - (1.0 / nth e FV 0 / nth e reds 0)
  else - 1.0 / nth e reds 0.

Definition supp_entry (use_variance : bool) (F FV reds : list R) (e : nat)
  : R :=
  if use_variance then nth e F 0 * (1.0 / nth e FV 0 / nth e reds 0)
  else nth e F 0.

(** The matrices [A] and [supp_deltaF] after the first [m] pairs: entries
    that no pair names are zero; when no pair is repeated, each pair's
    entry is the one written for it, and the column and row sums of
    [supp_deltaF] are sums over the pairs entering and leaving a point. *)
Definition assembled (use_variance : bool) (F FV reds : list R)
  (el : list (Z * Z)) (n m : nat) (st : matrix * matrix) : Prop :=
  let '(A, supp) := st in
  (forall r c,
     (forall e, (e < m)%nat -> (src el e, tgt el e) <> (r, c)) ->
     A r c = 0 /\ supp r c = 0) /\
  (NoDup el ->
   (forall e, (e < m)%nat ->
      A (src el e) (tgt el e) = A_entry use_variance FV reds e /\
      supp (src el e) (tgt el e) = supp_entry use_variance F FV reds e) /\
   (forall c,
      sum_upto n (fun r => supp r c)
      = sum_upto m (fun e => if (tgt el e =? c)%nat
                             then supp_entry use_variance F FV reds e
                             else 0)) /\
   (forall r,
      sum_upto n (fun c => supp r c)
      = sum_upto m (fun e => if (src el e =? r)%nat
                             then supp_entry use_variance F FV reds e
                             else 0))).

(** The session holds the three outputs of an estimator, each an array
    with one entry per point. *)
Definition holds_density (s : session) (n : nat) : Prop :=
  exists log_den log_den_err dc,
    s self_log_den = VArr log_den /\
    s self_log_den_err = VArr log_den_err /\
    s self_dc = VArr dc /\
    length log_den = n /\ length log_den_err = n /\ length dc = n.

(** *** Vocabulary of the pairwise corrections *)

(** The session holds what [compute_deltaFs_grads_semisum] reads: the pair
    graph [el] over [n] points, one displacement [x_j - x_i] per pair, and
    one gradient and one covariance matrix per point. *)
Definition semisum_ready (s : session) (n : nat) (ks : list Z)
  (el : list (Z * Z)) (VD G : list (list R)) (GV : list (list (list R)))
  : Prop :=
  s self_neigh_vector_diffs = VArr2 VD /\
  s self_grads = VArr2 G /\
  s self_check_grads_covmat = VBool true /\
  s self_grads_var = VArr3 GV /\
  s self_nind_list = VPairs el /\
  s self_kstar = VIntArr ks /\
  length ks = n /\ length G = n /\ length GV = n /\
  length VD = length el /\
  (forall p, In p el ->
     (0 <= fst p < Z.of_nat n)%Z /\ (0 <= snd p < Z.of_nat n)%Z).

(** [v^T C v]. *)
Definition quad_form (C : list (list R)) (v : list R) : R :=
  dot v (matvec C v).

(** [0.5 * (grad_i + grad_j) . (x_j - x_i)] for the pair number [e]. *)
Definition semisum (G VD : list (list R)) (el : list (Z * Z)) (e : nat) : R :=
  0.5 * dot (vadd (nth (src el e) G []) (nth (tgt el e) G [])) (nth e VD []).

(** [Var_i] and [Var_j] of the pair number [e]. *)
Definition Var_i (GV : list (list (list R))) (VD : list (list R))
  (el : list (Z * Z)) (e : nat) : R :=
  quad_form (nth (src el e) GV []) (nth e VD []).

Definition Var_j (GV : list (list (list R))) (VD : list (list R))
  (el : list (Z * Z)) (e : nat) : R :=
  quad_form (nth (tgt el e) GV []) (nth e VD []).

(** [common_neighs / (k*(i) + k*(j) - common_neighs)] for the pair number
    [e]. *)
Definition chi_auto (ks CN : list Z) (el : list (Z * Z)) (e : nat) : R :=
  IZR (nth e CN 0%Z)
  / (IZR (nth (src el e) ks 0%Z) + IZR (nth (tgt el e) ks 0%Z)
     - IZR (nth e CN 0%Z)).

(** The two arrays [compute_deltaFs_grads_semisum] stores, [chi e] being
    the correlation used for the pair number [e]. *)
Definition Fij_of (G VD : list (list R)) (el : list (Z * Z)) : list R :=
  map (semisum G VD el) (seq 0 (length el)).

Definition Fij_var_of (GV : list (list (list R))) (VD : list (list R))
  (el : list (Z * Z)) (chi : nat -> R) : list R :=
  map (fun e => 0.25 * (Var_i GV VD el e + Var_j GV VD el e
                        + 2 * chi e * sqrt (Var_i GV VD el e
                                            * Var_j GV VD el e)))
      (seq 0 (length el)).

(** *** Vocabulary of the dF-PAk estimator *)

(** [Fij_array[nind_iptr[i] : nind_iptr[i + 1]]]. *)
Definition Fijs_slice (F : list R) (IP : list Z) (i : nat) : list R :=
  slice F (nth i IP 0%Z) (nth (S i) IP 0%Z).

(** The corrected volume of point [i]: the sum over [1 <= j < k] of
    [(r_j^d - r_{j-1}^d) exp(Fij)]. *)
Definition corrected_volume (d : R) (D : list (list R)) (Fijs : list R)
  (i : nat) (k : Z) : R :=
  fold_left
    (fun acc j =>
       acc + (pow_f (r_k D i j) d - pow_f (r_k D i (j - 1)) d)
             * exp (nth (Z.to_nat (j - 1)) Fijs 0))
    (py_range 1 k) 0.

(** The value [compute_density_dF_PAk] gives point [i] before the
    normalisation. *)
Definition dF_PAk_estimate (d : R) (D : list (list R)) (ks : list Z)
  (F : list R) (IP : list Z) (i : nat) : R :=
  let k := nth i ks 0%Z in
  ln (IZR k) - ln (prefactor_of d)
  - ln (corrected_volume d D (Fijs_slice F IP i) i k).

(** The row pointer [IP] gives every point at least [k*(i) - 1] entries
    of [Fij_array]. *)
Definition pairs_fit (n : nat) (ks : list Z) (F : list R) (IP : list Z)
  : Prop :=
  length IP = S n /\
  forall i, (i < n)%nat ->
    (nth i ks 0%Z - 1 <= Z.of_nat (length (Fijs_slice F IP i)))%Z.

(** The arrays of the dF-PAk loop after [m] iterations: [log_den_err] is
    not touched. *)
Definition dF_PAk_filled (d : R) (D : list (list R)) (ks : list Z)
  (F : list R) (IP : list Z) (n m : nat) (st : loop_state) : Prop :=
  let '(dc, log_den, log_den_err, _) := st in
  filled (fun i => r_k D i (nth i ks 0%Z)) n m dc /\
  filled (dF_PAk_estimate d D ks F IP) n m log_den /\
  log_den_err = zeros n.

End Methods.

(** *** A small session to run the methods on *)

(** Stand-ins for the compiled collaborators.  [gammaln] is the log-gamma
    function at [2], the argument reached with [intrinsic_dim = 2]; the
    solver and the pseudo-inverse are identities. *)
Definition example_externals : Externals := {|
  gammaln := fun _ => 0;
  _nrmaxl := fun rr _ _ _ => rr;
  compute_id_2NN := fun s => Ok s;
  _compute_kstar := fun _ _ _ _ _ _ => Ok [];
  return_neigh_ind := fun _ _ => Ok (VPairs [], VIntArr []);
  return_neigh_vector_diffs := fun _ _ => Ok (VArr2 []);
  return_neigh_vector_diffs_periodic := fun _ _ _ => Ok (VArr2 []);
  return_common_neighs := fun _ _ _ => Ok (VIntArr []);
  return_grads_and_var_from_nnvecdiffs :=
    fun _ _ _ _ _ => Ok (VArr2 [], VArr2 []);
  return_grads_and_covmat_from_nnvecdiffs :=
    fun _ _ _ _ _ => Ok (VArr2 [], VArr3 []);
  spsolve := fun _ _ b => Ok b;
  pinvh := fun _ A => Ok A
|}.

(** Three points on a line of the plane, at abscissae 0, 1 and 3, with
    their two neighbours each, right after construction. *)
Definition example_distances : list (list R) :=
  [[0; 1; 3]; [0; 1; 2]; [0; 2; 3]].

Definition example_session : session :=
  fun a =>
    match a with
    | self_N => VInt 3
    | self_X => VArr2 [[0; 0]; [1; 0]; [3; 0]]
    | self_dims => VInt 2
    | self_maxk => VInt 2
    | self_verb => VBool false
    | self_intrinsic_dim => VFloat 2
    | self_distances => VArr2 example_distances
    | self_dist_indices => VIntArr2 [[0; 1; 2]; [1; 0; 2]; [2; 1; 0]]%Z
    | self_check_grads_covmat | self_A | self_B => VUnset
    | _ => VNone
    end.

(** The same session once every point was given its two neighbours as
    neighbourhood. *)
Definition example_kstar : list Z := [2; 2; 2]%Z.

Definition example_session_k2 : session :=
  setattr example_session self_kstar (VIntArr example_kstar).

(** The pair graph of that session: points 0 and 1 are each other's
    nearest neighbour, point 2 has 1 as nearest neighbour; with the
    displacement of each pair, a gradient and a covariance per point and the
    number of common neighbours per pair. *)
Definition example_pairs : list (Z * Z) := [(0, 1); (1, 0); (2, 1)]%Z.

Definition example_graph : session :=
  let s1 := setattr example_session_k2 self_nind_list (VPairs example_pairs) in
  let s2 := setattr s1 self_nind_iptr (VIntArr [0; 1; 2; 3]%Z) in
  let s3 := setattr s2 self_neigh_vector_diffs
                    (VArr2 [[1; 0]; [-1; 0]; [-2; 0]]) in
  let s4 := setattr s3 self_grads (VArr2 [[1; 0]; [0; 0]; [-1; 0]]) in
  let s5 := setattr s4 self_grads_var
                    (VArr3 [ [[1; 0]; [0; 1]]; [[1; 0]; [0; 1]];
                             [[1; 0]; [0; 1]] ]) in
  let s6 := setattr s5 self_check_grads_covmat (VBool true) in
  setattr s6 self_common_neighs (VIntArr [1; 1; 1]%Z).

(** The same with the pairwise corrections and their variances. *)
Definition example_Fij : list R := [0.5; -0.5; 1].

Definition example_Fij_var : list R := [1; 1; 4].

Definition example_graph_Fij : session :=
  setattr (setattr example_graph self_Fij_array (VArr example_Fij))
          self_Fij_var_array (VArr example_Fij_var).

(** The value [set_kstar] stores for its argument on [n] points. *)
Definition broadcast (n : nat) (k : kstar_arg) : list Z :=
  match k with
  | KInt z => repeat z n
  | KArr a => a
  end.

End DensityEstimation.

(** ** More of [duly/density_estimation_obsolete.py] *)

Module DensityMore.

Import DensityEstimation.

Local Open Scope R_scope.

(** [np.mean] of a one-dimensional array. *)
Definition np_mean (l : list R) : R :=
  fold_right Rplus 0 l / INR (length l).

(** [return_entropy] (lines 1367-1379). *)
Definition return_entropy (s : session) : result R :=
  no_ld <- attr_is_none s self_log_den ;;
  _ <- assert (negb no_ld) ;;
  log_den <- get_arr s self_log_den ;;
  Ok (- np_mean log_den).

Section MoreMethods.

Context {ext : Externals}.

(** Each point has, among its first [k*(i)] shells, one whose volume is
    below [1e-300]. *)
Definition every_point_underflows (d : R) (D : list (list R)) (ks : list Z)
  (n : nat) : Prop :=
  forall i, (i < n)%nat ->
    exists j, (j < Z.to_nat (nth i ks 0%Z))%nat /\
              shell_volume d D i j < tiny.

(** Three points of which the first two coincide, with their two
    neighbours each. *)
Definition coincident_distances : list (list R) :=
  [[0; 0; 1]; [0; 0; 1]; [0; 1; 1]].

Definition coincident_session : session :=
  setattr
    (setattr example_session self_distances (VArr2 coincident_distances))
    self_kstar (VIntArr example_kstar).

(** The sum of squares accumulated by the inner loop of
    [compute_density_kpeaks] for point [i]: over the ranks
    [1 <= j < k*(i)], the squared difference between the neighbourhood
    size of the neighbour of rank [j] and [k*(i)]. *)
Definition kpeaks_spread (ks : list Z) (DI : list (list Z)) (i : nat) : R :=
  let k := nth i ks 0%Z in
  fold_left
    (fun acc j =>
       acc + IZR ((nth (Z.to_nat (nth (Z.to_nat j) (nth i DI []) 0%Z))
                       ks 0%Z - k) ^ 2))
    (py_range 1 k) 0.

(** One iteration of the first loop of [compute_density_corr_kstarNN]
    (lines 384-398) on [dc], [log_den] and [log_den_min]. *)
Definition corr_kstarNN_body (s : session) (d prefactor : R) (i : nat)
  (st : list R * list R * R) : result (list R * list R * R) :=
  let '(dc, log_den, log_den_min) := st in
  kstar <- get_int_arr s self_kstar ;;
  distances <- get_arr2 s self_distances ;;
  k <- np_index kstar (Z.of_nat i) ;;
  r <- np_index2 distances (Z.of_nat i) k ;;
  dc <- np_setitem dc i r ;;
  log_den <- np_setitem log_den i (ln (IZR k) - ln prefactor) ;;
  rk <- np_index2 distances (Z.of_nat i) k ;;
  li <- np_index log_den (Z.of_nat i) ;;
  log_den <- np_setitem log_den i (li - d * ln rk) ;;
  li <- np_index log_den (Z.of_nat i) ;;
  Ok (dc, log_den, min_update li log_den_min).

(** One iteration of the second loop (lines 407-411):
    [A[i, j] = self.common_neighs[nspar] / 2.0]. *)
Definition corr_kstarNN_edge (s : session) (n : nat) (e : nat * (Z * Z))
  (A : matrix) : result matrix :=
  let '(nspar, (i, j)) := e in
  cn <- get_num_arr s self_common_neighs ;;
  c <- np_index cn (Z.of_nat nspar) ;;
  msetitem n A i j (c / 2.0).

(** [compute_density_corr_kstarNN] (lines 365-424). *)
Definition compute_density_corr_kstarNN (s : session) : result session :=
  no_cn <- attr_is_none s self_common_neighs ;;
  s1 <- (if no_cn then compute_common_neighs s else Ok s) ;;
  n <- get_size s1 self_N ;;
  d <- get_number s1 self_intrinsic_dim ;;
  let prefactor := prefactor_of d in
  '(dc, log_den, _) <-
     for_range n (corr_kstarNN_body s1 d prefactor)
               (zeros n, zeros n, 9.9e300) ;;
  let s2 := setattr (setattr s1 self_log_den (VArr (normalise n log_den)))
                    self_dc (VArr dc) in
  el <- get_pairs s2 self_nind_list ;;
  A <- for_each (enumerate el) (corr_kstarNN_edge s2 n) lil_matrix ;;
  let A := madd A (transpose A) in
  kstar <- get_int_arr s2 self_kstar ;;
  let A := setdiag A (map IZR kstar) in
  let s3 := setattr s2 self_A (VMatrix A) in
  B <- pinvh n A ;;
  let s4 := setattr s3 self_B (VMatrix B) in
  Ok (setattr s4 self_log_den_err (VArr (map sqrt (np_diag n B)))).

(** [np.linalg.norm] of a vector. *)
Definition norm (v : list R) : R :=
  sqrt (fold_right Rplus 0 (map (fun x => x * x) v)).

(** One iteration of the inner loop of [return_grads] (lines 1138-1141)
    on [mean_vec] and on the local [xjmxi], unbound until the first
    pass. *)
Definition return_grads_inner (s : session) (i : nat) (xi : list R)
  (j : Z) (st : list R * option (list R))
  : result (list R * option (list R)) :=
  let '(mean_vec, _) := st in
  X <- get_arr2 s self_X ;;
  dist_indices <- get_int_arr2 s self_dist_indices ;;
  jj <- np_index2 dist_indices (Z.of_nat i) (j + 1) ;;
  xj <- np_index X jj ;;
  xjmxi <- ew2 Rminus xj xi ;;
  mean_vec <- ew2 Rplus mean_vec xjmxi ;;
  Ok (mean_vec, Some xjmxi).

(** One iteration of the outer loop (lines 1132-1146). *)
Definition return_grads_body (s : session) (d : nat) (i : nat)
  (st : list (list R) * option (list R))
  : result (list (list R) * option (list R)) :=
  let '(grads, xjmxi) := st in
  X <- get_arr2 s self_X ;;
  xi <- np_index X (Z.of_nat i) ;;
  kstar <- get_int_arr s self_kstar ;;
  k <- np_index kstar (Z.of_nat i) ;;
  '(mean_vec, xjmxi) <-
     for_each (py_range 0 k) (return_grads_inner s i xi) (zeros d, xjmxi) ;;
  let mean_vec := map (fun m => m / IZR k) mean_vec in
  last <- match xjmxi with
          | Some v => Ok v
          | None => Raise (NameError "xjmxi")
          end ;;
  let r := norm last in
  id <- get_number s self_intrinsic_dim ;;
  let row := map (fun m => (id + 2) / r ^ 2 * m) mean_vec in
  _ <- (if (length row =? d)%nat then Ok tt else Raise ValueError) ;;
  grads <- np_setitem grads i row ;;
  Ok (grads, xjmxi).

(** [return_grads] (lines 1116-1152): the session it leaves and the
    array it returns.  An array of coordinates is stored by rows; of its
    shape, [shape[0]] is the number of rows and [shape[1]] the length of
    the rows. *)
Definition return_grads (s : session)
  : result (session * list (list R)) :=
  no_x <- attr_is_none s self_X ;;
  _ <- assert (negb no_x) ;;
  s1 <- ensure_kstar s ;;
  X <- get_arr2 s1 self_X ;;
  let d := length (hd [] X) in
  let n := length X in
  '(grads, _) <-
     for_range n (return_grads_body s1 d) (repeat (zeros d) n, None) ;;
  Ok (s1, grads).

(** The displacement from point [i] to its neighbour of rank [j]. *)
Definition displacement (X : list (list R)) (DI : list (list Z))
  (i : nat) (j : Z) : list R :=
  zip_with Rminus
    (nth (Z.to_nat (nth (Z.to_nat j) (nth i DI []) 0%Z)) X [])
    (nth i X []).

(** The sum of the displacements to the first [k] neighbours. *)
Definition displacement_sum (X : list (list R)) (DI : list (list Z))
  (d i : nat) (k : Z) : list R :=
  fold_left (fun acc j => zip_with Rplus acc (displacement X DI i (j + 1)))
            (py_range 0 k) (zeros d).

End MoreMethods.

(** The two routines of [cython_grads] that [compute_deltaFs_grad] calls
    when coordinates are there. *)
Class GradExternals : Type := {
  (** [cython_grads.return_deltaFs_from_coords(X, dist_indices, kstar,
      intrinsic_dim)] *)
  return_deltaFs_from_coords :
    value -> value -> value -> value -> result (value * value);
  (** [cython_grads.return_deltaFs_from_coords_and_grads(X, dist_indices,
      kstar, extgrads, extgrads_covmat)] *)
  return_deltaFs_from_coords_and_grads :
    value -> value -> value -> value -> value -> result (value * value)
}.

(** [np.where(row == x)[0][0]]: the first position of [x] in [row],
    counted from [off]; [IndexError] when there is none. *)
Fixpoint first_index (row : list Z) (x : Z) (off : nat) : result nat :=
  match row with
  | [] => Raise IndexError
  | y :: row' =>
      if (y =? x)%Z then Ok off else first_index row' x (S off)
  end.

Section GradMethods.

Context {ext : Externals} {gext : GradExternals}.

(** One iteration of the innermost loop of [compute_deltaFs_grad]
    (lines 1259-1269) on [Fij] and [Fij_sq]. *)
Definition deltaF_term (s : session) (i : nat) (j_idx : Z) (rij : R)
  (l : Z) (st : R * R) : result (R * R) :=
  let '(Fij, Fij_sq) := st in
  distances <- get_arr2 s self_distances ;;
  ril <- np_index2 distances (Z.of_nat i) l ;;
  dist_indices <- get_int_arr2 s self_dist_indices ;;
  l_idx <- np_index2 dist_indices (Z.of_nat i) l ;;
  row <- np_index dist_indices j_idx ;;
  idx_jl <- first_index row l_idx 0 ;;
  rjl <- np_index2 distances j_idx (Z.of_nat idx_jl) ;;
  let Fijl := (rij ^ 2 + ril ^ 2 - rjl ^ 2) / 2.0 in
  Ok (Fij + Fijl, Fij_sq + Fijl ^ 2).

(** One iteration of the loop over the neighbours (lines 1252-1281) on
    the arrays [Fijs] and [Fijs_var]. *)
Definition deltaF_pair (s : session) (i : nat) (k : Z) (rk : R) (j : Z)
  (st : list R * list R) : result (list R * list R) :=
  let '(Fijs, Fijs_var) := st in
  distances <- get_arr2 s self_distances ;;
  rij <- np_index2 distances (Z.of_nat i) j ;;
  dist_indices <- get_int_arr2 s self_dist_indices ;;
  j_idx <- np_index2 dist_indices (Z.of_nat i) j ;;
  '(Fij, Fij_sq) <-
     for_each (py_range 1 (k + 1)) (deltaF_term s i j_idx rij) (0, 0) ;;
  let Fij := Fij / IZR k in
  let Fij_sq := Fij_sq / IZR k in
  id <- get_number s self_intrinsic_dim ;;
  let Fij := (id + 2) / rk ^ 2 * Fij in
  id' <- get_number s self_intrinsic_dim ;;
  let Var_ij := ((id' + 2) / rk ^ 2) ^ 2 * Fij_sq - Fij ^ 2 in
  Fijs <- np_setitem Fijs (Z.to_nat (j - 1)) Fij ;;
  Fijs_var <- np_setitem Fijs_var (Z.to_nat (j - 1)) Var_ij ;;
  Ok (Fijs, Fijs_var).

(** One iteration of the loop over the points (lines 1241-1284).  The
    two arrays come from [np.empty(k)]; every entry is written before the
    arrays are appended. *)
Definition deltaF_point (s : session) (i : nat)
  (st : list (list R) * list (list R))
  : result (list (list R) * list (list R)) :=
  let '(Fij_list, Fij_var_list) := st in
  kstar <- get_int_arr s self_kstar ;;
  k <- np_index kstar (Z.of_nat i) ;;
  distances <- get_arr2 s self_distances ;;
  rk <- np_index2 distances (Z.of_nat i) k ;;
  _ <- (if (k <? 0)%Z then Raise ValueError else Ok tt) ;;
  '(Fijs, Fijs_var) <-
     for_each (py_range 1 (k + 1)) (deltaF_pair s i k rk)
              (zeros (Z.to_nat k), zeros (Z.to_nat k)) ;;
  Ok (Fij_list ++ [Fijs], Fij_var_list ++ [Fijs_var]).

(** [compute_deltaFs_grad] (lines 1200-1288); [extgrads] and
    [extgrads_covmat] are [VNone] when left out. *)
Definition compute_deltaFs_grad (extgrads extgrads_covmat : value)
  (s : session) : result session :=
  s1 <- ensure_kstar s ;;
  no_x <- attr_is_none s1 self_X ;;
  '(Fij_list, Fij_var_list) <-
     (if negb no_x then
        if is_none extgrads then
          x <- getattr s1 self_X ;;
          di <- getattr s1 self_dist_indices ;;
          ks <- getattr s1 self_kstar ;;
          id <- getattr s1 self_intrinsic_dim ;;
          return_deltaFs_from_coords x di ks id
        else
          _ <- assert (negb (is_none extgrads_covmat)) ;;
          x <- getattr s1 self_X ;;
          di <- getattr s1 self_dist_indices ;;
          ks <- getattr s1 self_kstar ;;
          return_deltaFs_from_coords_and_grads x di ks extgrads
                                               extgrads_covmat
      else
        n <- get_size s1 self_N ;;
        '(Fij_list, Fij_var_list) <-
           for_range n (deltaF_point s1) ([], []) ;;
        Ok (VArr2 Fij_list, VArr2 Fij_var_list)) ;;
  Ok (setattr (setattr s1 self_Fij_list Fij_list)
              self_Fij_var_list Fij_var_list).

End GradMethods.

(** The position of the first [x] in [row], its length when there is
    none. *)
Fixpoint index_in (row : list Z) (x : Z) : nat :=
  match row with
  | [] => O
  | y :: row' => if (y =? x)%Z then O else S (index_in row' x)
  end.

(** The neighbour of rank [j] of point [i]. *)
Definition neighbour (DI : list (list Z)) (i : nat) (j : Z) : Z :=
  nth (Z.to_nat j) (nth i DI []) 0%Z.

(** [(r_ij^2 + r_il^2 - r_jl^2) / 2] for the neighbours of ranks [j] and
    [l] of point [i], [r_jl] read in the row of the first of them. *)
Definition Fijl (D : list (list R)) (DI : list (list Z)) (i : nat)
  (j l : Z) : R :=
  let j_idx := Z.to_nat (neighbour DI i j) in
  let rjl := nth (index_in (nth j_idx DI []) (neighbour DI i l))
                 (nth j_idx D []) 0 in
  (r_k D i j ^ 2 + r_k D i l ^ 2 - rjl ^ 2) / 2.0.

(** The mean over the [k] neighbours [l] of a function of [l]. *)
Definition mean_over (k : Z) (f : Z -> R) : R :=
  fold_left (fun acc l => acc + f l) (py_range 1 (k + 1)) 0 / IZR k.

(** The distance table [D] and the neighbour table [DI] have the same
    shape, [k*(i)] is a column of row [i], the neighbours of rank up to
    [k*(i)] are points, and each of them lists all of them among its own
    neighbours. *)
Definition tables_fit (n : nat) (D : list (list R)) (DI : list (list Z))
  (ks : list Z) : Prop :=
  length D = n /\ length DI = n /\ length ks = n /\
  (forall r, (r < n)%nat -> length (nth r D []) = length (nth r DI [])) /\
  forall i, (i < n)%nat ->
    (0 <= nth i ks 0%Z < Z.of_nat (length (nth i D [])))%Z /\
    forall j, (1 <= j <= nth i ks 0%Z)%Z ->
      (0 <= neighbour DI i j < Z.of_nat n)%Z /\
      forall l, (1 <= l <= nth i ks 0%Z)%Z ->
        In (neighbour DI i l) (nth (Z.to_nat (neighbour DI i j)) DI []).

(** Stand-ins for the two compiled routines, and the example session
    without its coordinates. *)
Definition example_grad_externals : GradExternals := {|
  return_deltaFs_from_coords := fun _ _ _ _ => Ok (VArr2 [], VArr2 []);
  return_deltaFs_from_coords_and_grads :=
    fun _ _ _ _ _ => Ok (VArr2 [], VArr2 [])
|}.

Definition example_neighbours : list (list Z) :=
  [[0; 1; 2]; [1; 0; 2]; [2; 1; 0]]%Z.

Definition example_session_distances_only : session :=
  setattr example_session_k2 self_X VNone.

End DensityMore.

(** ** More of [duly/_base.py] *)

Module BaseMore.

Import Base.

(** A list comprehension whose element expression may raise. *)
Fixpoint map_result {A B : Type} (f : A -> result B) (l : list A)
  : result (list B) :=
  match l with
  | [] => Ok []
  | x :: l' =>
      y <- f x ;;
      ys <- map_result f l' ;;
      Ok (y :: ys)
  end.

(** [np.nonzero(mask)[0]]: the positions that hold [True], in increasing
    order, counted from [off]. *)
Fixpoint nonzero_from (off : nat) (mask : list bool) : list nat :=
  match mask with
  | [] => []
  | b :: mask' =>
      if b then off :: nonzero_from (S off) mask'
      else nonzero_from (S off) mask'
  end.

Definition nonzero (mask : list bool) : list nat := nonzero_from 0 mask.

Section RemoveZeroDists.

(** The element type of the array, with numpy's [<] on it. *)
Variable T : Type.
Variable ltb_T : T -> T -> bool.

(** What evaluating [np.finfo(self.dtype).eps] gives on the object: the
    machine epsilon of a float dtype, an [AttributeError] when [dtype]
    was never assigned, a [ValueError] for a dtype that is not
    inexact. *)
Variable finfo_eps : result T.

(** [a[:, c]]. *)
Definition get_column (a : ndarray T) (c : nat) : result (list T) :=
  if (c <? ncols a)%nat
  then map_result (fun r => np_index r (Z.of_nat c)) (rows a)
  else Raise IndexError.

(** [a[idx, c] = v] with an index array [idx] and a scalar [v]. *)
Definition set_column_at (a : ndarray T) (idx : list nat) (c : nat) (v : T)
  : result (ndarray T) :=
  if (c <? ncols a)%nat
  then rs <- for_each idx
               (fun i rs =>
                  r <- np_index rs (Z.of_nat i) ;;
                  r' <- np_setitem r c v ;;
                  np_setitem rs i r')
               (rows a) ;;
       Ok (mk_ndarray (ncols a) rs)
  else Raise IndexError.

(** [_remove_zero_dists] (lines 177-191).  The array is updated in
    place and returned: the result is the new content of the
    argument. *)
Definition _remove_zero_dists (distances : ndarray T)
  : result (ndarray T) :=
  col <- get_column distances 1 ;;
  eps <- finfo_eps ;;
  let indx_ := nonzero (map (fun x => ltb_T x eps) col) in
  eps' <- finfo_eps ;;
  set_column_at distances indx_ 1 eps'.

End RemoveZeroDists.

(** The entries of [l] that occur neither in [seen] nor earlier in [l],
    each with its position counted from [off]. *)
Fixpoint first_from {T : Type} (eqb_T : T -> T -> bool) (seen : list T)
  (off : nat) (l : list T) : list (nat * T) :=
  match l with
  | [] => []
  | v :: l' =>
      if existsb (eqb_T v) seen then first_from eqb_T seen (S off) l'
      else (off, v) :: first_from eqb_T (v :: seen) (S off) l'
  end.

(** The positions of the first occurrences in [ar], in increasing order,
    and the values found there. *)
Definition first_positions {T : Type} (eqb_T : T -> T -> bool)
  (ar : list T) : list nat :=
  map fst (first_from eqb_T [] 0 ar).

Definition first_values {T : Type} (eqb_T : T -> T -> bool)
  (ar : list T) : list T :=
  map snd (first_from eqb_T [] 0 ar).

(** The entry [a[i, c]], with [d] where the array has none. *)
Definition entry {T : Type} (d : T) (a : ndarray T) (i c : nat) : T :=
  nth c (nth i (rows a) []) d.

(** Every row has [ncols] entries. *)
Definition well_formed {T : Type} (a : ndarray T) : Prop :=
  forall r, In r (rows a) -> length r = ncols a.

(** Nearest-neighbour distances of three points, the first two of which
    coincide, in units of the machine epsilon [1]. *)
Definition example_dists : ndarray Z :=
  mk_ndarray 3 [[0; 0; 5]; [0; 0; 5]; [0; 5; 5]]%Z.

End BaseMore.

(** * Properties *)

Unset Implicit Arguments.

(** ** Lists and loops *)

Lemma length_set_nth {A : Type} (a : list A) (i : nat) (v : A) :
  length (set_nth a i v) = length a.
Proof.
  revert i; induction a as [|x a IH]; intros [|i]; simpl; auto.
Qed.

Lemma nth_set_nth_eq {A : Type} (a : list A) (i : nat) (v d : A) :
  (i < length a)%nat -> nth i (set_nth a i v) d = v.
Proof.
  revert i; induction a as [|x a IH]; intros [|i] H; simpl in *;
    try lia; auto.
  apply IH; lia.
Qed.

Lemma nth_set_nth_neq {A : Type} (a : list A) (i j : nat) (v d : A) :
  i <> j -> nth j (set_nth a i v) d = nth j a d.
Proof.
  revert i j; induction a as [|x a IH]; intros [|i] [|j] H; simpl;
    try congruence; auto.
Qed.

Lemma np_index_nat {A : Type} (a : list A) (i : nat) (d : A) :
  (i < length a)%nat -> np_index a (Z.of_nat i) = Ok (nth i a d).
Proof.
  intros H. unfold np_index.
  destruct (Z.ltb_spec (Z.of_nat i) 0); [lia|].
  destruct (Z.leb_spec 0 (Z.of_nat i)); [|lia].
  destruct (Z.ltb_spec (Z.of_nat i) (Z.of_nat (length a))); [|lia].
  simpl. rewrite Nat2Z.id.
  destruct (nth_error a i) eqn:E.
  - f_equal. symmetry. now apply nth_error_nth.
  - apply nth_error_None in E. lia.
Qed.

Lemma np_index_Z {A : Type} (a : list A) (k : Z) (d : A) :
  (0 <= k < Z.of_nat (length a))%Z ->
  np_index a k = Ok (nth (Z.to_nat k) a d).
Proof.
  intros H. rewrite <- (Z2Nat.id k) at 1 by lia.
  apply np_index_nat. lia.
Qed.

Lemma np_index2_nat {A : Type} (a : list (list A)) (i : nat) (k : Z) (d : A) :
  (i < length a)%nat ->
  (0 <= k < Z.of_nat (length (nth i a [])))%Z ->
  np_index2 a (Z.of_nat i) k = Ok (nth (Z.to_nat k) (nth i a []) d).
Proof.
  intros Hi Hk. unfold np_index2.
  rewrite (np_index_nat a i [] Hi). simpl.
  now apply np_index_Z.
Qed.

Lemma np_setitem_ok {A : Type} (a : list A) (i : nat) (v : A) :
  (i < length a)%nat -> np_setitem a i v = Ok (set_nth a i v).
Proof.
  intros H. unfold np_setitem.
  destruct (Nat.ltb_spec i (length a)); [reflexivity|lia].
Qed.

(** A loop invariant indexed by the number of iterations done. *)
Lemma for_each_seq_inv {St : Type} (P : nat -> St -> Prop)
  (body : nat -> St -> result St) (len a : nat) (st : St) :
  P a st ->
  (forall i st0, (a <= i < a + len)%nat -> P i st0 ->
     exists st1, body i st0 = Ok st1 /\ P (S i) st1) ->
  exists st', for_each (seq a len) body st = Ok st' /\ P (a + len)%nat st'.
Proof.
  revert a st; induction len as [|len IH]; intros a st H0 Hstep; simpl.
  - exists st. rewrite Nat.add_0_r. auto.
  - destruct (Hstep a st) as (st1 & E & H1); [lia|assumption|].
    rewrite E. simpl.
    destruct (IH (S a) st1 H1) as (st' & E' & H').
    + intros i st0 Hi. apply Hstep. lia.
    + exists st'. split; [assumption|].
      now replace (a + S len)%nat with (S a + len)%nat by lia.
Qed.

Lemma for_range_inv {St : Type} (P : nat -> St -> Prop)
  (body : nat -> St -> result St) (n : nat) (st : St) :
  P 0%nat st ->
  (forall i st0, (i < n)%nat -> P i st0 ->
     exists st1, body i st0 = Ok st1 /\ P (S i) st1) ->
  exists st', for_range n body st = Ok st' /\ P n st'.
Proof.
  intros H0 Hstep. unfold for_range.
  apply (for_each_seq_inv P body n 0%nat st H0).
  intros i st0 Hi. apply Hstep. lia.
Qed.

Lemma filled_zeros (f : nat -> R) (n : nat) :
  filled f n 0 (repeat 0%R n).
Proof.
  split; [apply repeat_length|]. intros j Hj; lia.
Qed.

Lemma filled_set (f : nat -> R) (n m : nat) (a : list R) (v : R) :
  filled f n m a -> filled f n m (set_nth a m v).
Proof.
  intros [Hl Hf]. split.
  - now rewrite length_set_nth.
  - intros j Hj. rewrite nth_set_nth_neq by lia. now apply Hf.
Qed.

Lemma filled_step (f : nat -> R) (n m : nat) (a : list R) :
  (m < n)%nat -> filled f n m a -> filled f n (S m) (set_nth a m (f m)).
Proof.
  intros Hm [Hl Hf]. split.
  - now rewrite length_set_nth.
  - intros j Hj. destruct (Nat.eq_dec j m) as [->|Hne].
    + apply nth_set_nth_eq. lia.
    + rewrite nth_set_nth_neq by lia. apply Hf. lia.
Qed.

Lemma filled_all (f : nat -> R) (n : nat) (a : list R) :
  filled f n n a -> a = map f (seq 0 n).
Proof.
  intros [Hl Hf].
  apply (nth_ext a (map f (seq 0 n)) 0%R (f 0%nat)).
  - now rewrite length_map, length_seq.
  - intros j Hj. rewrite Hf by lia.
    rewrite (map_nth f (seq 0 n) 0%nat j). now rewrite seq_nth by lia.
Qed.

(** ** Attribute access *)

Section Getters.

Import DensityEstimation.

Variable s : session.
Variable a : attr.

Lemma attr_is_none_value (v : value) :
  s a = v -> v <> VUnset -> attr_is_none s a = Ok (is_none v).
Proof.
  intros H Hv. unfold attr_is_none, getattr. rewrite H.
  destruct v; try reflexivity. congruence.
Qed.

Lemma get_size_ok (n : nat) :
  s a = VInt (Z.of_nat n) -> get_size s a = Ok n.
Proof.
  intros H. unfold get_size, get_int, getattr. rewrite H. simpl.
  destruct (Z.ltb_spec (Z.of_nat n) 0); [lia|].
  now rewrite Nat2Z.id.
Qed.

Lemma get_number_float (x : R) :
  s a = VFloat x -> get_number s a = Ok x.
Proof. intros H. unfold get_number, getattr. now rewrite H. Qed.

Lemma get_int_arr_ok (l : list Z) :
  s a = VIntArr l -> get_int_arr s a = Ok l.
Proof. intros H. unfold get_int_arr, getattr. now rewrite H. Qed.

Lemma get_int_arr2_ok (l : list (list Z)) :
  s a = VIntArr2 l -> get_int_arr2 s a = Ok l.
Proof. intros H. unfold get_int_arr2, getattr. now rewrite H. Qed.

Lemma get_pairs_ok (l : list (Z * Z)) :
  s a = VPairs l -> get_pairs s a = Ok l.
Proof. intros H. unfold get_pairs, getattr. now rewrite H. Qed.

Lemma get_arr_ok (l : list R) :
  s a = VArr l -> get_arr s a = Ok l.
Proof. intros H. unfold get_arr, getattr. now rewrite H. Qed.

Lemma get_arr2_ok (l : list (list R)) :
  s a = VArr2 l -> get_arr2 s a = Ok l.
Proof. intros H. unfold get_arr2, getattr. now rewrite H. Qed.

Lemma get_arr3_ok (l : list (list (list R))) :
  s a = VArr3 l -> get_arr3 s a = Ok l.
Proof. intros H. unfold get_arr3, getattr. now rewrite H. Qed.

End Getters.

(** ** The fixed-k estimator *)

Section KNN.

Import DensityEstimation.

Context {ext : Externals}.

Local Open Scope R_scope.

(** The log-gamma form of the prefactor is the volume of the unit ball. *)
Lemma prefactor_is_V_d (d : R) : prefactor_of d = V_d d.
Proof.
  unfold prefactor_of, V_d, Gamma, Rpower, Rdiv, Rminus.
  rewrite exp_plus, exp_Ropp.
  replace ((d + 2) * / 2) with (d * / 2 + 1) by lra.
  reflexivity.
Qed.

(** What [set_kstar] leaves in the session. *)
Lemma set_kstar_int_run (s : session) (n : nat) (k : Z) :
  s self_N = VInt (Z.of_nat n) ->
  exists s1, set_kstar (KInt k) s = Ok s1 /\
    s1 self_kstar = VIntArr (repeat k n) /\
    s1 self_N = s self_N /\
    s1 self_intrinsic_dim = s self_intrinsic_dim /\
    s1 self_distances = s self_distances /\
    s1 self_maxk = s self_maxk /\
    s1 self_dist_indices = s self_dist_indices.
Proof.
  intros HN. unfold set_kstar. rewrite (get_size_ok s self_N n HN).
  simpl. eexists. split; [reflexivity|]. repeat split.
Qed.

Lemma loop_filled_init (fdc fld ferr : nat -> R) (n : nat) :
  loop_filled fdc fld ferr n 0 (init_loop_state n).
Proof.
  unfold loop_filled, init_loop_state, zeros.
  repeat split; try apply repeat_length; intros j Hj; lia.
Qed.

Lemma kNN_body_step (s : session) (n : nat) (d pref : R)
  (D : list (list R)) (k : Z) (i : nat) (st : loop_state) :
  s self_kstar = VIntArr (repeat k n) ->
  s self_distances = VArr2 D ->
  length D = n ->
  (i < n)%nat ->
  (0 <= k < Z.of_nat (length (nth i D [])))%Z ->
  loop_filled (fun i => r_k D i k)
              (fun i => ln (IZR k) - (ln pref + d * ln (r_k D i k)))
              (fun _ => 1 / sqrt (IZR k)) n i st ->
  exists st', kNN_body s d pref i st = Ok st' /\
    loop_filled (fun i => r_k D i k)
                (fun i => ln (IZR k) - (ln pref + d * ln (r_k D i k)))
                (fun _ => 1 / sqrt (IZR k)) n (S i) st'.
Proof.
  intros Hk HD HlD Hi Hrow Hst.
  destruct st as [[[dc ld] lde] mn].
  destruct Hst as ([Ldc Fdc] & [Lld Fld] & [Lerr Ferr]).
  unfold kNN_body.
  rewrite (get_int_arr_ok s self_kstar _ Hk),
          (get_arr2_ok s self_distances _ HD). simpl.
  rewrite (np_index_nat (repeat k n) i k) by (rewrite repeat_length; lia).
  rewrite nth_repeat. simpl.
  rewrite (np_index2_nat D i k 0) by (try lia; assumption). simpl.
  rewrite np_setitem_ok by lia. simpl.
  rewrite np_setitem_ok by lia. simpl.
  rewrite np_setitem_ok by lia. simpl.
  rewrite (np_index_nat _ i 0) by (rewrite length_set_nth; lia). simpl.
  eexists. split; [reflexivity|].
  repeat split; try (rewrite length_set_nth; assumption).
  - apply (filled_step (fun i => r_k D i k) n i dc Hi (conj Ldc Fdc)).
  - apply (filled_step
             (fun i => ln (IZR k) - (ln pref + d * ln (r_k D i k)))
             n i ld Hi (conj Lld Fld)).
  - apply (filled_step (fun _ => 1 / sqrt (IZR k)) n i lde Hi
             (conj Lerr Ferr)).
Qed.

Lemma kNN_run (s : session) (n : nat) (d : R) (D : list (list R)) (k : Z) :
  inputs_ready s n d D ->
  (forall i, (i < n)%nat -> (0 <= k < Z.of_nat (length (nth i D [])))%Z) ->
  exists s1, set_kstar (KInt k) s = Ok s1 /\
    compute_density_kNN k s =
    Ok (store_density s1
          (normalise n (map (fun i => kNN_estimate d D i k) (seq 0 n)))
          (map (fun _ => 1 / sqrt (IZR k)) (seq 0 n))
          (map (fun i => r_k D i k) (seq 0 n))).
Proof.
  intros (HN & Hd & HD & HlD) Hk.
  destruct (set_kstar_int_run s n k HN)
    as (s1 & E1 & Hks & HN1 & Hd1 & HD1 & _).
  exists s1. split; [assumption|].
  unfold compute_density_kNN.
  rewrite (attr_is_none_value s self_intrinsic_dim (VFloat d) Hd)
    by discriminate.
  simpl. rewrite E1. simpl.
  rewrite (get_size_ok s1 self_N n) by congruence. simpl.
  rewrite (get_number_float s1 self_intrinsic_dim d) by congruence. simpl.
  destruct (for_range_inv
              (loop_filled (fun i => r_k D i k)
                 (fun i => ln (IZR k)
                           - (ln (prefactor_of d) + d * ln (r_k D i k)))
                 (fun _ => 1 / sqrt (IZR k)) n)
              (kNN_body s1 d (prefactor_of d)) n (init_loop_state n))
    as ([[[dc ld] lde] mn] & E & Fdc & Fld & Ferr).
  - apply loop_filled_init.
  - intros i st Hi Hst.
    apply (kNN_body_step s1 n d (prefactor_of d) D k i st); auto.
    congruence.
  - rewrite E. simpl.
    rewrite (filled_all _ _ _ Fdc), (filled_all _ _ _ Fld),
            (filled_all _ _ _ Ferr).
    reflexivity.
Qed.

Lemma nth_normalise (n : nat) (l : list R) (i : nat) :
  (i < length l)%nat -> nth i (normalise n l) 0 = nth i l 0 - ln (INR n).
Proof.
  intros H. unfold normalise.
  rewrite (nth_indep _ 0 ((fun x => x - ln (INR n)) 0))
    by (rewrite length_map; assumption).
  apply (map_nth (fun x => x - ln (INR n))).
Qed.

Lemma nth_map_seq (f : nat -> R) (n i : nat) :
  (i < n)%nat -> nth i (map f (seq 0 n)) 0 = f i.
Proof.
  intros H.
  rewrite (nth_indep _ 0 (f 0%nat)) by (rewrite length_map, length_seq; lia).
  rewrite (map_nth f (seq 0 n) 0%nat i). now rewrite seq_nth by lia.
Qed.

End KNN.

(** C7: [compute_density_kNN] with parameter [k] leaves, for every point
    [i], [log_den[i] = log k - log V_d - d log r_k(i) - log N],
    [log_den_err[i] = 1/sqrt k] and [dc[i] = r_k(i)], where the prefactor
    computed in log-gamma form is [V_d = pi^(d/2) / Gamma(d/2 + 1)]. *)
Theorem kNN_density_formula :
  forall (ext : DensityEstimation.Externals)
         (s : DensityEstimation.session) (n : nat) (d : R)
         (D : list (list R)) (k : Z),
    DensityEstimation.inputs_ready s n d D ->
    (forall i, (i < n)%nat ->
       (0 <= k < Z.of_nat (length (nth i D [])))%Z) ->
    DensityEstimation.prefactor_of d = DensityEstimation.V_d d /\
    exists s' log_den log_den_err dc,
      DensityEstimation.compute_density_kNN k s = Ok s' /\
      s' DensityEstimation.self_log_den = DensityEstimation.VArr log_den /\
      s' DensityEstimation.self_log_den_err
        = DensityEstimation.VArr log_den_err /\
      s' DensityEstimation.self_dc = DensityEstimation.VArr dc /\
      forall i, (i < n)%nat ->
        (nth i log_den 0
         = ln (IZR k) - ln (DensityEstimation.V_d d)
           - d * ln (DensityEstimation.r_k D i k) - ln (INR n) /\
         nth i log_den_err 0 = 1 / sqrt (IZR k) /\
         nth i dc 0 = DensityEstimation.r_k D i k)%R.
Proof.
  intros ext s n d D k Hin Hk.
  split; [apply prefactor_is_V_d|].
  destruct (kNN_run s n d D k Hin Hk) as (s1 & _ & E).
  do 4 eexists. split; [exact E|].
  split; [reflexivity|]. split; [reflexivity|]. split; [reflexivity|].
  intros i Hi.
  rewrite nth_normalise by (rewrite length_map, length_seq; lia).
  rewrite !nth_map_seq by assumption.
  unfold DensityEstimation.kNN_estimate. rewrite prefactor_is_V_d.
  repeat split. lra.
Qed.

Lemma kNN_density_formula_witness :
  DensityEstimation.inputs_ready DensityEstimation.example_session 3 2
    DensityEstimation.example_distances /\
  exists s',
    DensityEstimation.compute_density_kNN
      (ext := DensityEstimation.example_externals) 1
      DensityEstimation.example_session = Ok s'.
Proof.
  assert (Hin : DensityEstimation.inputs_ready
                  DensityEstimation.example_session 3 2
                  DensityEstimation.example_distances)
    by (repeat split; reflexivity).
  split; [exact Hin|].
  destruct (kNN_density_formula DensityEstimation.example_externals
              DensityEstimation.example_session 3 2
              DensityEstimation.example_distances 1 Hin)
    as (_ & s' & _ & _ & _ & E & _).
  - intros [|[|[|i]]] Hi; simpl; lia.
  - exists s'. exact E.
Defined.

(** ** [set_kstar] *)

(** C6: after [set_kstar(k)], [kstar] holds [k] (broadcast to the [N]
    points when [k] is a scalar), each of the fourteen derived caches is
    [None], and every other attribute is unchanged. *)
Theorem set_kstar_resets_caches :
  forall (s : DensityEstimation.session) (k : DensityEstimation.kstar_arg)
         (n : nat),
    match k with
    | DensityEstimation.KInt _ =>
        s DensityEstimation.self_N = DensityEstimation.VInt (Z.of_nat n)
    | DensityEstimation.KArr _ => True
    end ->
    exists s',
      DensityEstimation.set_kstar k s = Ok s' /\
      s' DensityEstimation.self_kstar
        = DensityEstimation.VIntArr (DensityEstimation.broadcast n k) /\
      (forall a,
         In a [ DensityEstimation.self_neigh_vector_diffs;
                DensityEstimation.self_nind_list;
                DensityEstimation.self_nind_iptr;
                DensityEstimation.self_nind_mat;
                DensityEstimation.self_common_neighs;
                DensityEstimation.self_dc;
                DensityEstimation.self_log_den;
                DensityEstimation.self_log_den_err;
                DensityEstimation.self_grads;
                DensityEstimation.self_grads_var;
                DensityEstimation.self_Fij_list;
                DensityEstimation.self_Fij_var_list;
                DensityEstimation.self_Fij_array;
                DensityEstimation.self_Fij_var_array ] ->
         s' a = DensityEstimation.VNone) /\
      (forall a,
         a <> DensityEstimation.self_kstar ->
         ~ In a [ DensityEstimation.self_neigh_vector_diffs;
                  DensityEstimation.self_nind_list;
                  DensityEstimation.self_nind_iptr;
                  DensityEstimation.self_nind_mat;
                  DensityEstimation.self_common_neighs;
                  DensityEstimation.self_dc;
                  DensityEstimation.self_log_den;
                  DensityEstimation.self_log_den_err;
                  DensityEstimation.self_grads;
                  DensityEstimation.self_grads_var;
                  DensityEstimation.self_Fij_list;
                  DensityEstimation.self_Fij_var_list;
                  DensityEstimation.self_Fij_array;
                  DensityEstimation.self_Fij_var_array ] ->
         s' a = s a).
Proof.
  intros s k n Hk.
  assert (E : exists s1,
             match k with
             | DensityEstimation.KArr a =>
                 Ok (DensityEstimation.setattr s DensityEstimation.self_kstar
                       (DensityEstimation.VIntArr a))
             | DensityEstimation.KInt z =>
                 bind (DensityEstimation.get_size s DensityEstimation.self_N)
                      (fun m =>
                         Ok (DensityEstimation.setattr s
                               DensityEstimation.self_kstar
                               (DensityEstimation.VIntArr (repeat z m))))
             end = Ok s1 /\
             s1 = DensityEstimation.setattr s DensityEstimation.self_kstar
                    (DensityEstimation.VIntArr
                       (DensityEstimation.broadcast n k))).
  { destruct k as [z|a].
    - rewrite (get_size_ok s DensityEstimation.self_N n Hk). simpl.
      eexists; split; reflexivity.
    - eexists; split; reflexivity. }
  destruct E as (s1 & E & ->).
  unfold DensityEstimation.set_kstar. rewrite E. simpl.
  eexists. split; [reflexivity|].
  split; [reflexivity|]. split.
  - intros a Ha. simpl in Ha.
    repeat (destruct Ha as [<-|Ha]; [reflexivity|]). contradiction.
  - intros a Hne Hnot.
    destruct a; try reflexivity; try congruence;
      exfalso; apply Hnot; simpl; tauto.
Qed.

Lemma set_kstar_resets_caches_witness :
  exists s',
    DensityEstimation.set_kstar (DensityEstimation.KInt 2)
      DensityEstimation.example_session = Ok s' /\
    s' DensityEstimation.self_kstar
      = DensityEstimation.VIntArr [2; 2; 2]%Z /\
    s' DensityEstimation.self_log_den = DensityEstimation.VNone /\
    s' DensityEstimation.self_distances
      = DensityEstimation.VArr2 DensityEstimation.example_distances.
Proof.
  destruct (set_kstar_resets_caches DensityEstimation.example_session
              (DensityEstimation.KInt 2) 3 eq_refl)
    as (s' & E & Hk & Hc & Hf).
  exists s'. split; [exact E|]. split; [exact Hk|]. split.
  - apply Hc. simpl. tauto.
  - rewrite Hf; [reflexivity|discriminate|].
    simpl. intros H. repeat (destruct H as [H|H]; [discriminate|]).
    exact H.
Defined.

(** ** [Base.__init__] *)

Section BaseInit.

Import Base.

Variable T : Type.
Variable eqb_T leb_T : T -> T -> bool.
Variable reduce : ndarray T -> Z -> result (ndarray T * ndarray T).

Lemma is_ndarray_unbound :
  load_name_truth "is_ndarray" = Raise (NameError "is_ndarray").
Proof. reflexivity. Qed.

(** The tuple branch never completes: it stops at the unbound name at the
    latest. *)
Lemma init_distances_tuple_raises (d : pyval T) (o : obj T) :
  exists e, init_distances_tuple d o = Raise e.
Proof.
  unfold init_distances_tuple.
  destruct (getitem d 0) as [d0|e]; simpl; [|eauto].
  destruct (shape_of d0) as [[n0 c0]|e]; simpl; [|eauto].
  destruct (getitem d 1) as [d1|e]; simpl; [|eauto].
  destruct (shape_of d1) as [[n1 c1]|e]; simpl; [|eauto].
  destruct (assert (n0 =? n1)%nat) as [[]|e]; simpl; [|eauto].
  destruct (assert (is_ndarray_instance d0)) as [[]|e]; simpl; [|eauto].
  destruct (assert (is_ndarray_instance d1)) as [[]|e]; simpl; [|eauto].
  destruct d0 as [|a0| |]; eauto.
  destruct d1 as [|a1| |]; eauto.
  match goal with
  | |- context [maxk_plus_1 ?o'] =>
      destruct (maxk_plus_1 o') as [stop|e]; simpl; [|eauto]
  end.
  try rewrite is_ndarray_unbound; simpl; eauto.
Qed.

Lemma init_distances_tuple_pair (a0 a1 : ndarray T) (more : list (pyval T))
  (o : obj T) :
  shape0 a0 = shape0 a1 ->
  init_distances_tuple (PyTuple (PyNdarray a0 :: PyNdarray a1 :: more)) o
  = Raise (NameError "is_ndarray").
Proof.
  intros Hs. unfold init_distances_tuple, getitem.
  rewrite (np_index_nat _ 0 PyNone) by (simpl; lia).
  cbn [bind nth shape_of].
  change 1%Z with (Z.of_nat 1).
  rewrite (np_index_nat _ 1 PyNone) by (simpl; lia).
  simpl. rewrite Hs, Nat.eqb_refl. simpl.
  destruct o as [x [k|] v nj dm ne ds di]; reflexivity.
Qed.

End BaseInit.

(** C9: when [distances] is a tuple, [Base.__init__] never returns an
    object; when the tuple starts with a distance matrix and an index
    matrix of the same number of rows and the coordinate block went
    through, the exception is the [NameError] of the unbound name
    [is_ndarray]. *)
Theorem init_tuple_distances_NameError :
  forall (T : Type) (eqb_T leb_T : T -> T -> bool)
         (reduce : Base.ndarray T -> Z
                   -> result (Base.ndarray T * Base.ndarray T))
         (args : Base.init_args T) (items : list (Base.pyval T)),
    Base.arg_distances args = Base.PyTuple items ->
    (forall o, Base.__init__ eqb_T leb_T reduce args <> Ok o) /\
    (forall o1 a0 a1 more,
       Base.init_coordinates eqb_T leb_T args (Base.init_attributes args)
       = Ok o1 ->
       items = Base.PyNdarray a0 :: Base.PyNdarray a1 :: more ->
       Base.shape0 a0 = Base.shape0 a1 ->
       Base.__init__ eqb_T leb_T reduce args
       = Raise (NameError "is_ndarray")).
Proof.
  intros T eqb_T leb_T reduce args items Hd. split.
  - intros o. unfold Base.__init__.
    destruct (Base.init_coordinates eqb_T leb_T args
                (Base.init_attributes args)) as [o1|e]; simpl;
      [|discriminate].
    unfold Base.init_distances. rewrite Hd. simpl.
    destruct (init_distances_tuple_raises T (Base.PyTuple items) o1)
      as (e & ->).
    discriminate.
  - intros o1 a0 a1 more Hc -> Hs.
    unfold Base.__init__. rewrite Hc. simpl.
    unfold Base.init_distances. rewrite Hd. simpl.
    now apply init_distances_tuple_pair.
Qed.

Lemma init_tuple_distances_NameError_witness :
  Base.init_Z Base.args_with_pair = Raise (NameError "is_ndarray").
Proof.
  exact (proj2 (init_tuple_distances_NameError Z Z.eqb Z.leb
                  Base.no_reduction Base.args_with_pair _ eq_refl)
               _ _ _ _ eq_refl eq_refl eq_refl).
Defined.

(** C10 at work: with [remove_identical_points] left at [True], a point
    set holding the same point twice is stored unchanged, with both copies
    and [Nele = 2]; a set of two distinct points is refused with an
    [IndexError].  [np.unique] is called without [axis=0], so it returns
    positions in the flattened array, which are then used as row
    numbers. *)
Theorem init_keeps_identical_points :
  (exists o,
     Base.init_Z Base.args_twice_same_point = Ok o /\
     Base.X o = Base.PyNdarray (Base.mk_ndarray 2 [[1; 2]; [1; 2]]%Z) /\
     Base.Nele o = Some 2%nat /\
     Base.has_duplicate [[1; 2]; [1; 2]]%Z = true) /\
  Base.init_Z Base.args_two_points = Raise IndexError.
Proof.
  split; [eexists; repeat split|]; reflexivity.
Qed.

(** ** The kstar-NN and k-peaks estimators *)

Lemma for_each_inv {I St : Type} (P : St -> Prop)
  (body : I -> St -> result St) (l : list I) (st : St) :
  P st ->
  (forall x st0, In x l -> P st0 ->
     exists st1, body x st0 = Ok st1 /\ P st1) ->
  exists st', for_each l body st = Ok st' /\ P st'.
Proof.
  revert st; induction l as [|x l IH]; intros st H0 Hstep; simpl.
  - eauto.
  - destruct (Hstep x st (or_introl eq_refl) H0) as (st1 & E & H1).
    rewrite E. simpl. apply IH; [assumption|].
    intros y st0 Hy. apply Hstep. now right.
Qed.

Lemma in_py_range (lo hi j : Z) :
  In j (DensityEstimation.py_range lo hi) <-> (lo <= j < hi)%Z.
Proof.
  unfold DensityEstimation.py_range. rewrite in_map_iff. split.
  - intros (t & <- & Ht). apply in_seq in Ht. lia.
  - intros H. exists (Z.to_nat (j - lo)). split; [lia|].
    apply in_seq. lia.
Qed.

Section KStarNN.

Import DensityEstimation.

Context {ext : Externals}.

Local Open Scope R_scope.

Lemma ensure_kstar_ready (s : session) (ks : list Z) :
  s self_kstar = VIntArr ks -> ensure_kstar s = Ok s.
Proof.
  intros H. unfold ensure_kstar.
  rewrite (attr_is_none_value s self_kstar (VIntArr ks) H) by discriminate.
  reflexivity.
Qed.

Lemma kstarNN_body_step (s : session) (n : nat) (d : R)
  (D : list (list R)) (ks : list Z) (i : nat) (st : loop_state) :
  s self_kstar = VIntArr ks ->
  s self_distances = VArr2 D ->
  length D = n ->
  kstar_fits n D ks ->
  (i < n)%nat ->
  loop_filled (fun i => r_k D i (nth i ks 0%Z)) (kstarNN_estimate d D ks)
              (fun i => 1 / sqrt (IZR (nth i ks 0%Z))) n i st ->
  exists st', kstarNN_body s d (prefactor_of d) i st = Ok st' /\
    loop_filled (fun i => r_k D i (nth i ks 0%Z)) (kstarNN_estimate d D ks)
                (fun i => 1 / sqrt (IZR (nth i ks 0%Z))) n (S i) st'.
Proof.
  intros Hk HD HlD [Hlk Hfit] Hi Hst.
  destruct st as [[[dc ld] lde] mn].
  destruct Hst as ([Ldc Fdc] & [Lld Fld] & [Lerr Ferr]).
  unfold kstarNN_body.
  rewrite (get_int_arr_ok s self_kstar _ Hk),
          (get_arr2_ok s self_distances _ HD). simpl.
  rewrite (np_index_nat ks i 0%Z) by lia. simpl.
  rewrite (np_index2_nat D i _ 0) by (try lia; now apply Hfit). simpl.
  rewrite np_setitem_ok by lia. simpl.
  rewrite np_setitem_ok by lia. simpl.
  rewrite (np_index_nat _ i 0) by (rewrite length_set_nth; lia). simpl.
  rewrite np_setitem_ok by (rewrite length_set_nth; lia). simpl.
  rewrite np_setitem_ok by lia. simpl.
  rewrite (np_index_nat _ i 0) by (rewrite !length_set_nth; lia). simpl.
  eexists. split; [reflexivity|].
  split; [|split].
  - apply (filled_step (fun i => r_k D i (nth i ks 0%Z)) n i dc Hi
             (conj Ldc Fdc)).
  - rewrite nth_set_nth_eq by lia.
    apply (filled_step (kstarNN_estimate d D ks) n i).
    + assumption.
    + apply filled_set. now split.
  - apply (filled_step (fun i => 1 / sqrt (IZR (nth i ks 0%Z))) n i lde Hi
             (conj Lerr Ferr)).
Qed.

Lemma kstarNN_run (s : session) (n : nat) (d : R) (D : list (list R))
  (ks : list Z) :
  inputs_ready s n d D ->
  s self_kstar = VIntArr ks ->
  kstar_fits n D ks ->
  compute_density_kstarNN s =
  Ok (store_density s
        (normalise n (map (kstarNN_estimate d D ks) (seq 0 n)))
        (map (fun i => 1 / sqrt (IZR (nth i ks 0%Z))) (seq 0 n))
        (map (fun i => r_k D i (nth i ks 0%Z)) (seq 0 n))).
Proof.
  intros (HN & Hd & HD & HlD) Hk Hfit.
  unfold compute_density_kstarNN.
  rewrite (ensure_kstar_ready s ks Hk). simpl.
  rewrite (get_size_ok s self_N n HN). simpl.
  rewrite (get_number_float s self_intrinsic_dim d Hd). simpl.
  destruct (for_range_inv
              (loop_filled (fun i => r_k D i (nth i ks 0%Z))
                 (kstarNN_estimate d D ks)
                 (fun i => 1 / sqrt (IZR (nth i ks 0%Z))) n)
              (kstarNN_body s d (prefactor_of d)) n (init_loop_state n))
    as ([[[dc ld] lde] mn] & E & Fdc & Fld & Ferr).
  - apply loop_filled_init.
  - intros i st Hi Hst.
    now apply (kstarNN_body_step s n d D ks i st).
  - rewrite E. simpl.
    rewrite (filled_all _ _ _ Fdc), (filled_all _ _ _ Fld),
            (filled_all _ _ _ Ferr).
    reflexivity.
Qed.

Lemma kpeaks_body_step (s : session) (n : nat) (D : list (list R))
  (DI : list (list Z)) (ks : list Z) (i : nat) (st : loop_state) :
  s self_kstar = VIntArr ks ->
  s self_distances = VArr2 D ->
  s self_dist_indices = VIntArr2 DI ->
  length D = n ->
  kstar_fits n D ks ->
  neighbours_fit n DI ks ->
  (i < n)%nat ->
  kpeaks_filled D ks n i st ->
  exists st', kpeaks_body s i st = Ok st' /\ kpeaks_filled D ks n (S i) st'.
Proof.
  intros Hk HD HDI HlD [Hlk Hfit] [HlDI Hnb] Hi Hst.
  destruct st as [[[dc ld] lde] mn].
  destruct Hst as ([Ldc Fdc] & [Lld Fld] & Lerr).
  unfold kpeaks_body.
  rewrite (get_int_arr_ok s self_kstar _ Hk),
          (get_arr2_ok s self_distances _ HD). simpl.
  rewrite (np_index_nat ks i 0%Z) by lia. simpl.
  rewrite (np_index2_nat D i _ 0) by (try lia; now apply Hfit). simpl.
  rewrite np_setitem_ok by lia. simpl.
  rewrite np_setitem_ok by lia. simpl.
  rewrite np_setitem_ok by lia. simpl.
  destruct (for_each_inv (fun l : list R => length l = n)
              (fun j l =>
                 bind (get_int_arr2 s self_dist_indices)
                      (fun di => kpeaks_inner ks di i (nth i ks 0%Z) j l))
              (py_range 1 (nth i ks 0%Z)) (set_nth lde i 0))
    as (lde' & E & Llde').
  - now rewrite length_set_nth.
  - intros j l Hj Hl. apply in_py_range in Hj.
    rewrite (get_int_arr2_ok s self_dist_indices _ HDI). simpl.
    unfold kpeaks_inner.
    destruct (Hnb i j Hi Hj) as [Hj1 Hj2].
    rewrite (np_index2_nat DI i j 0%Z) by lia. simpl.
    rewrite (np_index_Z ks _ 0%Z) by lia. simpl.
    rewrite (np_index_nat l i 0) by lia. simpl.
    rewrite np_setitem_ok by lia.
    eexists. split; [reflexivity|]. now rewrite length_set_nth.
  - rewrite E. simpl.
    rewrite (np_index_nat lde' i 0) by lia. simpl.
    rewrite np_setitem_ok by lia. simpl.
    rewrite (np_index_nat _ i 0) by (rewrite length_set_nth; lia). simpl.
    eexists. split; [reflexivity|].
    split; [|split].
    + apply (filled_step (fun i => r_k D i (nth i ks 0%Z)) n i dc Hi
               (conj Ldc Fdc)).
    + apply (filled_step (fun i => IZR (nth i ks 0%Z)) n i ld Hi
               (conj Lld Fld)).
    + now rewrite length_set_nth.
Qed.

Lemma kpeaks_run (s : session) (n : nat) (d : R) (D : list (list R))
  (DI : list (list Z)) (ks : list Z) :
  inputs_ready s n d D ->
  s self_kstar = VIntArr ks ->
  s self_dist_indices = VIntArr2 DI ->
  kstar_fits n D ks ->
  neighbours_fit n DI ks ->
  exists log_den_err,
    length log_den_err = n /\
    compute_density_kpeaks s =
    Ok (store_density s
          (map (fun i => IZR (nth i ks 0%Z)) (seq 0 n))
          log_den_err
          (map (fun i => r_k D i (nth i ks 0%Z)) (seq 0 n))).
Proof.
  intros (HN & Hd & HD & HlD) Hk HDI Hfit Hnb.
  unfold compute_density_kpeaks.
  rewrite (ensure_kstar_ready s ks Hk). simpl.
  rewrite (get_size_ok s self_N n HN). simpl.
  destruct (for_range_inv (kpeaks_filled D ks n) (kpeaks_body s) n
              (init_loop_state n))
    as ([[[dc ld] lde] mn] & E & Fdc & Fld & Lerr).
  - unfold kpeaks_filled, init_loop_state, zeros.
    repeat split; try apply repeat_length; intros j Hj; lia.
  - intros i st Hi Hst.
    now apply (kpeaks_body_step s n D DI ks i st).
  - exists lde. split; [assumption|].
    rewrite E. simpl.
    now rewrite (filled_all _ _ _ Fdc), (filled_all _ _ _ Fld).
Qed.

End KStarNN.

(** ** The PAk estimator *)

Section PAk.

Import DensityEstimation.

Context {ext : Externals}.

Local Open Scope R_scope.

Lemma length_shell_volumes (d : R) (D : list (list R)) (i k maxk : nat) :
  (k <= maxk)%nat -> length (shell_volumes d D i k maxk) = maxk.
Proof.
  intros H. unfold shell_volumes, zeros.
  rewrite length_app, length_map, length_seq, repeat_length. lia.
Qed.

Lemma set_nth_app {A : Type} (l r : list A) (x v : A) :
  set_nth (l ++ x :: r) (length l) v = l ++ v :: r.
Proof. induction l as [|y l IH]; simpl; [reflexivity|now rewrite IH]. Qed.

Lemma shell_volumes_next (d : R) (D : list (list R)) (i k maxk : nat) :
  (k < maxk)%nat ->
  set_nth (shell_volumes d D i k maxk) k (shell_volume d D i k)
  = shell_volumes d D i (S k) maxk.
Proof.
  intros H. unfold shell_volumes, zeros.
  replace (maxk - k)%nat with (S (maxk - S k)) by lia. simpl repeat.
  pose proof (set_nth_app (map (shell_volume d D i) (seq 0 k))
                (repeat 0 (maxk - S k)) 0 (shell_volume d D i k)) as E.
  rewrite length_map, length_seq in E. rewrite E.
  rewrite seq_S, map_app, <- app_assoc. reflexivity.
Qed.

Lemma for_each_break_cons {I St : Type} (x : I) (l : list I)
  (body : I -> St -> result (St * bool)) (st : St) :
  for_each_break (x :: l) body st =
  bind (body x st)
       (fun r => if snd r then Ok (fst r) else for_each_break l body (fst r)).
Proof. simpl. destruct (body x st) as [[st' b]|e]; reflexivity. Qed.

Lemma PAk_shell_step (d : R) (D : list (list R)) (i maxk a : nat)
  (knn0 : Z) :
  (i < length D)%nat ->
  (a < maxk)%nat ->
  (S a < length (nth i D []))%nat ->
  PAk_shell D d (prefactor_of d) i (Z.of_nat a)
            (shell_volumes d D i a maxk, knn0)
  = if Rlt_dec (shell_volume d D i a) tiny
    then Ok ((shell_volumes d D i (S a) maxk, 1%Z), true)
    else Ok ((shell_volumes d D i (S a) maxk, knn0), false).
Proof.
  intros Hi Ha Hrow. unfold PAk_shell.
  rewrite (np_index2_nat D i (Z.of_nat a + 1) 0) by (try lia; assumption).
  cbn [bind].
  rewrite (np_index2_nat D i (Z.of_nat a) 0) by (try lia; assumption).
  cbn [bind].
  change (prefactor_of d
          * (pow_f (nth (Z.to_nat (Z.of_nat a + 1)) (nth i D []) 0) d
             - pow_f (nth (Z.to_nat (Z.of_nat a)) (nth i D []) 0) d))
    with (shell_volume d D i a).
  rewrite Nat2Z.id.
  rewrite np_setitem_ok by (rewrite length_shell_volumes; lia).
  cbn [bind].
  rewrite shell_volumes_next by lia.
  rewrite (np_index_nat _ a 0) by (rewrite length_shell_volumes; lia).
  cbn [bind].
  replace (nth a (shell_volumes d D i (S a) maxk) 0)
    with (shell_volume d D i a).
  - destruct (Rlt_dec (shell_volume d D i a) tiny); reflexivity.
  - rewrite <- shell_volumes_next by lia.
    symmetry. apply nth_set_nth_eq. rewrite length_shell_volumes; lia.
Qed.

Lemma PAk_shells_run (d : R) (D : list (list R)) (i maxk : nat) (knn0 : Z) :
  (i < length D)%nat ->
  forall len a,
    (a + len <= maxk)%nat ->
    (a + len < length (nth i D []))%nat ->
    exists vi knn,
      for_each_break (map (fun t => (0 + Z.of_nat t)%Z) (seq a len))
        (PAk_shell D d (prefactor_of d) i)
        (shell_volumes d D i a maxk, knn0) = Ok (vi, knn) /\
      (underflows d D i a len = true -> knn = 1%Z) /\
      (underflows d D i a len = false ->
         knn = knn0 /\ vi = shell_volumes d D i (a + len) maxk).
Proof.
  intros Hi. induction len as [|len IH]; intros a Hmax Hrow.
  - simpl. do 2 eexists. split; [reflexivity|].
    split; [discriminate|]. intros _. now rewrite Nat.add_0_r.
  - cbn [seq map]. rewrite for_each_break_cons.
    change (0 + Z.of_nat a)%Z with (Z.of_nat a).
    rewrite PAk_shell_step by (try lia; assumption).
    unfold underflows. cbn [seq existsb].
    destruct (Rlt_dec (shell_volume d D i a) tiny) as [Hlt|Hge].
    + cbn. do 2 eexists. split; [reflexivity|].
      split; [reflexivity|discriminate].
    + cbn [bind snd fst orb].
      destruct (IH (S a)) as (vi & knn & E & Ht & Hf); try lia.
      exists vi, knn. split; [exact E|].
      replace (a + S len)%nat with (S a + len)%nat by lia.
      split; assumption.
Qed.

Lemma PAk_body_step (s : session) (n maxk : nat) (d : R)
  (D : list (list R)) (ks : list Z) (i : nat) (st : loop_state) :
  s self_kstar = VIntArr ks ->
  s self_distances = VArr2 D ->
  s self_maxk = VInt (Z.of_nat maxk) ->
  length D = n ->
  kstar_fits n D ks ->
  (forall i, (i < n)%nat -> (nth i ks 0%Z <= Z.of_nat maxk)%Z) ->
  (i < n)%nat ->
  loop_filled (fun i => r_k D i (nth i ks 0%Z)) (PAk_estimate d D ks maxk)
    (fun i => sqrt (IZR (4 * nth i ks 0%Z + 2)
                    / IZR (nth i ks 0%Z * (nth i ks 0%Z - 1)))) n i st ->
  exists st', PAk_body s d (prefactor_of d) i st = Ok st' /\
    loop_filled (fun i => r_k D i (nth i ks 0%Z)) (PAk_estimate d D ks maxk)
      (fun i => sqrt (IZR (4 * nth i ks 0%Z + 2)
                      / IZR (nth i ks 0%Z * (nth i ks 0%Z - 1)))) n (S i) st'.
Proof.
  intros Hk HD Hmk HlD [Hlk Hfit] Hmax Hi Hst.
  destruct st as [[[dc ld] lde] mn].
  destruct Hst as ([Ldc Fdc] & [Lld Fld] & [Lerr Ferr]).
  unfold PAk_body.
  rewrite (get_size_ok s self_maxk maxk Hmk). simpl.
  rewrite (get_int_arr_ok s self_kstar _ Hk),
          (get_arr2_ok s self_distances _ HD). simpl.
  rewrite (np_index_nat ks i 0%Z) by lia. simpl.
  rewrite (np_index2_nat D i _ 0) by (try lia; now apply Hfit). simpl.
  rewrite np_setitem_ok by lia. simpl.
  set (k := nth i ks 0%Z).
  pose proof (Hfit i Hi) as Hki. pose proof (Hmax i Hi) as Hkm.
  fold k in Hki, Hkm.
  destruct (PAk_shells_run d D i maxk 0%Z ltac:(lia) (Z.to_nat k) 0%nat)
    as (vi & knn & E & Ht & Hf); try lia.
  assert (Hz : shell_volumes d D i 0 maxk = zeros maxk)
    by (unfold shell_volumes; simpl; now rewrite Nat.sub_0_r).
  rewrite Hz in E. clear Hz.
  unfold py_range. rewrite Z.sub_0_r.
  { rewrite E. simpl.
    assert (Hval : exists ld',
               (if (knn =? 0)%Z
                then np_setitem ld i
                       (_nrmaxl (ln (IZR k)
                                 - (ln (prefactor_of d)
                                    + d * ln (nth (Z.to_nat k)
                                                  (nth i D []) 0)))
                                k vi (Z.of_nat maxk))
                else np_setitem ld i
                       (ln (IZR k)
                        - (ln (prefactor_of d)
                           + d * ln (nth (Z.to_nat k) (nth i D []) 0))))
               = Ok ld' /\
               ld' = set_nth ld i (PAk_estimate d D ks maxk i)).
    { unfold PAk_estimate. fold k. unfold r_k.
      destruct (underflows d D i 0 (Z.to_nat k)) eqn:U.
      - rewrite (Ht eq_refl). simpl.
        rewrite np_setitem_ok by lia. eauto.
      - destruct (Hf eq_refl) as [-> ->]. simpl.
        rewrite np_setitem_ok by lia. eauto. }
    destruct Hval as (ld' & -> & ->). simpl.
    rewrite (np_index_nat _ i 0) by (rewrite length_set_nth; lia). simpl.
    rewrite np_setitem_ok by lia. simpl.
    eexists. split; [reflexivity|].
    split; [|split].
    + apply (filled_step (fun i => r_k D i (nth i ks 0%Z)) n i dc Hi
               (conj Ldc Fdc)).
    + apply (filled_step (PAk_estimate d D ks maxk) n i ld Hi
               (conj Lld Fld)).
    + apply (filled_step
               (fun i => sqrt (IZR (4 * nth i ks 0%Z + 2)
                               / IZR (nth i ks 0%Z * (nth i ks 0%Z - 1))))
               n i lde Hi (conj Lerr Ferr)). }
Qed.

End PAk.

Section PAkRun.

Import DensityEstimation.

Context {ext : Externals}.

Local Open Scope R_scope.

Lemma PAk_run (s : session) (n maxk : nat) (d : R) (D : list (list R))
  (ks : list Z) :
  inputs_ready s n d D ->
  s self_kstar = VIntArr ks ->
  s self_maxk = VInt (Z.of_nat maxk) ->
  kstar_fits n D ks ->
  (forall i, (i < n)%nat -> (nth i ks 0%Z <= Z.of_nat maxk)%Z) ->
  compute_density_PAk s =
  Ok (store_density s
        (normalise n (map (PAk_estimate d D ks maxk) (seq 0 n)))
        (map (fun i => sqrt (IZR (4 * nth i ks 0%Z + 2)
                             / IZR (nth i ks 0%Z * (nth i ks 0%Z - 1))))
             (seq 0 n))
        (map (fun i => r_k D i (nth i ks 0%Z)) (seq 0 n))).
Proof.
  intros (HN & Hd & HD & HlD) Hk Hmk Hfit Hmax.
  unfold compute_density_PAk.
  rewrite (ensure_kstar_ready s ks Hk). simpl.
  rewrite (get_size_ok s self_N n HN). simpl.
  rewrite (get_number_float s self_intrinsic_dim d Hd). simpl.
  destruct (for_range_inv
              (loop_filled (fun i => r_k D i (nth i ks 0%Z))
                 (PAk_estimate d D ks maxk)
                 (fun i => sqrt (IZR (4 * nth i ks 0%Z + 2)
                                 / IZR (nth i ks 0%Z * (nth i ks 0%Z - 1))))
                 n)
              (PAk_body s d (prefactor_of d)) n (init_loop_state n))
    as ([[[dc ld] lde] mn] & E & Fdc & Fld & Ferr).
  - apply loop_filled_init.
  - intros i st Hi Hst.
    now apply (PAk_body_step s n maxk d D ks i st).
  - rewrite E. simpl.
    rewrite (filled_all _ _ _ Fdc), (filled_all _ _ _ Fld),
            (filled_all _ _ _ Ferr).
    reflexivity.
Qed.

Lemma underflows_true (d : R) (D : list (list R)) (i k : nat) :
  underflows d D i 0 k = true <->
  exists j, (j < k)%nat /\ shell_volume d D i j < tiny.
Proof.
  unfold underflows. rewrite existsb_exists. split.
  - intros (j & Hj & Hv). apply in_seq in Hj.
    exists j. split; [lia|].
    destruct (Rlt_dec (shell_volume d D i j) tiny); [assumption|discriminate].
  - intros (j & Hj & Hv). exists j. split; [apply in_seq; lia|].
    destruct (Rlt_dec (shell_volume d D i j) tiny); [reflexivity|contradiction].
Qed.

End PAkRun.

(** C2: in [compute_density_PAk], when some shell volume
    [v_j = prefactor * (r_{j+1}^d - r_j^d)], [j < k*(i)], is below [1e-300],
    the Newton-Raphson maximisation is skipped and point [i] gets
    [rr = log k*(i) - log prefactor - d log r_{k*(i)}]; otherwise it gets
    the Newton-Raphson maximiser; both before the subtraction of [log N],
    and point by point. *)
Theorem PAk_underflow_fallback :
  forall (ext : DensityEstimation.Externals)
         (s : DensityEstimation.session) (n maxk : nat) (d : R)
         (D : list (list R)) (ks : list Z),
    DensityEstimation.inputs_ready s n d D ->
    s DensityEstimation.self_kstar = DensityEstimation.VIntArr ks ->
    s DensityEstimation.self_maxk = DensityEstimation.VInt (Z.of_nat maxk) ->
    DensityEstimation.kstar_fits n D ks ->
    (forall i, (i < n)%nat -> (nth i ks 0%Z <= Z.of_nat maxk)%Z) ->
    exists s' log_den,
      DensityEstimation.compute_density_PAk s = Ok s' /\
      s' DensityEstimation.self_log_den = DensityEstimation.VArr log_den /\
      forall i, (i < n)%nat ->
        let k := nth i ks 0%Z in
        let rr := (ln (IZR k) - ln (DensityEstimation.prefactor_of d)
                   - d * ln (DensityEstimation.r_k D i k))%R in
        ((exists j, (j < Z.to_nat k)%nat /\
                    (DensityEstimation.shell_volume d D i j
                     < DensityEstimation.tiny)%R) ->
         nth i log_den 0%R = (rr - ln (INR n))%R) /\
        ((forall j, (j < Z.to_nat k)%nat ->
                    ~ (DensityEstimation.shell_volume d D i j
                       < DensityEstimation.tiny)%R) ->
         nth i log_den 0%R =
         (DensityEstimation._nrmaxl rr k
            (DensityEstimation.shell_volumes d D i (Z.to_nat k) maxk)
            (Z.of_nat maxk) - ln (INR n))%R).
Proof.
  intros ext s n maxk d D ks Hin Hk Hmk Hfit Hmax.
  do 2 eexists. split; [apply (PAk_run s n maxk d D ks); assumption|].
  split; [reflexivity|].
  intros i Hi k rr.
  rewrite nth_normalise by (rewrite length_map, length_seq; lia).
  rewrite nth_map_seq by assumption.
  unfold DensityEstimation.PAk_estimate. fold k.
  replace (ln (IZR k)
           - (ln (DensityEstimation.prefactor_of d)
              + d * ln (DensityEstimation.r_k D i k)))%R
    with rr by (unfold rr; lra).
  split.
  - intros Hex. apply underflows_true in Hex. now rewrite Hex.
  - intros Hall.
    destruct (DensityEstimation.underflows d D i 0 (Z.to_nat k)) eqn:U;
      [|reflexivity].
    apply underflows_true in U. destruct U as (j & Hj & Hv).
    exfalso. exact (Hall j Hj Hv).
Qed.

Lemma PAk_underflow_fallback_witness :
  exists s',
    DensityEstimation.compute_density_PAk
      (ext := DensityEstimation.example_externals)
      DensityEstimation.example_session_k2 = Ok s'.
Proof.
  destruct (PAk_underflow_fallback DensityEstimation.example_externals
              DensityEstimation.example_session_k2 3 2 2
              DensityEstimation.example_distances
              DensityEstimation.example_kstar)
    as (s' & _ & E & _).
  - repeat split; reflexivity.
  - reflexivity.
  - reflexivity.
  - split; [reflexivity|]. intros [|[|[|i]]] Hi; simpl; lia.
  - intros [|[|[|i]]] Hi; simpl; lia.
  - exists s'. exact E.
Defined.

(** ** Sums and matrices *)

Section Sums.

Import DensityEstimation.

Local Open Scope R_scope.

Lemma fold_right_Rplus_app (l : list R) (x : R) :
  fold_right Rplus 0 (l ++ [x]) = fold_right Rplus 0 l + x.
Proof. induction l as [|y l IH]; simpl; [lra|rewrite IH; lra]. Qed.

Lemma sum_upto_S (n : nat) (f : nat -> R) :
  sum_upto (S n) f = sum_upto n f + f n.
Proof.
  unfold sum_upto. rewrite seq_S, map_app. simpl.
  apply fold_right_Rplus_app.
Qed.

Lemma sum_upto_ext (n : nat) (f g : nat -> R) :
  (forall j, (j < n)%nat -> f j = g j) -> sum_upto n f = sum_upto n g.
Proof.
  induction n as [|n IH]; intros H; [reflexivity|].
  rewrite !sum_upto_S, IH, H by (intros; auto with arith). reflexivity.
Qed.

Lemma sum_upto_zero (n : nat) (f : nat -> R) :
  (forall j, (j < n)%nat -> f j = 0) -> sum_upto n f = 0.
Proof.
  induction n as [|n IH]; intros H; [reflexivity|].
  rewrite sum_upto_S, IH, H by (intros; auto with arith). lra.
Qed.

Lemma sum_upto_plus (n : nat) (f g : nat -> R) :
  sum_upto n (fun j => f j + g j) = sum_upto n f + sum_upto n g.
Proof.
  induction n as [|n IH]; [unfold sum_upto; simpl; lra|].
  rewrite !sum_upto_S, IH. lra.
Qed.

(** Replacing the term of index [i] in a sum. *)
Lemma sum_upto_update (n i : nat) (v : R) (f : nat -> R) :
  (i < n)%nat ->
  sum_upto n (fun j => if (j =? i)%nat then v else f j)
  = sum_upto n f - f i + v.
Proof.
  induction n as [|n IH]; intros Hi; [lia|].
  rewrite !sum_upto_S.
  destruct (Nat.eq_dec i n) as [->|Hne].
  - rewrite Nat.eqb_refl.
    rewrite (sum_upto_ext n _ f).
    + lra.
    + intros j Hj. destruct (Nat.eqb_spec j n); [lia|reflexivity].
  - rewrite IH by lia.
    destruct (Nat.eqb_spec n i); [lia|]. lra.
Qed.

(** A term that no index selects leaves the sum unchanged. *)
Lemma sum_upto_update_out (n i : nat) (v : R) (f : nat -> R) :
  (n <= i)%nat ->
  sum_upto n (fun j => if (j =? i)%nat then v else f j) = sum_upto n f.
Proof.
  intros H. apply sum_upto_ext. intros j Hj.
  destruct (Nat.eqb_spec j i); [lia|reflexivity].
Qed.

Lemma nth_sum_axis1 (n : nat) (A : matrix) (r : nat) :
  (r < n)%nat -> nth r (sum_axis1 n A) 0 = sum_upto n (fun c => A r c).
Proof.
  intros H. unfold sum_axis1.
  apply (nth_map_seq (fun r => sum_upto n (fun c => A r c)) n r H).
Qed.

Lemma nth_sum_axis0 (n : nat) (A : matrix) (c : nat) :
  (c < n)%nat -> nth c (sum_axis0 n A) 0 = sum_upto n (fun r => A r c).
Proof.
  intros H. unfold sum_axis0.
  apply (nth_map_seq (fun c => sum_upto n (fun r => A r c)) n c H).
Qed.

(** Once the diagonal holds the negated row sums of a matrix whose
    diagonal was zero, every row sums to zero. *)
Lemma setdiag_rows_sum_to_zero (n : nat) (M : matrix) (i : nat) :
  (i < n)%nat ->
  M i i = 0 ->
  sum_upto n (fun j => setdiag M (map Ropp (sum_axis1 n M)) i j) = 0.
Proof.
  intros Hi Hd.
  assert (E : nth_error (map Ropp (sum_axis1 n M)) i
              = Some (- sum_upto n (fun c => M i c))).
  { rewrite nth_error_map. unfold sum_axis1.
    rewrite nth_error_map, nth_error_seq.
    destruct (Nat.ltb_spec i n); [reflexivity|lia]. }
  rewrite (sum_upto_ext n _
             (fun j => if (j =? i)%nat
                       then - sum_upto n (fun c => M i c) else M i j)).
  - rewrite sum_upto_update by assumption. cbv beta. rewrite Hd.
    change (fun c : nat => M i c) with (M i). lra.
  - intros j Hj. unfold setdiag. rewrite E.
    rewrite (Nat.eqb_sym i j). reflexivity.
Qed.

End Sums.

(** ** The system of the graph-consistency solve *)

Lemma np_take_ok {A : Type} (a : list A) (idx : list Z) (d : A) :
  (forall k, In k idx -> (0 <= k < Z.of_nat (length a))%Z) ->
  np_take a idx = Ok (map (fun k => nth (Z.to_nat k) a d) idx).
Proof.
  induction idx as [|k idx IH]; intros H; simpl; [reflexivity|].
  rewrite (np_index_Z a k d) by (apply H; now left). simpl.
  rewrite IH by (intros k' Hk'; apply H; now right). reflexivity.
Qed.

Lemma nth_map_in {A B : Type} (f : A -> B) (l : list A) (e : nat) (d : A)
  (d' : B) :
  (e < length l)%nat -> nth e (map f l) d' = f (nth e l d).
Proof.
  intros H. rewrite (nth_indep _ d' (f d)) by (rewrite length_map; assumption).
  apply map_nth.
Qed.

Lemma map_combine_maps {A B C D : Type} (g : B * C -> D) (f1 : A -> B)
  (f2 : A -> C) (l : list A) :
  map g (combine (map f1 l) (map f2 l)) = map (fun x => g (f1 x, f2 x)) l.
Proof. induction l as [|x l IH]; simpl; [reflexivity|now rewrite IH]. Qed.

Lemma for_each_enumerate_inv {A St : Type} (P : nat -> St -> Prop)
  (body : nat * A -> St -> result St) (l : list A) (st : St) :
  P 0%nat st ->
  (forall e x st0, nth_error l e = Some x -> P e st0 ->
     exists st1, body (e, x) st0 = Ok st1 /\ P (S e) st1) ->
  exists st', for_each (DensityEstimation.enumerate l) body st = Ok st' /\
              P (length l) st'.
Proof.
  unfold DensityEstimation.enumerate.
  assert (G : forall (l : list A) (a : nat) (st : St),
             P a st ->
             (forall e x st0, nth_error l e = Some x -> P (a + e)%nat st0 ->
                exists st1, body ((a + e)%nat, x) st0 = Ok st1
                            /\ P (S (a + e)) st1) ->
             exists st', for_each (combine (seq a (length l)) l) body st
                         = Ok st' /\ P (a + length l)%nat st').
  { clear l st. induction l as [|x l IH]; intros a st H0 Hstep; simpl.
    - exists st. now rewrite Nat.add_0_r.
    - destruct (Hstep 0%nat x st eq_refl) as (st1 & E & H1).
      + now rewrite Nat.add_0_r.
      + rewrite Nat.add_0_r in E, H1. rewrite E. simpl.
        destruct (IH (S a) st1 H1) as (st' & E' & H').
        * intros e y st0 He Hp.
          replace (S a + e)%nat with (a + S e)%nat in * by lia.
          now apply Hstep.
        * exists st'. split; [assumption|].
          now replace (a + S (length l))%nat with (S a + length l)%nat
            by lia. }
  intros H0 Hstep. apply (G l 0%nat st H0).
  intros e x st0 He Hp. simpl in *. now apply Hstep.
Qed.

Section GCorr.

Import DensityEstimation.

Context {ext : Externals}.

Local Open Scope R_scope.

Variable s : session.
Variable n : nat.
Variable ks : list Z.
Variable el : list (Z * Z).
Variable F FV : list R.
Variable use_variance : bool.

Hypothesis ready : graph_ready s n ks el F FV.

Let reds : list R := map (edge_redundancy ks el) (seq 0 (length el)).

Lemma edge_in_range (e : nat) (p : Z * Z) :
  nth_error el e = Some p ->
  (0 <= fst p < Z.of_nat n)%Z /\ (0 <= snd p < Z.of_nat n)%Z.
Proof.
  intros H. destruct ready as (_ & _ & _ & _ & Hr & _).
  apply Hr. eapply nth_error_In; eassumption.
Qed.

Lemma redundancy_of_ready : redundancy_of s = Ok reds.
Proof.
  destruct ready as (_ & Hk & Hlk & Hel & Hr & _).
  unfold redundancy_of.
  rewrite (get_int_arr_ok s self_kstar ks Hk). simpl.
  rewrite (get_pairs_ok s self_nind_list el Hel). simpl.
  rewrite (np_take_ok ks (map fst el) 0%Z).
  2:{ intros k Hk'. apply in_map_iff in Hk'. destruct Hk' as (p & <- & Hp).
      rewrite Hlk. now apply Hr. }
  simpl.
  rewrite (np_take_ok ks (map snd el) 0%Z).
  2:{ intros k Hk'. apply in_map_iff in Hk'. destruct Hk' as (p & <- & Hp).
      rewrite Hlk. now apply Hr. }
  simpl. unfold ew2, zip_with. rewrite !length_map, Nat.eqb_refl. simpl.
  f_equal. rewrite !map_map.
  rewrite (map_combine_maps
             (fun p => sqrt (IZR (fst p * snd p)))
             (fun x => nth (Z.to_nat (fst x)) ks 0%Z)
             (fun x => nth (Z.to_nat (snd x)) ks 0%Z) el).
  unfold reds.
  apply (nth_ext _ _ 0 0).
  - now rewrite !length_map, length_seq.
  - intros e He. rewrite length_map in He.
    rewrite nth_map_seq by assumption.
    rewrite (nth_map_in _ el e (0, 0)%Z 0) by assumption.
    reflexivity.
Qed.

Lemma msetitem_ok (M : matrix) (i j : Z) (v : R) :
  (0 <= i < Z.of_nat n)%Z -> (0 <= j < Z.of_nat n)%Z ->
  msetitem n M i j v =
  Ok (fun r c => if ((r =? Z.to_nat i)%nat && (c =? Z.to_nat j)%nat)%bool
                 then v else M r c).
Proof.
  intros Hi Hj. unfold msetitem, norm_index.
  destruct (Z.ltb_spec i 0); [lia|]. destruct (Z.ltb_spec j 0); [lia|].
  destruct (Z.leb_spec 0 i); [|lia]. destruct (Z.leb_spec 0 j); [|lia].
  destruct (Z.ltb_spec i (Z.of_nat n)); [|lia].
  destruct (Z.ltb_spec j (Z.of_nat n)); [|lia].
  reflexivity.
Qed.

(** One pass of the loop body on the pair number [e]. *)
Lemma gCorr_edge_run (e : nat) (p : Z * Z) (A supp : matrix) :
  nth_error el e = Some p ->
  gCorr_edge s use_variance n reds (e, p) (A, supp) =
  Ok (fun r c => if ((r =? src el e)%nat && (c =? tgt el e)%nat)%bool
                 then A_entry use_variance FV reds e else A r c,
      fun r c => if ((r =? src el e)%nat && (c =? tgt el e)%nat)%bool
                 then supp_entry use_variance F FV reds e else supp r c).
Proof.
  intros He.
  assert (Hlt : (e < length el)%nat)
    by (apply nth_error_Some; congruence).
  destruct (edge_in_range e p He) as [Hi Hj].
  destruct ready as (_ & _ & _ & _ & _ & HF & HlF & HFV & HlFV).
  assert (Hp : nth e el (0, 0)%Z = p) by now apply nth_error_nth.
  destruct p as [i j]. unfold gCorr_edge.
  rewrite (get_arr_ok s self_Fij_array F HF). cbn [bind].
  rewrite (np_index_nat reds e 0)
    by (unfold reds; rewrite length_map, length_seq; assumption).
  cbn [bind].
  unfold A_entry, supp_entry, src, tgt, edge_nat. rewrite Hp. cbn [fst snd].
  destruct use_variance.
  - rewrite (get_arr_ok s self_Fij_var_array FV HFV). cbn [bind].
    rewrite (np_index_nat FV e 0) by lia. cbn [bind].
    rewrite msetitem_ok by assumption. cbn [bind].
    rewrite (np_index_nat F e 0) by lia. cbn [bind].
    rewrite msetitem_ok by assumption. reflexivity.
  - rewrite msetitem_ok by assumption. cbn [bind].
    rewrite (np_index_nat F e 0) by lia. cbn [bind].
    rewrite msetitem_ok by assumption. reflexivity.
Qed.

Lemma src_lt (e : nat) : (e < length el)%nat -> (src el e < n)%nat.
Proof.
  intros He. destruct (nth_error el e) as [p|] eqn:E.
  - destruct (edge_in_range e p E) as [Hi _].
    unfold src, edge_nat. rewrite (nth_error_nth _ _ _ E). simpl. lia.
  - apply nth_error_None in E. lia.
Qed.

Lemma tgt_lt (e : nat) : (e < length el)%nat -> (tgt el e < n)%nat.
Proof.
  intros He. destruct (nth_error el e) as [p|] eqn:E.
  - destruct (edge_in_range e p E) as [_ Hj].
    unfold tgt, edge_nat. rewrite (nth_error_nth _ _ _ E). simpl. lia.
  - apply nth_error_None in E. lia.
Qed.

(** Distinct positions of a list without repetition name distinct
    entries of the matrix. *)
Lemma distinct_pairs (e e' : nat) :
  NoDup el -> (e < length el)%nat -> (e' < length el)%nat -> e <> e' ->
  (src el e', tgt el e') <> (src el e, tgt el e).
Proof.
  intros Hnd He He' Hne Heq.
  destruct (nth_error el e) as [p|] eqn:E;
    [|apply nth_error_None in E; lia].
  destruct (nth_error el e') as [q|] eqn:E';
    [|apply nth_error_None in E'; lia].
  destruct (edge_in_range e p E) as [Hp1 Hp2].
  destruct (edge_in_range e' q E') as [Hq1 Hq2].
  unfold src, tgt, edge_nat in Heq.
  rewrite (nth_error_nth _ _ _ E), (nth_error_nth _ _ _ E') in Heq.
  simpl in Heq. injection Heq as H1 H2.
  apply Z2Nat.inj in H1; try lia. apply Z2Nat.inj in H2; try lia.
  assert (q = p) by (destruct p, q; simpl in *; congruence).
  subst q. apply Hne.
  apply (proj1 (NoDup_nth_error el) Hnd e e' He). congruence.
Qed.

Lemma assembled_step (e : nat) (A supp : matrix) :
  (e < length el)%nat ->
  assembled use_variance F FV reds el n e (A, supp) ->
  assembled use_variance F FV reds el n (S e)
    (fun r c => if ((r =? src el e)%nat && (c =? tgt el e)%nat)%bool
                then A_entry use_variance FV reds e else A r c,
     fun r c => if ((r =? src el e)%nat && (c =? tgt el e)%nat)%bool
                then supp_entry use_variance F FV reds e else supp r c).
Proof.
  intros He (Hzero & Hnd). split.
  - intros r c Hno.
    assert (Hrc : ((r =? src el e)%nat && (c =? tgt el e)%nat)%bool = false).
    { destruct (Nat.eqb_spec r (src el e)) as [->|]; [|reflexivity].
      destruct (Nat.eqb_spec c (tgt el e)) as [->|]; [|reflexivity].
      exfalso. apply (Hno e); [lia|reflexivity]. }
    rewrite Hrc. apply Hzero. intros e' He'. apply Hno. lia.
  - intros Hdup. destruct (Hnd Hdup) as (Hval & Hcol & Hrow).
    assert (Hfresh : supp (src el e) (tgt el e) = 0).
    { apply Hzero. intros e' He'.
      apply (distinct_pairs e e' Hdup He); lia. }
    split; [|split].
    + intros e' He'. destruct (Nat.eq_dec e' e) as [->|Hne].
      * now rewrite !Nat.eqb_refl.
      * assert (Hrc : ((src el e' =? src el e)%nat
                       && (tgt el e' =? tgt el e)%nat)%bool = false).
        { destruct (Nat.eqb_spec (src el e') (src el e)) as [H1|];
            [|reflexivity].
          destruct (Nat.eqb_spec (tgt el e') (tgt el e)) as [H2|];
            [|reflexivity].
          exfalso. apply (distinct_pairs e e' Hdup He); try lia.
          congruence. }
        rewrite Hrc. apply Hval. lia.
    + intros c. rewrite sum_upto_S.
      destruct (Nat.eqb_spec (tgt el e) c) as [<-|Hc].
      * rewrite (sum_upto_ext n _
                   (fun r => if (r =? src el e)%nat
                             then supp_entry use_variance F FV reds e
                             else supp r (tgt el e))).
        -- rewrite sum_upto_update by now apply src_lt.
           rewrite Hfresh, Hcol. lra.
        -- intros r _. now rewrite Nat.eqb_refl, andb_true_r.
      * rewrite (sum_upto_ext n _ (fun r => supp r c)).
        -- rewrite Hcol. lra.
        -- intros r _.
           destruct (Nat.eqb_spec c (tgt el e)); [congruence|].
           now rewrite andb_false_r.
    + intros r. rewrite sum_upto_S.
      destruct (Nat.eqb_spec (src el e) r) as [<-|Hr].
      * rewrite (sum_upto_ext n _
                   (fun c => if (c =? tgt el e)%nat
                             then supp_entry use_variance F FV reds e
                             else supp (src el e) c)).
        -- rewrite sum_upto_update by now apply tgt_lt.
           rewrite Hfresh, Hrow. lra.
        -- intros c _. now rewrite Nat.eqb_refl.
      * rewrite (sum_upto_ext n _ (fun c => supp r c)).
        -- rewrite Hrow. lra.
        -- intros c _.
           destruct (Nat.eqb_spec r (src el e)); [congruence|reflexivity].
Qed.

Lemma gCorr_assemble_run :
  exists A supp,
    gCorr_assemble use_variance s = Ok (A, supp) /\
    assembled use_variance F FV reds el n (length el) (A, supp).
Proof.
  pose proof ready as (HN & _ & _ & Hel & _).
  unfold gCorr_assemble.
  rewrite (get_size_ok s self_N n HN). cbn [bind].
  rewrite redundancy_of_ready. cbn [bind].
  rewrite (get_pairs_ok s self_nind_list el Hel). cbn [bind].
  destruct (for_each_enumerate_inv
              (assembled use_variance F FV reds el n)
              (gCorr_edge s use_variance n reds) el
              (lil_matrix, lil_matrix))
    as ([A supp] & E & H).
  - split.
    + intros r c _. split; reflexivity.
    + intros _. split; [intros e He; lia|].
      split; intros x; unfold sum_upto at 2; simpl;
        apply sum_upto_zero; reflexivity.
  - intros e p [A supp] He Hst.
    rewrite (gCorr_edge_run e p A supp He).
    eexists. split; [reflexivity|].
    apply assembled_step; [|assumption].
    apply nth_error_Some. congruence.
  - exists A, supp. split; assumption.
Qed.

(** The system handed to the solver, in terms of the assembled
    matrices. *)
Lemma gCorr_system_run (A supp : matrix) :
  gCorr_assemble use_variance s = Ok (A, supp) ->
  gCorr_system use_variance s =
  Ok (setdiag (madd A (transpose A))
              (map Ropp (sum_axis1 n (madd A (transpose A)))),
      map (fun p => fst p - snd p)
          (combine (sum_axis0 n supp) (sum_axis1 n supp))).
Proof.
  intros E. pose proof ready as (HN & _).
  unfold gCorr_system.
  rewrite (get_size_ok s self_N n HN). cbn [bind].
  rewrite E. cbn [bind]. unfold ew2, zip_with.
  unfold sum_axis0, sum_axis1. rewrite !length_map, Nat.eqb_refl.
  reflexivity.
Qed.

End GCorr.

Section GCorrFacts.

Import DensityEstimation.

Context {ext : Externals}.

Local Open Scope R_scope.

Variable s : session.
Variable n : nat.
Variable ks : list Z.
Variable el : list (Z * Z).
Variable F FV : list R.
Variable use_variance : bool.

Hypothesis ready : graph_ready s n ks el F FV.

Lemma nth_reds (e : nat) :
  (e < length el)%nat ->
  nth e (map (edge_redundancy ks el) (seq 0 (length el))) 0
  = edge_redundancy ks el e.
Proof. intros H. now apply nth_map_seq. Qed.

(** The entry written for a pair is minus its weight. *)
Lemma A_entry_weight (e : nat) :
  (e < length el)%nat ->
  A_entry use_variance FV
          (map (edge_redundancy ks el) (seq 0 (length el))) e
  = - edge_weight use_variance ks el FV e.
Proof.
  intros He. unfold A_entry, edge_weight. rewrite nth_reds by assumption.
  destruct use_variance; unfold Rdiv.
  - rewrite Rinv_mult. lra.
  - lra.
Qed.

Lemma supp_entry_weight (e : nat) :
  (e < length el)%nat ->
  supp_entry true F FV
             (map (edge_redundancy ks el) (seq 0 (length el))) e
  = nth e F 0 * edge_weight true ks el FV e.
Proof.
  intros He. unfold supp_entry, edge_weight. rewrite nth_reds by assumption.
  unfold Rdiv. rewrite Rinv_mult. lra.
Qed.

Lemma ensure_Fij_array_ready : ensure_Fij_array s = Ok s.
Proof.
  destruct ready as (_ & _ & _ & _ & _ & HF & _).
  unfold ensure_Fij_array.
  rewrite (attr_is_none_value s self_Fij_array (VArr F) HF) by discriminate.
  reflexivity.
Qed.

(** What [compute_density_gCorr] stores, given the system it solves. *)
Lemma gCorr_run (A : matrix) (b : list R) (s' : session) :
  gCorr_system use_variance s = Ok (A, b) ->
  compute_density_gCorr use_variance s = Ok s' ->
  exists log_den B,
    spsolve n A b = Ok log_den /\
    pinvh n A = Ok B /\
    s' = setattr
           (setattr
              (setattr (setattr s self_log_den (VArr log_den))
                       self_A (VMatrix A))
              self_B (VMatrix B))
           self_log_den_err (VArr (map sqrt (np_diag n B))).
Proof.
  intros Esys. pose proof ready as (HN & _).
  unfold compute_density_gCorr.
  rewrite ensure_Fij_array_ready. cbn [bind].
  rewrite (get_size_ok s self_N n HN). cbn [bind].
  rewrite Esys. cbn [bind].
  destruct (spsolve n A b) as [ld|e]; cbn [bind]; [|discriminate].
  destruct (pinvh n A) as [B|e]; cbn [bind]; [|discriminate].
  intros H. injection H as <-. eauto.
Qed.

End GCorrFacts.

(** C3: in [compute_density_gCorr], once the diagonal is set, every row of
    the assembled matrix [A] sums to zero and [A(i,i)] is minus the sum of
    the other entries of row [i]; [A] is the matrix the method stores.
    The pair graph is taken without self-pairs [(i,i)], as the neighbour
    graph of a data set is. *)
Theorem gCorr_rows_sum_to_zero :
  forall (ext : DensityEstimation.Externals)
         (s : DensityEstimation.session) (n : nat) (ks : list Z)
         (el : list (Z * Z)) (F FV : list R) (use_variance : bool),
    DensityEstimation.graph_ready s n ks el F FV ->
    (forall p, In p el -> fst p <> snd p) ->
    exists A b,
      DensityEstimation.gCorr_system use_variance s = Ok (A, b) /\
      (forall i, (i < n)%nat ->
         DensityEstimation.sum_upto n (fun j => A i j) = 0%R /\
         A i i = (- DensityEstimation.sum_upto n
                      (fun j => if (j =? i)%nat then 0 else A i j))%R) /\
      (forall s',
         DensityEstimation.compute_density_gCorr use_variance s = Ok s' ->
         s' DensityEstimation.self_A = DensityEstimation.VMatrix A).
Proof.
  intros ext s n ks el F FV uv Hready Hloop.
  destruct (gCorr_assemble_run s n ks el F FV uv Hready)
    as (A0 & supp & E & Hzero & _).
  pose proof (gCorr_system_run s n ks el F FV uv Hready A0 supp E) as Esys.
  do 2 eexists. split; [exact Esys|].
  assert (Hrow : forall i, (i < n)%nat ->
            DensityEstimation.sum_upto n
              (fun j =>
                 DensityEstimation.setdiag
                   (DensityEstimation.madd A0
                      (DensityEstimation.transpose A0))
                   (map Ropp
                      (DensityEstimation.sum_axis1 n
                         (DensityEstimation.madd A0
                            (DensityEstimation.transpose A0)))) i j)
            = 0%R).
  { intros i Hi. apply setdiag_rows_sum_to_zero; [assumption|].
    assert (H0 : A0 i i = 0%R).
    { apply Hzero. intros e He Heq.
      destruct (nth_error el e) as [p|] eqn:Ep;
        [|apply nth_error_None in Ep; lia].
      destruct (edge_in_range s n ks el F FV Hready e p Ep) as [H1 H2].
      unfold DensityEstimation.src, DensityEstimation.tgt,
        DensityEstimation.edge_nat in Heq.
      rewrite (nth_error_nth _ _ _ Ep) in Heq. simpl in Heq.
      injection Heq as Hs Ht.
      apply (Hloop p); [eapply nth_error_In; eassumption|]. lia. }
    unfold DensityEstimation.madd, DensityEstimation.transpose.
    rewrite H0. lra. }
  split.
  - intros i Hi. split; [now apply Hrow|].
    rewrite sum_upto_update by assumption. cbv beta.
    pose proof (Hrow i Hi) as H.
    match type of H with
    | DensityEstimation.sum_upto n (fun j => ?M i j) = _ =>
        change (fun j : nat => M i j) with (M i) in H;
        set (row := DensityEstimation.sum_upto n (M i)) in *;
        set (d := M i i) in *
    end.
    lra.
  - intros s' Hrun.
    destruct (gCorr_run s n ks el F FV uv Hready _ _ s' Esys Hrun)
      as (ld & B & _ & _ & ->).
    reflexivity.
Qed.

Lemma example_graph_ready :
  DensityEstimation.graph_ready DensityEstimation.example_graph_Fij 3
    DensityEstimation.example_kstar DensityEstimation.example_pairs
    DensityEstimation.example_Fij DensityEstimation.example_Fij_var.
Proof.
  repeat split; try reflexivity;
    simpl in H; repeat (destruct H as [<-|H]; [simpl; lia|]);
    contradiction.
Qed.

Lemma gCorr_rows_sum_to_zero_witness :
  exists A b,
    DensityEstimation.gCorr_system true
      DensityEstimation.example_graph_Fij = Ok (A, b) /\
    DensityEstimation.sum_upto 3 (fun j => A 0%nat j) = 0%R.
Proof.
  destruct (gCorr_rows_sum_to_zero DensityEstimation.example_externals
              DensityEstimation.example_graph_Fij 3
              DensityEstimation.example_kstar
              DensityEstimation.example_pairs
              DensityEstimation.example_Fij
              DensityEstimation.example_Fij_var true
              example_graph_ready)
    as (A & b & E & Hrows & _).
  - intros p H. simpl in H.
    repeat (destruct H as [<-|H]; [simpl; lia|]). contradiction.
  - exists A, b. split; [exact E|].
    apply (Hrows 0%nat). lia.
Defined.

(** C5, as the code has it: the assembly loop writes, for every pair
    [(i,j)] of [nind_list], the entry [-w(i,j)] with
    [w = 1/(Fij_var * redundancy)] under variance weighting and
    [1/redundancy] otherwise, [redundancy = sqrt(k*(i) k*(j))]; the matrix
    handed to the solver is that matrix plus its transpose, so that off the
    diagonal [A(i,j) = -w(i,j)] when [(j,i)] is not a pair and
    [A(i,j) = -(w(i,j) + w(j,i))] when it is; under variance weighting
    [b(i)] is the sum of [w * Fij] over the pairs entering [i] minus the
    sum over the pairs leaving [i]. *)
Theorem gCorr_entries_and_rhs :
  forall (ext : DensityEstimation.Externals)
         (s : DensityEstimation.session) (n : nat) (ks : list Z)
         (el : list (Z * Z)) (F FV : list R) (use_variance : bool),
    DensityEstimation.graph_ready s n ks el F FV ->
    NoDup el ->
    exists A0 supp A b,
      DensityEstimation.gCorr_assemble use_variance s = Ok (A0, supp) /\
      DensityEstimation.gCorr_system use_variance s = Ok (A, b) /\
      (forall e, (e < length el)%nat ->
         A0 (DensityEstimation.src el e) (DensityEstimation.tgt el e)
         = (- DensityEstimation.edge_weight use_variance ks el FV e)%R) /\
      (forall e, (e < length el)%nat ->
         DensityEstimation.src el e <> DensityEstimation.tgt el e ->
         (forall e', (e' < length el)%nat ->
            (DensityEstimation.src el e', DensityEstimation.tgt el e')
            <> (DensityEstimation.tgt el e, DensityEstimation.src el e)) ->
         A (DensityEstimation.src el e) (DensityEstimation.tgt el e)
         = (- DensityEstimation.edge_weight use_variance ks el FV e)%R) /\
      (forall e e', (e < length el)%nat -> (e' < length el)%nat ->
         DensityEstimation.src el e <> DensityEstimation.tgt el e ->
         DensityEstimation.src el e' = DensityEstimation.tgt el e ->
         DensityEstimation.tgt el e' = DensityEstimation.src el e ->
         A (DensityEstimation.src el e) (DensityEstimation.tgt el e)
         = (- (DensityEstimation.edge_weight use_variance ks el FV e
               + DensityEstimation.edge_weight use_variance ks el FV e'))%R)
      /\
      (use_variance = true ->
       forall i, (i < n)%nat ->
         nth i b 0%R
         = (DensityEstimation.sum_upto (length el)
              (fun e => if (DensityEstimation.tgt el e =? i)%nat
                        then nth e F 0
                             * DensityEstimation.edge_weight true ks el FV e
                        else 0)
            - DensityEstimation.sum_upto (length el)
                (fun e => if (DensityEstimation.src el e =? i)%nat
                          then nth e F 0
                               * DensityEstimation.edge_weight true ks el FV e
                          else 0))%R).
Proof.
  intros ext s n ks el F FV uv Hready Hnd.
  destruct (gCorr_assemble_run s n ks el F FV uv Hready)
    as (A0 & supp & E & Hzero & Hrest).
  destruct (Hrest Hnd) as (Hval & Hcol & Hrow).
  pose proof (gCorr_system_run s n ks el F FV uv Hready A0 supp E) as Esys.
  exists A0, supp. do 2 eexists.
  split; [exact E|]. split; [exact Esys|].
  assert (Hentry : forall e, (e < length el)%nat ->
            A0 (DensityEstimation.src el e) (DensityEstimation.tgt el e)
            = (- DensityEstimation.edge_weight uv ks el FV e)%R).
  { intros e He. rewrite (proj1 (Hval e He)).
    now apply A_entry_weight. }
  assert (Hoff : forall r c, r <> c ->
            DensityEstimation.setdiag
              (DensityEstimation.madd A0 (DensityEstimation.transpose A0))
              (map Ropp
                 (DensityEstimation.sum_axis1 n
                    (DensityEstimation.madd A0
                       (DensityEstimation.transpose A0)))) r c
            = (A0 r c + A0 c r)%R).
  { intros r c Hrc. unfold DensityEstimation.setdiag.
    destruct (Nat.eqb_spec r c); [contradiction|reflexivity]. }
  split; [exact Hentry|]. split; [|split].
  - intros e He Hne Hno.
    rewrite Hoff by assumption. rewrite Hentry by assumption.
    rewrite (proj1 (Hzero _ _ Hno)). lra.
  - intros e e' He He' Hne Hs Ht.
    rewrite Hoff by assumption. rewrite Hentry by assumption.
    rewrite <- Hs, <- Ht. rewrite Hentry by assumption. lra.
  - intros -> i Hi.
    rewrite (nth_map_in (fun p : R * R => (fst p - snd p)%R) _ i
               (0%R, 0%R) 0%R).
    2:{ rewrite length_combine. unfold DensityEstimation.sum_axis0,
          DensityEstimation.sum_axis1.
        rewrite !length_map, !length_seq. lia. }
    rewrite combine_nth
      by (unfold DensityEstimation.sum_axis0, DensityEstimation.sum_axis1;
          now rewrite !length_map).
    cbn [fst snd].
    rewrite nth_sum_axis0, nth_sum_axis1 by assumption.
    rewrite Hcol, Hrow. f_equal.
    + apply sum_upto_ext. intros e He.
      destruct (DensityEstimation.tgt el e =? i)%nat; [|reflexivity].
      now apply supp_entry_weight.
    + apply sum_upto_ext. intros e He.
      destruct (DensityEstimation.src el e =? i)%nat; [|reflexivity].
      now apply supp_entry_weight.
Qed.

Lemma gCorr_entries_and_rhs_witness :
  exists A0 supp,
    DensityEstimation.gCorr_assemble true
      DensityEstimation.example_graph_Fij = Ok (A0, supp) /\
    A0 2%nat 1%nat
    = (- DensityEstimation.edge_weight true DensityEstimation.example_kstar
           DensityEstimation.example_pairs
           DensityEstimation.example_Fij_var 2)%R.
Proof.
  destruct (gCorr_entries_and_rhs DensityEstimation.example_externals
              DensityEstimation.example_graph_Fij 3
              DensityEstimation.example_kstar
              DensityEstimation.example_pairs
              DensityEstimation.example_Fij
              DensityEstimation.example_Fij_var true
              example_graph_ready)
    as (A0 & supp & A & b & E & _ & Hentry & _).
  - repeat constructor; simpl; intuition congruence.
  - exists A0, supp. split; [exact E|].
    apply (Hentry 2%nat). simpl. lia.
Defined.

(** C5 as stated fails twice on the example graph.  With variance
    weighting, [Fij_var(0,1) = 1] and [k*(0) = k*(1) = 2], the entry
    [A(0,1)] of the solved system is not [-1/(1 * sqrt(2*2))] but twice
    that, points 0 and 1 being mutual neighbours.  Without variance
    weighting, [b(1)] is the plain flow [0.5 + 1 + 0.5], not that flow
    weighted by [1/redundancy = 1/sqrt(2*2)] as the entries of [A] are. *)
Lemma gCorr_mutual_pair_counterexample :
  (exists A b,
     DensityEstimation.gCorr_system true
       DensityEstimation.example_graph_Fij = Ok (A, b) /\
     A 0%nat 1%nat <> (- 1 / (1 * sqrt (IZR (2 * 2))))%R) /\
  (exists A b,
     DensityEstimation.gCorr_system false
       DensityEstimation.example_graph_Fij = Ok (A, b) /\
     A 2%nat 1%nat = (- 1 / sqrt (IZR (2 * 2)))%R /\
     nth 1 b 0%R
     <> (0.5 / sqrt (IZR (2 * 2)) + 1 / sqrt (IZR (2 * 2))
         - - 0.5 / sqrt (IZR (2 * 2)))%R).
Proof.
  assert (H4 : sqrt 4 = 2%R).
  { replace 4%R with (2 * 2)%R by lra. apply sqrt_square. lra. }
  split.
  - do 2 eexists. split; [reflexivity|].
    unfold DensityEstimation.setdiag, DensityEstimation.madd,
      DensityEstimation.transpose. simpl.
    rewrite H4. lra.
  - do 2 eexists. split; [reflexivity|]. split.
    + unfold DensityEstimation.setdiag, DensityEstimation.madd,
        DensityEstimation.transpose. simpl.
      unfold DensityEstimation.lil_matrix. lra.
    + simpl.
      change (Pos.to_nat 3) with 3%nat. change (Pos.to_nat 2) with 2%nat.
      change (Pos.to_nat 1) with 1%nat.
      unfold DensityEstimation.sum_upto, DensityEstimation.lil_matrix.
      simpl. rewrite H4. lra.
Qed.

(** Without variance weighting the right-hand side of
    [compute_density_gCorr] is the plain flow of [Fij], although the
    entries of [A] are weighted by [1/redundancy]; the sibling
    [compute_density_dF_PAk_gCorr] divides [Fij] by the redundancy. *)
Example gCorr_unweighted_rhs :
  exists A b,
    DensityEstimation.gCorr_system false
      DensityEstimation.example_graph_Fij = Ok (A, b) /\
    nth 1 b 0%R = (0.5 + 1 - - 0.5)%R /\
    A 2%nat 1%nat = (- 1.0 / sqrt 4)%R.
Proof.
  do 2 eexists. split; [reflexivity|]. split.
  - simpl.
    change (Pos.to_nat 3) with 3%nat. change (Pos.to_nat 2) with 2%nat.
    change (Pos.to_nat 1) with 1%nat.
    unfold DensityEstimation.sum_upto, DensityEstimation.lil_matrix.
    simpl. lra.
  - unfold DensityEstimation.setdiag, DensityEstimation.madd,
      DensityEstimation.transpose. simpl.
    unfold DensityEstimation.lil_matrix. lra.
Qed.

Example dF_PAk_gCorr_weighted_supp :
  exists A0 supp,
    DensityEstimation.dF_PAk_gCorr_assemble false
      DensityEstimation.example_graph_Fij = Ok (A0, supp) /\
    supp 2%nat 1%nat = (1 / sqrt 4)%R.
Proof. do 2 eexists. split; [reflexivity|]. simpl. lra. Qed.

(** ** The dF-PAk estimator *)

Section DFPAk.

Import DensityEstimation.

Context {ext : Externals}.

Local Open Scope R_scope.

Lemma corrected_loop (d : R) (D : list (list R)) (Fijs : list R) (i : nat)
  (k : Z) :
  (i < length D)%nat ->
  (k <= Z.of_nat (length (nth i D [])))%Z ->
  (k - 1 <= Z.of_nat (length Fijs))%Z ->
  forall (l : list Z) (acc : R),
    (forall j, In j l -> (1 <= j < k)%Z) ->
    for_each l (corrected_shell D Fijs d i) acc
    = Ok (fold_left
            (fun acc j =>
               acc + (pow_f (r_k D i j) d - pow_f (r_k D i (j - 1)) d)
                     * exp (nth (Z.to_nat (j - 1)) Fijs 0))
            l acc).
Proof.
  intros Hi Hrow HF. induction l as [|j l IH]; intros acc Hl.
  - reflexivity.
  - assert (Hj : (1 <= j < k)%Z) by (apply Hl; now left).
    cbn [for_each fold_left]. unfold corrected_shell at 1.
    rewrite (np_index_Z Fijs (j - 1) 0) by lia. cbn [bind].
    rewrite (np_index2_nat D i j 0) by (try lia; assumption). cbn [bind].
    rewrite (np_index2_nat D i (j - 1) 0) by (try lia; assumption).
    cbn [bind]. apply IH. intros j' Hj'. apply Hl. now right.
Qed.

Lemma Fijs_of_ready (s : session) (n : nat) (F : list R) (IP : list Z)
  (i : nat) :
  s self_Fij_array = VArr F ->
  s self_nind_iptr = VIntArr IP ->
  length IP = S n ->
  (i < n)%nat ->
  Fijs_of s i = Ok (Fijs_slice F IP i).
Proof.
  intros HF HIP Hl Hi. unfold Fijs_of.
  rewrite (get_arr_ok s self_Fij_array F HF). cbn [bind].
  rewrite (get_int_arr_ok s self_nind_iptr IP HIP). cbn [bind].
  rewrite (np_index_nat IP i 0%Z) by lia. cbn [bind].
  replace (Z.of_nat i + 1)%Z with (Z.of_nat (S i)) by lia.
  rewrite (np_index_nat IP (S i) 0%Z) by lia. reflexivity.
Qed.

Lemma dF_PAk_body_step (s : session) (n : nat) (d : R)
  (D : list (list R)) (ks : list Z) (F : list R) (IP : list Z) (i : nat)
  (st : loop_state) :
  s self_kstar = VIntArr ks ->
  s self_distances = VArr2 D ->
  s self_Fij_array = VArr F ->
  s self_nind_iptr = VIntArr IP ->
  length D = n ->
  kstar_fits n D ks ->
  pairs_fit n ks F IP ->
  (i < n)%nat ->
  dF_PAk_filled d D ks F IP n i st ->
  exists st', dF_PAk_body s d (prefactor_of d) i st = Ok st' /\
              dF_PAk_filled d D ks F IP n (S i) st'.
Proof.
  intros Hk HD HF HIP HlD [Hlk Hfit] [HlIP Hpf] Hi Hst.
  destruct st as [[[dc ld] lde] mn].
  destruct Hst as ([Ldc Fdc] & [Lld Fld] & Hlde).
  unfold dF_PAk_body.
  rewrite (get_int_arr_ok s self_kstar _ Hk),
          (get_arr2_ok s self_distances _ HD). cbn [bind].
  rewrite (np_index_nat ks i 0%Z) by lia. cbn [bind].
  rewrite (np_index2_nat D i _ 0) by (try lia; now apply Hfit). cbn [bind].
  rewrite np_setitem_ok by lia. cbn [bind].
  rewrite np_setitem_ok by lia. cbn [bind].
  rewrite (Fijs_of_ready s n F IP i HF HIP HlIP Hi). cbn [bind].
  pose proof (Hfit i Hi) as Hki. pose proof (Hpf i Hi) as Hpi.
  rewrite (corrected_loop d D (Fijs_slice F IP i) i (nth i ks 0%Z))
    by (try lia; try assumption; intros j Hj; now apply in_py_range in Hj).
  cbn [bind].
  rewrite (np_index_nat _ i 0) by (rewrite length_set_nth; lia).
  cbn [bind].
  rewrite np_setitem_ok by (rewrite length_set_nth; lia). cbn [bind].
  rewrite (np_index_nat _ i 0) by (rewrite !length_set_nth; lia).
  cbn [bind].
  eexists. split; [reflexivity|].
  split; [|split].
  - apply (filled_step (fun i => r_k D i (nth i ks 0%Z)) n i dc Hi
             (conj Ldc Fdc)).
  - rewrite nth_set_nth_eq by lia.
    apply (filled_step (dF_PAk_estimate d D ks F IP) n i).
    + assumption.
    + apply filled_set. now split.
  - assumption.
Qed.

Lemma dF_PAk_run (s : session) (n : nat) (d : R) (D : list (list R))
  (ks : list Z) (F : list R) (IP : list Z) :
  inputs_ready s n d D ->
  s self_kstar = VIntArr ks ->
  s self_Fij_array = VArr F ->
  s self_nind_iptr = VIntArr IP ->
  kstar_fits n D ks ->
  pairs_fit n ks F IP ->
  compute_density_dF_PAk s =
  Ok (store_density s
        (normalise n (map (dF_PAk_estimate d D ks F IP) (seq 0 n)))
        (map (fun k => 1.0 / sqrt (IZR k)) ks)
        (map (fun i => r_k D i (nth i ks 0%Z)) (seq 0 n))).
Proof.
  intros (HN & Hd & HD & HlD) Hk HF HIP Hfit Hpf.
  unfold compute_density_dF_PAk.
  rewrite (ensure_kstar_ready s ks Hk). cbn [bind].
  unfold ensure_Fij_array.
  rewrite (attr_is_none_value s self_Fij_array (VArr F) HF) by discriminate.
  cbn [bind is_none].
  rewrite (get_size_ok s self_N n HN). cbn [bind].
  rewrite (get_number_float s self_intrinsic_dim d Hd). cbn [bind].
  destruct (for_range_inv (dF_PAk_filled d D ks F IP n)
              (dF_PAk_body s d (prefactor_of d)) n (init_loop_state n))
    as ([[[dc ld] lde] mn] & E & Fdc & Fld & Hlde).
  - unfold dF_PAk_filled, init_loop_state, zeros.
    repeat split; try apply repeat_length; intros j Hj; lia.
  - intros i st Hi Hst.
    now apply (dF_PAk_body_step s n d D ks F IP i st).
  - rewrite E. cbn [bind].
    rewrite (get_int_arr_ok s self_kstar ks Hk). cbn [bind].
    now rewrite (filled_all _ _ _ Fdc), (filled_all _ _ _ Fld).
Qed.

End DFPAk.

(** ** Normalisation and outputs of the estimators *)

Lemma length_normalise (n : nat) (l : list R) :
  length (DensityEstimation.normalise n l) = length l.
Proof. apply length_map. Qed.

Lemma length_map_seq {B : Type} (f : nat -> B) (n : nat) :
  length (map f (seq 0 n)) = n.
Proof. now rewrite length_map, length_seq. Qed.

Lemma store_density_holds (s : DensityEstimation.session) (n : nat)
  (log_den log_den_err dc : list R) :
  length log_den = n -> length log_den_err = n -> length dc = n ->
  DensityEstimation.holds_density
    (DensityEstimation.store_density s log_den log_den_err dc) n.
Proof.
  intros H1 H2 H3. exists log_den, log_den_err, dc.
  repeat split; assumption.
Qed.

Lemma kstarNN_estimate_eq (ext : DensityEstimation.Externals) (d : R)
  (D : list (list R)) (ks : list Z) (i : nat) :
  DensityEstimation.kstarNN_estimate d D ks i
  = DensityEstimation.kNN_estimate d D i (nth i ks 0%Z).
Proof.
  unfold DensityEstimation.kstarNN_estimate, DensityEstimation.kNN_estimate.
  lra.
Qed.

(** C1, as the code has it: [compute_density_kNN],
    [compute_density_kstarNN], [compute_density_PAk] and
    [compute_density_dF_PAk] store, for every point, their unnormalised
    estimate minus [log N];
    [compute_density_kpeaks] stores [k*(i)] itself and
    [compute_density_gCorr] stores the solution returned by the solver,
    neither subtracting [log N]. *)
Theorem density_normalisation :
  forall (ext : DensityEstimation.Externals)
         (s : DensityEstimation.session) (n : nat) (d : R)
         (D : list (list R)),
    DensityEstimation.inputs_ready s n d D ->
    (forall k,
       (forall i, (i < n)%nat ->
          (0 <= k < Z.of_nat (length (nth i D [])))%Z) ->
       exists s' log_den,
         DensityEstimation.compute_density_kNN k s = Ok s' /\
         s' DensityEstimation.self_log_den = DensityEstimation.VArr log_den /\
         forall i, (i < n)%nat ->
           nth i log_den 0%R
           = (DensityEstimation.kNN_estimate d D i k - ln (INR n))%R) /\
    (forall ks,
       s DensityEstimation.self_kstar = DensityEstimation.VIntArr ks ->
       DensityEstimation.kstar_fits n D ks ->
       (exists s' log_den,
          DensityEstimation.compute_density_kstarNN s = Ok s' /\
          s' DensityEstimation.self_log_den = DensityEstimation.VArr log_den /\
          forall i, (i < n)%nat ->
            nth i log_den 0%R
            = (DensityEstimation.kNN_estimate d D i (nth i ks 0%Z)
               - ln (INR n))%R) /\
       (forall maxk,
          s DensityEstimation.self_maxk
          = DensityEstimation.VInt (Z.of_nat maxk) ->
          (forall i, (i < n)%nat -> (nth i ks 0%Z <= Z.of_nat maxk)%Z) ->
          exists s' log_den,
            DensityEstimation.compute_density_PAk s = Ok s' /\
            s' DensityEstimation.self_log_den
            = DensityEstimation.VArr log_den /\
            forall i, (i < n)%nat ->
              nth i log_den 0%R
              = (DensityEstimation.PAk_estimate d D ks maxk i
                 - ln (INR n))%R) /\
       (forall DI,
          s DensityEstimation.self_dist_indices
          = DensityEstimation.VIntArr2 DI ->
          DensityEstimation.neighbours_fit n DI ks ->
          exists s' log_den,
            DensityEstimation.compute_density_kpeaks s = Ok s' /\
            s' DensityEstimation.self_log_den
            = DensityEstimation.VArr log_den /\
            forall i, (i < n)%nat ->
              nth i log_den 0%R = IZR (nth i ks 0%Z)) /\
       (forall F IP,
          s DensityEstimation.self_Fij_array = DensityEstimation.VArr F ->
          s DensityEstimation.self_nind_iptr
          = DensityEstimation.VIntArr IP ->
          DensityEstimation.pairs_fit n ks F IP ->
          exists s' log_den,
            DensityEstimation.compute_density_dF_PAk s = Ok s' /\
            s' DensityEstimation.self_log_den
            = DensityEstimation.VArr log_den /\
            forall i, (i < n)%nat ->
              nth i log_den 0%R
              = (DensityEstimation.dF_PAk_estimate d D ks F IP i
                 - ln (INR n))%R)) /\
    (forall ks el F FV use_variance s',
       DensityEstimation.graph_ready s n ks el F FV ->
       DensityEstimation.compute_density_gCorr use_variance s = Ok s' ->
       exists A b x,
         DensityEstimation.gCorr_system use_variance s = Ok (A, b) /\
         DensityEstimation.spsolve n A b = Ok x /\
         s' DensityEstimation.self_log_den = DensityEstimation.VArr x).
Proof.
  intros ext s n d D Hin. split; [|split].
  - intros k Hk.
    destruct (kNN_run s n d D k Hin Hk) as (s1 & _ & E).
    do 2 eexists. split; [exact E|]. split; [reflexivity|].
    intros i Hi.
    rewrite nth_normalise by (rewrite length_map_seq; lia).
    now rewrite nth_map_seq.
  - intros ks Hk Hfit. split; [|split; [|split]].
    + do 2 eexists.
      split; [apply (kstarNN_run s n d D ks); assumption|].
      split; [reflexivity|]. intros i Hi.
      rewrite nth_normalise by (rewrite length_map_seq; lia).
      rewrite nth_map_seq by assumption.
      now rewrite kstarNN_estimate_eq.
    + intros maxk Hmk Hmax. do 2 eexists.
      split; [apply (PAk_run s n maxk d D ks); assumption|].
      split; [reflexivity|]. intros i Hi.
      rewrite nth_normalise by (rewrite length_map_seq; lia).
      now rewrite nth_map_seq.
    + intros DI HDI Hnb.
      destruct (kpeaks_run s n d D DI ks Hin Hk HDI Hfit Hnb)
        as (lde & _ & E).
      do 2 eexists. split; [exact E|]. split; [reflexivity|].
      intros i Hi. now rewrite nth_map_seq.
    + intros F IP HF HIP Hpf. do 2 eexists.
      split; [apply (dF_PAk_run s n d D ks F IP); assumption|].
      split; [reflexivity|]. intros i Hi.
      rewrite nth_normalise by (rewrite length_map_seq; lia).
      now rewrite nth_map_seq.
  - intros ks el F FV uv s' Hready Hrun.
    destruct (gCorr_assemble_run s n ks el F FV uv Hready)
      as (A0 & supp & E & _).
    pose proof (gCorr_system_run s n ks el F FV uv Hready A0 supp E) as Esys.
    destruct (gCorr_run s n ks el F FV uv Hready _ _ s' Esys Hrun)
      as (x & B & Ex & _ & ->).
    do 3 eexists. split; [exact Esys|]. split; [exact Ex|]. reflexivity.
Qed.

Lemma density_normalisation_witness :
  exists s' log_den,
    DensityEstimation.compute_density_kNN
      (ext := DensityEstimation.example_externals) 1
      DensityEstimation.example_session = Ok s' /\
    s' DensityEstimation.self_log_den = DensityEstimation.VArr log_den /\
    nth 0 log_den 0%R
    = (DensityEstimation.kNN_estimate
         (ext := DensityEstimation.example_externals) 2
         DensityEstimation.example_distances 0 1 - ln (INR 3))%R.
Proof.
  destruct (density_normalisation DensityEstimation.example_externals
              DensityEstimation.example_session 3 2
              DensityEstimation.example_distances)
    as (HkNN & _).
  - repeat split; reflexivity.
  - destruct (HkNN 1%Z) as (s' & ld & E & Hld & Hval).
    + intros [|[|[|i]]] Hi; simpl; lia.
    + exists s', ld. split; [exact E|]. split; [exact Hld|].
      apply Hval. lia.
Defined.

(** C1 as stated fails for [compute_density_kpeaks] and for
    [compute_density_gCorr]: on three points with [k* = 2], k-peaks stores
    [2] at point 0, not [2 - log 3], and the graph-consistency solve stores
    the solver's answer [x] as it is, not [x - log 3]. *)
Lemma kpeaks_not_normalised :
  (exists s' log_den,
     DensityEstimation.compute_density_kpeaks
       (ext := DensityEstimation.example_externals)
       DensityEstimation.example_session_k2 = Ok s' /\
     s' DensityEstimation.self_log_den = DensityEstimation.VArr log_den /\
     nth 0 log_den 0%R <> (IZR 2 - ln (INR 3))%R) /\
  (exists s' A b x log_den,
     DensityEstimation.compute_density_gCorr
       (ext := DensityEstimation.example_externals) true
       DensityEstimation.example_graph_Fij = Ok s' /\
     DensityEstimation.gCorr_system true
       DensityEstimation.example_graph_Fij = Ok (A, b) /\
     DensityEstimation.spsolve
       (Externals := DensityEstimation.example_externals) 3 A b = Ok x /\
     s' DensityEstimation.self_log_den = DensityEstimation.VArr log_den /\
     nth 0 log_den 0%R <> (nth 0 x 0 - ln (INR 3))%R).
Proof.
  assert (H : (0 < ln (1 + 1 + 1))%R).
  { rewrite <- ln_1. apply ln_increasing; lra. }
  split.
  - do 2 eexists. split; [reflexivity|]. split; [reflexivity|].
    simpl. lra.
  - do 5 eexists. split; [reflexivity|]. split; [reflexivity|].
    split; [reflexivity|]. split; [reflexivity|].
    simpl INR. lra.
Qed.

(** C8, as the code has it: [compute_density_kNN],
    [compute_density_kstarNN], [compute_density_PAk],
    [compute_density_kpeaks] and [compute_density_dF_PAk] each assign
    [log_den], [log_den_err] and [dc] afresh, as arrays with one entry per
    point; [compute_density_gCorr] assigns [log_den] and [log_den_err] and
    leaves [dc] as it was. *)
Theorem density_outputs_assigned :
  forall (ext : DensityEstimation.Externals)
         (s : DensityEstimation.session) (n : nat) (d : R)
         (D : list (list R)),
    DensityEstimation.inputs_ready s n d D ->
    (forall k,
       (forall i, (i < n)%nat ->
          (0 <= k < Z.of_nat (length (nth i D [])))%Z) ->
       exists s',
         DensityEstimation.compute_density_kNN k s = Ok s' /\
         DensityEstimation.holds_density s' n) /\
    (forall ks,
       s DensityEstimation.self_kstar = DensityEstimation.VIntArr ks ->
       DensityEstimation.kstar_fits n D ks ->
       (exists s',
          DensityEstimation.compute_density_kstarNN s = Ok s' /\
          DensityEstimation.holds_density s' n) /\
       (forall maxk,
          s DensityEstimation.self_maxk
          = DensityEstimation.VInt (Z.of_nat maxk) ->
          (forall i, (i < n)%nat -> (nth i ks 0%Z <= Z.of_nat maxk)%Z) ->
          exists s',
            DensityEstimation.compute_density_PAk s = Ok s' /\
            DensityEstimation.holds_density s' n) /\
       (forall DI,
          s DensityEstimation.self_dist_indices
          = DensityEstimation.VIntArr2 DI ->
          DensityEstimation.neighbours_fit n DI ks ->
          exists s',
            DensityEstimation.compute_density_kpeaks s = Ok s' /\
            DensityEstimation.holds_density s' n) /\
       (forall F IP,
          s DensityEstimation.self_Fij_array = DensityEstimation.VArr F ->
          s DensityEstimation.self_nind_iptr
          = DensityEstimation.VIntArr IP ->
          DensityEstimation.pairs_fit n ks F IP ->
          exists s',
            DensityEstimation.compute_density_dF_PAk s = Ok s' /\
            DensityEstimation.holds_density s' n)) /\
    (forall ks el F FV use_variance s',
       DensityEstimation.graph_ready s n ks el F FV ->
       DensityEstimation.compute_density_gCorr use_variance s = Ok s' ->
       (exists log_den log_den_err,
          s' DensityEstimation.self_log_den
          = DensityEstimation.VArr log_den /\
          s' DensityEstimation.self_log_den_err
          = DensityEstimation.VArr log_den_err) /\
       s' DensityEstimation.self_dc = s DensityEstimation.self_dc).
Proof.
  intros ext s n d D Hin. split; [|split].
  - intros k Hk.
    destruct (kNN_run s n d D k Hin Hk) as (s1 & _ & E).
    eexists. split; [exact E|].
    apply store_density_holds;
      now rewrite ?length_normalise, length_map_seq.
  - intros ks Hk Hfit. split; [|split; [|split]].
    + eexists. split; [apply (kstarNN_run s n d D ks); assumption|].
      apply store_density_holds;
        now rewrite ?length_normalise, length_map_seq.
    + intros maxk Hmk Hmax. eexists.
      split; [apply (PAk_run s n maxk d D ks); assumption|].
      apply store_density_holds;
        now rewrite ?length_normalise, length_map_seq.
    + intros DI HDI Hnb.
      destruct (kpeaks_run s n d D DI ks Hin Hk HDI Hfit Hnb)
        as (lde & Hl & E).
      eexists. split; [exact E|].
      apply store_density_holds; try assumption;
        now rewrite length_map_seq.
    + intros F IP HF HIP Hpf. eexists.
      split; [apply (dF_PAk_run s n d D ks F IP); assumption|].
      apply store_density_holds;
        rewrite ?length_normalise, ?length_map_seq, ?length_map;
        try reflexivity.
      apply Hfit.
  - intros ks el F FV uv s' Hready Hrun.
    destruct (gCorr_assemble_run s n ks el F FV uv Hready)
      as (A0 & supp & E & _).
    pose proof (gCorr_system_run s n ks el F FV uv Hready A0 supp E) as Esys.
    destruct (gCorr_run s n ks el F FV uv Hready _ _ s' Esys Hrun)
      as (x & B & _ & _ & ->).
    split; [do 2 eexists; split; reflexivity|reflexivity].
Qed.

Lemma density_outputs_assigned_witness :
  exists s',
    DensityEstimation.compute_density_kstarNN
      (ext := DensityEstimation.example_externals)
      DensityEstimation.example_session_k2 = Ok s' /\
    DensityEstimation.holds_density s' 3.
Proof.
  destruct (density_outputs_assigned DensityEstimation.example_externals
              DensityEstimation.example_session_k2 3 2
              DensityEstimation.example_distances)
    as (_ & Hk & _).
  - repeat split; reflexivity.
  - destruct (Hk DensityEstimation.example_kstar eq_refl) as (H & _).
    + split; [reflexivity|]. intros [|[|[|i]]] Hi; simpl; lia.
    + exact H.
Defined.

(** C8 as stated fails for [compute_density_gCorr]: run on a session whose
    [dc] is still [None], it returns with [dc] still [None]. *)
Lemma gCorr_leaves_dc_unassigned :
  exists s',
    DensityEstimation.compute_density_gCorr
      (ext := DensityEstimation.example_externals) true
      DensityEstimation.example_graph_Fij = Ok s' /\
    s' DensityEstimation.self_dc = DensityEstimation.VNone /\
    forall dc, s' DensityEstimation.self_dc <> DensityEstimation.VArr dc.
Proof.
  eexists. split; [reflexivity|]. split; [reflexivity|].
  intros dc. discriminate.
Qed.

(** ** The pairwise corrections *)

Lemma ew2_ok {A B C : Type} (f : A -> B -> C) (a : list A) (b : list B) :
  length a = length b ->
  DensityEstimation.ew2 f a b = Ok (DensityEstimation.zip_with f a b).
Proof.
  intros H. unfold DensityEstimation.ew2. now rewrite H, Nat.eqb_refl.
Qed.

Lemma length_zip_with {A B C : Type} (f : A -> B -> C) (a : list A)
  (b : list B) :
  length (DensityEstimation.zip_with f a b)
  = Nat.min (length a) (length b).
Proof.
  unfold DensityEstimation.zip_with. now rewrite length_map, length_combine.
Qed.

Lemma nth_zip_with {A B C : Type} (f : A -> B -> C) (a : list A)
  (b : list B) (e : nat) (dA : A) (dB : B) (dC : C) :
  (e < length a)%nat -> length a = length b ->
  nth e (DensityEstimation.zip_with f a b) dC = f (nth e a dA) (nth e b dB).
Proof.
  intros He Hl. unfold DensityEstimation.zip_with.
  rewrite (nth_map_in _ (combine a b) e (dA, dB) dC)
    by (rewrite length_combine; lia).
  now rewrite combine_nth.
Qed.

Section Semisum.

Import DensityEstimation.

Context {ext : Externals}.

Local Open Scope R_scope.

Variable s : session.
Variable n : nat.
Variable ks : list Z.
Variable el : list (Z * Z).
Variable VD G : list (list R).
Variable GV : list (list (list R)).

Hypothesis ready : semisum_ready s n ks el VD G GV.

Lemma gather_fst {A : Type} (a : list A) (d : A) :
  length a = n ->
  np_take a (map fst el)
  = Ok (map (fun e => nth (src el e) a d) (seq 0 (length el))).
Proof.
  intros Hl. destruct ready as (_ & _ & _ & _ & _ & _ & _ & _ & _ & _ & Hr).
  rewrite (np_take_ok a (map fst el) d).
  - f_equal. apply (nth_ext _ _ d d); [now rewrite !length_map, length_seq|].
    intros e He. rewrite !length_map in He.
    rewrite (nth_map_in _ (map fst el) e 0%Z d) by now rewrite length_map.
    rewrite (nth_map_in fst el e (0, 0)%Z 0%Z) by assumption.
    rewrite (nth_map_in _ (seq 0 (length el)) e 0%nat d)
      by now rewrite length_seq.
    now rewrite seq_nth.
  - intros k Hk. apply in_map_iff in Hk. destruct Hk as (p & <- & Hp).
    rewrite Hl. now apply Hr.
Qed.

Lemma gather_snd {A : Type} (a : list A) (d : A) :
  length a = n ->
  np_take a (map snd el)
  = Ok (map (fun e => nth (tgt el e) a d) (seq 0 (length el))).
Proof.
  intros Hl. destruct ready as (_ & _ & _ & _ & _ & _ & _ & _ & _ & _ & Hr).
  rewrite (np_take_ok a (map snd el) d).
  - f_equal. apply (nth_ext _ _ d d); [now rewrite !length_map, length_seq|].
    intros e He. rewrite !length_map in He.
    rewrite (nth_map_in _ (map snd el) e 0%Z d) by now rewrite length_map.
    rewrite (nth_map_in snd el e (0, 0)%Z 0%Z) by assumption.
    rewrite (nth_map_in _ (seq 0 (length el)) e 0%nat d)
      by now rewrite length_seq.
    now rewrite seq_nth.
  - intros k Hk. apply in_map_iff in Hk. destruct Hk as (p & <- & Hp).
    rewrite Hl. now apply Hr.
Qed.

Let g1 : list (list R) :=
  map (fun e => nth (src el e) G []) (seq 0 (length el)).
Let g2 : list (list R) :=
  map (fun e => nth (tgt el e) G []) (seq 0 (length el)).
Let g_var1 : list (list (list R)) :=
  map (fun e => nth (src el e) GV []) (seq 0 (length el)).
Let g_var2 : list (list (list R)) :=
  map (fun e => nth (tgt el e) GV []) (seq 0 (length el)).

Lemma length_VD : length VD = length el.
Proof. now destruct ready as (_ & _ & _ & _ & _ & _ & _ & _ & _ & H & _). Qed.

Lemma Fij_array_eq :
  map (fun x => 0.5 * x) (zip_with dot (zip_with vadd g1 g2) VD)
  = Fij_of G VD el.
Proof.
  pose proof length_VD as HV. unfold Fij_of.
  apply (nth_ext _ _ 0 0).
  - unfold g1, g2. repeat (rewrite length_zip_with || rewrite length_map).
    rewrite !length_seq. lia.
  - intros e He.
    assert (Hlt : (e < length el)%nat).
    { revert He. unfold g1, g2.
      repeat (rewrite length_zip_with || rewrite length_map).
      rewrite !length_seq. lia. }
    rewrite (nth_map_in (fun x => 0.5 * x) _ e 0 0)
      by (unfold g1, g2;
          repeat (rewrite length_zip_with || rewrite length_map);
          rewrite !length_seq; lia).
    rewrite (nth_zip_with dot _ VD e [] [] 0)
      by (unfold g1, g2;
          repeat (rewrite length_zip_with || rewrite length_map);
          rewrite !length_seq; lia).
    rewrite (nth_zip_with vadd g1 g2 e [] [] [])
      by (unfold g1, g2; rewrite ?length_map, ?length_seq; lia).
    unfold g1, g2.
    rewrite !(nth_map_in _ (seq 0 (length el)) e 0%nat)
      by (rewrite length_seq; lia).
    rewrite ?nth_map_seq by assumption.
    rewrite !seq_nth by assumption. reflexivity.
Qed.

Lemma vari_eq :
  zip_with dot VD (zip_with matvec g_var1 VD)
  = map (Var_i GV VD el) (seq 0 (length el)).
Proof.
  pose proof length_VD as HV.
  apply (nth_ext _ _ 0 0).
  - unfold g_var1. repeat (rewrite length_zip_with || rewrite length_map).
    rewrite !length_seq. lia.
  - intros e He.
    assert (Hlt : (e < length el)%nat).
    { revert He. unfold g_var1.
      repeat (rewrite length_zip_with || rewrite length_map).
      rewrite !length_seq. lia. }
    rewrite (nth_zip_with dot VD _ e [] [] 0)
      by (unfold g_var1;
          repeat (rewrite length_zip_with || rewrite length_map);
          rewrite ?length_seq; lia).
    rewrite (nth_zip_with matvec g_var1 VD e [] [] [])
      by (unfold g_var1; rewrite ?length_map, ?length_seq; lia).
    unfold g_var1.
    rewrite (nth_map_in _ (seq 0 (length el)) e 0%nat)
      by (rewrite length_seq; lia).
    rewrite ?nth_map_seq by assumption.
    rewrite !seq_nth by assumption. reflexivity.
Qed.

Lemma varj_eq :
  zip_with dot VD (zip_with matvec g_var2 VD)
  = map (Var_j GV VD el) (seq 0 (length el)).
Proof.
  pose proof length_VD as HV.
  apply (nth_ext _ _ 0 0).
  - unfold g_var2. repeat (rewrite length_zip_with || rewrite length_map).
    rewrite !length_seq. lia.
  - intros e He.
    assert (Hlt : (e < length el)%nat).
    { revert He. unfold g_var2.
      repeat (rewrite length_zip_with || rewrite length_map).
      rewrite !length_seq. lia. }
    rewrite (nth_zip_with dot VD _ e [] [] 0)
      by (unfold g_var2;
          repeat (rewrite length_zip_with || rewrite length_map);
          rewrite ?length_seq; lia).
    rewrite (nth_zip_with matvec g_var2 VD e [] [] [])
      by (unfold g_var2; rewrite ?length_map, ?length_seq; lia).
    unfold g_var2.
    rewrite (nth_map_in _ (seq 0 (length el)) e 0%nat)
      by (rewrite length_seq; lia).
    rewrite ?nth_map_seq by assumption.
    rewrite !seq_nth by assumption. reflexivity.
Qed.

(** The variance array, for a correlation given pair by pair. *)
Lemma Fij_var_array_eq (chi : nat -> R) (cross : list R) :
  cross = map (fun e => 2 * chi e * sqrt (Var_i GV VD el e
                                          * Var_j GV VD el e))
              (seq 0 (length el)) ->
  map (fun x => 0.25 * x)
      (zip_with Rplus
         (zip_with Rplus (map (Var_i GV VD el) (seq 0 (length el)))
                         (map (Var_j GV VD el) (seq 0 (length el))))
         cross)
  = Fij_var_of GV VD el chi.
Proof.
  intros ->. unfold Fij_var_of.
  apply (nth_ext _ _ 0 0).
  - repeat (rewrite length_zip_with || rewrite length_map).
    rewrite !length_seq. lia.
  - intros e He.
    assert (Hlt : (e < length el)%nat).
    { revert He. repeat (rewrite length_zip_with || rewrite length_map).
      rewrite !length_seq. lia. }
    rewrite (nth_map_in (fun x => 0.25 * x) _ e 0 0)
      by (repeat (rewrite length_zip_with || rewrite length_map);
          rewrite !length_seq; lia).
    rewrite (nth_zip_with Rplus _ _ e 0 0 0)
      by (repeat (rewrite length_zip_with || rewrite length_map);
          rewrite !length_seq; lia).
    rewrite (nth_zip_with Rplus _ _ e 0 0 0)
      by (rewrite ?length_map, ?length_seq; lia).
    rewrite !nth_map_seq by assumption. reflexivity.
Qed.

Lemma root_eq :
  map sqrt (zip_with Rmult (map (Var_i GV VD el) (seq 0 (length el)))
                           (map (Var_j GV VD el) (seq 0 (length el))))
  = map (fun e => sqrt (Var_i GV VD el e * Var_j GV VD el e))
        (seq 0 (length el)).
Proof.
  apply (nth_ext _ _ 0 0).
  - repeat (rewrite length_zip_with || rewrite length_map).
    rewrite !length_seq. lia.
  - intros e He.
    assert (Hlt : (e < length el)%nat).
    { revert He. repeat (rewrite length_zip_with || rewrite length_map).
      rewrite !length_seq. lia. }
    rewrite (nth_map_in sqrt _ e 0 0)
      by (repeat (rewrite length_zip_with || rewrite length_map);
          rewrite !length_seq; lia).
    rewrite (nth_zip_with Rmult _ _ e 0 0 0)
      by (rewrite ?length_map, ?length_seq; lia).
    rewrite !nth_map_seq by assumption. reflexivity.
Qed.

End Semisum.

Section SemisumRun.

Import DensityEstimation.

Context {ext : Externals}.

Local Open Scope R_scope.

Variable s : session.
Variable n : nat.
Variable ks : list Z.
Variable el : list (Z * Z).
Variable VD G : list (list R).
Variable GV : list (list (list R)).

Hypothesis ready : semisum_ready s n ks el VD G GV.

Lemma getattr_ok (s0 : session) (a : attr) (v : value) :
  s0 a = v -> v <> VUnset -> getattr s0 a = Ok v.
Proof.
  intros H Hv. unfold getattr. rewrite H. destruct v; congruence.
Qed.

(** The part of the method before [chi] is resolved (lines 1306-1333):
    the caches are in place, the six gathers succeed. *)
Ltac semisum_prefix :=
  pose proof ready as
    (HVD & HG & Hcov & HGV & Hel & Hks & Hlk & HlG & HlGV & HlVD & Hr);
  unfold compute_deltaFs_grads_semisum;
  rewrite (attr_is_none_value s self_neigh_vector_diffs _ HVD)
    by discriminate;
  cbn [bind is_none];
  rewrite (attr_is_none_value s self_grads _ HG) by discriminate;
  cbn [bind is_none];
  rewrite (getattr_ok s self_check_grads_covmat _ Hcov) by discriminate;
  cbn [bind];
  rewrite (get_pairs_ok s self_nind_list el Hel); cbn [bind];
  rewrite (get_int_arr_ok s self_kstar ks Hks); cbn [bind];
  rewrite (gather_fst s n ks el VD G GV ready ks 0%Z Hlk); cbn [bind];
  rewrite (gather_snd s n ks el VD G GV ready ks 0%Z Hlk); cbn [bind];
  rewrite (get_arr2_ok s self_grads G HG); cbn [bind];
  rewrite (gather_fst s n ks el VD G GV ready G [] HlG); cbn [bind];
  rewrite (gather_snd s n ks el VD G GV ready G [] HlG); cbn [bind];
  rewrite (get_arr3_ok s self_grads_var GV HGV); cbn [bind];
  rewrite (gather_fst s n ks el VD G GV ready GV [] HlGV); cbn [bind];
  rewrite (gather_snd s n ks el VD G GV ready GV [] HlGV); cbn [bind].

(** The part after [chi] is resolved (lines 1345-1356), up to the cross
    term. *)
Ltac semisum_suffix :=
  rewrite (ew2_ok vadd) by (rewrite !length_map; reflexivity);
  cbn [bind];
  unfold einsum_ij_ij_i, einsum_ijk_ik_ij;
  rewrite (ew2_ok dot) by (rewrite length_zip_with, !length_map,
                             ?length_seq; lia);
  cbn [bind];
  rewrite (ew2_ok matvec) by (rewrite !length_map, ?length_seq; lia);
  cbn [bind];
  rewrite (ew2_ok dot) by (rewrite length_zip_with, !length_map,
                             ?length_seq; lia);
  cbn [bind];
  rewrite (ew2_ok matvec) by (rewrite !length_map, ?length_seq; lia);
  cbn [bind];
  rewrite (ew2_ok dot) by (rewrite length_zip_with, !length_map,
                             ?length_seq; lia);
  cbn [bind];
  rewrite (Fij_array_eq s n ks el VD G GV ready),
          (vari_eq s n ks el VD G GV ready),
          (varj_eq s n ks el VD G GV ready);
  rewrite (ew2_ok Rmult) by (rewrite !length_map; reflexivity);
  cbn [bind];
  rewrite root_eq.

Lemma semisum_run_num (c : R) :
  0 <= c <= 1 ->
  compute_deltaFs_grads_semisum (ChiNum c) s
  = Ok (setattr (setattr s self_Fij_array (VArr (Fij_of G VD el)))
                self_Fij_var_array
                (VArr (Fij_var_of GV VD el (fun _ => c)))).
Proof.
  intros [Hc0 Hc1]. semisum_prefix.
  assert (Hin : in_unit_interval c = true).
  { unfold in_unit_interval.
    destruct (Rle_dec 0 c); [|contradiction].
    destruct (Rle_dec c 1); [reflexivity|contradiction]. }
  rewrite Hin. cbn [assert bind].
  rewrite (get_arr2_ok s self_neigh_vector_diffs VD HVD). cbn [bind].
  semisum_suffix.
  unfold cross_term. cbn [bind].
  rewrite (ew2_ok Rplus) by (rewrite !length_map; reflexivity).
  cbn [bind].
  rewrite (ew2_ok Rplus)
    by (rewrite length_zip_with, !length_map, ?length_seq; lia).
  cbn [bind].
  rewrite (Fij_var_array_eq el VD GV (fun _ => c)).
  - reflexivity.
  - now rewrite map_map.
Qed.

Lemma semisum_rejects (c : R) :
  ~ (0 <= c <= 1) ->
  compute_deltaFs_grads_semisum (ChiNum c) s = Raise AssertionError.
Proof.
  intros Hc. semisum_prefix.
  assert (Hin : in_unit_interval c = false).
  { unfold in_unit_interval.
    destruct (Rle_dec 0 c); [|reflexivity].
    destruct (Rle_dec c 1); [|reflexivity].
    exfalso. apply Hc. now split. }
  rewrite Hin. reflexivity.
Qed.

Lemma semisum_run_auto (CN : list Z) :
  s self_common_neighs = VIntArr CN ->
  length CN = length el ->
  compute_deltaFs_grads_semisum ChiAuto s
  = Ok (setattr (setattr s self_Fij_array (VArr (Fij_of G VD el)))
                self_Fij_var_array
                (VArr (Fij_var_of GV VD el (chi_auto ks CN el)))).
Proof.
  intros HCN HlCN. semisum_prefix.
  rewrite (attr_is_none_value s self_common_neighs _ HCN) by discriminate.
  cbn [bind is_none].
  unfold get_num_arr.
  rewrite (getattr_ok s self_common_neighs _ HCN) by discriminate.
  cbn [bind].
  rewrite (ew2_ok Z.add) by (rewrite !length_map; reflexivity).
  cbn [bind].
  rewrite (ew2_ok (fun (k : Z) (c : R) => IZR k - c))
    by (rewrite length_zip_with, !length_map, ?length_seq; lia).
  cbn [bind].
  rewrite (ew2_ok Rdiv)
    by (repeat (rewrite length_zip_with || rewrite length_map);
        rewrite ?length_seq; lia).
  cbn [bind].
  rewrite (get_arr2_ok s self_neigh_vector_diffs VD HVD). cbn [bind].
  semisum_suffix.
  unfold cross_term.
  rewrite (ew2_ok (fun c x : R => 2 * c * x))
    by (repeat (rewrite length_zip_with || rewrite length_map);
        rewrite ?length_seq; lia).
  cbn [bind].
  rewrite (ew2_ok Rplus) by (rewrite !length_map; reflexivity).
  cbn [bind].
  rewrite (ew2_ok Rplus)
    by (repeat (rewrite length_zip_with || rewrite length_map);
        rewrite ?length_seq; lia).
  cbn [bind].
  rewrite (Fij_var_array_eq el VD GV (chi_auto ks CN el)).
  - reflexivity.
  - apply (nth_ext _ _ 0 0).
    + repeat (rewrite length_zip_with || rewrite length_map).
      rewrite ?length_seq. lia.
    + intros e He.
      assert (Hlt : (e < length el)%nat).
      { revert He. repeat (rewrite length_zip_with || rewrite length_map).
        rewrite ?length_seq. lia. }
      rewrite (nth_zip_with (fun c x : R => 2 * c * x) _ _ e 0 0 0)
        by (repeat (rewrite length_zip_with || rewrite length_map);
            rewrite ?length_seq; lia).
      rewrite (nth_zip_with Rdiv _ _ e 0 0 0)
        by (repeat (rewrite length_zip_with || rewrite length_map);
            rewrite ?length_seq; lia).
      rewrite (nth_zip_with (fun (k : Z) (c : R) => IZR k - c) _ _ e 0%Z 0 0)
        by (repeat (rewrite length_zip_with || rewrite length_map);
            rewrite ?length_seq; lia).
      rewrite (nth_zip_with Z.add _ _ e 0%Z 0%Z 0%Z)
        by (rewrite ?length_map, ?length_seq; lia).
      rewrite !(nth_map_in IZR CN e 0%Z 0) by lia.
      rewrite !(nth_map_in _ (seq 0 (length el)) e 0%nat 0%Z)
        by (rewrite length_seq; lia).
      rewrite !nth_map_seq by assumption.
      rewrite !seq_nth by assumption. cbn [Nat.add].
      unfold chi_auto. rewrite plus_IZR. reflexivity.
Qed.

End SemisumRun.

(** C4: [compute_deltaFs_grads_semisum] stores, for every pair [(i,j)] of
    [nind_list], [Fij = 0.5 (grad_i + grad_j) . (x_j - x_i)] and
    [Fij_var = 0.25 (Var_i + Var_j + 2 chi sqrt(Var_i Var_j))] with
    [Var_i = (x_j - x_i)^T Cov_i (x_j - x_i)] and [Var_j] alike; with
    [chi = "auto"], [chi] is
    [common_neighs / (k*(i) + k*(j) - common_neighs)]; a numeric [chi]
    outside [0, 1] fails the assertion. *)
Theorem semisum_formulas :
  forall (ext : DensityEstimation.Externals)
         (s : DensityEstimation.session) (n : nat) (ks : list Z)
         (el : list (Z * Z)) (VD G : list (list R))
         (GV : list (list (list R))),
    DensityEstimation.semisum_ready s n ks el VD G GV ->
    (forall CN,
       s DensityEstimation.self_common_neighs
       = DensityEstimation.VIntArr CN ->
       length CN = length el ->
       exists s' Fij Fij_var,
         DensityEstimation.compute_deltaFs_grads_semisum
           DensityEstimation.ChiAuto s = Ok s' /\
         s' DensityEstimation.self_Fij_array = DensityEstimation.VArr Fij /\
         s' DensityEstimation.self_Fij_var_array
         = DensityEstimation.VArr Fij_var /\
         forall e, (e < length el)%nat ->
           (nth e Fij 0
            = 0.5 * DensityEstimation.dot
                      (DensityEstimation.vadd
                         (nth (DensityEstimation.src el e) G [])
                         (nth (DensityEstimation.tgt el e) G []))
                      (nth e VD []) /\
            nth e Fij_var 0
            = 0.25 * (DensityEstimation.Var_i GV VD el e
                      + DensityEstimation.Var_j GV VD el e
                      + 2 * DensityEstimation.chi_auto ks CN el e
                        * sqrt (DensityEstimation.Var_i GV VD el e
                                * DensityEstimation.Var_j GV VD el e)))%R) /\
    (forall c, (0 <= c <= 1)%R ->
       exists s' Fij Fij_var,
         DensityEstimation.compute_deltaFs_grads_semisum
           (DensityEstimation.ChiNum c) s = Ok s' /\
         s' DensityEstimation.self_Fij_array = DensityEstimation.VArr Fij /\
         s' DensityEstimation.self_Fij_var_array
         = DensityEstimation.VArr Fij_var /\
         forall e, (e < length el)%nat ->
           (nth e Fij 0
            = 0.5 * DensityEstimation.dot
                      (DensityEstimation.vadd
                         (nth (DensityEstimation.src el e) G [])
                         (nth (DensityEstimation.tgt el e) G []))
                      (nth e VD []) /\
            nth e Fij_var 0
            = 0.25 * (DensityEstimation.Var_i GV VD el e
                      + DensityEstimation.Var_j GV VD el e
                      + 2 * c
                        * sqrt (DensityEstimation.Var_i GV VD el e
                                * DensityEstimation.Var_j GV VD el e)))%R) /\
    (forall c, ~ (0 <= c <= 1)%R ->
       DensityEstimation.compute_deltaFs_grads_semisum
         (DensityEstimation.ChiNum c) s = Raise AssertionError).
Proof.
  intros ext s n ks el VD G GV Hready. split; [|split].
  - intros CN HCN HlCN. do 3 eexists.
    split; [apply (semisum_run_auto s n ks el VD G GV Hready CN HCN HlCN)|].
    split; [reflexivity|]. split; [reflexivity|].
    intros e He. unfold DensityEstimation.Fij_of, DensityEstimation.Fij_var_of.
    rewrite !nth_map_seq by assumption. split; reflexivity.
  - intros c Hc. do 3 eexists.
    split; [apply (semisum_run_num s n ks el VD G GV Hready c Hc)|].
    split; [reflexivity|]. split; [reflexivity|].
    intros e He. unfold DensityEstimation.Fij_of, DensityEstimation.Fij_var_of.
    rewrite !nth_map_seq by assumption. split; reflexivity.
  - intros c Hc. now apply (semisum_rejects s n ks el VD G GV Hready).
Qed.

Lemma semisum_formulas_witness :
  exists s' Fij,
    DensityEstimation.compute_deltaFs_grads_semisum
      (ext := DensityEstimation.example_externals)
      DensityEstimation.ChiAuto DensityEstimation.example_graph = Ok s' /\
    s' DensityEstimation.self_Fij_array = DensityEstimation.VArr Fij /\
    nth 0 Fij 0%R
    = (0.5 * DensityEstimation.dot
               (DensityEstimation.vadd [1; 0] [0; 0]) [1; 0])%R.
Proof.
  destruct (semisum_formulas DensityEstimation.example_externals
              DensityEstimation.example_graph 3
              DensityEstimation.example_kstar
              DensityEstimation.example_pairs
              [[1; 0]; [-1; 0]; [-2; 0]]%R
              [[1; 0]; [0; 0]; [-1; 0]]%R
              [ [[1; 0]; [0; 1]]; [[1; 0]; [0; 1]]; [[1; 0]; [0; 1]] ]%R)
    as (Hauto & _).
  - repeat split; try reflexivity;
      simpl in H; repeat (destruct H as [<-|H]; [simpl; lia|]);
      contradiction.
  - destruct (Hauto [1; 1; 1]%Z eq_refl eq_refl)
      as (s' & Fij & Fij_var & E & HF & _ & Hval).
    exists s', Fij. split; [exact E|]. split; [exact HF|].
    apply (Hval 0%nat). simpl. lia.
Defined.

(** The dF-PAk estimator runs on the example session. *)
Example dF_PAk_example :
  exists s',
    DensityEstimation.compute_density_dF_PAk
      (ext := DensityEstimation.example_externals)
      DensityEstimation.example_graph_Fij = Ok s' /\
    DensityEstimation.holds_density s' 3.
Proof.
  eexists. split.
  - apply (dF_PAk_run DensityEstimation.example_graph_Fij 3 2
             DensityEstimation.example_distances
             DensityEstimation.example_kstar
             DensityEstimation.example_Fij [0; 1; 2; 3]%Z).
    + repeat split; reflexivity.
    + reflexivity.
    + reflexivity.
    + reflexivity.
    + split; [reflexivity|]. intros [|[|[|i]]] Hi; simpl; lia.
    + split; [reflexivity|]. intros [|[|[|i]]] Hi; simpl; lia.
  - apply store_density_holds; reflexivity.
Qed.

(** * Further properties of the code *)

(** ** Estimators on their own and composed *)

Lemma np_index_out {A : Type} (a : list A) (k : Z) :
  (Z.of_nat (length a) <= k)%Z -> np_index a k = Raise IndexError.
Proof.
  intros H. unfold np_index.
  destruct (Z.ltb_spec k 0); [lia|].
  destruct (Z.leb_spec 0 k); [|lia].
  destruct (Z.ltb_spec k (Z.of_nat (length a))); [lia|]. reflexivity.
Qed.

Lemma nth_repeat_in {A : Type} (x d : A) (n i : nat) :
  (i < n)%nat -> nth i (repeat x n) d = x.
Proof.
  intros H. rewrite (nth_indep _ d x) by (rewrite repeat_length; lia).
  apply nth_repeat.
Qed.

(** X1: [compute_density_kstarNN] leaves, for every point [i],
    [log_den[i] = log k*(i) - log V_d - d log r_{k*(i)}(i) - log N],
    [log_den_err[i] = 1/sqrt(k*(i))] and [dc[i] = r_{k*(i)}(i)]. *)
Theorem kstarNN_density_formula :
  forall (ext : DensityEstimation.Externals)
         (s : DensityEstimation.session) (n : nat) (d : R)
         (D : list (list R)) (ks : list Z),
    DensityEstimation.inputs_ready s n d D ->
    s DensityEstimation.self_kstar = DensityEstimation.VIntArr ks ->
    DensityEstimation.kstar_fits n D ks ->
    exists s' log_den log_den_err dc,
      DensityEstimation.compute_density_kstarNN s = Ok s' /\
      s' DensityEstimation.self_log_den = DensityEstimation.VArr log_den /\
      s' DensityEstimation.self_log_den_err
        = DensityEstimation.VArr log_den_err /\
      s' DensityEstimation.self_dc = DensityEstimation.VArr dc /\
      forall i, (i < n)%nat ->
        (nth i log_den 0
         = ln (IZR (nth i ks 0%Z)) - ln (DensityEstimation.V_d d)
           - d * ln (DensityEstimation.r_k D i (nth i ks 0%Z)) - ln (INR n) /\
         nth i log_den_err 0 = 1 / sqrt (IZR (nth i ks 0%Z)) /\
         nth i dc 0 = DensityEstimation.r_k D i (nth i ks 0%Z))%R.
Proof.
  intros ext s n d D ks Hin Hk Hfit.
  do 4 eexists. split; [apply (kstarNN_run s n d D ks); assumption|].
  split; [reflexivity|]. split; [reflexivity|]. split; [reflexivity|].
  intros i Hi.
  rewrite nth_normalise by (rewrite length_map_seq; lia).
  rewrite !nth_map_seq by assumption.
  unfold DensityEstimation.kstarNN_estimate. rewrite prefactor_is_V_d.
  repeat split.
Qed.

Lemma kstarNN_density_formula_witness :
  exists s',
    DensityEstimation.compute_density_kstarNN
      (ext := DensityEstimation.example_externals)
      DensityEstimation.example_session_k2 = Ok s'.
Proof.
  destruct (kstarNN_density_formula DensityEstimation.example_externals
              DensityEstimation.example_session_k2 3 2
              DensityEstimation.example_distances
              DensityEstimation.example_kstar)
    as (s' & _ & _ & _ & E & _).
  - repeat split; reflexivity.
  - reflexivity.
  - split; [reflexivity|]. intros [|[|[|i]]] Hi; simpl; lia.
  - exists s'. exact E.
Defined.

(** X2: [compute_density_kNN(k)] is [set_kstar(k)] followed by
    [compute_density_kstarNN()]: both leave the same session. *)
Theorem kNN_is_set_kstar_then_kstarNN :
  forall (ext : DensityEstimation.Externals)
         (s : DensityEstimation.session) (n : nat) (d : R)
         (D : list (list R)) (k : Z),
    DensityEstimation.inputs_ready s n d D ->
    (forall i, (i < n)%nat ->
       (0 <= k < Z.of_nat (length (nth i D [])))%Z) ->
    DensityEstimation.compute_density_kNN k s
    = bind (DensityEstimation.set_kstar (DensityEstimation.KInt k) s)
           DensityEstimation.compute_density_kstarNN.
Proof.
  intros ext s n d D k Hin Hk.
  destruct (kNN_run s n d D k Hin Hk) as (s1 & E1 & E).
  rewrite E, E1. cbn [bind].
  destruct Hin as (HN & Hd & HD & HlD).
  destruct (set_kstar_int_run s n k HN)
    as (s1' & E1' & Hks & HN1 & Hd1 & HD1 & _).
  assert (s1' = s1) by congruence. subst s1'.
  rewrite (kstarNN_run s1 n d D (repeat k n)).
  - rewrite (map_ext_in (DensityEstimation.kstarNN_estimate d D (repeat k n))
               (fun i => DensityEstimation.kNN_estimate d D i k)).
    2:{ intros i Hi. apply in_seq in Hi.
        unfold DensityEstimation.kNN_estimate,
          DensityEstimation.kstarNN_estimate.
        rewrite nth_repeat_in by lia. lra. }
    rewrite (map_ext_in
               (fun i => (1 / sqrt (IZR (nth i (repeat k n) 0%Z)))%R)
               (fun _ => (1 / sqrt (IZR k))%R)).
    2:{ intros i Hi. apply in_seq in Hi. now rewrite nth_repeat_in by lia. }
    rewrite (map_ext_in
               (fun i => DensityEstimation.r_k D i (nth i (repeat k n) 0%Z))
               (fun i => DensityEstimation.r_k D i k)).
    2:{ intros i Hi. apply in_seq in Hi. now rewrite nth_repeat_in by lia. }
    reflexivity.
  - repeat split; congruence.
  - assumption.
  - split; [apply repeat_length|]. intros i Hi.
    rewrite nth_repeat_in by lia. now apply Hk.
Qed.

Lemma kNN_is_set_kstar_then_kstarNN_witness :
  DensityEstimation.compute_density_kNN
    (ext := DensityEstimation.example_externals) 2
    DensityEstimation.example_session
  = bind (DensityEstimation.set_kstar (DensityEstimation.KInt 2)
            DensityEstimation.example_session)
         (DensityEstimation.compute_density_kstarNN
            (ext := DensityEstimation.example_externals)).
Proof.
  apply (kNN_is_set_kstar_then_kstarNN DensityEstimation.example_externals
           DensityEstimation.example_session 3 2
           DensityEstimation.example_distances 2).
  - repeat split; reflexivity.
  - intros [|[|[|i]]] Hi; simpl; lia.
Defined.

(** X3: with at least one point, a [k] that is not a column of the
    distance table makes [compute_density_kNN] raise [IndexError]. *)
Theorem kNN_k_out_of_range :
  forall (ext : DensityEstimation.Externals)
         (s : DensityEstimation.session) (n : nat) (d : R)
         (D : list (list R)) (k : Z),
    DensityEstimation.inputs_ready s n d D ->
    (0 < n)%nat ->
    (Z.of_nat (length (nth 0 D [])) <= k)%Z ->
    DensityEstimation.compute_density_kNN k s = Raise IndexError.
Proof.
  intros ext s n d D k (HN & Hd & HD & HlD) Hn Hk.
  destruct (set_kstar_int_run s n k HN)
    as (s1 & E1 & Hks & HN1 & Hd1 & HD1 & _).
  unfold DensityEstimation.compute_density_kNN.
  rewrite (attr_is_none_value s DensityEstimation.self_intrinsic_dim
             (DensityEstimation.VFloat d) Hd) by discriminate.
  cbn [bind DensityEstimation.is_none negb assert]. rewrite E1. cbn [bind].
  rewrite (get_size_ok s1 DensityEstimation.self_N n) by congruence.
  cbn [bind].
  rewrite (get_number_float s1 DensityEstimation.self_intrinsic_dim d)
    by congruence.
  cbn [bind].
  destruct n as [|n']; [lia|].
  unfold for_range. cbn [seq for_each].
  unfold DensityEstimation.kNN_body at 1.
  unfold DensityEstimation.init_loop_state at 1.
  rewrite (get_int_arr_ok s1 DensityEstimation.self_kstar _ Hks).
  cbn [bind].
  rewrite (get_arr2_ok s1 DensityEstimation.self_distances D)
    by congruence.
  cbn [bind].
  rewrite (np_index_nat (repeat k (S n')) 0 k)
    by (rewrite repeat_length; lia).
  cbn [bind nth repeat].
  unfold np_index2.
  rewrite (np_index_nat D 0 []) by lia. cbn [bind].
  rewrite np_index_out by assumption. reflexivity.
Qed.

Lemma kNN_k_out_of_range_witness :
  DensityEstimation.compute_density_kNN
    (ext := DensityEstimation.example_externals) 3
    DensityEstimation.example_session = Raise IndexError.
Proof.
  apply (kNN_k_out_of_range DensityEstimation.example_externals
           DensityEstimation.example_session 3 2
           DensityEstimation.example_distances 3).
  - repeat split; reflexivity.
  - lia.
  - simpl. lia.
Defined.

(** X4: when every point has a shell whose volume underflows,
    [compute_density_PAk] gives the same [log_den] and the same [dc] as
    [compute_density_kstarNN]; only the error model differs, and nothing
    is raised. *)
Theorem PAk_degenerate_is_kstarNN :
  forall (ext : DensityEstimation.Externals)
         (s : DensityEstimation.session) (n maxk : nat) (d : R)
         (D : list (list R)) (ks : list Z),
    DensityEstimation.inputs_ready s n d D ->
    s DensityEstimation.self_kstar = DensityEstimation.VIntArr ks ->
    s DensityEstimation.self_maxk = DensityEstimation.VInt (Z.of_nat maxk) ->
    DensityEstimation.kstar_fits n D ks ->
    (forall i, (i < n)%nat -> (nth i ks 0%Z <= Z.of_nat maxk)%Z) ->
    DensityMore.every_point_underflows d D ks n ->
    exists sP sK,
      DensityEstimation.compute_density_PAk s = Ok sP /\
      DensityEstimation.compute_density_kstarNN s = Ok sK /\
      sP DensityEstimation.self_log_den = sK DensityEstimation.self_log_den /\
      sP DensityEstimation.self_dc = sK DensityEstimation.self_dc.
Proof.
  intros ext s n maxk d D ks Hin Hk Hmk Hfit Hmax Hund.
  do 2 eexists.
  split; [apply (PAk_run s n maxk d D ks); assumption|].
  split; [apply (kstarNN_run s n d D ks); assumption|].
  split; [|reflexivity].
  cbn. do 2 f_equal. apply map_ext_in. intros i Hi. apply in_seq in Hi.
  unfold DensityEstimation.PAk_estimate, DensityEstimation.kstarNN_estimate.
  rewrite (proj2 (underflows_true d D i _)) by (apply Hund; lia).
  lra.
Qed.

Lemma coincident_shell_underflows (i : nat) :
  (i < 3)%nat ->
  exists j, (j < 2)%nat /\
    (DensityEstimation.shell_volume
       (ext := DensityEstimation.example_externals) 2
       DensityMore.coincident_distances i j < DensityEstimation.tiny)%R.
Proof.
  assert (Ht : (0 < DensityEstimation.tiny)%R)
    by (unfold DensityEstimation.tiny; lra).
  intros Hi. destruct i as [|[|[|i]]]; try lia.
  - exists 0%nat. split; [lia|].
    unfold DensityEstimation.shell_volume, DensityEstimation.r_k. simpl.
    lra.
  - exists 0%nat. split; [lia|].
    unfold DensityEstimation.shell_volume, DensityEstimation.r_k. simpl.
    lra.
  - exists 1%nat. split; [lia|].
    unfold DensityEstimation.shell_volume, DensityEstimation.r_k. simpl.
    lra.
Qed.

Lemma PAk_degenerate_is_kstarNN_witness :
  exists sP sK,
    DensityEstimation.compute_density_PAk
      (ext := DensityEstimation.example_externals)
      DensityMore.coincident_session = Ok sP /\
    DensityEstimation.compute_density_kstarNN
      (ext := DensityEstimation.example_externals)
      DensityMore.coincident_session = Ok sK /\
    sP DensityEstimation.self_log_den = sK DensityEstimation.self_log_den.
Proof.
  destruct (PAk_degenerate_is_kstarNN DensityEstimation.example_externals
              DensityMore.coincident_session 3 2 2
              DensityMore.coincident_distances
              DensityEstimation.example_kstar)
    as (sP & sK & EP & EK & Hld & _).
  - repeat split; reflexivity.
  - reflexivity.
  - reflexivity.
  - split; [reflexivity|]. intros [|[|[|i]]] Hi; simpl; lia.
  - intros [|[|[|i]]] Hi; simpl; lia.
  - intros i Hi.
    destruct (coincident_shell_underflows i Hi) as (j & Hj & Hv).
    exists j. split; [|exact Hv].
    destruct i as [|[|[|i]]]; simpl; lia.
  - exists sP, sK. auto.
Defined.

(** ** More on the graph-consistency system *)

(** Exchanging two finite sums. *)
Lemma sum_upto_swap (m n : nat) (f : nat -> nat -> R) :
  DensityEstimation.sum_upto m
    (fun i => DensityEstimation.sum_upto n (fun j => f i j))
  = DensityEstimation.sum_upto n
      (fun j => DensityEstimation.sum_upto m (fun i => f i j)).
Proof.
  induction m as [|m IH].
  - unfold DensityEstimation.sum_upto at 1. simpl. symmetry.
    apply sum_upto_zero. reflexivity.
  - rewrite sum_upto_S, IH.
    rewrite <- sum_upto_plus. apply sum_upto_ext.
    intros j _. now rewrite sum_upto_S.
Qed.

Lemma sum_upto_minus (n : nat) (f g : nat -> R) :
  DensityEstimation.sum_upto n (fun j => (f j - g j)%R)
  = (DensityEstimation.sum_upto n f - DensityEstimation.sum_upto n g)%R.
Proof.
  induction n as [|n IH]; [unfold DensityEstimation.sum_upto; simpl; lra|].
  rewrite !sum_upto_S, IH. lra.
Qed.

Lemma nth_flow (n : nat) (supp : DensityEstimation.matrix) (i : nat) :
  (i < n)%nat ->
  nth i (map (fun p : R * R => (fst p - snd p)%R)
             (combine (DensityEstimation.sum_axis0 n supp)
                      (DensityEstimation.sum_axis1 n supp))) 0%R
  = (DensityEstimation.sum_upto n (fun r => supp r i)
     - DensityEstimation.sum_upto n (fun c => supp i c))%R.
Proof.
  intros Hi.
  rewrite (nth_map_in (fun p : R * R => (fst p - snd p)%R) _ i
             (0%R, 0%R) 0%R).
  2:{ rewrite length_combine. unfold DensityEstimation.sum_axis0,
        DensityEstimation.sum_axis1.
      rewrite !length_map, !length_seq. lia. }
  rewrite combine_nth
    by (unfold DensityEstimation.sum_axis0, DensityEstimation.sum_axis1;
        now rewrite !length_map).
  cbn [fst snd].
  now rewrite nth_sum_axis0, nth_sum_axis1.
Qed.

(** X5: the matrix [compute_density_gCorr] hands to the solver and to
    [pinvh] is symmetric, and its right-hand side sums to zero over the
    points. *)
Theorem gCorr_system_symmetric_and_balanced :
  forall (s : DensityEstimation.session) (n : nat) (ks : list Z)
         (el : list (Z * Z)) (F FV : list R) (use_variance : bool),
    DensityEstimation.graph_ready s n ks el F FV ->
    exists A b,
      DensityEstimation.gCorr_system use_variance s = Ok (A, b) /\
      (forall r c, A r c = A c r) /\
      length b = n /\
      DensityEstimation.sum_upto n (fun i => nth i b 0%R) = 0%R.
Proof.
  intros s n ks el F FV uv Hready.
  destruct (gCorr_assemble_run s n ks el F FV uv Hready)
    as (A0 & supp & E & _).
  pose proof (gCorr_system_run s n ks el F FV uv Hready A0 supp E) as Esys.
  do 2 eexists. split; [exact Esys|]. split; [|split].
  - intros r c. unfold DensityEstimation.setdiag.
    destruct (Nat.eqb_spec r c) as [->|Hne].
    + rewrite Nat.eqb_refl. reflexivity.
    + destruct (Nat.eqb_spec c r); [congruence|].
      unfold DensityEstimation.madd, DensityEstimation.transpose. lra.
  - rewrite length_map, length_combine.
    unfold DensityEstimation.sum_axis0, DensityEstimation.sum_axis1.
    rewrite !length_map, !length_seq. lia.
  - rewrite (sum_upto_ext n _
               (fun i => (DensityEstimation.sum_upto n (fun r => supp r i)
                          - DensityEstimation.sum_upto n
                              (fun c => supp i c))%R))
      by (intros i Hi; now apply nth_flow).
    rewrite sum_upto_minus.
    rewrite (sum_upto_swap n n (fun i r => supp r i)). lra.
Qed.

Lemma gCorr_system_symmetric_and_balanced_witness :
  exists A b,
    DensityEstimation.gCorr_system true
      DensityEstimation.example_graph_Fij = Ok (A, b) /\
    A 0%nat 2%nat = A 2%nat 0%nat.
Proof.
  destruct (gCorr_system_symmetric_and_balanced
              DensityEstimation.example_graph_Fij 3
              DensityEstimation.example_kstar
              DensityEstimation.example_pairs
              DensityEstimation.example_Fij
              DensityEstimation.example_Fij_var true
              example_graph_ready)
    as (A & b & E & Hsym & _).
  exists A, b. split; [exact E|]. apply Hsym.
Defined.

(** X6: without variance weighting, [compute_density_gCorr] weights the
    entries of [A] by [1/redundancy] but builds [b(i)] from the plain
    [Fij]: the sum of [Fij] over the pairs entering [i] minus the sum
    over the pairs leaving [i], with no weight. *)
Theorem gCorr_rhs_without_variance :
  forall (s : DensityEstimation.session) (n : nat) (ks : list Z)
         (el : list (Z * Z)) (F FV : list R),
    DensityEstimation.graph_ready s n ks el F FV ->
    NoDup el ->
    exists A0 supp A b,
      DensityEstimation.gCorr_assemble false s = Ok (A0, supp) /\
      DensityEstimation.gCorr_system false s = Ok (A, b) /\
      (forall e, (e < length el)%nat ->
         A0 (DensityEstimation.src el e) (DensityEstimation.tgt el e)
         = (- (1 / DensityEstimation.edge_redundancy ks el e))%R) /\
      (forall i, (i < n)%nat ->
         nth i b 0%R
         = (DensityEstimation.sum_upto (length el)
              (fun e => if (DensityEstimation.tgt el e =? i)%nat
                        then nth e F 0 else 0)
            - DensityEstimation.sum_upto (length el)
                (fun e => if (DensityEstimation.src el e =? i)%nat
                          then nth e F 0 else 0))%R).
Proof.
  intros s n ks el F FV Hready Hnd.
  destruct (gCorr_assemble_run s n ks el F FV false Hready)
    as (A0 & supp & E & Hzero & Hrest).
  destruct (Hrest Hnd) as (Hval & Hcol & Hrow).
  pose proof (gCorr_system_run s n ks el F FV false Hready A0 supp E)
    as Esys.
  exists A0, supp. do 2 eexists.
  split; [exact E|]. split; [exact Esys|]. split.
  - intros e He. rewrite (proj1 (Hval e He)).
    rewrite (A_entry_weight ks el FV false e He). reflexivity.
  - intros i Hi. rewrite nth_flow by assumption.
    rewrite Hcol, Hrow. reflexivity.
Qed.

Lemma gCorr_rhs_without_variance_witness :
  exists A0 supp A b,
    DensityEstimation.gCorr_assemble false
      DensityEstimation.example_graph_Fij = Ok (A0, supp) /\
    DensityEstimation.gCorr_system false
      DensityEstimation.example_graph_Fij = Ok (A, b) /\
    A0 2%nat 1%nat
    = (- (1 / DensityEstimation.edge_redundancy
                DensityEstimation.example_kstar
                DensityEstimation.example_pairs 2))%R.
Proof.
  destruct (gCorr_rhs_without_variance
              DensityEstimation.example_graph_Fij 3
              DensityEstimation.example_kstar
              DensityEstimation.example_pairs
              DensityEstimation.example_Fij
              DensityEstimation.example_Fij_var
              example_graph_ready)
    as (A0 & supp & A & b & E & Esys & Hentry & _).
  - repeat constructor; simpl; intuition congruence.
  - exists A0, supp, A, b. split; [exact E|]. split; [exact Esys|].
    apply (Hentry 2%nat). simpl. lia.
Defined.

(** ** The dF-PAk estimator and the entropy *)

(** X7: [compute_density_dF_PAk] leaves, for every point [i],
    [log_den[i] = log k*(i) - log V_d - log(sum_j (r_j^d - r_{j-1}^d)
    exp(Fij)) - log N], the sum over [1 <= j < k*(i)] and [Fij] read from
    the slice of [Fij_array] that [nind_iptr] gives the point;
    [log_den_err[i] = 1/sqrt(k*(i))] and [dc[i] = r_{k*(i)}(i)]. *)
Theorem dF_PAk_density_formula :
  forall (ext : DensityEstimation.Externals)
         (s : DensityEstimation.session) (n : nat) (d : R)
         (D : list (list R)) (ks : list Z) (F : list R) (IP : list Z),
    DensityEstimation.inputs_ready s n d D ->
    s DensityEstimation.self_kstar = DensityEstimation.VIntArr ks ->
    s DensityEstimation.self_Fij_array = DensityEstimation.VArr F ->
    s DensityEstimation.self_nind_iptr = DensityEstimation.VIntArr IP ->
    DensityEstimation.kstar_fits n D ks ->
    DensityEstimation.pairs_fit n ks F IP ->
    exists s' log_den log_den_err dc,
      DensityEstimation.compute_density_dF_PAk s = Ok s' /\
      s' DensityEstimation.self_log_den = DensityEstimation.VArr log_den /\
      s' DensityEstimation.self_log_den_err
        = DensityEstimation.VArr log_den_err /\
      s' DensityEstimation.self_dc = DensityEstimation.VArr dc /\
      forall i, (i < n)%nat ->
        (nth i log_den 0
         = ln (IZR (nth i ks 0%Z)) - ln (DensityEstimation.V_d d)
           - ln (DensityEstimation.corrected_volume d D
                   (DensityEstimation.Fijs_slice F IP i) i (nth i ks 0%Z))
           - ln (INR n) /\
         nth i log_den_err 0 = 1 / sqrt (IZR (nth i ks 0%Z)) /\
         nth i dc 0 = DensityEstimation.r_k D i (nth i ks 0%Z))%R.
Proof.
  intros ext s n d D ks F IP Hin Hk HF HIP Hfit Hpf.
  do 4 eexists.
  split; [apply (dF_PAk_run s n d D ks F IP); assumption|].
  split; [reflexivity|]. split; [reflexivity|]. split; [reflexivity|].
  intros i Hi. destruct Hfit as [Hlk _].
  rewrite nth_normalise by (rewrite length_map_seq; lia).
  rewrite !nth_map_seq by assumption.
  rewrite (nth_map_in (fun k : Z => (1.0 / sqrt (IZR k))%R) ks i 0%Z 0%R)
    by lia.
  unfold DensityEstimation.dF_PAk_estimate. rewrite prefactor_is_V_d.
  repeat split. lra.
Qed.

Lemma dF_PAk_density_formula_witness :
  exists s',
    DensityEstimation.compute_density_dF_PAk
      (ext := DensityEstimation.example_externals)
      DensityEstimation.example_graph_Fij = Ok s'.
Proof.
  destruct (dF_PAk_density_formula DensityEstimation.example_externals
              DensityEstimation.example_graph_Fij 3 2
              DensityEstimation.example_distances
              DensityEstimation.example_kstar
              DensityEstimation.example_Fij [0; 1; 2; 3]%Z)
    as (s' & _ & _ & _ & E & _).
  - repeat split; reflexivity.
  - reflexivity.
  - reflexivity.
  - reflexivity.
  - split; [reflexivity|]. intros [|[|[|i]]] Hi; simpl; lia.
  - split; [reflexivity|]. intros [|[|[|i]]] Hi; simpl; lia.
  - exists s'. exact E.
Defined.

(** X8: right after [set_kstar], [return_entropy] fails its assertion:
    the density that an estimator stored earlier is gone. *)
Theorem return_entropy_after_set_kstar :
  forall (s s' : DensityEstimation.session)
         (k : DensityEstimation.kstar_arg),
    DensityEstimation.set_kstar k s = Ok s' ->
    DensityMore.return_entropy s' = Raise AssertionError.
Proof.
  intros s s' k H.
  assert (Hld : s' DensityEstimation.self_log_den = DensityEstimation.VNone).
  { unfold DensityEstimation.set_kstar in H. destruct k as [z|a].
    - destruct (DensityEstimation.get_size s DensityEstimation.self_N)
        as [m|e]; cbn [bind] in H; [|discriminate].
      injection H as <-. reflexivity.
    - cbn [bind] in H. injection H as <-. reflexivity. }
  unfold DensityMore.return_entropy.
  rewrite (attr_is_none_value s' DensityEstimation.self_log_den _ Hld)
    by discriminate.
  reflexivity.
Qed.

Lemma return_entropy_after_set_kstar_witness :
  exists s',
    DensityEstimation.set_kstar (DensityEstimation.KInt 2)
      DensityEstimation.example_session = Ok s' /\
    DensityMore.return_entropy s' = Raise AssertionError.
Proof.
  eexists. split; [reflexivity|].
  apply (return_entropy_after_set_kstar DensityEstimation.example_session
           _ (DensityEstimation.KInt 2)).
  reflexivity.
Defined.

Lemma fold_right_Rplus_shift (c : R) (l : list R) :
  fold_right Rplus 0%R (map (fun x => (x - c)%R) l)
  = (fold_right Rplus 0%R l - INR (length l) * c)%R.
Proof.
  induction l as [|x l IH]; [simpl; lra|].
  cbn [map fold_right length]. rewrite IH, S_INR. lra.
Qed.

(** X9: after [compute_density_kNN] on at least one point,
    [return_entropy] is [log N] minus the mean of the unnormalised
    estimates. *)
Theorem entropy_after_kNN :
  forall (ext : DensityEstimation.Externals)
         (s : DensityEstimation.session) (n : nat) (d : R)
         (D : list (list R)) (k : Z),
    DensityEstimation.inputs_ready s n d D ->
    (0 < n)%nat ->
    (forall i, (i < n)%nat ->
       (0 <= k < Z.of_nat (length (nth i D [])))%Z) ->
    exists s',
      DensityEstimation.compute_density_kNN k s = Ok s' /\
      DensityMore.return_entropy s'
      = Ok (ln (INR n)
            - DensityEstimation.sum_upto n
                (fun i => DensityEstimation.kNN_estimate d D i k)
              / INR n)%R.
Proof.
  intros ext s n d D k Hin Hn Hk.
  destruct (kNN_run s n d D k Hin Hk) as (s1 & _ & E).
  eexists. split; [exact E|].
  unfold DensityMore.return_entropy, DensityEstimation.attr_is_none,
    DensityEstimation.get_arr, DensityEstimation.getattr.
  cbn. f_equal. unfold DensityMore.np_mean, DensityEstimation.normalise.
  rewrite fold_right_Rplus_shift.
  rewrite !length_map, !length_seq.
  unfold DensityEstimation.sum_upto.
  assert (Hpos : (INR n <> 0)%R) by (apply not_0_INR; lia).
  field. exact Hpos.
Qed.

Lemma entropy_after_kNN_witness :
  exists s' H,
    DensityEstimation.compute_density_kNN
      (ext := DensityEstimation.example_externals) 1
      DensityEstimation.example_session = Ok s' /\
    DensityMore.return_entropy s' = Ok H.
Proof.
  destruct (entropy_after_kNN DensityEstimation.example_externals
              DensityEstimation.example_session 3 2
              DensityEstimation.example_distances 1)
    as (s' & E & HH).
  - repeat split; reflexivity.
  - lia.
  - intros [|[|[|i]]] Hi; simpl; lia.
  - exists s'. eexists. split; [exact E|exact HH].
Defined.

(** ** The covariance flag of the gradients *)

Section GradsFlag.

Import DensityEstimation.

Context {ext : Externals}.

Lemma set_kstar_arr_kstar (a : list Z) (s s' : session) :
  set_kstar (KArr a) s = Ok s' -> s' self_kstar = VIntArr a.
Proof. intros H. cbn in H. injection H as <-. reflexivity. Qed.

Lemma ensure_kstar_has_kstar (s s0 : session) :
  ensure_kstar s = Ok s0 ->
  is_none (s0 self_kstar) = false /\ s0 self_kstar <> VUnset.
Proof.
  unfold ensure_kstar, attr_is_none, getattr.
  destruct (s self_kstar) eqn:K; cbn [bind is_none]; intros H;
    try discriminate;
    try (injection H as <-; rewrite K; split; [reflexivity|discriminate]).
  unfold compute_kstar in H.
  repeat match type of H with
         | bind ?m _ = Ok _ =>
             destruct m; cbn [bind] in H; [|discriminate]
         end.
  rewrite (set_kstar_arr_kstar _ _ _ H). split; [reflexivity|discriminate].
Qed.

Lemma ensure_kstar_noop (s : session) :
  is_none (s self_kstar) = false -> s self_kstar <> VUnset ->
  ensure_kstar s = Ok s.
Proof.
  intros Hn Hu. unfold ensure_kstar.
  rewrite (attr_is_none_value s self_kstar _ eq_refl Hu), Hn. reflexivity.
Qed.

Lemma compute_grads_covmat_result (s s1 : session) :
  compute_grads true s = Ok s1 ->
  s1 self_check_grads_covmat = VBool true /\
  is_none (s1 self_kstar) = false /\ s1 self_kstar <> VUnset.
Proof.
  unfold compute_grads. intros H.
  destruct (ensure_kstar s) as [s0|] eqn:E0; cbn [bind] in H;
    [|discriminate].
  destruct (ensure_kstar_has_kstar _ _ E0) as [Hn Hu].
  repeat match type of H with
         | bind ?m _ = Ok _ =>
             destruct m; cbn [bind] in H; [|discriminate]
         end.
  match goal with
  | q : (value * value)%type |- _ => destruct q as [g gv]
  end. injection H as <-.
  split; [reflexivity|]. split; assumption.
Qed.

Lemma compute_grads_var_frame (s s2 : session) :
  is_none (s self_kstar) = false -> s self_kstar <> VUnset ->
  compute_grads false s = Ok s2 ->
  s2 self_check_grads_covmat = s self_check_grads_covmat.
Proof.
  intros Hn Hu. unfold compute_grads.
  rewrite (ensure_kstar_noop s Hn Hu). cbn [bind]. intros H.
  repeat match type of H with
         | bind ?m _ = Ok _ =>
             destruct m; cbn [bind] in H; [|discriminate]
         end.
  match goal with
  | q : (value * value)%type |- _ => destruct q as [g gv]
  end. injection H as <-. reflexivity.
Qed.

End GradsFlag.

(** X10: [compute_grads(comp_covmat=False)] after
    [compute_grads(comp_covmat=True)] leaves [check_grads_covmat] at
    [True].  When the variances it stored are a 2-D array,
    [compute_deltaFs_grads_semisum] then takes them for covariance
    matrices, does not recompute, and ends in an exception. *)
Theorem grads_flag_is_never_cleared :
  forall (ext : DensityEstimation.Externals)
         (s s1 s2 : DensityEstimation.session)
         (chi : DensityEstimation.chi_arg) (G V VD : list (list R)),
    DensityEstimation.compute_grads true s = Ok s1 ->
    DensityEstimation.compute_grads false s1 = Ok s2 ->
    s2 DensityEstimation.self_grads = DensityEstimation.VArr2 G ->
    s2 DensityEstimation.self_grads_var = DensityEstimation.VArr2 V ->
    s2 DensityEstimation.self_neigh_vector_diffs
      = DensityEstimation.VArr2 VD ->
    s2 DensityEstimation.self_check_grads_covmat
      = DensityEstimation.VBool true /\
    exists e,
      DensityEstimation.compute_deltaFs_grads_semisum chi s2 = Raise e.
Proof.
  intros ext s s1 s2 chi G V VD H1 H2 HG HV HVD.
  destruct (compute_grads_covmat_result s s1 H1) as (Hc & Hn & Hu).
  assert (Hflag : s2 DensityEstimation.self_check_grads_covmat
                  = DensityEstimation.VBool true).
  { rewrite (compute_grads_var_frame s1 s2 Hn Hu H2). exact Hc. }
  split; [exact Hflag|].
  unfold DensityEstimation.compute_deltaFs_grads_semisum.
  rewrite (attr_is_none_value s2 DensityEstimation.self_neigh_vector_diffs
             _ HVD) by discriminate.
  cbn [bind DensityEstimation.is_none].
  rewrite (attr_is_none_value s2 DensityEstimation.self_grads _ HG)
    by discriminate.
  cbn [bind DensityEstimation.is_none].
  rewrite (getattr_ok s2 DensityEstimation.self_check_grads_covmat _ Hflag)
    by discriminate.
  cbn [bind].
  assert (H3 : DensityEstimation.get_arr3 s2
                 DensityEstimation.self_grads_var = Raise TypeError).
  { unfold DensityEstimation.get_arr3, DensityEstimation.getattr.
    rewrite HV. reflexivity. }
  repeat match goal with
         | |- exists e, bind (DensityEstimation.get_arr3 _ _) _ = Raise e =>
             rewrite H3; cbn [bind]; eexists; reflexivity
         | |- exists e, bind ?m _ = Raise e =>
             destruct m; cbn [bind]; [|eexists; reflexivity]
         end.
Qed.

Lemma grads_flag_is_never_cleared_witness :
  exists s2 e,
    s2 DensityEstimation.self_check_grads_covmat
      = DensityEstimation.VBool true /\
    DensityEstimation.compute_deltaFs_grads_semisum
      (ext := DensityEstimation.example_externals)
      (DensityEstimation.ChiNum 0.5%R) s2 = Raise e.
Proof.
  pose (s1 := DensityEstimation.setattr
                (DensityEstimation.setattr
                   (DensityEstimation.setattr DensityEstimation.example_graph
                      DensityEstimation.self_grads
                      (DensityEstimation.VArr2 []))
                   DensityEstimation.self_grads_var
                   (DensityEstimation.VArr3 []))
                DensityEstimation.self_check_grads_covmat
                (DensityEstimation.VBool true)).
  pose (s2 := DensityEstimation.setattr
                (DensityEstimation.setattr s1 DensityEstimation.self_grads
                   (DensityEstimation.VArr2 []))
                DensityEstimation.self_grads_var
                (DensityEstimation.VArr2 [])).
  exists s2.
  destruct (grads_flag_is_never_cleared
              DensityEstimation.example_externals
              DensityEstimation.example_graph s1 s2
              (DensityEstimation.ChiNum 0.5%R) [] []
              [[1; 0]; [-1; 0]; [-2; 0]]%R
              eq_refl eq_refl eq_refl eq_refl eq_refl)
    as [Hf [e He]].
  exists e. split; assumption.
Defined.

(** ** The system of [compute_density_dF_PAk_gCorr] *)

Lemma for_each_ext {I St : Type} (f g : I -> St -> result St)
  (l : list I) (st : St) :
  (forall i st0, f i st0 = g i st0) -> for_each l f st = for_each l g st.
Proof.
  intros H. revert st. induction l as [|x l IH]; intros st; simpl;
    [reflexivity|].
  rewrite H. destruct (g x st); simpl; [apply IH|reflexivity].
Qed.


Section DFPAkGCorr.

Import DensityEstimation.

Local Open Scope R_scope.

Variable s : session.
Variable n : nat.
Variable ks : list Z.
Variable el : list (Z * Z).
Variable F FV : list R.
Variable use_variance : bool.

Hypothesis ready : graph_ready s n ks el F FV.

Let reds : list R := map (edge_redundancy ks el) (seq 0 (length el)).

(** One pass of the second loop on the pair number [e]: the entry of
    [A] is the one [compute_density_gCorr] writes. *)
Lemma dF_PAk_gCorr_edge_run (e : nat) (p : Z * Z) (A supp : matrix) :
  nth_error el e = Some p ->
  exists v,
    dF_PAk_gCorr_edge s use_variance n reds (e, p) (A, supp) =
    Ok (fun r c => if ((r =? src el e)%nat && (c =? tgt el e)%nat)%bool
                   then A_entry use_variance FV reds e else A r c,
        fun r c => if ((r =? src el e)%nat && (c =? tgt el e)%nat)%bool
                   then v else supp r c).
Proof.
  intros He.
  assert (Hlt : (e < length el)%nat)
    by (apply nth_error_Some; congruence).
  destruct (edge_in_range s n ks el F FV ready e p He) as [Hi Hj].
  destruct ready as (_ & _ & _ & _ & _ & HF & HlF & HFV & HlFV).
  assert (Hp : nth e el (0, 0)%Z = p) by now apply nth_error_nth.
  destruct p as [i j]. unfold dF_PAk_gCorr_edge.
  rewrite (get_arr_ok s self_Fij_array F HF). cbn [bind].
  rewrite (np_index_nat reds e 0)
    by (unfold reds; rewrite length_map, length_seq; assumption).
  cbn [bind].
  unfold A_entry, src, tgt, edge_nat. rewrite Hp. cbn [fst snd].
  destruct use_variance.
  - rewrite (get_arr_ok s self_Fij_var_array FV HFV). cbn [bind].
    rewrite (np_index_nat FV e 0) by lia. cbn [bind].
    rewrite (msetitem_ok n) by assumption. cbn [bind].
    rewrite (np_index_nat F e 0) by lia. cbn [bind].
    rewrite (msetitem_ok n) by assumption. eexists. reflexivity.
  - rewrite (msetitem_ok n) by assumption. cbn [bind].
    rewrite (np_index_nat F e 0) by lia. cbn [bind].
    rewrite (msetitem_ok n) by assumption. eexists. reflexivity.
Qed.

(** The second loop runs through; an entry of [A] that no pair names
    stays zero. *)
Lemma dF_PAk_gCorr_assemble_run :
  exists A supp,
    dF_PAk_gCorr_assemble use_variance s = Ok (A, supp) /\
    forall r c,
      (forall e, (e < length el)%nat -> (src el e, tgt el e) <> (r, c)) ->
      A r c = 0.
Proof.
  pose proof ready as (HN & _ & _ & Hel & _).
  unfold dF_PAk_gCorr_assemble.
  rewrite (get_size_ok s self_N n HN). cbn [bind].
  rewrite (redundancy_of_ready s n ks el F FV ready). cbn [bind].
  rewrite (get_pairs_ok s self_nind_list el Hel). cbn [bind].
  destruct (for_each_enumerate_inv
              (fun m (st : matrix * matrix) =>
                 forall r c,
                   (forall e, (e < m)%nat -> (src el e, tgt el e) <> (r, c))
                   -> fst st r c = 0)
              (dF_PAk_gCorr_edge s use_variance n reds) el
              (lil_matrix, lil_matrix))
    as ([A supp] & E & H).
  - intros r c _. reflexivity.
  - intros e p [A supp] He Hst.
    destruct (dF_PAk_gCorr_edge_run e p A supp He) as [v Ev].
    eexists. split; [exact Ev|].
    intros r c Hno. cbn [fst].
    assert (Hrc : ((r =? src el e)%nat && (c =? tgt el e)%nat)%bool = false).
    { destruct (Nat.eqb_spec r (src el e)) as [->|]; [|reflexivity].
      destruct (Nat.eqb_spec c (tgt el e)) as [->|]; [|reflexivity].
      exfalso. apply (Hno e); [lia|reflexivity]. }
    rewrite Hrc. apply (Hst r c). intros e' He'. apply Hno. lia.
  - exists A, supp. split; [exact E|exact H].
Qed.

Lemma dF_PAk_gCorr_system_run (alpha : R) (cv : list R) (A supp : matrix) :
  length cv = n ->
  dF_PAk_gCorr_assemble use_variance s = Ok (A, supp) ->
  dF_PAk_gCorr_system use_variance alpha cv s =
  Ok (setdiag (mscale alpha (madd A (transpose A)))
        (zip_with (fun rs k => - rs + (1.0 - alpha) * IZR k)
           (sum_axis1 n (mscale alpha (madd A (transpose A)))) ks),
      zip_with (fun f p => alpha * f + (1.0 - alpha) * p)
        (zip_with Rminus (sum_axis0 n supp) (sum_axis1 n supp))
        (zip_with (fun k v => IZR k * ln (IZR k / v)) ks cv)).
Proof.
  intros Hcv E. pose proof ready as (HN & Hk & Hlk & _).
  unfold dF_PAk_gCorr_system.
  rewrite (get_size_ok s self_N n HN). cbn [bind].
  rewrite E. cbn [bind].
  rewrite (get_int_arr_ok s self_kstar ks Hk). cbn [bind].
  rewrite ew2_ok
    by (unfold sum_axis1; rewrite length_map, length_seq; lia).
  cbn [bind].
  rewrite ew2_ok
    by (unfold sum_axis0, sum_axis1; now rewrite !length_map, !length_seq).
  cbn [bind].
  rewrite ew2_ok by lia. cbn [bind].
  rewrite ew2_ok.
  2:{ rewrite !length_zip_with. unfold sum_axis0, sum_axis1.
      rewrite !length_map, !length_seq. lia. }
  reflexivity.
Qed.

End DFPAkGCorr.

(** X12: in [compute_density_dF_PAk_gCorr], over a pair graph with
    in-range indices and no pair of a point with itself, row [i] of the
    assembled matrix sums to [(1 - alpha) * k*(i)]: the rows sum to zero
    only for [alpha = 1]. *)
Theorem dF_PAk_gCorr_row_sums :
  forall (s : DensityEstimation.session) (n : nat) (ks : list Z)
         (el : list (Z * Z)) (F FV : list R) (use_variance : bool)
         (alpha : R) (corrected_vols : list R),
    DensityEstimation.graph_ready s n ks el F FV ->
    (forall p, In p el -> fst p <> snd p) ->
    length corrected_vols = n ->
    exists A b,
      DensityEstimation.dF_PAk_gCorr_system use_variance alpha
        corrected_vols s = Ok (A, b) /\
      length b = n /\
      forall i, (i < n)%nat ->
        DensityEstimation.sum_upto n (fun j => A i j)
        = ((1 - alpha) * IZR (nth i ks 0%Z))%R.
Proof.
  intros s n ks el F FV uv alpha cv Hready Hloop Hcv.
  destruct (dF_PAk_gCorr_assemble_run s n ks el F FV uv Hready)
    as (A0 & supp & E & Hzero).
  pose proof (dF_PAk_gCorr_system_run s n ks el F FV uv Hready alpha cv
                A0 supp Hcv E) as Esys.
  pose proof Hready as (_ & _ & Hlk & _).
  do 2 eexists. split; [exact Esys|]. split.
  { rewrite !length_zip_with.
    unfold DensityEstimation.sum_axis0, DensityEstimation.sum_axis1.
    rewrite !length_map, !length_seq. lia. }
  intros i Hi.
  set (M := DensityEstimation.mscale alpha
              (DensityEstimation.madd A0 (DensityEstimation.transpose A0))).
  assert (H0 : A0 i i = 0%R).
  { apply Hzero. intros e He Heq.
    destruct (nth_error el e) as [p|] eqn:Ep;
      [|apply nth_error_None in Ep; lia].
    destruct (edge_in_range s n ks el F FV Hready e p Ep) as [H1 H2].
    unfold DensityEstimation.src, DensityEstimation.tgt,
      DensityEstimation.edge_nat in Heq.
    rewrite (nth_error_nth _ _ _ Ep) in Heq. simpl in Heq.
    injection Heq as Hs Ht.
    apply (Hloop p); [eapply nth_error_In; eassumption|]. lia. }
  assert (HM : M i i = 0%R).
  { unfold M, DensityEstimation.mscale, DensityEstimation.madd,
      DensityEstimation.transpose. rewrite H0. lra. }
  assert (Hls : length (DensityEstimation.sum_axis1 n M) = n)
    by (unfold DensityEstimation.sum_axis1;
        now rewrite length_map, length_seq).
  assert (Ed : nth_error
                 (DensityEstimation.zip_with
                    (fun rs k => (- rs + (1.0 - alpha) * IZR k)%R)
                    (DensityEstimation.sum_axis1 n M) ks) i
               = Some (- DensityEstimation.sum_upto n (fun c => M i c)
                       + (1.0 - alpha) * IZR (nth i ks 0%Z))%R).
  { rewrite (nth_error_nth' _ 0%R)
      by (rewrite length_zip_with; lia).
    rewrite (nth_zip_with _ _ _ i 0%R 0%Z 0%R) by lia.
    rewrite nth_sum_axis1 by assumption. reflexivity. }
  rewrite (sum_upto_ext n _
             (fun j => if (j =? i)%nat
                       then (- DensityEstimation.sum_upto n (fun c => M i c)
                             + (1.0 - alpha) * IZR (nth i ks 0%Z))%R
                       else M i j)).
  - rewrite sum_upto_update by assumption. cbv beta. rewrite HM.
    change (fun c : nat => M i c) with (M i). lra.
  - intros j Hj. unfold DensityEstimation.setdiag. fold M. rewrite Ed.
    rewrite (Nat.eqb_sym i j). reflexivity.
Qed.

Lemma dF_PAk_gCorr_row_sums_witness :
  exists A b,
    DensityEstimation.dF_PAk_gCorr_system false 0.5
      [1; 1; 1]%R DensityEstimation.example_graph_Fij = Ok (A, b) /\
    DensityEstimation.sum_upto 3 (fun j => A 0%nat j) = ((1 - 0.5) * 2)%R.
Proof.
  destruct (dF_PAk_gCorr_row_sums DensityEstimation.example_graph_Fij 3
              DensityEstimation.example_kstar
              DensityEstimation.example_pairs
              DensityEstimation.example_Fij
              DensityEstimation.example_Fij_var false 0.5%R [1; 1; 1]%R)
    as (A & b & E & _ & H).
  - apply example_graph_ready.
  - intros p [<-|[<-|[<-|[]]]]; simpl; lia.
  - reflexivity.
  - exists A, b. split; [exact E|]. apply (H 0%nat). lia.
Defined.



(** X14: with [alpha = 0] the system of [compute_density_dF_PAk_gCorr] is
    diagonal: [A = diag(kstar)] and [b(i) = k*(i) log(k*(i) /
    corrected_vols(i))]; the pair graph only has to be well formed. *)
Theorem dF_PAk_gCorr_alpha_zero_is_diagonal :
  forall (s : DensityEstimation.session) (n : nat) (ks : list Z)
         (el : list (Z * Z)) (F FV : list R) (use_variance : bool)
         (corrected_vols : list R),
    DensityEstimation.graph_ready s n ks el F FV ->
    length corrected_vols = n ->
    exists A b,
      DensityEstimation.dF_PAk_gCorr_system use_variance 0
        corrected_vols s = Ok (A, b) /\
      forall i, (i < n)%nat ->
        (forall j, j <> i -> A i j = 0%R) /\
        A i i = IZR (nth i ks 0%Z) /\
        nth i b 0%R
        = (IZR (nth i ks 0%Z)
           * ln (IZR (nth i ks 0%Z) / nth i corrected_vols 0))%R.
Proof.
  intros s n ks el F FV uv cv Hready Hcv.
  destruct (dF_PAk_gCorr_assemble_run s n ks el F FV uv Hready)
    as (A0 & supp & E & _).
  pose proof (dF_PAk_gCorr_system_run s n ks el F FV uv Hready 0%R cv
                A0 supp Hcv E) as Esys.
  pose proof Hready as (_ & _ & Hlk & _).
  do 2 eexists. split; [exact Esys|].
  intros i Hi.
  set (M := DensityEstimation.mscale 0
              (DensityEstimation.madd A0 (DensityEstimation.transpose A0))).
  assert (HM : forall r c, M r c = 0%R)
    by (intros r c; unfold M, DensityEstimation.mscale; lra).
  assert (Hls : forall X, length (DensityEstimation.sum_axis1 n X) = n)
    by (intros X; unfold DensityEstimation.sum_axis1;
        now rewrite length_map, length_seq).
  assert (Hl0 : forall X, length (DensityEstimation.sum_axis0 n X) = n)
    by (intros X; unfold DensityEstimation.sum_axis0;
        now rewrite length_map, length_seq).
  split; [|split].
  - intros j Hj. unfold DensityEstimation.setdiag.
    destruct (Nat.eqb_spec i j); [congruence|]. apply HM.
  - unfold DensityEstimation.setdiag. rewrite Nat.eqb_refl.
    rewrite (nth_error_nth' _ 0%R) by (rewrite length_zip_with, Hls; lia).
    rewrite (nth_zip_with _ _ _ i 0%R 0%Z 0%R) by (rewrite Hls; lia).
    rewrite nth_sum_axis1 by assumption.
    rewrite (sum_upto_zero n (fun c => M i c)) by (intros; apply HM).
    lra.
  - rewrite (nth_zip_with _ _ _ i 0%R 0%R 0%R)
      by (rewrite !length_zip_with, ?Hl0, ?Hls; lia).
    rewrite (nth_zip_with _ _ _ i 0%Z 0%R 0%R) by lia.
    lra.
Qed.

Lemma dF_PAk_gCorr_alpha_zero_is_diagonal_witness :
  exists A b,
    DensityEstimation.dF_PAk_gCorr_system true 0 [1; 1; 1]%R
      DensityEstimation.example_graph_Fij = Ok (A, b) /\
    A 1%nat 1%nat = 2%R.
Proof.
  destruct (dF_PAk_gCorr_alpha_zero_is_diagonal
              DensityEstimation.example_graph_Fij 3
              DensityEstimation.example_kstar
              DensityEstimation.example_pairs
              DensityEstimation.example_Fij
              DensityEstimation.example_Fij_var true [1; 1; 1]%R)
    as (A & b & E & H).
  - apply example_graph_ready.
  - reflexivity.
  - exists A, b. split; [exact E|].
    destruct (H 1%nat) as (_ & Hd & _); [lia|exact Hd].
Defined.

Section DFPAkGCorrRun.

Import DensityEstimation.

Context {ext : Externals}.

Local Open Scope R_scope.

(** The arrays of the first loop after [m] iterations: the entries of
    [corrected_vols] not reached yet are still zero. *)
Let vols_filled (d : R) (D : list (list R)) (ks : list Z) (F : list R)
  (IP : list Z) (n m : nat) (st : list R * list R) : Prop :=
  filled (fun i => r_k D i (nth i ks 0%Z)) n m (fst st) /\
  filled (fun i => corrected_volume d D (Fijs_slice F IP i) i
                     (nth i ks 0%Z)) n m (snd st) /\
  forall j, (m <= j)%nat -> nth j (snd st) 0 = 0.

Lemma dF_PAk_gCorr_body_step (s : session) (n : nat) (d : R)
  (D : list (list R)) (ks : list Z) (F : list R) (IP : list Z) (i : nat)
  (st : list R * list R) :
  s self_kstar = VIntArr ks ->
  s self_distances = VArr2 D ->
  s self_Fij_array = VArr F ->
  s self_nind_iptr = VIntArr IP ->
  length D = n ->
  kstar_fits n D ks ->
  pairs_fit n ks F IP ->
  (i < n)%nat ->
  vols_filled d D ks F IP n i st ->
  exists st', dF_PAk_gCorr_body s d i st = Ok st' /\
              vols_filled d D ks F IP n (S i) st'.
Proof.
  intros Hk HD HF HIP HlD [Hlk Hfit] [HlIP Hpf] Hi Hst.
  destruct st as [dc cv].
  destruct Hst as ([Ldc Fdc] & [Lcv Fcv] & Hz). cbn [fst snd] in *.
  unfold dF_PAk_gCorr_body.
  rewrite (get_int_arr_ok s self_kstar _ Hk),
          (get_arr2_ok s self_distances _ HD). cbn [bind].
  rewrite (np_index_nat ks i 0%Z) by lia. cbn [bind].
  rewrite (np_index2_nat D i _ 0) by (try lia; now apply Hfit). cbn [bind].
  rewrite np_setitem_ok by lia. cbn [bind].
  rewrite (Fijs_of_ready s n F IP i HF HIP HlIP Hi). cbn [bind].
  rewrite (np_index_nat cv i 0) by lia. cbn [bind].
  rewrite (Hz i) by lia.
  pose proof (Hfit i Hi) as Hki. pose proof (Hpf i Hi) as Hpi.
  rewrite (corrected_loop d D (Fijs_slice F IP i) i (nth i ks 0%Z))
    by (try lia; try assumption; intros j Hj; now apply in_py_range in Hj).
  cbn [bind].
  rewrite np_setitem_ok by lia. cbn [bind].
  eexists. split; [reflexivity|].
  split; [|split]; cbn [fst snd].
  - apply (filled_step (fun i => r_k D i (nth i ks 0%Z)) n i dc Hi
             (conj Ldc Fdc)).
  - apply (filled_step
             (fun i => corrected_volume d D (Fijs_slice F IP i) i
                         (nth i ks 0%Z)) n i cv Hi (conj Lcv Fcv)).
  - intros j Hj. rewrite nth_set_nth_neq by lia. apply Hz. lia.
Qed.

Lemma dF_PAk_gCorr_loop_run (s : session) (n : nat) (d : R)
  (D : list (list R)) (ks : list Z) (F : list R) (IP : list Z) :
  s self_kstar = VIntArr ks ->
  s self_distances = VArr2 D ->
  s self_Fij_array = VArr F ->
  s self_nind_iptr = VIntArr IP ->
  length D = n ->
  kstar_fits n D ks ->
  pairs_fit n ks F IP ->
  for_range n (dF_PAk_gCorr_body s d) (zeros n, zeros n)
  = Ok (map (fun i => r_k D i (nth i ks 0%Z)) (seq 0 n),
        map (fun i => corrected_volume d D (Fijs_slice F IP i) i
                        (nth i ks 0%Z)) (seq 0 n)).
Proof.
  intros Hk HD HF HIP HlD Hfit Hpf.
  destruct (for_range_inv (vols_filled d D ks F IP n)
              (dF_PAk_gCorr_body s d) n (zeros n, zeros n))
    as ([dc cv] & E & Fdc & Fcv & _).
  - unfold vols_filled, zeros. cbn [fst snd].
    repeat split; try apply repeat_length; try (intros j Hj; lia).
    intros j _. destruct (Nat.lt_ge_cases j n) as [Hj|Hj].
    + now apply nth_repeat_in.
    + apply nth_overflow. now rewrite repeat_length.
  - intros i st Hi Hst.
    now apply (dF_PAk_gCorr_body_step s n d D ks F IP i st).
  - rewrite E. cbn [fst snd] in Fdc, Fcv.
    now rewrite (filled_all _ _ _ Fdc), (filled_all _ _ _ Fcv).
Qed.

(** The system does not read [dc]. *)
Lemma dF_PAk_gCorr_system_dc (use_variance : bool) (alpha : R)
  (cv : list R) (s : session) (v : value) :
  dF_PAk_gCorr_system use_variance alpha cv (setattr s self_dc v)
  = dF_PAk_gCorr_system use_variance alpha cv s.
Proof.
  unfold dF_PAk_gCorr_system, dF_PAk_gCorr_assemble.
  change (get_size (setattr s self_dc v) self_N) with (get_size s self_N).
  change (redundancy_of (setattr s self_dc v)) with (redundancy_of s).
  change (get_pairs (setattr s self_dc v) self_nind_list)
    with (get_pairs s self_nind_list).
  change (get_int_arr (setattr s self_dc v) self_kstar)
    with (get_int_arr s self_kstar).
  destruct (get_size s self_N) as [n|]; cbn [bind]; [|reflexivity].
  destruct (redundancy_of s) as [l|]; cbn [bind]; [|reflexivity].
  destruct (get_pairs s self_nind_list) as [el|]; cbn [bind];
    [|reflexivity].
  rewrite (for_each_ext
             (dF_PAk_gCorr_edge (setattr s self_dc v) use_variance n l)
             (dF_PAk_gCorr_edge s use_variance n l)).
  - reflexivity.
  - intros [e [i j]] [A supp]. reflexivity.
Qed.

End DFPAkGCorrRun.

(** X15: [compute_density_dF_PAk_gCorr] stores [dc[i] = r_{k*(i)}(i)],
    hands the system the corrected volumes [N V_d sum_j (r_j^d -
    r_{j-1}^d) exp(Fij)], and, once the solver and the pseudo-inverse
    have answered, stores the solution as [log_den] as it is, the matrix
    as [A], its pseudo-inverse as [B] and [sqrt(diag(B))] as
    [log_den_err]. *)
Theorem dF_PAk_gCorr_outputs :
  forall (ext : DensityEstimation.Externals)
         (s : DensityEstimation.session) (n : nat) (d : R)
         (D : list (list R)) (ks : list Z) (el : list (Z * Z))
         (F FV : list R) (IP : list Z) (use_variance : bool) (alpha : R),
    DensityEstimation.inputs_ready s n d D ->
    DensityEstimation.graph_ready s n ks el F FV ->
    s DensityEstimation.self_nind_iptr = DensityEstimation.VIntArr IP ->
    DensityEstimation.kstar_fits n D ks ->
    DensityEstimation.pairs_fit n ks F IP ->
    exists A b,
      DensityEstimation.dF_PAk_gCorr_system use_variance alpha
        (map (fun i =>
                (DensityEstimation.corrected_volume d D
                   (DensityEstimation.Fijs_slice F IP i) i (nth i ks 0%Z)
                 * (DensityEstimation.V_d d * INR n))%R)
             (seq 0 n)) s = Ok (A, b) /\
      forall log_den B,
        DensityEstimation.spsolve n A b = Ok log_den ->
        DensityEstimation.pinvh n A = Ok B ->
        exists s',
          DensityEstimation.compute_density_dF_PAk_gCorr use_variance alpha s
          = Ok s' /\
          s' DensityEstimation.self_dc
          = DensityEstimation.VArr
              (map (fun i => DensityEstimation.r_k D i (nth i ks 0%Z))
                   (seq 0 n)) /\
          s' DensityEstimation.self_log_den
          = DensityEstimation.VArr log_den /\
          s' DensityEstimation.self_A = DensityEstimation.VMatrix A /\
          s' DensityEstimation.self_B = DensityEstimation.VMatrix B /\
          s' DensityEstimation.self_log_den_err
          = DensityEstimation.VArr
              (map sqrt (DensityEstimation.np_diag n B)).
Proof.
  intros ext s n d D ks el F FV IP uv alpha Hin Hready HIP Hfit Hpf.
  pose proof Hin as (HN & Hd & HD & HlD).
  pose proof Hready as (_ & Hk & Hlk & _ & _ & HF & _).
  set (cvs := map (fun i =>
                (DensityEstimation.corrected_volume d D
                   (DensityEstimation.Fijs_slice F IP i) i (nth i ks 0%Z)
                 * (DensityEstimation.V_d d * INR n))%R) (seq 0 n)).
  destruct (dF_PAk_gCorr_assemble_run s n ks el F FV uv Hready)
    as (A0 & supp & E & _).
  assert (Hcv : length cvs = n)
    by (unfold cvs; now rewrite length_map, length_seq).
  pose proof (dF_PAk_gCorr_system_run s n ks el F FV uv Hready alpha cvs
                A0 supp Hcv E) as Esys.
  do 2 eexists. split; [exact Esys|].
  intros ld B Hsolve Hpinv.
  unfold DensityEstimation.compute_density_dF_PAk_gCorr,
    DensityEstimation.ensure_Fij_array.
  rewrite (attr_is_none_value s DensityEstimation.self_Fij_array _ HF)
    by discriminate.
  cbn [bind DensityEstimation.is_none].
  rewrite (get_size_ok s DensityEstimation.self_N n HN). cbn [bind].
  rewrite (get_number_float s DensityEstimation.self_intrinsic_dim d Hd).
  cbn [bind].
  rewrite (dF_PAk_gCorr_loop_run s n d D ks F IP Hk HD HF HIP HlD Hfit Hpf).
  cbn [bind].
  rewrite dF_PAk_gCorr_system_dc.
  rewrite map_map.
  rewrite (map_ext _
             (fun i =>
                (DensityEstimation.corrected_volume d D
                   (DensityEstimation.Fijs_slice F IP i) i (nth i ks 0%Z)
                 * (DensityEstimation.V_d d * INR n))%R))
    by (intros i; now rewrite prefactor_is_V_d).
  fold cvs. rewrite Esys. cbn [bind].
  rewrite Hsolve. cbn [bind]. rewrite Hpinv. cbn [bind].
  eexists. split; [reflexivity|].
  repeat split; reflexivity.
Qed.

Lemma dF_PAk_gCorr_outputs_witness :
  exists s',
    DensityEstimation.compute_density_dF_PAk_gCorr
      (ext := DensityEstimation.example_externals) true 1
      DensityEstimation.example_graph_Fij = Ok s'.
Proof.
  destruct (dF_PAk_gCorr_outputs DensityEstimation.example_externals
              DensityEstimation.example_graph_Fij 3 2
              DensityEstimation.example_distances
              DensityEstimation.example_kstar
              DensityEstimation.example_pairs
              DensityEstimation.example_Fij
              DensityEstimation.example_Fij_var [0; 1; 2; 3]%Z true 1%R)
    as (A & b & _ & H).
  - repeat split; reflexivity.
  - apply example_graph_ready.
  - reflexivity.
  - split; [reflexivity|]. intros [|[|[|i]]] Hi; simpl; lia.
  - split; [reflexivity|]. intros [|[|[|i]]] Hi; simpl; lia.
  - destruct (H b A eq_refl eq_refl) as (s' & E & _).
    exists s'. exact E.
Defined.

(** X11: [check_grads_covmat] is assigned by [compute_grads(comp_covmat=
    True)] only.  On a session where the flag was never assigned,
    [compute_grads()] leaves it so, and [compute_deltaFs_grads_semisum],
    finding gradients, stops at reading the flag with an
    [AttributeError]. *)
Theorem semisum_after_plain_grads :
  forall (ext : DensityEstimation.Externals)
         (s s1 : DensityEstimation.session) (ks : list Z)
         (chi : DensityEstimation.chi_arg) (G VD : list (list R)),
    s DensityEstimation.self_kstar = DensityEstimation.VIntArr ks ->
    s DensityEstimation.self_check_grads_covmat = DensityEstimation.VUnset ->
    DensityEstimation.compute_grads false s = Ok s1 ->
    s1 DensityEstimation.self_grads = DensityEstimation.VArr2 G ->
    s1 DensityEstimation.self_neigh_vector_diffs
      = DensityEstimation.VArr2 VD ->
    DensityEstimation.compute_deltaFs_grads_semisum chi s1
    = Raise AttributeError.
Proof.
  intros ext s s1 ks chi G VD Hk Hc H1 HG HVD.
  assert (Hflag : s1 DensityEstimation.self_check_grads_covmat
                  = DensityEstimation.VUnset).
  { rewrite (compute_grads_var_frame s s1); [exact Hc| | |exact H1];
      rewrite Hk; [reflexivity|discriminate]. }
  unfold DensityEstimation.compute_deltaFs_grads_semisum.
  rewrite (attr_is_none_value s1 DensityEstimation.self_neigh_vector_diffs
             _ HVD) by discriminate.
  cbn [bind DensityEstimation.is_none].
  rewrite (attr_is_none_value s1 DensityEstimation.self_grads _ HG)
    by discriminate.
  cbn [bind DensityEstimation.is_none].
  unfold DensityEstimation.getattr at 1. rewrite Hflag. reflexivity.
Qed.

Lemma semisum_after_plain_grads_witness :
  exists s1,
    DensityEstimation.compute_grads
      (ext := DensityEstimation.example_externals) false
      (DensityEstimation.setattr DensityEstimation.example_session_k2
         DensityEstimation.self_neigh_vector_diffs
         (DensityEstimation.VArr2 [])) = Ok s1 /\
    DensityEstimation.compute_deltaFs_grads_semisum
      (ext := DensityEstimation.example_externals)
      DensityEstimation.ChiAuto s1 = Raise AttributeError.
Proof.
  eexists. split; [reflexivity|].
  apply (semisum_after_plain_grads DensityEstimation.example_externals
           (DensityEstimation.setattr DensityEstimation.example_session_k2
              DensityEstimation.self_neigh_vector_diffs
              (DensityEstimation.VArr2 []))
           _ DensityEstimation.example_kstar DensityEstimation.ChiAuto
           [] []);
    reflexivity.
Defined.

(** ** The k-peaks estimator *)

Lemma set_nth_twice {A : Type} (a : list A) (i : nat) (v w : A) :
  set_nth (set_nth a i v) i w = set_nth a i w.
Proof.
  revert i; induction a as [|x a IH]; intros [|i]; simpl; try reflexivity.
  now rewrite IH.
Qed.

Lemma set_nth_same {A : Type} (a : list A) (i : nat) (d : A) :
  set_nth a i (nth i a d) = a.
Proof.
  revert i; induction a as [|x a IH]; intros [|i]; simpl; try reflexivity.
  now rewrite IH.
Qed.

Section KPeaksError.

Import DensityEstimation.

Context {ext : Externals}.

Local Open Scope R_scope.

Variable s : session.
Variable n : nat.
Variable D : list (list R).
Variable DI : list (list Z).
Variable ks : list Z.

Hypothesis Hk : s self_kstar = VIntArr ks.
Hypothesis HD : s self_distances = VArr2 D.
Hypothesis HDI : s self_dist_indices = VIntArr2 DI.
Hypothesis HlD : length D = n.
Hypothesis Hfit : kstar_fits n D ks.
Hypothesis Hnb : neighbours_fit n DI ks.

(** The inner loop adds its terms to [log_den_err[i]] and touches no
    other entry. *)
Lemma kpeaks_inner_loop (i : nat) (l : list Z) :
  (i < n)%nat ->
  (forall j, In j l -> (1 <= j < nth i ks 0%Z)%Z) ->
  forall lde : list R,
    length lde = n ->
    for_each l
      (fun j lde0 =>
         bind (get_int_arr2 s self_dist_indices)
              (fun di => kpeaks_inner ks di i (nth i ks 0%Z) j lde0))
      lde
    = Ok (set_nth lde i
            (fold_left
               (fun acc j =>
                  acc + IZR ((nth (Z.to_nat (nth (Z.to_nat j) (nth i DI [])
                                               0%Z)) ks 0%Z
                              - nth i ks 0%Z) ^ 2))
               l (nth i lde 0))).
Proof.
  intros Hi. destruct Hfit as [Hlk _]. destruct Hnb as [HlDI Hnb'].
  rewrite (get_int_arr2_ok s self_dist_indices _ HDI). cbn [bind].
  induction l as [|j l IH]; intros Hl lde Hlen.
  - cbn [for_each fold_left]. now rewrite set_nth_same.
  - assert (Hj : (1 <= j < nth i ks 0%Z)%Z) by (apply Hl; now left).
    cbn [for_each fold_left].
    unfold kpeaks_inner at 1.
    destruct (Hnb' i j Hi Hj) as [Hj1 Hj2].
    rewrite (np_index2_nat DI i j 0%Z) by lia. cbn [bind].
    rewrite (np_index_Z ks _ 0%Z) by lia. cbn [bind].
    rewrite (np_index_nat lde i 0) by lia. cbn [bind].
    rewrite np_setitem_ok by lia. cbn [bind].
    rewrite IH.
    + rewrite set_nth_twice, nth_set_nth_eq by lia. reflexivity.
    + intros j' Hj'. apply Hl. now right.
    + now rewrite length_set_nth.
Qed.

Lemma kpeaks_error_step (i : nat) (st : loop_state) :
  (i < n)%nat ->
  loop_filled (fun i => r_k D i (nth i ks 0%Z))
    (fun i => IZR (nth i ks 0%Z))
    (fun i => sqrt (DensityMore.kpeaks_spread ks DI i
                    / IZR (nth i ks 0%Z))) n i st ->
  exists st',
    kpeaks_body s i st = Ok st' /\
    loop_filled (fun i => r_k D i (nth i ks 0%Z))
      (fun i => IZR (nth i ks 0%Z))
      (fun i => sqrt (DensityMore.kpeaks_spread ks DI i
                      / IZR (nth i ks 0%Z))) n (S i) st'.
Proof.
  intros Hi Hst. pose proof Hfit as [Hlk Hfit'].
  destruct st as [[[dc ld] lde] mn].
  destruct Hst as ([Ldc Fdc] & [Lld Fld] & [Lerr Ferr]).
  unfold kpeaks_body.
  rewrite (get_int_arr_ok s self_kstar _ Hk),
          (get_arr2_ok s self_distances _ HD). cbn [bind].
  rewrite (np_index_nat ks i 0%Z) by lia. cbn [bind].
  rewrite (np_index2_nat D i _ 0) by (try lia; now apply Hfit').
  cbn [bind].
  rewrite np_setitem_ok by lia. cbn [bind].
  rewrite np_setitem_ok by lia. cbn [bind].
  rewrite np_setitem_ok by lia. cbn [bind].
  rewrite (kpeaks_inner_loop i (py_range 1 (nth i ks 0%Z)) Hi)
    by (try (intros j Hj; now apply in_py_range in Hj);
        now rewrite length_set_nth).
  cbn [bind].
  rewrite nth_set_nth_eq by lia.
  rewrite (np_index_nat _ i 0) by (rewrite !length_set_nth; lia).
  cbn [bind].
  rewrite nth_set_nth_eq by (rewrite length_set_nth; lia).
  rewrite np_setitem_ok by (rewrite !length_set_nth; lia). cbn [bind].
  rewrite (np_index_nat _ i 0) by (rewrite length_set_nth; lia).
  cbn [bind].
  eexists. split; [reflexivity|].
  split; [|split].
  - apply (filled_step (fun i => r_k D i (nth i ks 0%Z)) n i dc Hi
             (conj Ldc Fdc)).
  - apply (filled_step (fun i => IZR (nth i ks 0%Z)) n i ld Hi
             (conj Lld Fld)).
  - rewrite !set_nth_twice.
    apply (filled_step
             (fun i => sqrt (DensityMore.kpeaks_spread ks DI i
                             / IZR (nth i ks 0%Z))) n i lde Hi
             (conj Lerr Ferr)).
Qed.

End KPeaksError.

(** X16: [compute_density_kpeaks] leaves, for every point [i],
    [log_den[i] = k*(i)] (the neighbourhood size itself, no logarithm and
    no normalisation), [dc[i] = r_{k*(i)}(i)] and
    [log_den_err[i] = sqrt(sum_j (k*(n_j) - k*(i))^2 / k*(i))], the sum
    over the neighbours [n_j] of rank [1 <= j < k*(i)]. *)
Theorem kpeaks_density_formula :
  forall (ext : DensityEstimation.Externals)
         (s : DensityEstimation.session) (n : nat) (d : R)
         (D : list (list R)) (DI : list (list Z)) (ks : list Z),
    DensityEstimation.inputs_ready s n d D ->
    s DensityEstimation.self_kstar = DensityEstimation.VIntArr ks ->
    s DensityEstimation.self_dist_indices = DensityEstimation.VIntArr2 DI ->
    DensityEstimation.kstar_fits n D ks ->
    DensityEstimation.neighbours_fit n DI ks ->
    exists s' log_den log_den_err dc,
      DensityEstimation.compute_density_kpeaks s = Ok s' /\
      s' DensityEstimation.self_log_den = DensityEstimation.VArr log_den /\
      s' DensityEstimation.self_log_den_err
        = DensityEstimation.VArr log_den_err /\
      s' DensityEstimation.self_dc = DensityEstimation.VArr dc /\
      forall i, (i < n)%nat ->
        (nth i log_den 0 = IZR (nth i ks 0%Z) /\
         nth i log_den_err 0
         = sqrt (DensityMore.kpeaks_spread ks DI i / IZR (nth i ks 0%Z)) /\
         nth i dc 0 = DensityEstimation.r_k D i (nth i ks 0%Z))%R.
Proof.
  intros ext s n d D DI ks (HN & Hd & HD & HlD) Hk HDI Hfit Hnb.
  unfold DensityEstimation.compute_density_kpeaks.
  rewrite (ensure_kstar_ready s ks Hk). cbn [bind].
  rewrite (get_size_ok s DensityEstimation.self_N n HN). cbn [bind].
  destruct (for_range_inv
              (DensityEstimation.loop_filled
                 (fun i => DensityEstimation.r_k D i (nth i ks 0%Z))
                 (fun i => IZR (nth i ks 0%Z))
                 (fun i => sqrt (DensityMore.kpeaks_spread ks DI i
                                 / IZR (nth i ks 0%Z))) n)
              (DensityEstimation.kpeaks_body s) n
              (DensityEstimation.init_loop_state n))
    as ([[[dc ld] lde] mn] & E & Fdc & Fld & Ferr).
  - apply loop_filled_init.
  - intros i st Hi Hst.
    now apply (kpeaks_error_step s n D DI ks Hk HD HDI HlD Hfit Hnb i st).
  - rewrite E. cbn [bind].
    rewrite (filled_all _ _ _ Fdc), (filled_all _ _ _ Fld),
            (filled_all _ _ _ Ferr).
    do 4 eexists. split; [reflexivity|].
    split; [reflexivity|]. split; [reflexivity|]. split; [reflexivity|].
    intros i Hi. rewrite !nth_map_seq by assumption. repeat split.
Qed.

Lemma kpeaks_density_formula_witness :
  exists s',
    DensityEstimation.compute_density_kpeaks
      (ext := DensityEstimation.example_externals)
      DensityEstimation.example_session_k2 = Ok s'.
Proof.
  destruct (kpeaks_density_formula DensityEstimation.example_externals
              DensityEstimation.example_session_k2 3 2
              DensityEstimation.example_distances
              [[0; 1; 2]; [1; 0; 2]; [2; 1; 0]]%Z
              DensityEstimation.example_kstar)
    as (s' & _ & _ & _ & E & _).
  - repeat split; reflexivity.
  - reflexivity.
  - reflexivity.
  - split; [reflexivity|]. intros [|[|[|i]]] Hi; simpl; lia.
  - split; [reflexivity|].
    intros [|[|[|i]]] j Hi Hj; simpl in Hj;
      try lia; assert (j = 1%Z) as -> by lia; simpl; lia.
  - exists s'. exact E.
Defined.

(** ** The correlated kstar-NN estimator *)

Section CorrKStarNN.

Import DensityEstimation.

Context {ext : Externals}.

Local Open Scope R_scope.

Let pair_filled (d : R) (D : list (list R)) (ks : list Z) (n m : nat)
  (st : list R * list R * R) : Prop :=
  filled (fun i => r_k D i (nth i ks 0%Z)) n m (fst (fst st)) /\
  filled (kstarNN_estimate d D ks) n m (snd (fst st)).

Lemma corr_kstarNN_body_step (s : session) (n : nat) (d : R)
  (D : list (list R)) (ks : list Z) (i : nat) (st : list R * list R * R) :
  s self_kstar = VIntArr ks ->
  s self_distances = VArr2 D ->
  length D = n ->
  kstar_fits n D ks ->
  (i < n)%nat ->
  pair_filled d D ks n i st ->
  exists st', DensityMore.corr_kstarNN_body s d (prefactor_of d) i st
              = Ok st' /\
              pair_filled d D ks n (S i) st'.
Proof.
  intros Hk HD HlD [Hlk Hfit] Hi Hst.
  destruct st as [[dc ld] mn].
  destruct Hst as ([Ldc Fdc] & [Lld Fld]). cbn [fst snd] in *.
  unfold DensityMore.corr_kstarNN_body.
  rewrite (get_int_arr_ok s self_kstar _ Hk),
          (get_arr2_ok s self_distances _ HD). cbn [bind].
  rewrite (np_index_nat ks i 0%Z) by lia. cbn [bind].
  rewrite (np_index2_nat D i _ 0) by (try lia; now apply Hfit). cbn [bind].
  rewrite np_setitem_ok by lia. cbn [bind].
  rewrite np_setitem_ok by lia. cbn [bind].
  rewrite (np_index_nat _ i 0) by (rewrite length_set_nth; lia).
  cbn [bind].
  rewrite np_setitem_ok by (rewrite length_set_nth; lia). cbn [bind].
  rewrite (np_index_nat _ i 0) by (rewrite !length_set_nth; lia).
  cbn [bind].
  eexists. split; [reflexivity|].
  split; cbn [fst snd].
  - apply (filled_step (fun i => r_k D i (nth i ks 0%Z)) n i dc Hi
             (conj Ldc Fdc)).
  - rewrite nth_set_nth_eq by lia.
    apply (filled_step (kstarNN_estimate d D ks) n i).
    + assumption.
    + apply filled_set. now split.
Qed.

Lemma corr_kstarNN_edges_run (s : session) (n : nat) (el : list (Z * Z))
  (CN : list Z) :
  s self_common_neighs = VIntArr CN ->
  (forall p, In p el ->
     (0 <= fst p < Z.of_nat n)%Z /\ (0 <= snd p < Z.of_nat n)%Z) ->
  (length el <= length CN)%nat ->
  exists A0,
    for_each (enumerate el) (DensityMore.corr_kstarNN_edge s n) lil_matrix
    = Ok A0.
Proof.
  intros HCN Hr Hlen.
  destruct (for_each_enumerate_inv (fun _ (_ : matrix) => True)
              (DensityMore.corr_kstarNN_edge s n) el lil_matrix I)
    as (A0 & E & _).
  - intros e [i j] A He _.
    assert (Hlt : (e < length el)%nat)
      by (apply nth_error_Some; congruence).
    destruct (Hr (i, j) (nth_error_In _ _ He)) as [Hi Hj].
    cbn [fst snd] in Hi, Hj.
    unfold DensityMore.corr_kstarNN_edge, get_num_arr, getattr.
    rewrite HCN. cbn [bind].
    rewrite (np_index_nat (map IZR CN) e 0)
      by (rewrite length_map; lia).
    cbn [bind].
    rewrite (msetitem_ok n) by assumption.
    eexists. split; [reflexivity|exact I].
  - exists A0. exact E.
Qed.

End CorrKStarNN.

(** X17: [compute_density_corr_kstarNN] stores the [log_den] and the [dc]
    of [compute_density_kstarNN]; its error matrix [A] is symmetric with
    the neighbourhood sizes on the diagonal, and [log_den_err] is
    [sqrt(diag(B))] for the pseudo-inverse [B] of [A], not
    [1/sqrt(kstar)]. *)
Theorem corr_kstarNN_outputs :
  forall (ext : DensityEstimation.Externals)
         (s : DensityEstimation.session) (n : nat) (d : R)
         (D : list (list R)) (ks : list Z) (el : list (Z * Z))
         (CN : list Z),
    DensityEstimation.inputs_ready s n d D ->
    s DensityEstimation.self_kstar = DensityEstimation.VIntArr ks ->
    DensityEstimation.kstar_fits n D ks ->
    s DensityEstimation.self_common_neighs = DensityEstimation.VIntArr CN ->
    s DensityEstimation.self_nind_list = DensityEstimation.VPairs el ->
    (forall p, In p el ->
       (0 <= fst p < Z.of_nat n)%Z /\ (0 <= snd p < Z.of_nat n)%Z) ->
    (length el <= length CN)%nat ->
    exists A s_k,
      DensityEstimation.compute_density_kstarNN s = Ok s_k /\
      (forall i j, A i j = A j i) /\
      (forall i, (i < n)%nat -> A i i = IZR (nth i ks 0%Z)) /\
      forall B,
        DensityEstimation.pinvh n A = Ok B ->
        exists s',
          DensityMore.compute_density_corr_kstarNN s = Ok s' /\
          s' DensityEstimation.self_log_den
          = s_k DensityEstimation.self_log_den /\
          s' DensityEstimation.self_dc = s_k DensityEstimation.self_dc /\
          s' DensityEstimation.self_A = DensityEstimation.VMatrix A /\
          s' DensityEstimation.self_B = DensityEstimation.VMatrix B /\
          s' DensityEstimation.self_log_den_err
          = DensityEstimation.VArr
              (map sqrt (DensityEstimation.np_diag n B)).
Proof.
  intros ext s n d D ks el CN Hin Hk Hfit HCN Hel Hr Hlen.
  pose proof Hin as (HN & Hd & HD & HlD).
  pose proof Hfit as [Hlk _].
  set (s2 := DensityEstimation.setattr
               (DensityEstimation.setattr s DensityEstimation.self_log_den
                  (DensityEstimation.VArr
                     (DensityEstimation.normalise n
                        (map (DensityEstimation.kstarNN_estimate d D ks)
                             (seq 0 n)))))
               DensityEstimation.self_dc
               (DensityEstimation.VArr
                  (map (fun i => DensityEstimation.r_k D i (nth i ks 0%Z))
                       (seq 0 n)))).
  destruct (corr_kstarNN_edges_run s2 n el CN HCN Hr Hlen) as [A0 EA].
  exists (DensityEstimation.setdiag
            (DensityEstimation.madd A0 (DensityEstimation.transpose A0))
            (map IZR ks)).
  eexists. split; [apply (kstarNN_run s n d D ks Hin Hk Hfit)|].
  split; [|split].
  - intros i j. unfold DensityEstimation.setdiag.
    destruct (Nat.eqb_spec i j) as [->|Hij].
    + rewrite Nat.eqb_refl. reflexivity.
    + destruct (Nat.eqb_spec j i); [congruence|].
      unfold DensityEstimation.madd, DensityEstimation.transpose. lra.
  - intros i Hi. unfold DensityEstimation.setdiag.
    rewrite Nat.eqb_refl.
    rewrite (nth_error_nth' _ 0%R) by (rewrite length_map; lia).
    now rewrite (nth_map_in IZR ks i 0%Z 0%R) by lia.
  - intros B HB.
    unfold DensityMore.compute_density_corr_kstarNN.
    rewrite (attr_is_none_value s DensityEstimation.self_common_neighs
               _ HCN) by discriminate.
    cbn [bind DensityEstimation.is_none].
    rewrite (get_size_ok s DensityEstimation.self_N n HN). cbn [bind].
    rewrite (get_number_float s DensityEstimation.self_intrinsic_dim d Hd).
    cbn [bind].
    destruct (for_range_inv
                (fun m (st : list R * list R * R) =>
                   filled (fun i => DensityEstimation.r_k D i
                                      (nth i ks 0%Z)) n m (fst (fst st)) /\
                   filled (DensityEstimation.kstarNN_estimate d D ks)
                          n m (snd (fst st)))
                (DensityMore.corr_kstarNN_body s d
                   (DensityEstimation.prefactor_of d)) n
                (DensityEstimation.zeros n, DensityEstimation.zeros n,
                 9.9e300%R))
      as ([[dc ld] mn] & E & Fdc & Fld).
    + unfold DensityEstimation.zeros. cbn [fst snd].
      repeat split; try apply repeat_length; intros j Hj; lia.
    + intros i st Hi Hst.
      now apply (corr_kstarNN_body_step s n d D ks i st).
    + rewrite E. cbn [bind]. cbn [fst snd] in Fdc, Fld.
      rewrite (filled_all _ _ _ Fdc), (filled_all _ _ _ Fld).
      fold s2.
      rewrite (get_pairs_ok s2 DensityEstimation.self_nind_list el Hel).
      cbn [bind]. rewrite EA. cbn [bind].
      rewrite (get_int_arr_ok s2 DensityEstimation.self_kstar ks Hk).
      cbn [bind]. rewrite HB. cbn [bind].
      eexists. split; [reflexivity|].
      repeat split; reflexivity.
Qed.

Lemma corr_kstarNN_outputs_witness :
  exists s',
    DensityMore.compute_density_corr_kstarNN
      (ext := DensityEstimation.example_externals)
      DensityEstimation.example_graph = Ok s'.
Proof.
  destruct (corr_kstarNN_outputs DensityEstimation.example_externals
              DensityEstimation.example_graph 3 2
              DensityEstimation.example_distances
              DensityEstimation.example_kstar
              DensityEstimation.example_pairs [1; 1; 1]%Z)
    as (A & s_k & _ & _ & _ & H).
  - repeat split; reflexivity.
  - reflexivity.
  - split; [reflexivity|]. intros [|[|[|i]]] Hi; simpl; lia.
  - reflexivity.
  - reflexivity.
  - intros p [<-|[<-|[<-|[]]]]; simpl; lia.
  - simpl. lia.
  - destruct (H A eq_refl) as (s' & E & _). exists s'. exact E.
Defined.

(** ** [Base.__init__] on coordinates without repeated scalars *)

Section BaseUnique.

Import Base.

Variable T : Type.
Variable eqb_T leb_T : T -> T -> bool.

Hypothesis eqb_sound : forall a b, eqb_T a b = true -> a = b.

Lemma insert_stable_perm (p : nat * T) (l : list (nat * T)) :
  Permutation (insert_stable leb_T p l) (p :: l).
Proof.
  induction l as [|q l IH]; simpl; [apply Permutation_refl|].
  destruct (leb_T (snd q) (snd p)).
  - eapply perm_trans; [apply perm_skip, IH|apply perm_swap].
  - apply Permutation_refl.
Qed.

Lemma fold_insert_stable_perm (l acc : list (nat * T)) :
  Permutation (fold_left (fun acc p => insert_stable leb_T p acc) l acc)
              (l ++ acc).
Proof.
  revert acc. induction l as [|p l IH]; intros acc; simpl;
    [apply Permutation_refl|].
  eapply perm_trans; [apply IH|].
  eapply perm_trans;
    [apply Permutation_app_head, insert_stable_perm|].
  apply Permutation_sym, Permutation_middle.
Qed.

Lemma argsort_stable_perm (ar : list T) :
  Permutation (argsort_stable leb_T ar) (combine (seq 0 (length ar)) ar).
Proof.
  unfold argsort_stable.
  eapply perm_trans; [apply fold_insert_stable_perm|].
  rewrite app_nil_r. apply Permutation_refl.
Qed.

Lemma map_fst_combine {A B : Type} (a : list A) (b : list B) :
  length a = length b -> map fst (combine a b) = a.
Proof.
  revert b. induction a as [|x a IH]; intros [|y b] H; simpl in *;
    try discriminate; [reflexivity|].
  f_equal. apply IH. lia.
Qed.

Lemma map_snd_combine {A B : Type} (a : list A) (b : list B) :
  length a = length b -> map snd (combine a b) = b.
Proof.
  revert b. induction a as [|x a IH]; intros [|y b] H; simpl in *;
    try discriminate; [reflexivity|].
  f_equal. apply IH. lia.
Qed.

Lemma argsort_positions (ar : list T) :
  Permutation (map fst (argsort_stable leb_T ar)) (seq 0 (length ar)).
Proof.
  eapply perm_trans; [apply Permutation_map, argsort_stable_perm|].
  rewrite map_fst_combine by now rewrite length_seq.
  apply Permutation_refl.
Qed.

Lemma argsort_values (ar : list T) :
  Permutation (map snd (argsort_stable leb_T ar)) ar.
Proof.
  eapply perm_trans; [apply Permutation_map, argsort_stable_perm|].
  rewrite map_snd_combine by now rewrite length_seq.
  apply Permutation_refl.
Qed.

(** Between distinct neighbours the mask is [True] everywhere. *)
Lemma mask_after_distinct (prev : T) (aux : list T) :
  NoDup (prev :: aux) ->
  mask_after eqb_T prev aux = repeat true (length aux).
Proof.
  revert prev. induction aux as [|x aux IH]; intros prev H; simpl;
    [reflexivity|].
  assert (Hx : eqb_T x prev = false).
  { destruct (eqb_T x prev) eqn:E; [|reflexivity].
    apply eqb_sound in E. subst x.
    inversion H as [|? ? Hn _]. exfalso. apply Hn. now left. }
  rewrite Hx. simpl. f_equal. apply IH.
  now inversion H.
Qed.

Lemma unique_mask_distinct (aux : list T) :
  NoDup aux -> unique_mask eqb_T aux = repeat true (length aux).
Proof.
  destruct aux as [|x aux]; intros H; simpl; [reflexivity|].
  f_equal. now apply mask_after_distinct.
Qed.

Lemma select_all {A : Type} (a : list A) :
  select a (repeat true (length a)) = a.
Proof. induction a as [|x a IH]; simpl; [reflexivity|now rewrite IH]. Qed.

Lemma select_all_of {A B : Type} (a : list A) (b : list B) :
  length a = length b -> select a (repeat true (length b)) = a.
Proof. intros <-. apply select_all. Qed.

(** Without repeated scalars [np.unique] returns every position of the
    flattened array. *)
Lemma np_unique_positions (x : ndarray T) :
  NoDup (flatten x) ->
  Permutation (snd (np_unique eqb_T leb_T x))
              (seq 0 (length (flatten x))).
Proof.
  intros Hnd. unfold np_unique. cbn [snd].
  rewrite unique_mask_distinct.
  - rewrite select_all_of by now rewrite !length_map.
    apply argsort_positions.
  - eapply Permutation_NoDup; [|exact Hnd].
    apply Permutation_sym, argsort_values.
Qed.

Lemma insert_nat_perm (v : nat) (l : list nat) :
  Permutation (insert_nat v l) (v :: l).
Proof.
  induction l as [|y l IH]; simpl; [apply Permutation_refl|].
  destruct (v <=? y)%nat; [apply Permutation_refl|].
  eapply perm_trans; [apply perm_skip, IH|apply perm_swap].
Qed.

Lemma np_sort_perm (l : list nat) : Permutation (np_sort l) l.
Proof.
  induction l as [|v l IH]; simpl; [apply Permutation_refl|].
  eapply perm_trans; [apply insert_nat_perm|]. now apply perm_skip.
Qed.

(** A gather that names a position outside the array raises. *)
Lemma np_take_out {A : Type} (a : list A) (idx : list Z) (k : Z) :
  In k idx -> (Z.of_nat (length a) <= k)%Z ->
  (forall j, In j idx -> (0 <= j)%Z) ->
  np_take a idx = Raise IndexError.
Proof.
  intros Hin Hk Hpos. induction idx as [|j idx IH]; [contradiction|].
  simpl. destruct (Z_lt_ge_dec j (Z.of_nat (length a))) as [Hj|Hj].
  - assert (H0 : (0 <= j)%Z) by (apply Hpos; now left).
    destruct a as [|d0 a']; [simpl in Hj; lia|].
    rewrite (np_index_Z (d0 :: a') j d0) by lia. cbn [bind].
    destruct Hin as [->|Hin]; [lia|].
    rewrite IH; [reflexivity|assumption|].
    intros j' Hj'. apply Hpos. now right.
  - rewrite np_index_out by lia. reflexivity.
Qed.

Lemma take_rows_unique_raises (x : ndarray T) :
  NoDup (flatten x) ->
  (shape0 x < length (flatten x))%nat ->
  take_rows x (np_sort (snd (np_unique eqb_T leb_T x))) = Raise IndexError.
Proof.
  intros Hnd Hlt. unfold take_rows.
  set (m := length (flatten x)) in *.
  assert (Hin : In (m - 1)%nat (np_sort (snd (np_unique eqb_T leb_T x)))).
  { eapply Permutation_in.
    - apply Permutation_sym. eapply perm_trans; [apply np_sort_perm|].
      apply np_unique_positions. exact Hnd.
    - apply in_seq. fold m. lia. }
  rewrite (np_take_out (rows x) _ (Z.of_nat (m - 1))).
  - reflexivity.
  - now apply in_map.
  - unfold shape0 in Hlt. lia.
  - intros j Hj. apply in_map_iff in Hj. destruct Hj as (v & <- & _). lia.
Qed.

End BaseUnique.

(** X18: when no scalar occurs twice in a coordinate array that has more
    scalars than rows (any array of at least two columns),
    [Base.__init__] with [remove_identical_points] left at [True] raises
    [IndexError]: [np.unique] without [axis] answers with every position
    of the flattened array, and those are used as row numbers. *)
Theorem init_distinct_scalars_IndexError :
  forall (T : Type) (eqb_T leb_T : T -> T -> bool)
         (reduce : Base.ndarray T -> Z
                   -> result (Base.ndarray T * Base.ndarray T))
         (args : Base.init_args T) (x : Base.ndarray T),
    (forall a b, eqb_T a b = true -> a = b) ->
    Base.arg_coordinates args = Base.PyNdarray x ->
    Base.arg_remove_identical_points args = true ->
    NoDup (Base.flatten x) ->
    (Base.shape0 x < length (Base.flatten x))%nat ->
    Base.__init__ eqb_T leb_T reduce args = Raise IndexError.
Proof.
  intros T eqb_T leb_T reduce args x Hsound Hc Hr Hnd Hlt.
  unfold Base.__init__, Base.init_coordinates, Base.init_attributes.
  rewrite Hc, Hr. cbn [Base.X Base.is_ndarray_instance assert bind].
  pose proof (take_rows_unique_raises T eqb_T leb_T Hsound x Hnd Hlt) as E.
  destruct (Base.np_unique eqb_T leb_T x) as [u idx]. cbn [snd] in E.
  rewrite E. reflexivity.
Qed.

Lemma init_distinct_scalars_IndexError_witness :
  Base.init_Z
    (Base.mk_args (Base.PyNdarray (Base.mk_ndarray 3 [[5; 6; 7]]%Z))
       Base.PyNone None false 1%Z true)
  = Raise IndexError.
Proof.
  apply (init_distinct_scalars_IndexError Z Z.eqb Z.leb Base.no_reduction
           _ (Base.mk_ndarray 3 [[5; 6; 7]]%Z)).
  - intros a b H. now apply Z.eqb_eq.
  - reflexivity.
  - reflexivity.
  - repeat constructor; simpl; intuition lia.
  - unfold Base.shape0, Base.flatten. simpl. lia.
Defined.

(** ** [_remove_zero_dists] *)

Section RemoveZeroDistsFacts.

Import Base BaseMore.

Variable T : Type.
Variable ltb_T : T -> T -> bool.
Variable eps : T.

Lemma map_result_ok {A B : Type} (f : A -> result B) (g : A -> B)
  (l : list A) :
  (forall x, In x l -> f x = Ok (g x)) -> map_result f l = Ok (map g l).
Proof.
  induction l as [|x l IH]; intros H; simpl; [reflexivity|].
  rewrite H by now left. cbn [bind].
  rewrite IH by (intros y Hy; apply H; now right). reflexivity.
Qed.

Lemma get_column_ok (a : ndarray T) (c : nat) :
  well_formed a -> (c < ncols a)%nat ->
  get_column a c = Ok (map (fun r => nth c r eps) (rows a)).
Proof.
  intros Hwf Hc. unfold get_column.
  destruct (Nat.ltb_spec c (ncols a)); [|lia].
  apply map_result_ok. intros r Hr.
  apply np_index_nat. rewrite (Hwf r Hr). assumption.
Qed.

Lemma in_nonzero_from (off i : nat) (mask : list bool) :
  In i (nonzero_from off mask)
  <-> (off <= i)%nat /\ nth (i - off) mask false = true.
Proof.
  revert off. induction mask as [|b mask IH]; intros off; simpl.
  - split; [contradiction|]. intros [_ H]. destruct (i - off)%nat;
      discriminate.
  - assert (Hrec : In i (nonzero_from (S off) mask)
                   <-> (S off <= i)%nat
                       /\ nth (i - S off) mask false = true) by apply IH.
    destruct (Nat.eq_dec i off) as [->|Hne].
    + rewrite Nat.sub_diag.
      destruct b; simpl; split; intros H.
      * split; [lia|reflexivity].
      * now left.
      * apply Hrec in H. lia.
      * destruct H as [_ H]. discriminate.
    + destruct (i - off)%nat as [|t] eqn:Et.
      * assert (i < off)%nat by lia.
        destruct b; simpl; split; intros H'.
        -- destruct H' as [H'|H']; [lia|]. apply Hrec in H'. lia.
        -- lia.
        -- apply Hrec in H'. lia.
        -- lia.
      * replace (i - S off)%nat with t in Hrec by lia.
        destruct b; simpl; split; intros H'.
        -- destruct H' as [H'|H']; [lia|]. apply Hrec in H'.
           split; [lia|tauto].
        -- right. apply Hrec. split; [lia|tauto].
        -- apply Hrec in H'. split; [lia|tauto].
        -- apply Hrec. split; [lia|tauto].
Qed.

(** The scattered store [a[idx, c] = v], row by row. *)
Lemma set_rows_run (c : nat) (v : T) (idx : list nat) :
  forall rs : list (list T),
    (forall i, In i idx -> (i < length rs)%nat) ->
    (forall i, (i < length rs)%nat -> (c < length (nth i rs []))%nat) ->
    exists rs',
      for_each idx
        (fun i rs0 =>
           bind (np_index rs0 (Z.of_nat i))
                (fun r => bind (np_setitem r c v)
                               (fun r' => np_setitem rs0 i r')))
        rs = Ok rs' /\
      length rs' = length rs /\
      forall i, nth i rs' []
                = if existsb (Nat.eqb i) idx
                  then set_nth (nth i rs []) c v
                  else nth i rs [].
Proof.
  induction idx as [|i0 idx IH]; intros rs Hidx Hrow.
  - exists rs. repeat split.
  - assert (Hi0 : (i0 < length rs)%nat) by (apply Hidx; now left).
    cbn [for_each].
    rewrite (np_index_nat rs i0 []) by assumption. cbn [bind].
    rewrite np_setitem_ok by now apply Hrow. cbn [bind].
    rewrite np_setitem_ok by assumption. cbn [bind].
    destruct (IH (set_nth rs i0 (set_nth (nth i0 rs []) c v)))
      as (rs' & E & Hl & Hn).
    + intros i Hi. rewrite length_set_nth. apply Hidx. now right.
    + intros i Hi. rewrite length_set_nth in Hi.
      destruct (Nat.eq_dec i0 i) as [<-|Hne].
      * rewrite nth_set_nth_eq by assumption. rewrite length_set_nth.
        now apply Hrow.
      * rewrite nth_set_nth_neq by assumption. now apply Hrow.
    + exists rs'. split; [exact E|].
      split; [now rewrite Hl, length_set_nth|].
      intros i. rewrite Hn. cbn [existsb].
      destruct (Nat.eqb_spec i i0) as [->|Hne]; cbn [orb].
      * rewrite nth_set_nth_eq by assumption.
        destruct (existsb (Nat.eqb i0) idx);
          [apply set_nth_twice|reflexivity].
      * rewrite nth_set_nth_neq by congruence. reflexivity.
Qed.

Lemma existsb_eqb_In (i : nat) (l : list nat) :
  existsb (Nat.eqb i) l = true <-> In i l.
Proof.
  rewrite existsb_exists. split.
  - intros (x & Hx & E). apply Nat.eqb_eq in E. now subst.
  - intros H. exists i. split; [assumption|apply Nat.eqb_refl].
Qed.

(** What [_remove_zero_dists] makes of a well-formed array of at least
    two columns. *)
Lemma remove_zero_dists_run (a : ndarray T) :
  well_formed a -> (2 <= ncols a)%nat ->
  exists a',
    _remove_zero_dists ltb_T (Ok eps) a = Ok a' /\
    ncols a' = ncols a /\
    length (rows a') = length (rows a) /\
    forall i, (i < length (rows a))%nat ->
      nth i (rows a') []
      = if ltb_T (entry eps a i 1) eps
        then set_nth (nth i (rows a) []) 1 eps
        else nth i (rows a) [].
Proof.
  intros Hwf Hc. unfold _remove_zero_dists.
  rewrite get_column_ok by (try assumption; lia). cbn [bind].
  unfold set_column_at.
  destruct (Nat.ltb_spec 1 (ncols a)); [|lia].
  set (idx := nonzero
                (map (fun x => ltb_T x eps)
                     (map (fun r => nth 1 r eps) (rows a)))).
  assert (Hidx : forall i, In i idx
                 <-> (i < length (rows a))%nat
                     /\ ltb_T (entry eps a i 1) eps = true).
  { intros i. unfold idx, nonzero. rewrite in_nonzero_from, Nat.sub_0_r.
    rewrite map_map. unfold entry.
    destruct (Nat.lt_ge_cases i (length (rows a))) as [Hi|Hi].
    - rewrite (nth_map_in (fun r => ltb_T (nth 1 r eps) eps) (rows a)
                 i [] false) by assumption.
      split; [intros [_ E]; now split|intros [_ E]; split; [lia|exact E]].
    - rewrite nth_overflow by (rewrite length_map; lia).
      split; [intros [_ E]; discriminate|intros [Hlt _]; lia]. }
  destruct (set_rows_run 1 eps idx (rows a)) as (rs' & E & Hl & Hn).
  - intros i Hi. now apply Hidx in Hi.
  - intros i Hi. rewrite (Hwf (nth i (rows a) [])) by now apply nth_In.
    lia.
  - rewrite E. cbn [bind]. eexists. split; [reflexivity|].
    cbn [ncols rows]. split; [reflexivity|]. split; [exact Hl|].
    intros i Hi. rewrite Hn.
    destruct (ltb_T (entry eps a i 1) eps) eqn:Elt.
    + assert (Hex : existsb (Nat.eqb i) idx = true)
        by (apply existsb_eqb_In, Hidx; now split).
      now rewrite Hex.
    + destruct (existsb (Nat.eqb i) idx) eqn:Hex; [|reflexivity].
      apply existsb_eqb_In, Hidx in Hex. destruct Hex as [_ Hex].
      congruence.
Qed.

Lemma remove_zero_dists_well_formed (a a' : ndarray T) :
  well_formed a ->
  ncols a' = ncols a ->
  length (rows a') = length (rows a) ->
  (forall i, (i < length (rows a))%nat ->
     nth i (rows a') []
     = if ltb_T (entry eps a i 1) eps
       then set_nth (nth i (rows a) []) 1 eps
       else nth i (rows a) []) ->
  well_formed a'.
Proof.
  intros Hwf Hc Hl Hn r Hr.
  destruct (In_nth _ _ [] Hr) as (i & Hi & <-).
  rewrite Hl in Hi. rewrite Hn by assumption. rewrite Hc.
  destruct (ltb_T (entry eps a i 1) eps); rewrite ?length_set_nth;
    apply Hwf; now apply nth_In.
Qed.

End RemoveZeroDistsFacts.

(** X19: on a well-formed array of at least two columns and a float
    dtype, [_remove_zero_dists] keeps the shape, replaces by [eps] the
    entries of column 1 that are below [eps] and leaves every other
    entry as it was; afterwards no entry of column 1 is below [eps]. *)
Theorem remove_zero_dists_floor :
  forall (T : Type) (ltb_T : T -> T -> bool) (eps : T)
         (a : Base.ndarray T),
    BaseMore.well_formed a ->
    (2 <= Base.ncols a)%nat ->
    exists a',
      BaseMore._remove_zero_dists ltb_T (Ok eps) a = Ok a' /\
      Base.shape0 a' = Base.shape0 a /\
      Base.shape1 a' = Base.shape1 a /\
      (forall i c, (i < Base.shape0 a)%nat -> (c < Base.shape1 a)%nat ->
         BaseMore.entry eps a' i c
         = if ((c =? 1)%nat && ltb_T (BaseMore.entry eps a i 1) eps)%bool
           then eps else BaseMore.entry eps a i c) /\
      (ltb_T eps eps = false ->
       forall i, (i < Base.shape0 a)%nat ->
         ltb_T (BaseMore.entry eps a' i 1) eps = false).
Proof.
  intros T ltb_T eps a Hwf Hc.
  destruct (remove_zero_dists_run T ltb_T eps a Hwf Hc)
    as (a' & E & Hnc & Hl & Hn).
  assert (Hent : forall i c,
            (i < Base.shape0 a)%nat -> (c < Base.shape1 a)%nat ->
            BaseMore.entry eps a' i c
            = if ((c =? 1)%nat
                  && ltb_T (BaseMore.entry eps a i 1) eps)%bool
              then eps else BaseMore.entry eps a i c).
  { intros i c Hi Hcc. unfold Base.shape0, Base.shape1 in *.
    unfold BaseMore.entry at 1. rewrite Hn by assumption.
    assert (Hrow : length (nth i (Base.rows a) []) = Base.ncols a)
      by (apply Hwf; now apply nth_In).
    destruct (ltb_T (BaseMore.entry eps a i 1) eps).
    - destruct (Nat.eqb_spec c 1) as [->|Hne]; cbn [andb].
      + apply nth_set_nth_eq. lia.
      + rewrite nth_set_nth_neq by congruence. reflexivity.
    - rewrite andb_false_r. reflexivity. }
  exists a'. split; [exact E|].
  split; [exact Hl|]. split; [exact Hnc|]. split; [exact Hent|].
  intros Hirr i Hi.
  rewrite Hent by (try assumption; unfold Base.shape1; lia).
  cbn [Nat.eqb andb].
  destruct (ltb_T (BaseMore.entry eps a i 1) eps) eqn:Elt;
    [exact Hirr|exact Elt].
Qed.

Lemma remove_zero_dists_floor_witness :
  BaseMore._remove_zero_dists Z.ltb (Ok 1%Z) BaseMore.example_dists
  = Ok (Base.mk_ndarray 3 [[0; 1; 5]; [0; 1; 5]; [0; 5; 5]]%Z).
Proof.
  destruct (remove_zero_dists_floor Z Z.ltb 1%Z BaseMore.example_dists)
    as (a' & E & _).
  - intros r [<-|[<-|[<-|[]]]]; reflexivity.
  - simpl. lia.
  - reflexivity.
Defined.

(** X20: [_remove_zero_dists] is idempotent: a second pass over its
    result changes nothing. *)
Theorem remove_zero_dists_idempotent :
  forall (T : Type) (ltb_T : T -> T -> bool) (eps : T)
         (a : Base.ndarray T),
    BaseMore.well_formed a ->
    (2 <= Base.ncols a)%nat ->
    ltb_T eps eps = false ->
    exists a',
      BaseMore._remove_zero_dists ltb_T (Ok eps) a = Ok a' /\
      BaseMore._remove_zero_dists ltb_T (Ok eps) a' = Ok a'.
Proof.
  intros T ltb_T eps a Hwf Hc Hirr.
  destruct (remove_zero_dists_run T ltb_T eps a Hwf Hc)
    as (a' & E & Hnc & Hl & Hn).
  pose proof (remove_zero_dists_well_formed T ltb_T eps a a' Hwf Hnc Hl Hn)
    as Hwf'.
  exists a'. split; [exact E|].
  destruct (remove_zero_dists_run T ltb_T eps a' Hwf')
    as (a'' & E' & Hnc' & Hl' & Hn'); [lia|].
  rewrite E'. f_equal.
  destruct a' as [nc' rs'], a'' as [nc'' rs'']. cbn [Base.ncols Base.rows] in *.
  f_equal; [assumption|].
  apply (nth_ext _ _ [] []); [assumption|].
  intros i Hi. rewrite Hl' in Hi. rewrite Hn' by assumption.
  assert (Hfl : ltb_T (BaseMore.entry eps (Base.mk_ndarray nc' rs') i 1) eps
                = false).
  { unfold BaseMore.entry. cbn [Base.rows].
    rewrite Hl in Hi. rewrite Hn by assumption.
    assert (Hrow : length (nth i (Base.rows a) []) = Base.ncols a)
      by (apply Hwf; now apply nth_In).
    destruct (ltb_T (BaseMore.entry eps a i 1) eps) eqn:Elt.
    - rewrite nth_set_nth_eq by lia. exact Hirr.
    - exact Elt. }
  rewrite Hfl. reflexivity.
Qed.

Lemma remove_zero_dists_idempotent_witness :
  exists a',
    BaseMore._remove_zero_dists Z.ltb (Ok 1%Z) BaseMore.example_dists
    = Ok a' /\
    BaseMore._remove_zero_dists Z.ltb (Ok 1%Z) a' = Ok a'.
Proof.
  apply (remove_zero_dists_idempotent Z Z.ltb 1%Z BaseMore.example_dists).
  - intros r [<-|[<-|[<-|[]]]]; reflexivity.
  - simpl. lia.
  - reflexivity.
Defined.

(** ** Symmetries of the pairwise corrections and of their system *)

Lemma sum_upto_scale (n : nat) (c : R) (f : nat -> R) :
  DensityEstimation.sum_upto n (fun j => (c * f j)%R)
  = (c * DensityEstimation.sum_upto n f)%R.
Proof.
  induction n as [|n IH]; [unfold DensityEstimation.sum_upto; simpl; lra|].
  rewrite !sum_upto_S, IH. lra.
Qed.

(** X21: the system of [compute_density_gCorr] fixes the log-densities up
    to an additive constant only: over a pair graph with no pair of a
    point with itself, shifting every unknown by the same [c] leaves
    every row of [A x] unchanged. *)
Theorem gCorr_solution_up_to_constant :
  forall (s : DensityEstimation.session) (n : nat) (ks : list Z)
         (el : list (Z * Z)) (F FV : list R) (use_variance : bool),
    DensityEstimation.graph_ready s n ks el F FV ->
    (forall p, In p el -> fst p <> snd p) ->
    exists A b,
      DensityEstimation.gCorr_system use_variance s = Ok (A, b) /\
      forall (x : nat -> R) (c : R) (i : nat),
        (i < n)%nat ->
        DensityEstimation.sum_upto n (fun j => (A i j * (x j + c))%R)
        = DensityEstimation.sum_upto n (fun j => (A i j * x j)%R).
Proof.
  intros s n ks el F FV uv Hready Hloop.
  destruct (gCorr_assemble_run s n ks el F FV uv Hready)
    as (A0 & supp & E & Hzero & _).
  pose proof (gCorr_system_run s n ks el F FV uv Hready A0 supp E) as Esys.
  do 2 eexists. split; [exact Esys|].
  intros x c i Hi.
  set (M := DensityEstimation.madd A0 (DensityEstimation.transpose A0)).
  set (A := DensityEstimation.setdiag M
              (map Ropp (DensityEstimation.sum_axis1 n M))).
  assert (Hrow : DensityEstimation.sum_upto n (fun j => A i j) = 0%R).
  { apply setdiag_rows_sum_to_zero; [assumption|].
    assert (H0 : A0 i i = 0%R).
    { apply Hzero. intros e He Heq.
      destruct (nth_error el e) as [p|] eqn:Ep;
        [|apply nth_error_None in Ep; lia].
      destruct (edge_in_range s n ks el F FV Hready e p Ep) as [H1 H2].
      unfold DensityEstimation.src, DensityEstimation.tgt,
        DensityEstimation.edge_nat in Heq.
      rewrite (nth_error_nth _ _ _ Ep) in Heq. simpl in Heq.
      injection Heq as Hs Ht.
      apply (Hloop p); [eapply nth_error_In; eassumption|]. lia. }
    unfold M, DensityEstimation.madd, DensityEstimation.transpose.
    rewrite H0. lra. }
  rewrite (sum_upto_ext n _ (fun j => (A i j * x j + c * A i j)%R))
    by (intros j _; lra).
  rewrite sum_upto_plus, sum_upto_scale.
  change (A i) with (fun j : nat => A i j). rewrite Hrow. lra.
Qed.

Lemma gCorr_solution_up_to_constant_witness :
  exists A b,
    DensityEstimation.gCorr_system true
      DensityEstimation.example_graph_Fij = Ok (A, b) /\
    DensityEstimation.sum_upto 3 (fun j => (A 0%nat j * (INR j + 7))%R)
    = DensityEstimation.sum_upto 3 (fun j => (A 0%nat j * INR j)%R).
Proof.
  destruct (gCorr_solution_up_to_constant
              DensityEstimation.example_graph_Fij 3
              DensityEstimation.example_kstar
              DensityEstimation.example_pairs
              DensityEstimation.example_Fij
              DensityEstimation.example_Fij_var true
              example_graph_ready)
    as (A & b & E & H).
  - intros p [<-|[<-|[<-|[]]]]; simpl; lia.
  - exists A, b. split; [exact E|]. apply (H INR 7%R 0%nat). lia.
Defined.

Section DotAlgebra.

Import DensityEstimation.

Local Open Scope R_scope.

Lemma dot_opp_r (u v : list R) : dot u (map Ropp v) = - dot u v.
Proof.
  unfold dot. revert v. induction u as [|a u IH]; intros [|b v]; simpl;
    try lra.
  rewrite IH. lra.
Qed.

Lemma dot_opp_l (u v : list R) : dot (map Ropp u) v = - dot u v.
Proof.
  unfold dot. revert v. induction u as [|a u IH]; intros [|b v]; simpl;
    try lra.
  rewrite IH. lra.
Qed.

Lemma vadd_comm (u v : list R) : vadd u v = vadd v u.
Proof.
  unfold vadd. revert v. induction u as [|a u IH]; intros [|b v]; simpl;
    try reflexivity.
  rewrite IH. f_equal. lra.
Qed.

Lemma matvec_opp (C : list (list R)) (v : list R) :
  matvec C (map Ropp v) = map Ropp (matvec C v).
Proof.
  unfold matvec. rewrite map_map. apply map_ext. intros row.
  apply dot_opp_r.
Qed.

Lemma quad_form_opp (C : list (list R)) (v : list R) :
  quad_form C (map Ropp v) = quad_form C v.
Proof.
  unfold quad_form. rewrite matvec_opp, dot_opp_l, dot_opp_r. lra.
Qed.

End DotAlgebra.

(** X22: the corrections of [compute_deltaFs_grads_semisum] are
    antisymmetric: when the pair graph lists [(i, j)] and [(j, i)] with
    opposite displacements, [Fij(j, i) = - Fij(i, j)] and the two
    variances are equal, for any numeric [chi] in [0, 1]. *)
Theorem semisum_antisymmetric :
  forall (ext : DensityEstimation.Externals)
         (s : DensityEstimation.session) (n : nat) (ks : list Z)
         (el : list (Z * Z)) (VD G : list (list R))
         (GV : list (list (list R))) (c : R) (e e' : nat),
    DensityEstimation.semisum_ready s n ks el VD G GV ->
    (0 <= c <= 1)%R ->
    (e < length el)%nat -> (e' < length el)%nat ->
    DensityEstimation.src el e' = DensityEstimation.tgt el e ->
    DensityEstimation.tgt el e' = DensityEstimation.src el e ->
    nth e' VD [] = map Ropp (nth e VD []) ->
    exists s' Fij Fij_var,
      DensityEstimation.compute_deltaFs_grads_semisum
        (DensityEstimation.ChiNum c) s = Ok s' /\
      s' DensityEstimation.self_Fij_array = DensityEstimation.VArr Fij /\
      s' DensityEstimation.self_Fij_var_array
      = DensityEstimation.VArr Fij_var /\
      nth e' Fij 0%R = (- nth e Fij 0)%R /\
      nth e' Fij_var 0%R = nth e Fij_var 0%R.
Proof.
  intros ext s n ks el VD G GV c e e' Hready Hc He He' Hs Ht Hv.
  do 3 eexists.
  split; [apply (semisum_run_num s n ks el VD G GV Hready c Hc)|].
  split; [reflexivity|]. split; [reflexivity|].
  unfold DensityEstimation.Fij_of, DensityEstimation.Fij_var_of.
  rewrite !nth_map_seq by assumption.
  unfold DensityEstimation.semisum, DensityEstimation.Var_i,
    DensityEstimation.Var_j.
  rewrite Hs, Ht, Hv, !quad_form_opp, dot_opp_r.
  rewrite (vadd_comm (nth (DensityEstimation.tgt el e) G [])).
  split; [lra|].
  rewrite (Rmult_comm
             (DensityEstimation.quad_form
                (nth (DensityEstimation.tgt el e) GV []) (nth e VD []))).
  lra.
Qed.

Lemma semisum_antisymmetric_witness :
  exists s' Fij,
    DensityEstimation.compute_deltaFs_grads_semisum
      (ext := DensityEstimation.example_externals)
      (DensityEstimation.ChiNum 0.5) DensityEstimation.example_graph
    = Ok s' /\
    s' DensityEstimation.self_Fij_array = DensityEstimation.VArr Fij /\
    nth 1 Fij 0%R = (- nth 0 Fij 0)%R.
Proof.
  destruct (semisum_antisymmetric DensityEstimation.example_externals
              DensityEstimation.example_graph 3
              DensityEstimation.example_kstar
              DensityEstimation.example_pairs
              [[1; 0]; [-1; 0]; [-2; 0]]%R
              [[1; 0]; [0; 0]; [-1; 0]]%R
              [ [[1; 0]; [0; 1]]; [[1; 0]; [0; 1]]; [[1; 0]; [0; 1]] ]%R
              0.5%R 0%nat 1%nat)
    as (s' & Fij & Fij_var & E & HF & _ & Ha & _).
  - repeat split; try reflexivity;
      simpl in H; repeat (destruct H as [<-|H]; [simpl; lia|]);
      contradiction.
  - lra.
  - simpl. lia.
  - simpl. lia.
  - reflexivity.
  - reflexivity.
  - simpl. repeat f_equal; lra.
  - exists s', Fij. repeat split; assumption.
Defined.

(** ** What the removal of identical points keeps *)

Section BaseFirstOccurrences.

Import Base BaseMore.

Variable T : Type.
Variable eqb_T leb_T : T -> T -> bool.

Hypothesis eqb_spec : forall a b, eqb_T a b = true <-> a = b.
Hypothesis leb_total : forall a b, leb_T a b = true \/ leb_T b a = true.
Hypothesis leb_trans :
  forall a b c, leb_T a b = true -> leb_T b c = true -> leb_T a c = true.
Hypothesis leb_antisym :
  forall a b, leb_T a b = true -> leb_T b a = true -> a = b.

(** The order of the stable argsort: by value, then by position. *)
Let lt2 (q p : nat * T) : Prop :=
  leb_T (snd p) (snd q) = false \/ (snd q = snd p /\ (fst q < fst p)%nat).

Lemma leb_refl (a : T) : leb_T a a = true.
Proof. destruct (leb_total a a); assumption. Qed.

Lemma lt2_trans (q p r : nat * T) : lt2 q p -> lt2 p r -> lt2 q r.
Proof.
  unfold lt2. intros [H1|[E1 L1]] [H2|[E2 L2]].
  - left. destruct (leb_T (snd r) (snd q)) eqn:E; [|reflexivity].
    assert (Hqp : leb_T (snd q) (snd p) = true)
      by (destruct (leb_total (snd q) (snd p)); congruence).
    rewrite (leb_trans _ _ _ E Hqp) in H2. discriminate.
  - left. now rewrite <- E2.
  - left. now rewrite E1.
  - right. split; [congruence|lia].
Qed.

Lemma insert_stable_sorted (p : nat * T) (l : list (nat * T)) :
  Sorted.StronglySorted lt2 l ->
  (forall q, In q l -> (fst q < fst p)%nat) ->
  Sorted.StronglySorted lt2 (insert_stable leb_T p l).
Proof.
  induction l as [|q l IH]; intros Hs Hlt; simpl.
  - constructor; constructor.
  - inversion Hs as [|? ? Hs' Hall]; subst.
    destruct (leb_T (snd q) (snd p)) eqn:E.
    + constructor.
      * apply IH; [assumption|]. intros q' Hq'. apply Hlt. now right.
      * eapply Permutation_Forall.
        -- apply Permutation_sym, insert_stable_perm.
        -- constructor; [|assumption].
           unfold lt2. destruct (leb_T (snd p) (snd q)) eqn:E'.
           ++ right. split; [now apply leb_antisym|].
              apply Hlt. now left.
           ++ now left.
    + constructor; [assumption|].
      constructor; [now left|].
      eapply Forall_impl; [|exact Hall].
      intros r Hr. apply (lt2_trans p q r); [now left|assumption].
Qed.

Lemma fold_insert_sorted (ar : list T) :
  forall (off : nat) (acc : list (nat * T)),
    Sorted.StronglySorted lt2 acc ->
    (forall q, In q acc -> (fst q < off)%nat) ->
    Sorted.StronglySorted lt2
      (fold_left (fun acc p => insert_stable leb_T p acc)
                 (combine (seq off (length ar)) ar) acc).
Proof.
  induction ar as [|v ar IH]; intros off acc Hs Hlt; simpl;
    [assumption|].
  apply IH.
  - apply insert_stable_sorted; assumption.
  - intros q Hq.
    apply (Permutation_in _ (insert_stable_perm T leb_T (off, v) acc)) in Hq.
    destruct Hq as [<-|Hq]; [simpl; lia|].
    specialize (Hlt q Hq). lia.
Qed.

Lemma argsort_stable_sorted (ar : list T) :
  Sorted.StronglySorted lt2 (argsort_stable leb_T ar).
Proof.
  unfold argsort_stable. apply fold_insert_sorted.
  - constructor.
  - intros q [].
Qed.

Lemma in_combine_seq (ar : list T) (off i : nat) (v : T) :
  In (i, v) (combine (seq off (length ar)) ar)
  <-> (off <= i)%nat /\ nth_error ar (i - off) = Some v.
Proof.
  revert off. induction ar as [|w ar IH]; intros off; simpl.
  - split; [contradiction|]. intros [_ H].
    destruct (i - off)%nat; discriminate.
  - rewrite IH. split.
    + intros [H|[Hle Hn]].
      * injection H as <- <-. rewrite Nat.sub_diag. split; [lia|reflexivity].
      * split; [lia|].
        replace (i - off)%nat with (S (i - S off)) by lia. exact Hn.
    + intros [Hle Hn].
      destruct (Nat.eq_dec i off) as [->|Hne].
      * rewrite Nat.sub_diag in Hn. simpl in Hn. injection Hn as <-.
        now left.
      * right. split; [lia|].
        replace (i - off)%nat with (S (i - S off)) in Hn by lia.
        exact Hn.
Qed.

Lemma in_argsort (ar : list T) (i : nat) (v : T) :
  In (i, v) (argsort_stable leb_T ar) <-> nth_error ar i = Some v.
Proof.
  split.
  - intros H.
    apply (Permutation_in _ (argsort_stable_perm T leb_T ar)) in H.
    apply in_combine_seq in H. now rewrite Nat.sub_0_r in H.
  - intros H.
    apply (Permutation_in _ (Permutation_sym (argsort_stable_perm T leb_T ar))).
    apply in_combine_seq. rewrite Nat.sub_0_r. split; [lia|exact H].
Qed.

(** The positions kept behind an element [q0] of the sorted list: those
    whose value differs from [q0]'s and is met there for the first
    time. *)
Lemma select_mask_after (l : list (nat * T)) :
  forall q0 : nat * T,
    StronglySorted lt2 (q0 :: l) ->
    forall i,
      In i (select (map fst l) (mask_after eqb_T (snd q0) (map snd l)))
      <-> exists v, In (i, v) l /\ v <> snd q0 /\
                    forall j, In (j, v) l -> (i <= j)%nat.
Proof.
  induction l as [|[i1 v1] l IH]; intros [i0 v0] Hs i.
  - simpl. split; [contradiction|]. intros (v & [] & _).
  - inversion Hs as [|? ? Hs1 Hall0]; subst.
    inversion Hall0 as [|? ? H01 Hall0']; subst.
    inversion Hs1 as [|? ? Hs2 Hall1]; subst.
    assert (Hs0' : StronglySorted lt2 ((i0, v0) :: l)) by now constructor.
    cbn [map mask_after select fst snd].
    rewrite Forall_forall in Hall1, Hall0'.
    unfold lt2 in H01. cbn [fst snd] in H01.
    assert (Hafter : forall j v, In (j, v) l ->
              leb_T v v1 = false \/ (v1 = v /\ (i1 < j)%nat))
      by (intros j v Hj; exact (Hall1 _ Hj)).
    destruct (eqb_T v1 v0) eqn:E; cbn [negb].
    + apply eqb_spec in E. subst v1.
      pose proof (IH (i0, v0) Hs0' i) as IH0. cbn [snd] in IH0.
      rewrite IH0. split.
      * intros (v & Hin & Hne & Hfirst). exists v. split; [now right|].
        split; [assumption|]. intros j [Hj|Hj]; [|now apply Hfirst].
        congruence.
      * intros (v & [Hin|Hin] & Hne & Hfirst).
        -- congruence.
        -- exists v. split; [assumption|]. split; [assumption|].
           intros j Hj. apply Hfirst. now right.
    + assert (Hne10 : v1 <> v0)
        by (intros H; apply eqb_spec in H; congruence).
      assert (H10 : leb_T v1 v0 = false).
      { destruct H01 as [H|[H _]]; [exact H|congruence]. }
      cbn [In].
      pose proof (IH (i1, v1) Hs1 i) as IH1. cbn [snd] in IH1.
      rewrite IH1. split.
      * intros [<-|(v & Hin & Hne & Hfirst)].
        -- exists v1. split; [now left|].
           split; [assumption|].
           intros j [Hj|Hj]; [injection Hj as <-; lia|].
           destruct (Hafter _ _ Hj) as [H|[_ H]].
           ++ rewrite leb_refl in H. discriminate.
           ++ lia.
        -- exists v. split; [now right|]. split.
           ++ intros ->.
              destruct (Hafter _ _ Hin) as [H|[H _]]; [|congruence].
              destruct (leb_total v0 v1); congruence.
           ++ intros j [Hj|Hj]; [|now apply Hfirst].
              congruence.
      * intros (v & [Hin|Hin] & Hne & Hfirst).
        -- left. congruence.
        -- right. exists v. split; [assumption|].
           split.
           ++ intros ->.
              assert (Hle : (i <= i1)%nat) by (apply Hfirst; now left).
              destruct (Hafter _ _ Hin) as [H|[_ H]].
              ** rewrite leb_refl in H. discriminate.
              ** lia.
           ++ intros j Hj. apply Hfirst. now right.
Qed.

(** The positions [np.unique] returns: for each value, the smallest
    position that holds it. *)
Lemma unique_positions (ar : list T) (i : nat) :
  In i (select (map fst (argsort_stable leb_T ar))
               (unique_mask eqb_T (map snd (argsort_stable leb_T ar))))
  <-> exists v, nth_error ar i = Some v /\
                forall j, nth_error ar j = Some v -> (i <= j)%nat.
Proof.
  pose proof (argsort_stable_sorted ar) as Hs.
  assert (Hin : forall i v, In (i, v) (argsort_stable leb_T ar)
                            <-> nth_error ar i = Some v)
    by (intros; apply in_argsort).
  destruct (argsort_stable leb_T ar) as [|[i0 v0] l].
  - simpl. split; [contradiction|].
    intros (v & Hv & _). now apply Hin in Hv.
  - cbn [map unique_mask select In fst snd].
    pose proof (select_mask_after l (i0, v0) Hs i) as Hsel.
    cbn [snd] in Hsel. rewrite Hsel.
    inversion Hs as [|? ? Hs1 Hall0]; subst.
    rewrite Forall_forall in Hall0.
    assert (Hafter : forall j v, In (j, v) l ->
              leb_T v v0 = false \/ (v0 = v /\ (i0 < j)%nat))
      by (intros j v Hj; exact (Hall0 _ Hj)).
    split.
    + intros [<-|(v & Hv & Hne & Hfirst)].
      * exists v0. split; [apply Hin; now left|].
        intros j Hj. apply Hin in Hj. destruct Hj as [Hj|Hj].
        -- injection Hj as <-. lia.
        -- destruct (Hafter _ _ Hj) as [H|[_ H]].
           ++ rewrite leb_refl in H. discriminate.
           ++ lia.
      * exists v. split; [apply Hin; now right|].
        intros j Hj. apply Hin in Hj. destruct Hj as [Hj|Hj].
        -- congruence.
        -- now apply Hfirst.
    + intros (v & Hv & Hfirst). apply Hin in Hv.
      destruct Hv as [Hv|Hv]; [left; congruence|].
      right. exists v. split; [assumption|]. split.
      * intros ->.
        assert (Hle : (i <= i0)%nat) by (apply Hfirst, Hin; now left).
        destruct (Hafter _ _ Hv) as [H|[_ H]].
        -- rewrite leb_refl in H. discriminate.
        -- lia.
      * intros j Hj. apply Hfirst, Hin. now right.
Qed.

Lemma existsb_eqb_T (v : T) (seen : list T) :
  existsb (eqb_T v) seen = true <-> In v seen.
Proof.
  rewrite existsb_exists. split.
  - intros (x & Hx & E). apply eqb_spec in E. now subst.
  - intros H. exists v. split; [assumption|now apply eqb_spec].
Qed.

Lemma in_first_from (l : list T) :
  forall (seen : list T) (off i : nat) (v : T),
    In (i, v) (first_from eqb_T seen off l)
    <-> (off <= i)%nat /\ nth_error l (i - off) = Some v /\
        ~ In v seen /\
        forall j, (j < i - off)%nat -> nth_error l j <> Some v.
Proof.
  induction l as [|w l IH]; intros seen off i v.
  - simpl. split; [contradiction|]. intros (_ & H & _).
    destruct (i - off)%nat; discriminate.
  - cbn [first_from].
    destruct (existsb (eqb_T w) seen) eqn:E.
    + apply existsb_eqb_T in E. rewrite IH. split.
      * intros (Hle & Hn & Hseen & Hfirst).
        split; [lia|].
        replace (i - off)%nat with (S (i - S off)) by lia.
        split; [exact Hn|]. split; [assumption|].
        intros [|j] Hj; simpl.
        -- intros H. injection H as ->. contradiction.
        -- apply Hfirst. lia.
      * intros (Hle & Hn & Hseen & Hfirst).
        destruct (Nat.eq_dec i off) as [->|Hne].
        -- rewrite Nat.sub_diag in Hn. simpl in Hn. injection Hn as ->.
           contradiction.
        -- replace (i - off)%nat with (S (i - S off)) in * by lia.
           split; [lia|]. split; [exact Hn|]. split; [assumption|].
           intros j Hj. apply (Hfirst (S j)). lia.
    + assert (Hw : ~ In w seen).
      { intros H. apply existsb_eqb_T in H. congruence. }
      cbn [In]. rewrite IH. split.
      * intros [H|(Hle & Hn & Hseen & Hfirst)].
        -- injection H as <- <-. rewrite Nat.sub_diag.
           split; [lia|]. split; [reflexivity|]. split; [assumption|].
           intros j Hj. lia.
        -- split; [lia|].
           replace (i - off)%nat with (S (i - S off)) by lia.
           split; [exact Hn|].
           split; [intros H; apply Hseen; now right|].
           intros [|j] Hj; simpl.
           ++ intros H. injection H as ->. apply Hseen. now left.
           ++ apply Hfirst. lia.
      * intros (Hle & Hn & Hseen & Hfirst).
        destruct (Nat.eq_dec i off) as [->|Hne].
        -- rewrite Nat.sub_diag in Hn. simpl in Hn. injection Hn as ->.
           now left.
        -- right.
           replace (i - off)%nat with (S (i - S off)) in * by lia.
           split; [lia|]. split; [exact Hn|]. split.
           ++ intros [->|H]; [|contradiction].
              apply (Hfirst 0%nat); [lia|reflexivity].
           ++ intros j Hj. apply (Hfirst (S j)). lia.
Qed.

Lemma first_from_increasing (l : list T) :
  forall (seen : list T) (off : nat),
    StronglySorted lt (map fst (first_from eqb_T seen off l)) /\
    forall i, In i (map fst (first_from eqb_T seen off l)) ->
              (off <= i)%nat.
Proof.
  induction l as [|w l IH]; intros seen off.
  - simpl. split; [constructor|contradiction].
  - cbn [first_from].
    destruct (existsb (eqb_T w) seen).
    + destruct (IH seen (S off)) as [Hs Hge].
      split; [assumption|]. intros i Hi. specialize (Hge i Hi). lia.
    + destruct (IH (w :: seen) (S off)) as [Hs Hge].
      cbn [map fst]. split.
      * constructor; [assumption|].
        apply Forall_forall. intros i Hi. specialize (Hge i Hi). lia.
      * intros i [<-|Hi]; [lia|]. specialize (Hge i Hi). lia.
Qed.

Lemma in_first_positions (ar : list T) (i : nat) :
  In i (first_positions eqb_T ar)
  <-> exists v, nth_error ar i = Some v /\
                forall j, nth_error ar j = Some v -> (i <= j)%nat.
Proof.
  unfold first_positions. rewrite in_map_iff. split.
  - intros ([i' v] & <- & H). apply in_first_from in H.
    rewrite Nat.sub_0_r in H. destruct H as (_ & Hn & _ & Hfirst).
    exists v. split; [exact Hn|]. intros j Hj. cbn [fst].
    destruct (Nat.le_gt_cases i' j); [assumption|].
    exfalso. now apply (Hfirst j).
  - intros (v & Hn & Hfirst). exists (i, v). split; [reflexivity|].
    apply in_first_from. rewrite Nat.sub_0_r.
    split; [lia|]. split; [exact Hn|]. split; [intros []|].
    intros j Hj H. specialize (Hfirst j H). lia.
Qed.

(** Two increasing lists without repetition that hold the same numbers
    are equal. *)
Lemma sorted_unique (l1 : list nat) :
  forall l2 : list nat,
    StronglySorted le l1 -> StronglySorted le l2 ->
    NoDup l1 -> NoDup l2 ->
    (forall x, In x l1 <-> In x l2) ->
    l1 = l2.
Proof.
  induction l1 as [|a l1 IH]; intros [|b l2] S1 S2 N1 N2 H.
  - reflexivity.
  - exfalso. apply (proj2 (H b)). now left.
  - exfalso. apply (proj1 (H a)). now left.
  - inversion S1 as [|? ? S1' A1]; subst.
    inversion S2 as [|? ? S2' A2]; subst.
    inversion N1 as [|? ? Na N1']; subst.
    inversion N2 as [|? ? Nb N2']; subst.
    rewrite Forall_forall in A1, A2.
    assert (a = b).
    { assert (Ha : In a (b :: l2)) by (apply H; now left).
      assert (Hb : In b (a :: l1)) by (apply H; now left).
      destruct Ha as [Ha|Ha]; [now symmetry|].
      destruct Hb as [Hb|Hb]; [assumption|].
      specialize (A1 b Hb). specialize (A2 a Ha). lia. }
    subst b. f_equal. apply IH; try assumption.
    intros x. split; intros Hx.
    + assert (Hx' : In x (a :: l2)) by (apply H; now right).
      destruct Hx' as [->|Hx']; [contradiction|assumption].
    + assert (Hx' : In x (a :: l1)) by (apply H; now right).
      destruct Hx' as [->|Hx']; [contradiction|assumption].
Qed.

Lemma insert_nat_sorted (v : nat) (l : list nat) :
  StronglySorted le l -> StronglySorted le (insert_nat v l).
Proof.
  induction l as [|y l IH]; intros Hs; simpl.
  - constructor; constructor.
  - inversion Hs as [|? ? Hs' Hall]; subst.
    destruct (Nat.leb_spec v y).
    + constructor; [assumption|].
      constructor; [assumption|].
      eapply Forall_impl; [|exact Hall]. intros z Hz. simpl in Hz. lia.
    + constructor; [now apply IH|].
      eapply Permutation_Forall.
      * apply Permutation_sym, insert_nat_perm.
      * constructor; [lia|assumption].
Qed.

Lemma np_sort_sorted (l : list nat) : StronglySorted le (np_sort l).
Proof.
  induction l as [|v l IH]; simpl; [constructor|].
  now apply insert_nat_sorted.
Qed.

Lemma in_select {A : Type} (a : list A) (mask : list bool) (x : A) :
  In x (select a mask) -> In x a.
Proof.
  revert mask. induction a as [|y a IH]; intros [|b mask] H; simpl in *;
    try contradiction.
  destruct b.
  - destruct H as [H|H]; [now left|right; now apply (IH mask)].
  - right. now apply (IH mask).
Qed.

Lemma select_NoDup {A : Type} (a : list A) (mask : list bool) :
  NoDup a -> NoDup (select a mask).
Proof.
  revert mask. induction a as [|y a IH]; intros [|b mask] H; simpl;
    try constructor.
  inversion H as [|? ? Hn H']; subst.
  destruct b; [|now apply IH].
  constructor; [|now apply IH].
  intros Hin. apply Hn. now apply (in_select a mask).
Qed.

Lemma sorted_lt_le (l : list nat) :
  StronglySorted lt l -> StronglySorted le l /\ NoDup l.
Proof.
  induction 1 as [|a l Hs [IH1 IH2] Hall].
  - split; constructor.
  - rewrite Forall_forall in Hall. split.
    + constructor; [assumption|]. apply Forall_forall.
      intros x Hx. specialize (Hall x Hx). lia.
    + constructor; [|assumption].
      intros Hin. specialize (Hall a Hin). lia.
Qed.

(** Lines 65-66: the sorted index array is the list of the positions of
    the first occurrences in the flattened array. *)
Lemma sorted_unique_index (x : ndarray T) :
  np_sort (snd (np_unique eqb_T leb_T x))
  = first_positions eqb_T (flatten x).
Proof.
  unfold np_unique. cbn [snd].
  set (ar := flatten x).
  set (idx := select (map fst (argsort_stable leb_T ar))
                     (unique_mask eqb_T (map snd (argsort_stable leb_T ar)))).
  destruct (sorted_lt_le (first_positions eqb_T ar)) as [Hle Hnd].
  { unfold first_positions. apply first_from_increasing. }
  apply sorted_unique.
  - apply np_sort_sorted.
  - exact Hle.
  - eapply Permutation_NoDup; [apply Permutation_sym, np_sort_perm|].
    unfold idx. apply select_NoDup.
    eapply Permutation_NoDup;
      [apply Permutation_sym, (argsort_positions T leb_T ar)|].
    apply seq_NoDup.
  - exact Hnd.
  - intros i. rewrite in_first_positions.
    rewrite <- (unique_positions ar i). fold idx. split; intros H.
    + now apply (Permutation_in _ (np_sort_perm idx)).
    + now apply (Permutation_in _ (Permutation_sym (np_sort_perm idx))).
Qed.

Variable reduce : ndarray T -> Z -> result (ndarray T * ndarray T).

(** [Base.__init__] on coordinates alone, identical points removed, when
    every first occurrence lies at a position that is a row number. *)
Lemma init_dedup_run (args : init_args T) (x : ndarray T) :
  arg_coordinates args = PyNdarray x ->
  arg_remove_identical_points args = true ->
  arg_distances args = PyNone ->
  (forall p, In p (first_positions eqb_T (flatten x)) ->
             (p < shape0 x)%nat) ->
  exists o,
    __init__ eqb_T leb_T reduce args = Ok o /\
    X o = PyNdarray
            (mk_ndarray (ncols x)
               (map (fun p => nth p (rows x) [])
                    (first_positions eqb_T (flatten x)))) /\
    Nele o = Some (length (first_positions eqb_T (flatten x))) /\
    dims o = Some (ncols x) /\
    maxk o = Some (match arg_maxk args with
                   | Some k => k
                   | None =>
                       (Z.of_nat (length (first_positions eqb_T
                                            (flatten x))) - 1)%Z
                   end).
Proof.
  intros Hc Hr Hd Hin.
  unfold __init__, init_coordinates, init_attributes, init_distances.
  rewrite Hc, Hr, Hd.
  cbn [X is_ndarray_instance assert bind is_none].
  pose proof (sorted_unique_index x) as E.
  destruct (np_unique eqb_T leb_T x) as [u idx]. cbn [snd] in E.
  rewrite E. unfold take_rows.
  rewrite (np_take_ok (rows x) _ []).
  2:{ intros k Hk. apply in_map_iff in Hk. destruct Hk as (p & <- & Hp).
      specialize (Hin p Hp). unfold shape0 in Hin. lia. }
  rewrite map_map.
  rewrite (map_ext (fun p => nth (Z.to_nat (Z.of_nat p)) (rows x) [])
                   (fun p => nth p (rows x) []))
    by (intros p; now rewrite Nat2Z.id).
  cbn [bind shape_of]. unfold shape0, shape1. cbn [rows ncols].
  destruct (arg_maxk args) as [k|]; cbn; eexists;
    (split; [reflexivity|]); repeat split; cbn;
    rewrite ?length_map; reflexivity.
Qed.

Lemma init_dedup_raises (args : init_args T) (x : ndarray T) (p : nat) :
  arg_coordinates args = PyNdarray x ->
  arg_remove_identical_points args = true ->
  In p (first_positions eqb_T (flatten x)) ->
  (shape0 x <= p)%nat ->
  __init__ eqb_T leb_T reduce args = Raise IndexError.
Proof.
  intros Hc Hr Hp Hout.
  unfold __init__, init_coordinates, init_attributes.
  rewrite Hc, Hr.
  cbn [X is_ndarray_instance assert bind].
  pose proof (sorted_unique_index x) as E.
  destruct (np_unique eqb_T leb_T x) as [u idx]. cbn [snd] in E.
  rewrite E. unfold take_rows.
  rewrite (np_take_out (rows x) _ (Z.of_nat p)).
  - reflexivity.
  - now apply in_map.
  - unfold shape0 in Hout. lia.
  - intros j Hj. apply in_map_iff in Hj. destruct Hj as (v & <- & _). lia.
Qed.

(** The values kept are pairwise distinct and none was seen before. *)
Lemma first_from_values_NoDup (l : list T) :
  forall (seen : list T) (off : nat),
    NoDup (map snd (first_from eqb_T seen off l)) /\
    forall v, In v (map snd (first_from eqb_T seen off l)) ->
              ~ In v seen.
Proof.
  induction l as [|w l IH]; intros seen off.
  - simpl. split; [constructor|contradiction].
  - cbn [first_from].
    destruct (existsb (eqb_T w) seen) eqn:E.
    + apply IH.
    + assert (Hw : ~ In w seen).
      { intros H. apply existsb_eqb_T in H. congruence. }
      destruct (IH (w :: seen) (S off)) as [Hnd Hout].
      cbn [map snd]. split.
      * constructor; [|assumption].
        intros H. apply (Hout w H). now left.
      * intros v [<-|Hv]; [assumption|].
        intros H. apply (Hout v Hv). now right.
Qed.

Lemma first_from_values_complete (l : list T) :
  forall (seen : list T) (off : nat) (v : T),
    In v l -> ~ In v seen ->
    In v (map snd (first_from eqb_T seen off l)).
Proof.
  induction l as [|w l IH]; intros seen off v Hv Hseen;
    [contradiction|].
  cbn [first_from].
  destruct (existsb (eqb_T w) seen) eqn:E.
  - apply existsb_eqb_T in E.
    destruct Hv as [->|Hv]; [contradiction|]. now apply IH.
  - cbn [map snd].
    destruct (eqb_T v w) eqn:Evw.
    + apply eqb_spec in Evw. now left.
    + right. destruct Hv as [->|Hv].
      * rewrite (proj2 (eqb_spec v v) eq_refl) in Evw. discriminate.
      * apply IH; [assumption|].
        intros [->|H]; [|contradiction].
        rewrite (proj2 (eqb_spec v v) eq_refl) in Evw. discriminate.
Qed.

Lemma first_values_spec (ar : list T) :
  NoDup (first_values eqb_T ar) /\
  forall v, In v (first_values eqb_T ar) <-> In v ar.
Proof.
  unfold first_values. split; [apply first_from_values_NoDup|].
  intros v. split.
  - intros H. apply in_map_iff in H. destruct H as ([i w] & <- & H).
    apply in_first_from in H. destruct H as (_ & Hn & _).
    cbn [snd]. eapply nth_error_In. exact Hn.
  - intros H. apply first_from_values_complete; [assumption|intros []].
Qed.

(** An array of one column is the list of its scalars, one per row. *)
Lemma one_column_rows (x : ndarray T) :
  well_formed x -> ncols x = 1%nat ->
  rows x = map (fun v => [v]) (flatten x).
Proof.
  unfold well_formed, flatten. intros Hwf Hc.
  induction (rows x) as [|r rs IH]; [reflexivity|].
  assert (Hr : length r = 1%nat)
    by (rewrite <- Hc; apply Hwf; now left).
  destruct r as [|v [|? ?]]; try discriminate.
  cbn [concat app map]. f_equal. apply IH.
  intros r' Hr'. apply Hwf. now right.
Qed.

Lemma one_column_first_rows (x : ndarray T) :
  well_formed x -> ncols x = 1%nat ->
  (forall p, In p (first_positions eqb_T (flatten x)) ->
             (p < shape0 x)%nat) /\
  map (fun p => nth p (rows x) []) (first_positions eqb_T (flatten x))
  = map (fun v => [v]) (first_values eqb_T (flatten x)).
Proof.
  intros Hwf Hc. pose proof (one_column_rows x Hwf Hc) as Hrows.
  split.
  - intros p Hp. apply in_first_positions in Hp.
    destruct Hp as (v & Hn & _).
    unfold shape0. rewrite Hrows, length_map.
    apply nth_error_Some. congruence.
  - unfold first_positions, first_values. rewrite !map_map.
    apply map_ext_in. intros [p v] Hpv. cbn [fst snd].
    apply in_first_from in Hpv. rewrite Nat.sub_0_r in Hpv.
    destruct Hpv as (_ & Hn & _).
    rewrite Hrows.
    rewrite (nth_map_in (fun v => [v]) (flatten x) p v [])
      by (apply nth_error_Some; congruence).
    f_equal. now apply nth_error_nth.
Qed.

End BaseFirstOccurrences.

(** X23: what [Base.__init__] keeps with [remove_identical_points] left
    at [True], for a dtype whose [<=] is a total order.  The index array
    of lines 65-66 is the list of the positions at which a scalar occurs
    for the first time in the flattened array.  When all of them are row
    numbers, the object holds the rows of those numbers, [Nele] is their
    count and [maxk] defaults to [Nele - 1]; as soon as one of them is
    not a row number, the constructor raises [IndexError]. *)
Theorem init_dedup_first_occurrences :
  forall (T : Type) (eqb_T leb_T : T -> T -> bool)
         (reduce : Base.ndarray T -> Z
                   -> result (Base.ndarray T * Base.ndarray T))
         (args : Base.init_args T) (x : Base.ndarray T),
    (forall a b, eqb_T a b = true <-> a = b) ->
    (forall a b, leb_T a b = true \/ leb_T b a = true) ->
    (forall a b c,
       leb_T a b = true -> leb_T b c = true -> leb_T a c = true) ->
    (forall a b, leb_T a b = true -> leb_T b a = true -> a = b) ->
    Base.arg_coordinates args = Base.PyNdarray x ->
    Base.arg_remove_identical_points args = true ->
    Base.arg_distances args = Base.PyNone ->
    ((forall p, In p (BaseMore.first_positions eqb_T (Base.flatten x)) ->
                (p < Base.shape0 x)%nat) ->
     exists o,
       Base.__init__ eqb_T leb_T reduce args = Ok o /\
       Base.X o
       = Base.PyNdarray
           (Base.mk_ndarray (Base.ncols x)
              (map (fun p => nth p (Base.rows x) [])
                   (BaseMore.first_positions eqb_T (Base.flatten x)))) /\
       Base.Nele o
       = Some (length (BaseMore.first_positions eqb_T (Base.flatten x))) /\
       Base.dims o = Some (Base.ncols x) /\
       Base.maxk o
       = Some (match Base.arg_maxk args with
               | Some k => k
               | None =>
                   (Z.of_nat
                      (length (BaseMore.first_positions eqb_T
                                 (Base.flatten x))) - 1)%Z
               end)) /\
    (forall p, In p (BaseMore.first_positions eqb_T (Base.flatten x)) ->
               (Base.shape0 x <= p)%nat ->
               Base.__init__ eqb_T leb_T reduce args = Raise IndexError).
Proof.
  intros T eqb_T leb_T reduce args x Heq Htot Htr Has Hc Hr Hd. split.
  - intros Hin.
    exact (init_dedup_run T eqb_T leb_T Heq Htot Htr Has reduce args x
             Hc Hr Hd Hin).
  - intros p Hp Hout.
    exact (init_dedup_raises T eqb_T leb_T Heq Htot Htr Has reduce args x p
             Hc Hr Hp Hout).
Qed.

Lemma Z_leb_total (a b : Z) : (a <=? b)%Z = true \/ (b <=? a)%Z = true.
Proof. rewrite !Z.leb_le. lia. Qed.

Lemma Z_leb_trans (a b c : Z) :
  (a <=? b)%Z = true -> (b <=? c)%Z = true -> (a <=? c)%Z = true.
Proof. rewrite !Z.leb_le. lia. Qed.

Lemma Z_leb_antisym (a b : Z) :
  (a <=? b)%Z = true -> (b <=? a)%Z = true -> a = b.
Proof. rewrite !Z.leb_le. lia. Qed.

Lemma init_dedup_first_occurrences_witness :
  exists o,
    Base.init_Z Base.args_twice_same_point = Ok o /\
    Base.X o = Base.PyNdarray (Base.mk_ndarray 2 [[1; 2]; [1; 2]]%Z).
Proof.
  destruct (init_dedup_first_occurrences Z Z.eqb Z.leb Base.no_reduction
              Base.args_twice_same_point
              (Base.mk_ndarray 2 [[1; 2]; [1; 2]]%Z)
              Z.eqb_eq Z_leb_total Z_leb_trans Z_leb_antisym
              eq_refl eq_refl eq_refl) as [Hok _].
  destruct Hok as (o & E & HX & _).
  - intros p [<-|[<-|[]]]; unfold Base.shape0; simpl; lia.
  - exists o. split; [exact E|exact HX].
Defined.

(** X24: on a one-column array the removal of identical points is
    right: [Base.__init__] keeps, in their order, the rows at which a
    value occurs for the first time; no value is left twice and none is
    lost. *)
Theorem init_one_column_dedup :
  forall (T : Type) (eqb_T leb_T : T -> T -> bool)
         (reduce : Base.ndarray T -> Z
                   -> result (Base.ndarray T * Base.ndarray T))
         (args : Base.init_args T) (x : Base.ndarray T),
    (forall a b, eqb_T a b = true <-> a = b) ->
    (forall a b, leb_T a b = true \/ leb_T b a = true) ->
    (forall a b c,
       leb_T a b = true -> leb_T b c = true -> leb_T a c = true) ->
    (forall a b, leb_T a b = true -> leb_T b a = true -> a = b) ->
    Base.arg_coordinates args = Base.PyNdarray x ->
    Base.arg_remove_identical_points args = true ->
    Base.arg_distances args = Base.PyNone ->
    BaseMore.well_formed x ->
    Base.ncols x = 1%nat ->
    exists o kept,
      Base.__init__ eqb_T leb_T reduce args = Ok o /\
      Base.X o
      = Base.PyNdarray (Base.mk_ndarray 1 (map (fun v => [v]) kept)) /\
      Base.Nele o = Some (length kept) /\
      kept = BaseMore.first_values eqb_T (Base.flatten x) /\
      NoDup kept /\
      forall v, In v kept <-> In v (Base.flatten x).
Proof.
  intros T eqb_T leb_T reduce args x Heq Htot Htr Has Hc Hr Hd Hwf Hcol.
  destruct (one_column_first_rows T eqb_T Heq x Hwf Hcol) as [Hin Hrows].
  destruct (init_dedup_run T eqb_T leb_T Heq Htot Htr Has reduce args x
              Hc Hr Hd Hin) as (o & E & HX & HN & _).
  destruct (first_values_spec T eqb_T Heq (Base.flatten x)) as [Hnd Hsame].
  exists o, (BaseMore.first_values eqb_T (Base.flatten x)).
  split; [exact E|]. split.
  - rewrite HX, Hrows, Hcol. reflexivity.
  - split.
    + rewrite HN. unfold BaseMore.first_positions, BaseMore.first_values.
      now rewrite !length_map.
    + split; [reflexivity|]. split; assumption.
Qed.

Lemma init_one_column_dedup_witness :
  exists o,
    Base.init_Z
      (Base.mk_args
         (Base.PyNdarray (Base.mk_ndarray 1 [[3]; [1]; [3]; [2]; [1]]%Z))
         Base.PyNone None false 1%Z true) = Ok o /\
    Base.X o = Base.PyNdarray (Base.mk_ndarray 1 [[3]; [1]; [2]]%Z).
Proof.
  destruct (init_one_column_dedup Z Z.eqb Z.leb Base.no_reduction
              (Base.mk_args
                 (Base.PyNdarray
                    (Base.mk_ndarray 1 [[3]; [1]; [3]; [2]; [1]]%Z))
                 Base.PyNone None false 1%Z true)
              (Base.mk_ndarray 1 [[3]; [1]; [3]; [2]; [1]]%Z)
              Z.eqb_eq Z_leb_total Z_leb_trans Z_leb_antisym
              eq_refl eq_refl eq_refl)
    as (o & kept & E & HX & _ & Hk & _).
  - intros r [<-|[<-|[<-|[<-|[<-|[]]]]]]; reflexivity.
  - reflexivity.
  - exists o. split; [exact E|]. rewrite HX, Hk. reflexivity.
Defined.

(** ** What the estimators leave alone *)

Ltac run_binds H :=
  repeat match type of H with
         | bind ?m _ = Ok _ =>
             destruct m; cbn [bind] in H; [|discriminate]
         | (let (_, _) := ?p in _) = Ok _ => destruct p
         end.

(** X25: once [kstar] is set, [compute_density_kstarNN],
    [compute_density_PAk] and [compute_density_kpeaks] write [log_den],
    [log_den_err] and [dc] and nothing else; so does
    [compute_density_dF_PAk] once [Fij_array] is there too. *)
Theorem loop_estimators_frame :
  forall (ext : DensityEstimation.Externals)
         (s s' : DensityEstimation.session) (ks : list Z),
    s DensityEstimation.self_kstar = DensityEstimation.VIntArr ks ->
    DensityEstimation.compute_density_kstarNN s = Ok s' \/
    DensityEstimation.compute_density_PAk s = Ok s' \/
    DensityEstimation.compute_density_kpeaks s = Ok s' \/
    (exists F,
       s DensityEstimation.self_Fij_array = DensityEstimation.VArr F /\
       DensityEstimation.compute_density_dF_PAk s = Ok s') ->
    forall a,
      a <> DensityEstimation.self_log_den ->
      a <> DensityEstimation.self_log_den_err ->
      a <> DensityEstimation.self_dc ->
      s' a = s a.
Proof.
  intros ext s s' ks Hk Hrun a H1 H2 H3.
  assert (Hstore : forall ld lde dc,
            DensityEstimation.store_density s ld lde dc a = s a).
  { intros ld lde dc. destruct a; try reflexivity; congruence. }
  destruct Hrun as [H|[H|[H|(F & HF & H)]]].
  - unfold DensityEstimation.compute_density_kstarNN in H.
    rewrite (ensure_kstar_ready s ks Hk) in H. cbn [bind] in H.
    run_binds H. injection H as <-. apply Hstore.
  - unfold DensityEstimation.compute_density_PAk in H.
    rewrite (ensure_kstar_ready s ks Hk) in H. cbn [bind] in H.
    run_binds H. injection H as <-. apply Hstore.
  - unfold DensityEstimation.compute_density_kpeaks in H.
    rewrite (ensure_kstar_ready s ks Hk) in H. cbn [bind] in H.
    run_binds H. injection H as <-. apply Hstore.
  - unfold DensityEstimation.compute_density_dF_PAk,
      DensityEstimation.ensure_Fij_array in H.
    rewrite (ensure_kstar_ready s ks Hk) in H. cbn [bind] in H.
    rewrite (attr_is_none_value s DensityEstimation.self_Fij_array _ HF)
      in H by discriminate.
    cbn [bind DensityEstimation.is_none] in H.
    run_binds H. injection H as <-. apply Hstore.
Qed.

Lemma loop_estimators_frame_witness :
  exists s',
    DensityEstimation.compute_density_kstarNN
      (ext := DensityEstimation.example_externals)
      DensityEstimation.example_session_k2 = Ok s' /\
    s' DensityEstimation.self_distances
    = DensityEstimation.VArr2 DensityEstimation.example_distances.
Proof.
  assert (E : DensityEstimation.compute_density_kstarNN
                (ext := DensityEstimation.example_externals)
                DensityEstimation.example_session_k2
              = Ok (DensityEstimation.store_density
                      DensityEstimation.example_session_k2
                      (DensityEstimation.normalise 3
                         (map (DensityEstimation.kstarNN_estimate
                                 (ext := DensityEstimation.example_externals)
                                 2 DensityEstimation.example_distances
                                 DensityEstimation.example_kstar)
                              (seq 0 3)))
                      (map (fun i =>
                              (1 / sqrt (IZR (nth i
                                   DensityEstimation.example_kstar 0%Z)))%R)
                           (seq 0 3))
                      (map (fun i =>
                              DensityEstimation.r_k
                                DensityEstimation.example_distances i
                                (nth i DensityEstimation.example_kstar 0%Z))
                           (seq 0 3)))).
  { apply (kstarNN_run DensityEstimation.example_session_k2 3 2
             DensityEstimation.example_distances
             DensityEstimation.example_kstar).
    - repeat split; reflexivity.
    - reflexivity.
    - split; [reflexivity|]. intros [|[|[|i]]] Hi; simpl; lia. }
  eexists. split; [exact E|].
  rewrite (loop_estimators_frame DensityEstimation.example_externals
             DensityEstimation.example_session_k2 _
             DensityEstimation.example_kstar eq_refl
             (or_introl E) DensityEstimation.self_distances);
    [reflexivity|discriminate|discriminate|discriminate].
Defined.

(** X26: once [Fij_array] is there, [compute_density_gCorr] writes
    [log_den], [A], [B] and [log_den_err] and nothing else (in
    particular never [dc]); [compute_density_dF_PAk_gCorr] writes those
    four and [dc]. *)
Theorem solver_estimators_frame :
  forall (ext : DensityEstimation.Externals)
         (s s' : DensityEstimation.session) (F : list R)
         (use_variance : bool) (alpha : R),
    s DensityEstimation.self_Fij_array = DensityEstimation.VArr F ->
    DensityEstimation.compute_density_gCorr use_variance s = Ok s' \/
    DensityEstimation.compute_density_dF_PAk_gCorr use_variance alpha s
    = Ok s' ->
    (forall a,
       a <> DensityEstimation.self_log_den ->
       a <> DensityEstimation.self_log_den_err ->
       a <> DensityEstimation.self_A ->
       a <> DensityEstimation.self_B ->
       a <> DensityEstimation.self_dc ->
       s' a = s a) /\
    (DensityEstimation.compute_density_gCorr use_variance s = Ok s' ->
     s' DensityEstimation.self_dc = s DensityEstimation.self_dc).
Proof.
  intros ext s s' F uv alpha HF Hrun.
  assert (Hens : DensityEstimation.ensure_Fij_array s = Ok s).
  { unfold DensityEstimation.ensure_Fij_array.
    rewrite (attr_is_none_value s DensityEstimation.self_Fij_array _ HF)
      by discriminate.
    reflexivity. }
  split.
  - intros a H1 H2 H3 H4 H5.
    destruct Hrun as [H|H].
    + unfold DensityEstimation.compute_density_gCorr in H.
      rewrite Hens in H. cbn [bind] in H.
      run_binds H. injection H as <-.
      destruct a; try reflexivity; congruence.
    + unfold DensityEstimation.compute_density_dF_PAk_gCorr in H.
      rewrite Hens in H. cbn [bind] in H.
      run_binds H. injection H as <-.
      destruct a; try reflexivity; congruence.
  - intros H.
    unfold DensityEstimation.compute_density_gCorr in H.
    rewrite Hens in H. cbn [bind] in H.
    run_binds H. injection H as <-. reflexivity.
Qed.

Lemma solver_estimators_frame_witness :
  exists s',
    DensityEstimation.compute_density_gCorr
      (ext := DensityEstimation.example_externals) true
      DensityEstimation.example_graph_Fij = Ok s' /\
    s' DensityEstimation.self_kstar
    = DensityEstimation.VIntArr DensityEstimation.example_kstar.
Proof.
  eexists. split; [reflexivity|].
  transitivity (DensityEstimation.example_graph_Fij
                  DensityEstimation.self_kstar); [|reflexivity].
  apply (proj1 (solver_estimators_frame
                  DensityEstimation.example_externals
                  DensityEstimation.example_graph_Fij _
                  DensityEstimation.example_Fij true 1%R eq_refl
                  (or_introl eq_refl)));
    discriminate.
Defined.

(** ** [return_grads] *)

Section ReturnGrads.

Import DensityEstimation.

Context {ext : Externals}.

Local Open Scope R_scope.

Variable s : session.
Variable n d : nat.
Variable Xs : list (list R).
Variable DI : list (list Z).
Variable ks : list Z.

Hypothesis HX : s self_X = VArr2 Xs.
Hypothesis HlX : length Xs = n.
Hypothesis Hrows : forall i, (i < n)%nat -> length (nth i Xs []) = d.
Hypothesis HDI : s self_dist_indices = VIntArr2 DI.
Hypothesis HlDI : length DI = n.
Hypothesis Hnb :
  forall i j, (i < n)%nat -> (0 <= j < nth i ks 0%Z)%Z ->
    (j + 1 < Z.of_nat (length (nth i DI [])))%Z /\
    (0 <= nth (Z.to_nat (j + 1)) (nth i DI []) 0%Z < Z.of_nat n)%Z.

Lemma length_displacement (i : nat) (j : Z) :
  (i < n)%nat -> (0 <= j < nth i ks 0%Z)%Z ->
  length (DensityMore.displacement Xs DI i (j + 1)) = d.
Proof.
  intros Hi Hj. destruct (Hnb i j Hi Hj) as [_ Hjj].
  unfold DensityMore.displacement.
  rewrite length_zip_with, !Hrows by lia. lia.
Qed.

Lemma return_grads_inner_run (i : nat) (l : list Z) :
  (i < n)%nat ->
  (forall j, In j l -> (0 <= j < nth i ks 0%Z)%Z) ->
  forall (mv : list R) (last : option (list R)),
    length mv = d ->
    for_each l (DensityMore.return_grads_inner s i (nth i Xs []))
             (mv, last)
    = Ok (fold_left
            (fun acc j =>
               zip_with Rplus acc (DensityMore.displacement Xs DI i (j + 1)))
            l mv,
          fold_left
            (fun _ j => Some (DensityMore.displacement Xs DI i (j + 1)))
            l last) /\
    length (fold_left
              (fun acc j =>
                 zip_with Rplus acc
                          (DensityMore.displacement Xs DI i (j + 1)))
              l mv) = d.
Proof.
  intros Hi. induction l as [|j l IH]; intros Hl mv last Hmv.
  - split; [reflexivity|exact Hmv].
  - assert (Hj : (0 <= j < nth i ks 0%Z)%Z) by (apply Hl; now left).
    destruct (Hnb i j Hi Hj) as [Hj1 Hj2].
    pose proof (length_displacement i j Hi Hj) as Hld.
    cbn [for_each fold_left].
    unfold DensityMore.return_grads_inner at 1.
    rewrite (get_arr2_ok s self_X Xs HX). cbn [bind].
    rewrite (get_int_arr2_ok s self_dist_indices DI HDI). cbn [bind].
    rewrite (np_index2_nat DI i (j + 1) 0%Z) by lia. cbn [bind].
    rewrite (np_index_Z Xs _ []) by lia. cbn [bind].
    rewrite ew2_ok by (rewrite !Hrows by lia; reflexivity).
    cbn [bind].
    fold (DensityMore.displacement Xs DI i (j + 1)).
    rewrite ew2_ok by lia. cbn [bind].
    apply IH.
    + intros j' Hj'. apply Hl. now right.
    + rewrite length_zip_with. lia.
Qed.

Lemma last_of_range (i : nat) (k : Z) (last : option (list R)) :
  (1 <= k)%Z ->
  fold_left (fun _ j => Some (DensityMore.displacement Xs DI i (j + 1)))
            (py_range 0 k) last
  = Some (DensityMore.displacement Xs DI i k).
Proof.
  intros Hk. unfold py_range.
  replace (Z.to_nat (k - 0)) with (S (Z.to_nat (k - 1))) by lia.
  rewrite seq_S, map_app, fold_left_app. cbn [map fold_left].
  do 2 f_equal. lia.
Qed.

Lemma return_grads_body_run (id : R) (i : nat) (G : list (list R))
  (last : option (list R)) :
  s self_kstar = VIntArr ks ->
  length ks = n ->
  (1 <= nth i ks 0%Z)%Z ->
  s self_intrinsic_dim = VFloat id ->
  (i < n)%nat ->
  length G = n ->
  DensityMore.return_grads_body s d i (G, last)
  = Ok (set_nth G i
          (map (fun m =>
                  (id + 2)
                  / DensityMore.norm
                      (DensityMore.displacement Xs DI i (nth i ks 0%Z)) ^ 2
                  * (m / IZR (nth i ks 0%Z)))
               (DensityMore.displacement_sum Xs DI d i (nth i ks 0%Z))),
        Some (DensityMore.displacement Xs DI i (nth i ks 0%Z))).
Proof.
  intros Hk Hlk Hk1 Hid Hi HG.
  unfold DensityMore.return_grads_body.
  rewrite (get_arr2_ok s self_X Xs HX). cbn [bind].
  rewrite (np_index_nat Xs i []) by lia. cbn [bind].
  rewrite (get_int_arr_ok s self_kstar ks Hk). cbn [bind].
  rewrite (np_index_nat ks i 0%Z) by lia. cbn [bind].
  destruct (return_grads_inner_run i (py_range 0 (nth i ks 0%Z)) Hi)
    with (mv := zeros d) (last := last) as [E Hlen].
  - intros j Hj. now apply in_py_range in Hj.
  - apply repeat_length.
  - rewrite E. cbn [bind].
    rewrite last_of_range by assumption. cbn [bind].
    rewrite (get_number_float s self_intrinsic_dim id Hid). cbn [bind].
    rewrite !length_map, Hlen, Nat.eqb_refl. cbn [bind].
    rewrite np_setitem_ok by lia. cbn [bind].
    rewrite map_map. reflexivity.
Qed.

End ReturnGrads.

(** X27: [return_grads] returns, for every point [i], the vector
    [(d + 2) / r^2 * (1/k) sum_j (x_{n_j} - x_i)], the sum over the first
    [k = k*(i)] neighbours [n_j] and [r] the norm of the displacement to
    the last of them, [d] the intrinsic dimension; it returns the array
    without storing it: the session is left as it was. *)
Theorem return_grads_formula :
  forall (ext : DensityEstimation.Externals)
         (s : DensityEstimation.session) (n d : nat) (id : R)
         (Xs : list (list R)) (DI : list (list Z)) (ks : list Z),
    s DensityEstimation.self_X = DensityEstimation.VArr2 Xs ->
    length Xs = n ->
    (forall i, (i < n)%nat -> length (nth i Xs []) = d) ->
    s DensityEstimation.self_kstar = DensityEstimation.VIntArr ks ->
    length ks = n ->
    (forall i, (i < n)%nat -> (1 <= nth i ks 0%Z)%Z) ->
    s DensityEstimation.self_dist_indices
    = DensityEstimation.VIntArr2 DI ->
    length DI = n ->
    (forall i j, (i < n)%nat -> (0 <= j < nth i ks 0%Z)%Z ->
       (j + 1 < Z.of_nat (length (nth i DI [])))%Z /\
       (0 <= nth (Z.to_nat (j + 1)) (nth i DI []) 0%Z < Z.of_nat n)%Z) ->
    s DensityEstimation.self_intrinsic_dim = DensityEstimation.VFloat id ->
    exists G,
      DensityMore.return_grads s = Ok (s, G) /\
      length G = n /\
      forall i, (i < n)%nat ->
        nth i G []
        = map (fun m =>
                 ((id + 2)
                  / DensityMore.norm
                      (DensityMore.displacement Xs DI i (nth i ks 0%Z)) ^ 2
                  * (m / IZR (nth i ks 0%Z)))%R)
              (DensityMore.displacement_sum Xs DI d i (nth i ks 0%Z)).
Proof.
  intros ext s n d id Xs DI ks HX HlX Hrows Hk Hlk Hk1 HDI HlDI Hnb Hid.
  unfold DensityMore.return_grads.
  rewrite (attr_is_none_value s DensityEstimation.self_X _ HX)
    by discriminate.
  cbn [bind DensityEstimation.is_none negb assert].
  rewrite (ensure_kstar_ready s ks Hk). cbn [bind].
  rewrite (get_arr2_ok s DensityEstimation.self_X Xs HX). cbn [bind].
  rewrite HlX.
  assert (Hd : (0 < n)%nat -> length (hd [] Xs) = d).
  { intros Hn. destruct Xs as [|r rs]; [simpl in HlX; lia|].
    apply (Hrows 0%nat Hn). }
  destruct (for_range_inv
              (fun m (st : list (list R) * option (list R)) =>
                 length (fst st) = n /\
                 forall i, (i < m)%nat ->
                   nth i (fst st) []
                   = map (fun m0 =>
                            ((id + 2)
                             / DensityMore.norm
                                 (DensityMore.displacement Xs DI i
                                    (nth i ks 0%Z)) ^ 2
                             * (m0 / IZR (nth i ks 0%Z)))%R)
                         (DensityMore.displacement_sum Xs DI d i
                            (nth i ks 0%Z)))
              (DensityMore.return_grads_body s (length (hd [] Xs))) n
              (repeat (DensityEstimation.zeros (length (hd [] Xs))) n,
               None))
    as ([G last] & E & HG & Hrow).
  - cbn [fst]. split; [apply repeat_length|]. intros i Hi. lia.
  - intros i [G last] Hi [HG Hrow]. cbn [fst] in HG, Hrow.
    rewrite (Hd ltac:(lia)).
    rewrite (return_grads_body_run s n d Xs DI ks HX HlX Hrows HDI HlDI
               Hnb id i G last Hk Hlk (Hk1 i Hi) Hid Hi HG).
    eexists. split; [reflexivity|]. cbn [fst].
    split; [now rewrite length_set_nth|].
    intros i' Hi'. destruct (Nat.eq_dec i' i) as [->|Hne].
    + apply nth_set_nth_eq. lia.
    + rewrite nth_set_nth_neq by congruence. apply Hrow. lia.
  - rewrite E. cbn [bind]. cbn [fst] in HG, Hrow.
    exists G. split; [reflexivity|]. split; assumption.
Qed.

Lemma return_grads_formula_witness :
  exists G,
    DensityMore.return_grads
      (ext := DensityEstimation.example_externals)
      DensityEstimation.example_session_k2
    = Ok (DensityEstimation.example_session_k2, G) /\
    length G = 3%nat.
Proof.
  destruct (return_grads_formula DensityEstimation.example_externals
              DensityEstimation.example_session_k2 3 2 2
              [[0; 0]; [1; 0]; [3; 0]]%R
              [[0; 1; 2]; [1; 0; 2]; [2; 1; 0]]%Z
              DensityEstimation.example_kstar)
    as (G & E & HG & _).
  - reflexivity.
  - reflexivity.
  - intros [|[|[|i]]] Hi; simpl; lia.
  - reflexivity.
  - reflexivity.
  - intros [|[|[|i]]] Hi; simpl; lia.
  - reflexivity.
  - reflexivity.
  - intros [|[|[|i]]] j Hi Hj; simpl in Hj; try lia;
      assert (j = 0 \/ j = 1)%Z as [-> | ->] by lia; simpl; lia.
  - reflexivity.
  - exists G. split; [exact E|exact HG].
Defined.

(** X28: when the first point has an empty neighbourhood ([kstar[0] = 0])
    the inner loop of [return_grads] never binds [xjmxi], and the method
    stops at [np.linalg.norm(xjmxi)] with the [NameError] of an unbound
    local (an [UnboundLocalError]). *)
Theorem return_grads_empty_neighbourhood :
  forall (ext : DensityEstimation.Externals)
         (s : DensityEstimation.session) (x0 : list R)
         (Xs : list (list R)) (ks : list Z),
    s DensityEstimation.self_X = DensityEstimation.VArr2 (x0 :: Xs) ->
    s DensityEstimation.self_kstar = DensityEstimation.VIntArr (0%Z :: ks) ->
    DensityMore.return_grads s = Raise (NameError "xjmxi").
Proof.
  intros ext s x0 Xs ks HX Hk.
  unfold DensityMore.return_grads.
  rewrite (attr_is_none_value s DensityEstimation.self_X _ HX)
    by discriminate.
  cbn [bind DensityEstimation.is_none negb assert].
  rewrite (ensure_kstar_ready s _ Hk). cbn [bind].
  rewrite (get_arr2_ok s DensityEstimation.self_X _ HX). cbn [bind].
  unfold for_range. cbn [length seq for_each].
  unfold DensityMore.return_grads_body at 1.
  rewrite (get_arr2_ok s DensityEstimation.self_X _ HX). cbn [bind].
  rewrite (np_index_nat (x0 :: Xs) 0 []) by (simpl; lia). cbn [bind].
  rewrite (get_int_arr_ok s DensityEstimation.self_kstar _ Hk).
  cbn [bind].
  rewrite (np_index_nat (0%Z :: ks) 0 0%Z) by (simpl; lia).
  cbn [bind nth]. reflexivity.
Qed.

Lemma return_grads_empty_neighbourhood_witness :
  DensityMore.return_grads
    (ext := DensityEstimation.example_externals)
    (DensityEstimation.setattr DensityEstimation.example_session
       DensityEstimation.self_kstar
       (DensityEstimation.VIntArr [0; 2; 2]%Z))
  = Raise (NameError "xjmxi").
Proof.
  apply (return_grads_empty_neighbourhood
           DensityEstimation.example_externals _ [0; 0]%R
           [[1; 0]; [3; 0]]%R [2; 2]%Z);
    reflexivity.
Defined.

(** ** [compute_deltaFs_grad] without coordinates *)

Lemma for_each_map {I J St : Type} (f : I -> J)
  (body : J -> St -> result St) (l : list I) (st : St) :
  for_each (map f l) body st = for_each l (fun x => body (f x)) st.
Proof.
  revert st. induction l as [|x l IH]; intros st; simpl; [reflexivity|].
  destruct (body (f x) st); simpl; [apply IH|reflexivity].
Qed.

Lemma first_index_ok (row : list Z) (x : Z) :
  In x row ->
  forall off,
    DensityMore.first_index row x off
    = Ok (off + DensityMore.index_in row x)%nat /\
    (DensityMore.index_in row x < length row)%nat.
Proof.
  induction row as [|y row IH]; intros Hin off; [contradiction|].
  cbn [DensityMore.first_index DensityMore.index_in length].
  destruct (Z.eqb_spec y x) as [->|Hne].
  - split; [now rewrite Nat.add_0_r|lia].
  - destruct Hin as [Hin|Hin]; [congruence|].
    destruct (IH Hin (S off)) as [E Hlt]. rewrite E.
    split; [f_equal; lia|lia].
Qed.

Section DeltaFsGrad.

Import DensityEstimation.

Context {ext : Externals} {gext : DensityMore.GradExternals}.

Local Open Scope R_scope.

Variable s : session.
Variable n : nat.
Variable id : R.
Variable D : list (list R).
Variable DI : list (list Z).
Variable ks : list Z.

Hypothesis HD : s self_distances = VArr2 D.
Hypothesis HDI : s self_dist_indices = VIntArr2 DI.
Hypothesis Hk : s self_kstar = VIntArr ks.
Hypothesis Hid : s self_intrinsic_dim = VFloat id.
Hypothesis Hfit : DensityMore.tables_fit n D DI ks.

(** The entries written for the neighbour of rank [1 + t] of point
    [i]. *)
Let Fij_at (i t : nat) : R :=
  (id + 2) / r_k D i (nth i ks 0%Z) ^ 2
  * DensityMore.mean_over (nth i ks 0%Z)
      (DensityMore.Fijl D DI i (1 + Z.of_nat t)).

Let Var_at (i t : nat) : R :=
  ((id + 2) / r_k D i (nth i ks 0%Z) ^ 2) ^ 2
  * DensityMore.mean_over (nth i ks 0%Z)
      (fun l => DensityMore.Fijl D DI i (1 + Z.of_nat t) l ^ 2)
  - Fij_at i t ^ 2.

Lemma deltaF_terms_run (i : nat) (j : Z) (l : list Z) :
  (i < n)%nat -> (1 <= j <= nth i ks 0%Z)%Z ->
  (forall x, In x l -> (1 <= x <= nth i ks 0%Z)%Z) ->
  forall a b : R,
    for_each l
      (DensityMore.deltaF_term s i (DensityMore.neighbour DI i j)
         (r_k D i j))
      (a, b)
    = Ok (fold_left (fun acc x => acc + DensityMore.Fijl D DI i j x) l a,
          fold_left (fun acc x => acc + DensityMore.Fijl D DI i j x ^ 2)
                    l b).
Proof.
  intros Hi Hj.
  destruct Hfit as (HlD & HlDI & Hlk & Hshape & Hrows).
  destruct (Hrows i Hi) as [Hki Hnbs].
  destruct (Hnbs j Hj) as [Hjn Hmut].
  induction l as [|x l IH]; intros Hl a b; [reflexivity|].
  assert (Hx : (1 <= x <= nth i ks 0%Z)%Z) by (apply Hl; now left).
  pose proof (Hmut x Hx) as Hin.
  destruct (first_index_ok _ _ Hin 0%nat) as [Efi Hlt].
  cbn [for_each fold_left].
  unfold DensityMore.deltaF_term at 1.
  rewrite (get_arr2_ok s self_distances D HD). cbn [bind].
  rewrite (np_index2_nat D i x 0) by lia. cbn [bind].
  rewrite (get_int_arr2_ok s self_dist_indices DI HDI). cbn [bind].
  rewrite (np_index2_nat DI i x 0%Z)
    by (try lia; rewrite <- Hshape by lia; lia).
  cbn [bind].
  rewrite (np_index_Z DI (DensityMore.neighbour DI i j) []) by lia.
  cbn [bind].
  fold (DensityMore.neighbour DI i x).
  rewrite Efi. cbn [bind Nat.add].
  unfold np_index2.
  rewrite (np_index_Z D (DensityMore.neighbour DI i j) []) by lia.
  cbn [bind].
  rewrite (np_index_nat _ _ 0)
    by (rewrite Hshape by lia; exact Hlt).
  cbn [bind].
  apply IH. intros y Hy. apply Hl. now right.
Qed.

Lemma deltaF_pair_run (i t : nat) (F V : list R) :
  (i < n)%nat ->
  (t < Z.to_nat (nth i ks 0%Z))%nat ->
  length F = Z.to_nat (nth i ks 0%Z) ->
  length V = Z.to_nat (nth i ks 0%Z) ->
  DensityMore.deltaF_pair s i (nth i ks 0%Z) (r_k D i (nth i ks 0%Z))
    (1 + Z.of_nat t) (F, V)
  = Ok (set_nth F t (Fij_at i t), set_nth V t (Var_at i t)).
Proof.
  intros Hi Ht HF HV.
  pose proof Hfit as (HlD & HlDI & Hlk & Hshape & Hrows).
  destruct (Hrows i Hi) as [Hki Hnbs].
  assert (Hj : (1 <= 1 + Z.of_nat t <= nth i ks 0%Z)%Z) by lia.
  unfold DensityMore.deltaF_pair.
  rewrite (get_arr2_ok s self_distances D HD). cbn [bind].
  rewrite (np_index2_nat D i (1 + Z.of_nat t) 0) by lia. cbn [bind].
  rewrite (get_int_arr2_ok s self_dist_indices DI HDI). cbn [bind].
  rewrite (np_index2_nat DI i (1 + Z.of_nat t) 0%Z)
    by (try lia; rewrite <- Hshape by lia; lia).
  cbn [bind].
  fold (DensityMore.neighbour DI i (1 + Z.of_nat t)).
  fold (r_k D i (1 + Z.of_nat t)).
  rewrite (deltaF_terms_run i (1 + Z.of_nat t)
             (py_range 1 (nth i ks 0%Z + 1)) Hi Hj)
    by (intros x Hx; apply in_py_range in Hx; lia).
  cbn [bind].
  rewrite (get_number_float s self_intrinsic_dim id Hid). cbn [bind].
  replace (Z.to_nat (1 + Z.of_nat t - 1)) with t by lia.
  rewrite np_setitem_ok by lia. cbn [bind].
  rewrite np_setitem_ok by lia. cbn [bind].
  reflexivity.
Qed.

Lemma deltaF_point_run (i : nat) (FL FVL : list (list R)) :
  (i < n)%nat ->
  DensityMore.deltaF_point s i (FL, FVL)
  = Ok (FL ++ [map (Fij_at i) (seq 0 (Z.to_nat (nth i ks 0%Z)))],
        FVL ++ [map (Var_at i) (seq 0 (Z.to_nat (nth i ks 0%Z)))]).
Proof.
  intros Hi.
  pose proof Hfit as (HlD & HlDI & Hlk & Hshape & Hrows).
  destruct (Hrows i Hi) as [Hki Hnbs].
  unfold DensityMore.deltaF_point.
  rewrite (get_int_arr_ok s self_kstar ks Hk). cbn [bind].
  rewrite (np_index_nat ks i 0%Z) by lia. cbn [bind].
  rewrite (get_arr2_ok s self_distances D HD). cbn [bind].
  rewrite (np_index2_nat D i _ 0) by lia. cbn [bind].
  fold (r_k D i (nth i ks 0%Z)).
  destruct (Z.ltb_spec (nth i ks 0%Z) 0); [lia|]. cbn [bind].
  unfold py_range.
  replace (Z.to_nat (nth i ks 0%Z + 1 - 1))
    with (Z.to_nat (nth i ks 0%Z)) by lia.
  rewrite for_each_map.
  destruct (for_each_seq_inv
              (fun t (st : list R * list R) =>
                 filled (Fij_at i) (Z.to_nat (nth i ks 0%Z)) t (fst st) /\
                 filled (Var_at i) (Z.to_nat (nth i ks 0%Z)) t (snd st))
              (fun t => DensityMore.deltaF_pair s i (nth i ks 0%Z)
                          (r_k D i (nth i ks 0%Z)) (1 + Z.of_nat t))
              (Z.to_nat (nth i ks 0%Z)) 0%nat
              (zeros (Z.to_nat (nth i ks 0%Z)),
               zeros (Z.to_nat (nth i ks 0%Z))))
    as ([F V] & E & HF & HV).
  - cbn [fst snd]. unfold zeros.
    repeat split; try apply repeat_length; intros j Hj; lia.
  - intros t [F V] Ht [[LF FF] [LV FV]]. cbn [fst snd] in *.
    rewrite (deltaF_pair_run i t F V Hi) by (try assumption; lia).
    eexists. split; [reflexivity|]. cbn [fst snd]. split.
    + apply (filled_step (Fij_at i) _ t F); [lia|now split].
    + apply (filled_step (Var_at i) _ t V); [lia|now split].
  - rewrite E. cbn [bind fst snd Nat.add] in *.
    now rewrite (filled_all _ _ _ HF), (filled_all _ _ _ HV).
Qed.

Lemma deltaFs_grad_run (extgrads extgrads_covmat : value) :
  s self_X = VNone ->
  s self_N = VInt (Z.of_nat n) ->
  DensityMore.compute_deltaFs_grad extgrads extgrads_covmat s
  = Ok (setattr
          (setattr s self_Fij_list
             (VArr2 (map (fun i => map (Fij_at i)
                                       (seq 0 (Z.to_nat (nth i ks 0%Z))))
                         (seq 0 n))))
          self_Fij_var_list
          (VArr2 (map (fun i => map (Var_at i)
                                    (seq 0 (Z.to_nat (nth i ks 0%Z))))
                      (seq 0 n)))).
Proof.
  intros HX HN.
  unfold DensityMore.compute_deltaFs_grad.
  rewrite (ensure_kstar_ready s ks Hk). cbn [bind].
  rewrite (attr_is_none_value s self_X VNone HX) by discriminate.
  cbn [bind is_none negb].
  rewrite (get_size_ok s self_N n HN). cbn [bind].
  destruct (for_range_inv
              (fun m (st : list (list R) * list (list R)) =>
                 fst st = map (fun i => map (Fij_at i)
                                 (seq 0 (Z.to_nat (nth i ks 0%Z))))
                              (seq 0 m) /\
                 snd st = map (fun i => map (Var_at i)
                                 (seq 0 (Z.to_nat (nth i ks 0%Z))))
                              (seq 0 m))
              (DensityMore.deltaF_point s) n ([], []))
    as ([FL FVL] & E & HF & HV).
  - split; reflexivity.
  - intros i [FL FVL] Hi [HF HV]. cbn [fst snd] in HF, HV.
    rewrite (deltaF_point_run i FL FVL Hi).
    eexists. split; [reflexivity|]. cbn [fst snd].
    rewrite seq_S, !map_app, HF, HV. split; reflexivity.
  - rewrite E. cbn [bind fst snd] in *. now rewrite HF, HV.
Qed.

End DeltaFsGrad.

Lemma nth_map_seq_rows {A : Type} (f : nat -> A) (n i : nat) (d : A) :
  (i < n)%nat -> nth i (map f (seq 0 n)) d = f i.
Proof.
  intros H. rewrite (nth_map_in f (seq 0 n) i 0%nat d)
    by (rewrite length_seq; lia).
  now rewrite seq_nth by lia.
Qed.

Lemma example_tables_fit :
  DensityMore.tables_fit 3 DensityEstimation.example_distances
    DensityMore.example_neighbours DensityEstimation.example_kstar.
Proof.
  unfold DensityMore.tables_fit, DensityMore.neighbour,
    DensityMore.example_neighbours, DensityEstimation.example_kstar,
    DensityEstimation.example_distances.
  split; [reflexivity|]. split; [reflexivity|]. split; [reflexivity|].
  split.
  - intros [|[|[|r]]] Hr; simpl; lia.
  - intros i Hi. destruct i as [|[|[|i]]]; try lia;
      (split; [simpl; lia|]);
      intros j Hj; simpl in Hj;
      assert (j = 1 \/ j = 2)%Z as [-> | ->] by lia;
      (split; [simpl; lia|]);
      intros l Hl; simpl in Hl;
      assert (l = 1 \/ l = 2)%Z as [-> | ->] by lia;
      simpl; intuition lia.
Qed.

(** X29: without coordinates, [compute_deltaFs_grad] stores for every
    point [i] two arrays of [k = k*(i)] entries: for the neighbour of rank
    [j], [Fij = c * mean_l Fijl] and [Var_ij = c^2 * mean_l Fijl^2 -
    Fij^2], with [c = (d + 2) / r_k^2] and [Fijl = (r_ij^2 + r_il^2 -
    r_jl^2) / 2], the means over the [k] neighbours [l]; external
    gradients, if given, are not used. *)
Theorem deltaFs_grad_formula :
  forall (ext : DensityEstimation.Externals)
         (gext : DensityMore.GradExternals)
         (s : DensityEstimation.session) (n : nat) (id : R)
         (D : list (list R)) (DI : list (list Z)) (ks : list Z)
         (extgrads extgrads_covmat : DensityEstimation.value),
    s DensityEstimation.self_X = DensityEstimation.VNone ->
    s DensityEstimation.self_N = DensityEstimation.VInt (Z.of_nat n) ->
    s DensityEstimation.self_distances = DensityEstimation.VArr2 D ->
    s DensityEstimation.self_dist_indices
    = DensityEstimation.VIntArr2 DI ->
    s DensityEstimation.self_kstar = DensityEstimation.VIntArr ks ->
    s DensityEstimation.self_intrinsic_dim = DensityEstimation.VFloat id ->
    DensityMore.tables_fit n D DI ks ->
    exists s' FL FV,
      DensityMore.compute_deltaFs_grad extgrads extgrads_covmat s = Ok s' /\
      s' DensityEstimation.self_Fij_list = DensityEstimation.VArr2 FL /\
      s' DensityEstimation.self_Fij_var_list
      = DensityEstimation.VArr2 FV /\
      length FL = n /\ length FV = n /\
      forall i, (i < n)%nat ->
        length (nth i FL []) = Z.to_nat (nth i ks 0%Z) /\
        length (nth i FV []) = Z.to_nat (nth i ks 0%Z) /\
        forall j, (1 <= j <= nth i ks 0%Z)%Z ->
          (nth (Z.to_nat (j - 1)) (nth i FL []) 0
           = (id + 2) / DensityEstimation.r_k D i (nth i ks 0%Z) ^ 2
             * DensityMore.mean_over (nth i ks 0%Z)
                 (DensityMore.Fijl D DI i j) /\
           nth (Z.to_nat (j - 1)) (nth i FV []) 0
           = ((id + 2) / DensityEstimation.r_k D i (nth i ks 0%Z) ^ 2) ^ 2
             * DensityMore.mean_over (nth i ks 0%Z)
                 (fun l => DensityMore.Fijl D DI i j l ^ 2)
             - ((id + 2) / DensityEstimation.r_k D i (nth i ks 0%Z) ^ 2
                * DensityMore.mean_over (nth i ks 0%Z)
                    (DensityMore.Fijl D DI i j)) ^ 2)%R.
Proof.
  intros ext gext s n id D DI ks eg egc HX HN HD HDI Hk Hid Hfit.
  do 3 eexists.
  split; [apply (deltaFs_grad_run s n id D DI ks HD HDI Hk Hid Hfit eg egc
                   HX HN)|].
  split; [reflexivity|]. split; [reflexivity|].
  split; [now rewrite length_map, length_seq|].
  split; [now rewrite length_map, length_seq|].
  intros i Hi. rewrite !nth_map_seq_rows by assumption.
  split; [now rewrite length_map, length_seq|].
  split; [now rewrite length_map, length_seq|].
  intros j Hj.
  rewrite !nth_map_seq by lia.
  replace (1 + Z.of_nat (Z.to_nat (j - 1)))%Z with j by lia.
  split; reflexivity.
Qed.

Lemma deltaFs_grad_formula_witness :
  exists s' FL,
    DensityMore.compute_deltaFs_grad
      (ext := DensityEstimation.example_externals)
      (gext := DensityMore.example_grad_externals)
      DensityEstimation.VNone DensityEstimation.VNone
      DensityMore.example_session_distances_only = Ok s' /\
    s' DensityEstimation.self_Fij_list = DensityEstimation.VArr2 FL /\
    length FL = 3%nat.
Proof.
  destruct (deltaFs_grad_formula DensityEstimation.example_externals
              DensityMore.example_grad_externals
              DensityMore.example_session_distances_only 3 2
              DensityEstimation.example_distances
              DensityMore.example_neighbours
              DensityEstimation.example_kstar
              DensityEstimation.VNone DensityEstimation.VNone
              eq_refl eq_refl eq_refl eq_refl eq_refl eq_refl
              example_tables_fit)
    as (s' & FL & FV & E & HF & _ & HL & _).
  exists s', FL. repeat split; assumption.
Defined.





